(* ===== verification/_CoqProject ===== *)
-Q . S2P
Prelude.v
Tracker.v
Codec.v
Json.v
Fs.v
Schedule.v
Messages.v
Clock.v
Protocol.v
Derive.v
Db.v
Queue.v
Table.v
Store.v
Events.v
Recorder.v
Closing.v
Config.v
Client.v
Discovery.v
Agent.v
Loops.v
Delivery.v
Enforcement.v
Restart.v
Ipc.v
Access.v
Notifier.v
Warnings.v
Wire.v
Toast.v
Logfile.v
Platform.v
Service.v
Main.v
Network.v
Coherence.v
Turns.v
Stop.v
Runs.v
Fairness.v
Device.v
Desk.v
TestsUsage.v
TestsAgent.v
TestsWire.v
TestsNotifier.v
