(* ===== verification/Prelude.v ===== *)
(** * TimeLord: a verified model of the Windows agent and notifier

    TimeLord records when a computer is in use and enforces off times.  An
    agent (a Windows service, [agent/]) turns session and power notifications
    into usage sessions in a local SQLite table, reports events to a controller
    through a persistent queue, and suspends or shuts the machine down inside
    the off windows of a schedule it caches.  A notifier ([notifier/]) in the
    user's session asks the agent over a pipe ([ipc/]) what is coming and shows
    warnings and messages.  This library models the Rust program: what is state
    in the program is a record here, each operation is a function on it, and
    the concurrent parts are step relations or sequences of operations.

    ** Files, in dependency order

    - [Prelude]: instants, durations, wrapped integers, the [result] monad,
      sorting and [min_by], list and string lemmas and the hint database.
    - [Tracker] ([agent/src/tracker.rs]): [UsageTracker]; sessions, transitions.
    - [Codec]: interfaces to text encodings (RFC 3339, UUID, serde) with laws,
      and concrete instances for the witnesses.  [Json]: JSON values, the
      interface to their text, and an instance of it that prints and parses.
    - [Fs]: a file system whose writes can be torn by a crash.
    - [Schedule], [Messages] ([schedule.rs], [messages.rs]): the two caches.
    - [Clock] ([clock.rs]): NTP packets, offset, median, [TrustedClock].
    - [Protocol] ([protocol.rs]): wire types and enum names.  [Derive]: what
      serde derives, as combinators; [Wire] applies them to every type that is
      written or read as JSON, and has the lines of the pipe as bytes.
    - [Db]: SQL statements as a state-and-error monad with failing statements,
      and the tactics that run them; the order SQL leaves open is the class
      [SqlEngine].
    - [Queue], [Store] ([queue.rs], [store.rs]): the two tables, and their
      refinement to lists of abstract entries and sessions.  [Table]: what any
      statement may do to the event table, and its well-formedness.
    - [Events] ([events.rs]), [Recorder] ([lib.rs]): [UsageRecorder], which ties
      tracker, session table, queue and shared snapshot together.  [Closing]:
      which rows are left open.
    - [Config], [Client], [Discovery] ([config.rs], [controller_client.rs],
      [discovery.rs]): settings, HTTP calls and the UDP search for a controller.
    - [Agent] ([agent.rs]): the state the networking loops share, with every
      method of [Agent].
    - [Loops]: one turn of the heartbeat, poll and clock loops; [Delivery]: one
      turn of the delivery loop; [Enforcement]: the enforcement loop as a step
      relation interleaved with everything else ([aop]), time, and changes of
      the system clock.
    - [Restart]: what [Agent::new] finds on disk.
    - [Ipc], [Notifier] ([notify_pipe.rs], [ipc/], [notifier/src/]): the pipe's
      answers and its server, and the notifier's engine, texts, markup and main
      loop.  [Access]: who may open the pipe, and the life of its name.
      [Warnings] ([transport.rs]): notifier and agent together.  [Toast]
      ([ui.rs]): the markup as an XML processor reads it, the action centre
      under the notifier's calls, and the one notifier of a session.
      [Logfile] ([logfile.rs]): the notifier's log and its rotation.
    - [Platform] ([platform/]): setting up the message window, window messages,
      sessions found at startup, the two run loops, the message pump and the
      controls that stop it.
      [Service] ([service_win.rs]): [run_service] around it, [install] and
      [uninstall] over a service manager given by its documented laws.
    - [Main] ([run_blocking], [main.rs]): startup, the sharing of queue and
      snapshot between the platform's thread and the loops, stopping, and the
      commands [status], [discover] and [test-event].
    - [Network] ([run_blocking] with everything it starts): the running process
      as a transition system.  The loops are phases with one constructor per
      [await]; the mutex held across an [await] is a field; timers, answers
      and clock readings are the environment's.  [Coherence]: the shared client
      and the event table in every reachable state.  [Turns]: the steps of a
      turn against the turn as one function.  [Stop]: the end of the process.
      [Runs]: concrete executions, which instantiate these theorems.
      [Fairness]: infinite executions whose delivery loop is not starved.
    - [Device]: the service of [Service] with the process of [Network] it runs,
      and its restarts.  [Desk]: the process with a notifier that polls it.
    - [TestsUsage], [TestsAgent], [TestsWire], [TestsNotifier]: the unit tests
      of the repository as functions of the model, and that they pass.

    ** How state and operations correspond to the code

    A method on [&mut self] is a function from the record to the record (with
    its result); the guards and early returns are those of the source, in its
    order.  Clock readings, fresh UUIDs, random outcomes of I/O and answers of
    other machines are arguments.  A database is a pair of the table and the
    list of faults its next statements will meet; each statement is atomic.
    [Mutex]es and atomics make each operation on the shared agent atomic, so an
    execution of the loops is a sequence of operations; an [await] while no
    lock is held is a point between two of them (this is why delivery and
    enforcement are cut into pieces).  [Network] makes those points explicit:
    a step is what one task does between two [await]s, and any other task may
    step in between.  A [Notify] is the permit it stores, the shutdown signal a
    flag that is never taken back.
    The event queue and the snapshot, shared through [Arc], are kept once, in
    the agent, and lent to the recorder ([Main.notified]).  Logging is omitted.

    ** What the theorems show

    - Enforcement: whatever the threads, the controller and the clocks do, a
      power action of the process is that of the cached schedule inside one of
      its windows, confirmed by the controller or by 90 s of its silence, not
      repeated after a resume before that, and shutdowns are five minutes apart
      ([Network], by a refinement to [Enforcement]); and no turn of the loop
      misses a window ([Enforcement]).  Caches survive crashes and restarts
      ([Schedule], [Restart]).
    - Reporting: an event that was queued stays until the controller has
      acknowledged it or its 48th attempt has failed, in every execution
      ([Coherence]); requests carry the current device id ([Coherence]); a
      working controller is sent everything in a bounded number of turns
      ([Delivery]), and under a fair schedule every event is acknowledged
      ([Fairness]); the table refines a queue ([Queue]).
    - Usage: a session is open exactly while somebody uses the device
      ([Tracker]); the table is the tracker's log, also across store failures,
      restarts and shutdown ([Recorder]), and a clean stop leaves no session
      open ([Stop]); heartbeats claim no more than is known ([Turns]).
    - The process: no panic ends the networking task ([Coherence]); after the
      shutdown signal the loops stop in at most 53 steps of their own and one
      more delivery is attempted ([Stop]); the steps of a turn do what the
      turn's function does ([Turns]); the service reports its states in order,
      and a stop works once the pump runs ([Service]); service and process
      together behave as each does alone, and a service that has stopped leaves
      no open session and its last notices queued ([Device]).
    - Time: the offset measured is accurate, a minority of wrong servers is
      outvoted, an unnoticed clock change is bounded ([Clock], [Loops]).
    - Identity and controller: the device id is stable, only validated answers
      to this request are taken ([Config], [Discovery]).
    - Notifier: each of the four warnings is shown in time before the agent
      acts ([Warnings]); they tighten and messages appear once ([Notifier]);
      what is announced is exactly what is coming ([Ipc]); the screen shows
      what is pending, a toast says what it is meant to say, and a session has
      one notifier ([Toast]); whatever is shown or done to the machine was sent
      by the controller or cached before ([Desk]); the log is bounded
      ([Logfile]).
    - Pipe: both programs read from each other's bytes what was meant ([Wire]);
      the pipe is the service's and open to just that use ([Access]).
    - Conformance: the model gives the answers the repository's unit tests
      expect, on the same JSON text ([TestsUsage] to [TestsNotifier]).
    - Some theorems record behaviour that the comments or documents of the
      program describe otherwise ([Delivery.outage_discards_event],
      [Recorder.agent_restart_never_written],
      [Recorder.logon_active_order_unspecified],
      [Platform.seed_unknown_lock_is_active],
      [Config.malformed_override_replaces_id], [Stop.windows_stop_waits],
      [Stop.zero_interval_ends_enforcement], [Service.stop_control_effect],
      [Service.upgrade_fails_while_stopping], [Service.service_reports]).

    ** Bounds and assumptions

    The program needs no fuel: recursion is structural, over lists of inputs
    (the JSON parser of [Json.Rfc] is given twice the length of its text, which
    [render_reads_back] shows to be enough for what is printed).  Instants
    are nanoseconds in [Z]; theorems about text ask that instants be
    [representable] (a four-digit year, where chrono's text sorts as time).
    [i64] arithmetic of the clock and the [u32] attempt count wrap; the
    theorems that need it bound their inputs ([Clock.small],
    [Clock.ntp_range]).  Laws of the codecs, of SQL ordering and of [HashMap]
    iteration are classes, each with an instance ([Codec.Bits],
    [Json.Rfc], [Db.stable_engine], [Recorder.tree_order]), and so are the documented laws
    of the service manager ([Service.ScmLaws], instance [sample_scm_laws]).
    The ids and clock readings of the steps of [Network] are in the range of
    their texts ([stamp_ok], [reading_ok]).  Text in [Config] is ASCII.

    ** Not modelled

    The Java controller; the Win32, WinRT, pipe, socket and HTTP calls
    themselves, which appear as outcomes (what the documentation of Windows
    says of descriptors, mutexes and the action centre is in [Access] and
    [Toast]); argument parsing and logging of the agent; the second
    [shutdown_timeout] of the runtime.  In [Network] the platform's thread is
    the sequence of notifications it delivers ([Platform] says which), and the
    notifier's pipe is one flag ([Ipc] has the server's tasks; in [Desk] a
    question is answered or fails).

    ** Planned extensions, most important first

    - The deadline of [Warnings.warned_in_time] for the polls of [Desk]: that
      a notifier which gets its turns there warns before the process acts.
    - [Platform]'s message translation inside [Device], so that its
      notifications are those of window messages.
    - The tasks of [Ipc]'s server as steps of [Desk]. *)

From Stdlib Require Export ZArith Lia.
From stdpp Require Export base option list gmap strings sorting.

#[global] Open Scope Z_scope.

Declare Scope timelord_scope.
Delimit Scope timelord_scope with timelord.
#[global] Open Scope timelord_scope.

(** ** Instants, durations and identifiers

    A [DateTime<Utc>] is the number of nanoseconds since the Unix epoch, a
    [Duration] a number of nanoseconds; a [Uuid] is its 128-bit value. *)
Abbreviation DateTime := Z (only parsing).
Abbreviation Duration := Z (only parsing).
Abbreviation Uuid := N (only parsing).

Definition ns_per_sec : Z := 1000000000.
Definition ns_per_ms : Z := 1000000.

(** [Duration::from_secs], [chrono::Duration::seconds], and milliseconds. *)
Definition secs (n : Z) : Duration := n * ns_per_sec.
Definition millis (n : Z) : Duration := n * ns_per_ms.

(** chrono's [num_seconds]: whole seconds, truncated toward zero. *)
Definition num_seconds (d : Duration) : Z := Z.quot d ns_per_sec.

(** ** Machine integers *)
Definition wrap_i64 (z : Z) : Z := (z + 2 ^ 63) mod 2 ^ 64 - 2 ^ 63.
Definition wrap_u32 (z : Z) : Z := z mod 2 ^ 32.
Definition in_i64 (z : Z) : Prop := - 2 ^ 63 <= z < 2 ^ 63.

Lemma wrap_i64_id z : in_i64 z -> wrap_i64 z = z.
Proof. unfold in_i64, wrap_i64. intros. rewrite Z.mod_small; lia. Qed.

Lemma wrap_u32_id z : 0 <= z < 2 ^ 32 -> wrap_u32 z = z.
Proof. apply Z.mod_small. Qed.

Lemma wrap_i64_range z : in_i64 (wrap_i64 z).
Proof.
  unfold in_i64, wrap_i64.
  pose proof (Z.mod_pos_bound (z + 2 ^ 63) (2 ^ 64)). lia.
Qed.

(** Bytes put together with shifts and [|]. *)
Lemma lor_shiftl_add a b k : 0 <= k -> 0 <= b < 2 ^ k -> Z.lor (Z.shiftl a k) b = a * 2 ^ k + b.
Proof.
  intros Hk Hb. assert (Hl : Z.land (Z.shiftl a k) b = 0).
  { apply Z.bits_inj'. intros n Hn. rewrite Z.land_spec, Z.bits_0.
    destruct (Z.lt_ge_cases n k).
    - by rewrite Z.shiftl_spec_low by lia.
    - rewrite <- (Z.mod_small b (2 ^ k)) by lia.
      by rewrite Z.mod_pow2_bits_high, andb_false_r by lia. }
  rewrite <- Z.lxor_lor, <- Z.add_nocarry_lxor by done.
  by rewrite Z.shiftl_mul_pow2 by lia.
Qed.

(** ** Fallible results *)
Inductive result (E A : Type) : Type :=
| Ok (a : A)
| Err (e : E).
Arguments Ok {E A} a.
Arguments Err {E A} e.

#[export] Instance result_ret E : MRet (result E) := fun A a => Ok a.
#[export] Instance result_bind E : MBind (result E) := fun A B f r =>
  match r with Ok a => f a | Err e => Err e end.

Definition is_ok {E A} (r : result E A) : bool :=
  match r with Ok _ => true | Err _ => false end.
Definition result_ok {E A} (r : result E A) : option A :=
  match r with Ok a => Some a | Err _ => None end.

(** [Option::filter] *)
Definition option_filter {A} (p : A -> bool) (o : option A) : option A :=
  match o with Some a => if p a then Some a else None | None => None end.

Lemma option_filter_some {A} (p : A -> bool) o a :
  option_filter p o = Some a <-> o = Some a /\ p a = true.
Proof.
  destruct o as [b|]; simpl; [|naive_solver]. destruct (p b) eqn:E; [naive_solver|].
  split; [done|]. intros [[= <-] H]. congruence.
Qed.

(** JSON values carried in event payloads. *)
Inductive json : Type :=
| JNull
| JBool (b : bool)
| JNumber (z : Z)
| JString (s : string).

#[export] Instance json_eq_dec : EqDecision json.
Proof. solve_decision. Defined.

(** ** Lists *)

(** Stable insertion sort: [slice::sort_by]. [x] precedes [l] in the input, so
    it goes before the first element that is not smaller. *)
Section Sorting.
Context {A : Type} (leb : A -> A -> bool).

Fixpoint insert_sorted (x : A) (l : list A) : list A :=
  match l with
  | [] => [x]
  | y :: l' => if leb x y then x :: y :: l' else y :: insert_sorted x l'
  end.

Fixpoint isort (l : list A) : list A :=
  match l with
  | [] => []
  | x :: l' => insert_sorted x (isort l')
  end.

Lemma insert_sorted_perm x l : insert_sorted x l ≡ₚ x :: l.
Proof.
  induction l as [|y l IH]; simpl; [done|].
  destruct (leb x y); [done|]. rewrite IH. apply Permutation_swap.
Qed.

Lemma isort_perm l : isort l ≡ₚ l.
Proof. induction l as [|x l IH]; simpl; [done|]. by rewrite insert_sorted_perm, IH. Qed.

Context (leb_total : forall x y, leb x y = true \/ leb y x = true).
Context (leb_trans : forall x y z, leb x y = true -> leb y z = true -> leb x z = true).

Lemma insert_sorted_sorted x l :
  StronglySorted (fun a b => leb a b = true) l ->
  StronglySorted (fun a b => leb a b = true) (insert_sorted x l).
Proof using leb_total leb_trans.
  induction 1 as [|y l Hl IH Hy]; simpl; [by repeat constructor|].
  destruct (leb x y) eqn:E.
  - constructor; [by constructor|]. constructor; [done|].
    eapply Forall_impl; [exact Hy|]. eauto.
  - constructor; [done|]. rewrite insert_sorted_perm. constructor; [|done].
    destruct (leb_total x y); congruence.
Qed.

Lemma isort_sorted l : StronglySorted (fun a b => leb a b = true) (isort l).
Proof using leb_total leb_trans.
  induction l; simpl; [constructor|]. by apply insert_sorted_sorted.
Qed.
End Sorting.

(** [Iterator::min_by]: the first of the elements nothing is smaller than. *)
Section MinBy.
Context {A : Type} (cmp : A -> A -> comparison).

Fixpoint min_by_from (best : A) (l : list A) : A :=
  match l with
  | [] => best
  | x :: l' => min_by_from (match cmp best x with Gt => x | _ => best end) l'
  end.
Definition min_by (l : list A) : option A :=
  match l with [] => None | x :: l' => Some (min_by_from x l') end.

Context (cmp_refl : forall x, cmp x x <> Gt).
Context (cmp_anti : forall x y, cmp x y = Gt -> cmp y x <> Gt).
Context (cmp_trans : forall x y z, cmp x y <> Gt -> cmp y z <> Gt -> cmp x z <> Gt).

Lemma min_by_from_spec best l :
  (min_by_from best l ∈ best :: l) /\ forall x, x ∈ best :: l -> cmp (min_by_from best l) x <> Gt.
Proof using cmp_refl cmp_anti cmp_trans.
  revert best. induction l as [|y l IH]; intros best; simpl.
  { split; [by left|]. intros x ->%list_elem_of_singleton. done. }
  destruct (IH (match cmp best y with Gt => y | _ => best end)) as [Hin Hle].
  split.
  { apply elem_of_cons in Hin as [Hin|Hin].
    - rewrite Hin. destruct (cmp best y); [by left|by left|by right; left].
    - by do 2 right. }
  assert (Hm := Hle _ (list_elem_of_here _ _)).
  intros x [->|[->|Hx]%elem_of_cons]%elem_of_cons.
  - destruct (cmp best y) eqn:E; [done..|].
    eapply cmp_trans; [exact Hm|]. by apply cmp_anti.
  - destruct (cmp best y) eqn:E; [..|done]; eapply cmp_trans; first [exact Hm | congruence].
  - apply Hle. by right.
Qed.

Lemma min_by_spec l x :
  min_by l = Some x -> x ∈ l /\ forall y, y ∈ l -> cmp x y <> Gt.
Proof using cmp_refl cmp_anti cmp_trans.
  destruct l as [|a l]; simpl; [done|]. intros [= <-]. apply min_by_from_spec.
Qed.
End MinBy.

Lemma min_by_none {A} (cmp : A -> A -> comparison) l : min_by cmp l = None <-> l = [].
Proof. destruct l; simpl; naive_solver. Qed.

Lemma Forall_filter_sub {A} (P Q : A -> Prop) `{!forall x, Decision (Q x)} (l : list A) :
  Forall P l -> Forall P (filter Q l).
Proof. rewrite !Forall_forall. intros HP x [_ Hx]%list_elem_of_filter. auto. Qed.

Lemma filter_none {A} (P : A -> Prop) `{!forall x, Decision (P x)} (l : list A) :
  Forall (fun x => ~ P x) l -> filter P l = [].
Proof. induction 1; [done|]. by rewrite filter_cons_False. Qed.

Lemma filter_all {A} (P : A -> Prop) `{!forall x, Decision (P x)} (l : list A) :
  Forall P l -> filter P l = l.
Proof. induction 1; [done|]. rewrite filter_cons_True by done. by f_equal. Qed.

(** [List.filter] with a boolean test ([Iterator::filter], [Vec::retain], [WHERE]). *)
Lemma elem_of_bfilter {A} (p : A -> bool) (l : list A) x :
  x ∈ List.filter p l <-> x ∈ l /\ p x = true.
Proof. by rewrite !list_elem_of_In, List.filter_In. Qed.

Lemma bfilter_perm {A} (p : A -> bool) (l k : list A) :
  l ≡ₚ k -> List.filter p l ≡ₚ List.filter p k.
Proof.
  induction 1 as [|x l k H IH|x y l|l k m H1 IH1 H2 IH2]; simpl.
  - done.
  - destruct (p x); [by constructor|done].
  - destruct (p x), (p y); try done. apply Permutation_swap.
  - by rewrite IH1.
Qed.

Lemma bfilter_none {A} (p : A -> bool) (l : list A) :
  (forall x, x ∈ l -> p x = false) -> List.filter p l = [].
Proof.
  induction l as [|x l IH]; intros H; simpl; [done|].
  rewrite (H x) by left. apply IH. intros y Hy. apply H. by right.
Qed.

Lemma bfilter_bfilter {A} (p q : A -> bool) (l : list A) :
  List.filter p (List.filter q l) = List.filter (fun x => q x && p x) l.
Proof.
  induction l as [|x l IH]; simpl; [done|]. destruct (q x); simpl; [|done].
  destruct (p x); by rewrite ?IH.
Qed.

Lemma bfilter_all {A} (p : A -> bool) (l : list A) :
  (forall x, x ∈ l -> p x = true) -> List.filter p l = l.
Proof.
  induction l as [|x l IH]; intros H; simpl; [done|].
  rewrite (H x) by left. f_equal. apply IH. intros y Hy. apply H. by right.
Qed.

Lemma bfilter_sublist {A} (p : A -> bool) (l : list A) : List.filter p l `sublist_of` l.
Proof.
  induction l as [|x l IH]; simpl; [constructor|]. destruct (p x); by constructor.
Qed.

Lemma Forall2_bfilter {A B} (R : A -> B -> Prop) (p : A -> bool) (q : B -> bool) l k :
  Forall2 R l k -> (forall x y, R x y -> p x = q y) ->
  Forall2 R (List.filter p l) (List.filter q k).
Proof.
  intros H Hpq. induction H as [|x y l k Hxy H IH]; simpl; [constructor|].
  rewrite (Hpq x y Hxy). destruct (q y); [by constructor|done].
Qed.

(** A permutation on one side of a pointwise relation carries over. *)
Lemma Forall2_perm {A B} (R : A -> B -> Prop) l l' k :
  Forall2 R l k -> l ≡ₚ l' -> exists k', k ≡ₚ k' /\ Forall2 R l' k'.
Proof.
  intros H Hp. revert k H. induction Hp as [|x l l' Hp IH|x y l|l1 l2 l3 H1 IH1 H2 IH2]; intros k H.
  - inversion H; subst. by exists [].
  - inversion H as [|? b ? k0 Hxb Hk]; subst. destruct (IH k0 Hk) as (k' & Hk' & Hf).
    exists (b :: k'). split; by constructor.
  - inversion H as [|? b ? k0 Hyb Hk]; subst. inversion Hk as [|? c ? k1 Hxc Hk1]; subst.
    exists (c :: b :: k1). split; [apply Permutation_swap|by repeat constructor].
  - destruct (IH1 k H) as (k' & Hk' & Hf). destruct (IH2 k' Hf) as (k'' & Hk'' & Hf').
    exists k''. split; [by rewrite Hk'|done].
Qed.

Lemma Forall2_sorted {A B} (R : A -> B -> Prop) (P : A -> A -> Prop) (Q : B -> B -> Prop) l k :
  Forall2 R l k -> (forall a b c d, R a c -> R b d -> P a b -> Q c d) ->
  StronglySorted P l -> StronglySorted Q k.
Proof.
  intros H HPQ Hs. revert k H. induction Hs as [|x l Hs IH Hx]; intros k H.
  - inversion H; subst. constructor.
  - inversion H as [|? b ? k0 Hxb Hk]; subst. constructor; [by apply IH|].
    apply Forall_forall. intros c Hc. apply list_elem_of_lookup in Hc as [i Hi].
    destruct (Forall2_lookup_r _ _ _ _ _ Hk Hi) as (a & Ha & Hac).
    eapply HPQ; [done..|]. rewrite Forall_forall in Hx. apply Hx.
    by eapply list_elem_of_lookup_2.
Qed.

Lemma StronglySorted_app_le {A} (P : A -> A -> Prop) l k x y :
  StronglySorted P (l ++ k) -> x ∈ l -> y ∈ k -> P x y.
Proof.
  induction l as [|a l IH]; simpl; intros Hs Hx Hy; [by apply not_elem_of_nil in Hx|].
  inversion_clear Hs as [|?? Hs' Ha]. apply elem_of_cons in Hx as [->|Hx]; [|by apply IH].
  rewrite Forall_forall in Ha. apply Ha, elem_of_app. by right.
Qed.

Lemma NoDup_map_bfilter {A B} (f : A -> B) (p : A -> bool) l :
  NoDup (map f l) -> NoDup (map f (List.filter p l)).
Proof. intros H. eapply sublist_NoDup; [exact H|]. apply fmap_sublist, bfilter_sublist. Qed.

Lemma NoDup_map_inj {A B} (f : A -> B) l x y :
  NoDup (map f l) -> x ∈ l -> y ∈ l -> f x = f y -> x = y.
Proof.
  induction l as [|a l IH]; simpl; intros Hn Hx Hy Hf; [by apply not_elem_of_nil in Hx|].
  apply NoDup_cons in Hn as [Ha Hn]. apply elem_of_cons in Hx, Hy.
  destruct Hx as [->|Hx], Hy as [->|Hy]; [done| | |by apply IH].
  - destruct Ha. rewrite Hf. by apply list_elem_of_fmap_2.
  - destruct Ha. rewrite <- Hf. by apply list_elem_of_fmap_2.
Qed.

(** ** Hints *)
Create HintDb timelord.
#[export] Hint Resolve wrap_i64_range isort_perm Forall_filter_sub : timelord.

(** ** Text *)
Lemma string_app_assoc (a b c : string) : (a +:+ b) +:+ c = a +:+ (b +:+ c).
Proof. induction a as [|x a IH]; [done|]. change (String x ((a +:+ b) +:+ c) = String x (a +:+ (b +:+ c))). by rewrite IH. Qed.
Lemma string_app_nil (a : string) : a +:+ EmptyString = a.
Proof. induction a as [|x a IH]; [done|]. change (String x (a +:+ EmptyString) = String x a). by rewrite IH. Qed.
Lemma string_length_app (a b : string) :
  String.length (a +:+ b) = (String.length a + String.length b)%nat.
Proof. induction a as [|x a IH]; [done|]. simpl. f_equal. exact IH. Qed.
