(* ===== verification/Tracker.v ===== *)
(** * The usage-session state machine ([agent/src/tracker.rs])

    [UsageTracker] holds [sessions], [suspended] and [open_since] as in the
    source; [apply] is [UsageTracker::apply] with its private helpers
    [set_visible], [any_visible] and [recompute].  The second half gives a
    declarative reading of a notification history ([shown], [asleep],
    [in_use]) and shows that the tracker computes it. *)
From S2P Require Import Prelude.

Abbreviation SessionId := N (only parsing).

Inductive SessionEvent : Type :=
| Logon (id : SessionId)
| Logoff (id : SessionId)
| Lock (id : SessionId)
| Unlock (id : SessionId)
| ConsoleConnect (id : SessionId)
| ConsoleDisconnect (id : SessionId)
| RemoteConnect (id : SessionId)
| RemoteDisconnect (id : SessionId)
| Suspend
| Resume.

#[export] Instance SessionEvent_eq_dec : EqDecision SessionEvent.
Proof. solve_decision. Defined.

Module EndReason.
Inductive t : Type :=
| Lock | Logoff | Suspend | ConsoleDisconnect | RemoteDisconnect
| AgentRestart | AgentShutdown.

#[export] Instance eq_dec : EqDecision t.
Proof. solve_decision. Defined.
End EndReason.
#[export] Existing Instance EndReason.eq_dec.

Record UsageSessionRecord : Type := mk_record {
  rec_start : DateTime;
  rec_end : DateTime;
  rec_end_reason : EndReason.t;
}.

Inductive Transition : Type :=
| NoChange
| Started (start : DateTime)
| Ended (record : UsageSessionRecord).

Definition is_ended (t : Transition) : bool :=
  match t with Ended _ => true | _ => false end.

Definition session_id (e : SessionEvent) : option SessionId :=
  match e with
  | Logon id | Logoff id | Lock id | Unlock id
  | ConsoleConnect id | ConsoleDisconnect id
  | RemoteConnect id | RemoteDisconnect id => Some id
  | Suspend | Resume => None
  end.

Record SessionPresence : Type := mk_presence { visible : bool }.

Module UsageTracker.
Record t : Type := mk {
  sessions : gmap SessionId SessionPresence;
  suspended : bool;
  open_since : option DateTime;
}.

Definition new : t := mk ∅ false None.

Definition resume_open_session (started_at : DateTime) : t := mk ∅ false (Some started_at).

Definition is_active (tr : t) : bool := match open_since tr with Some _ => true | None => false end.

Definition is_logged_on (tr : t) (id : SessionId) : bool :=
  bool_decide (is_Some (sessions tr !! id)).

Definition set_sessions (f : gmap SessionId SessionPresence -> gmap SessionId SessionPresence)
    (tr : t) : t := mk (f (sessions tr)) (suspended tr) (open_since tr).
Definition set_suspended (b : bool) (tr : t) : t := mk (sessions tr) b (open_since tr).
Definition set_open_since (o : option DateTime) (tr : t) : t := mk (sessions tr) (suspended tr) o.

(** [entry(id).and_modify(..).or_insert(..)] *)
Definition set_visible (id : SessionId) (v : bool) (tr : t) : t :=
  set_sessions (fun m =>
    match m !! id with
    | Some p => <[id := mk_presence v]> m
    | None => <[id := mk_presence v]> m
    end) tr.

Definition any_visible (tr : t) : bool :=
  negb (suspended tr) && existsb (fun kv => visible kv.2) (map_to_list (sessions tr)).

Definition recompute (tr : t) (at_ : DateTime) (end_reason_if_closing : option EndReason.t)
  : t * Transition :=
  match open_since tr, any_visible tr with
  | None, true => (set_open_since (Some at_) tr, Started at_)
  | Some start, false =>
      (set_open_since None tr,
       Ended (mk_record start at_ (default EndReason.Logoff end_reason_if_closing)))
  | _, _ => (tr, NoChange)
  end.

Definition apply (tr : t) (event : SessionEvent) (at_ : DateTime) : t * Transition :=
  match event with
  | Logon id | Unlock id | ConsoleConnect id | RemoteConnect id =>
      recompute (set_sessions (fun m => <[id := mk_presence true]> m) tr) at_ None
  | Lock id => recompute (set_visible id false tr) at_ (Some EndReason.Lock)
  | ConsoleDisconnect id =>
      recompute (set_visible id false tr) at_ (Some EndReason.ConsoleDisconnect)
  | RemoteDisconnect id =>
      recompute (set_visible id false tr) at_ (Some EndReason.RemoteDisconnect)
  | Logoff id => recompute (set_sessions (delete id) tr) at_ (Some EndReason.Logoff)
  | Suspend => recompute (set_suspended true tr) at_ (Some EndReason.Suspend)
  | Resume => recompute (set_suspended false tr) at_ None
  end.

Definition close (tr : t) (at_ : DateTime) (reason : EndReason.t)
  : t * option UsageSessionRecord :=
  (set_open_since None tr,
   (fun start => mk_record start at_ reason) <$> open_since tr).

(** Feeding a whole sequence of timestamped notifications. *)
Fixpoint run (tr : t) (h : list (SessionEvent * DateTime)) : t * list Transition :=
  match h with
  | [] => (tr, [])
  | (e, at_) :: h' =>
      let '(tr1, x) := apply tr e at_ in
      let '(tr2, xs) := run tr1 h' in (tr2, x :: xs)
  end.
End UsageTracker.

(** The records a sequence of transitions closes. *)
Definition ended_records (xs : list Transition) : list UsageSessionRecord :=
  omap (fun x => match x with Ended r => Some r | _ => None end) xs.

(** ** Reading a history declaratively *)
Definition shows (e : SessionEvent) (id : SessionId) : Prop :=
  e = Logon id \/ e = Unlock id \/ e = ConsoleConnect id \/ e = RemoteConnect id.
Definition hides (e : SessionEvent) (id : SessionId) : Prop :=
  e = Logoff id \/ e = Lock id \/ e = ConsoleDisconnect id \/ e = RemoteDisconnect id.

(** The last notification about [id] made it visible. *)
Definition shown (h : list SessionEvent) (id : SessionId) : Prop :=
  exists h1 e h2, h = h1 ++ e :: h2 /\ shows e id /\ Forall (fun e' => ~ hides e' id) h2.
Definition asleep (h : list SessionEvent) : Prop :=
  exists h1 h2, h = h1 ++ Suspend :: h2 /\ Resume ∉ h2.
(** "Logged on, unlocked, visible and not suspended". *)
Definition in_use (h : list SessionEvent) : Prop := ~ asleep h /\ exists id, shown h id.

Section Histories.
Lemma shows_not_hides e id : shows e id -> ~ hides e id.
Proof. unfold shows, hides. intuition congruence. Qed.

Lemma shown_nil id : ~ shown [] id.
Proof. intros (h1 & e & h2 & H & _). by destruct h1. Qed.

Lemma shown_snoc h e id : shown (h ++ [e]) id <-> shows e id \/ (shown h id /\ ~ hides e id).
Proof.
  split.
  - intros (h1 & e' & h2 & Heq & Hs & Hall).
    destruct h2 as [|x h2 _] using rev_ind.
    + apply app_inj_tail in Heq as [-> ->]. by left.
    + rewrite app_comm_cons, app_assoc in Heq. apply app_inj_tail in Heq as [-> ->].
      apply Forall_app in Hall as [Hall Hx]. rewrite Forall_singleton in Hx.
      right. split; [exists h1, e', h2; auto | exact Hx].
  - intros [Hs | [(h1 & e' & h2 & -> & Hs & Hall) Hn]].
    + exists h, e, []. auto.
    + exists h1, e', (h2 ++ [e]). rewrite <- app_assoc. repeat split; [done|].
      apply Forall_app. auto.
Qed.

Lemma asleep_snoc h e : asleep (h ++ [e]) <-> e = Suspend \/ (asleep h /\ e <> Resume).
Proof.
  split.
  - intros (h1 & h2 & Heq & Hn).
    destruct h2 as [|x h2 _] using rev_ind.
    + apply app_inj_tail in Heq as [-> ->]. by left.
    + rewrite app_comm_cons, app_assoc in Heq. apply app_inj_tail in Heq as [-> ->].
      apply not_elem_of_app in Hn as [Hn Hx]. rewrite list_elem_of_singleton in Hx.
      right. split; [exists h1, h2; auto | congruence].
  - intros [-> | [(h1 & h2 & -> & Hn) Hne]].
    + exists h, []. split; [done|]. apply not_elem_of_nil.
    + exists h1, (h2 ++ [e]). rewrite <- app_assoc. split; [done|].
      rewrite not_elem_of_app, list_elem_of_singleton. split; congruence.
Qed.
End Histories.

(** ** The tracker's invariant and its refinement of the declarative reading *)
Module TrackerFacts.
Import UsageTracker.

Lemma any_visible_spec tr :
  any_visible tr = true <->
  suspended tr = false /\ exists id, sessions tr !! id = Some (mk_presence true).
Proof.
  unfold any_visible. rewrite andb_true_iff, negb_true_iff, existsb_exists. f_equiv.
  split.
  - intros ([id [[]]] & Hin & Hv); simpl in Hv; [|done].
    exists id. apply elem_of_map_to_list. by apply list_elem_of_In.
  - intros [id Hid]. exists (id, mk_presence true). split; [|done].
    apply list_elem_of_In. by apply elem_of_map_to_list.
Qed.

(** [set_visible] is a plain insertion whichever branch it takes. *)
Lemma set_visible_sessions id v tr :
  sessions (set_visible id v tr) = <[id := mk_presence v]> (sessions tr).
Proof. unfold set_visible. simpl. by destruct (sessions tr !! id). Qed.

(** The tracker that [apply] hands to [recompute]. *)
Definition update (tr : t) (e : SessionEvent) : t :=
  match e with
  | Logon id | Unlock id | ConsoleConnect id | RemoteConnect id =>
      set_sessions (fun m => <[id := mk_presence true]> m) tr
  | Lock id | ConsoleDisconnect id | RemoteDisconnect id => set_visible id false tr
  | Logoff id => set_sessions (delete id) tr
  | Suspend => set_suspended true tr
  | Resume => set_suspended false tr
  end.
Definition closing_reason (e : SessionEvent) : option EndReason.t :=
  match e with
  | Lock _ => Some EndReason.Lock
  | ConsoleDisconnect _ => Some EndReason.ConsoleDisconnect
  | RemoteDisconnect _ => Some EndReason.RemoteDisconnect
  | Logoff _ => Some EndReason.Logoff
  | Suspend => Some EndReason.Suspend
  | _ => None
  end.

Lemma apply_update tr e at_ : apply tr e at_ = recompute (update tr e) at_ (closing_reason e).
Proof. by destruct e. Qed.

Lemma recompute_fields tr at_ r :
  sessions (recompute tr at_ r).1 = sessions tr /\ suspended (recompute tr at_ r).1 = suspended tr.
Proof. unfold recompute. destruct (open_since tr), (any_visible tr); done. Qed.

Lemma any_visible_recompute tr at_ r : any_visible (recompute tr at_ r).1 = any_visible tr.
Proof. unfold any_visible. by destruct (recompute_fields tr at_ r) as [-> ->]. Qed.

(** Open iff somebody is visible. *)
Definition wf (tr : t) : Prop := is_active tr = any_visible tr.

Lemma recompute_wf tr at_ r : wf (recompute tr at_ r).1.
Proof.
  unfold wf. rewrite any_visible_recompute. unfold recompute, is_active.
  destruct (open_since tr) eqn:E, (any_visible tr); simpl; by rewrite ?E.
Qed.

Lemma new_wf : wf new.
Proof. reflexivity. Qed.

Lemma update_open tr e : open_since (update tr e) = open_since tr.
Proof. by destruct e. Qed.

Lemma run_snoc tr h e at_ :
  run tr (h ++ [(e, at_)]) =
  (let '(tr1, xs) := run tr h in let '(tr2, x) := apply tr1 e at_ in (tr2, xs ++ [x])).
Proof.
  revert tr. induction h as [|[e' a'] h IH]; intros tr; simpl.
  - by destruct (apply tr e at_).
  - destruct (apply tr e' a') as [tr1 x]. rewrite IH.
    destruct (run tr1 h) as [tr2 xs]. by destruct (apply tr2 e at_).
Qed.

Lemma run_wf tr h : wf tr -> wf (run tr h).1.
Proof.
  revert tr. induction h as [|[e a] h IH]; intros tr Hwf; simpl; [done|].
  pose proof (recompute_wf (update tr e) a (closing_reason e)) as H1.
  rewrite <- apply_update in H1. destruct (apply tr e a) as [tr1 x]. simpl in H1.
  specialize (IH tr1 H1). by destruct (run tr1 h).
Qed.

Lemma update_sessions_visible tr e id :
  sessions (update tr e) !! id = Some (mk_presence true) <->
  shows e id \/ (sessions tr !! id = Some (mk_presence true) /\ ~ hides e id).
Proof.
  unfold shows, hides.
  destruct e as [i|i|i|i|i|i|i|i| |]; simpl update; rewrite ?set_visible_sessions; simpl;
    try (destruct (decide (i = id)) as [->|Hne];
         [rewrite ?lookup_insert_eq, ?lookup_delete_eq
         |rewrite ?lookup_insert_ne, ?lookup_delete_ne by done]);
    split; intuition congruence.
Qed.

Lemma run_state h :
  let tr := (run new h).1 in
  (suspended tr = true <-> asleep h.*1) /\    (forall id, sessions tr !! id = Some (mk_presence true) <-> shown h.*1 id).
Proof.
  induction h as [|[e a] h IH] using rev_ind; simpl.
  - split.
    + split; [done|]. intros (h1 & h2 & H & _). by destruct h1.
    + intros id. rewrite lookup_empty. split; [done|]. by intros ?%shown_nil.
  - rewrite run_snoc. destruct (run new h) as [tr xs]. simpl in IH. destruct IH as [IHs IHv].
    rewrite apply_update.
    destruct (recompute_fields (update tr e) a (closing_reason e)) as [Es Eu].
    destruct (recompute (update tr e) a (closing_reason e)) as [tr2 x]. simpl in *.
    rewrite Es, Eu, fmap_app. simpl. split.
    + rewrite asleep_snoc, <- IHs. destruct e; simpl; intuition congruence.
    + intros id. rewrite shown_snoc, <- IHv. apply update_sessions_visible.
Qed.
End TrackerFacts.

(** ** Properties of the tracker *)
Section TrackerProperties.
Import UsageTracker TrackerFacts.

(** The transition log a client sees: [Started] only when nothing is open,
    [Ended] closing exactly the span that is open, each stamped with the
    time of the notification that caused it. *)
Inductive log_ok : option DateTime -> list DateTime -> list Transition -> option DateTime -> Prop :=
| log_nil o : log_ok o [] [] o
| log_nochange o a as_ xs o' :
    log_ok o as_ xs o' -> log_ok o (a :: as_) (NoChange :: xs) o'
| log_started a as_ xs o' :
    log_ok (Some a) as_ xs o' -> log_ok None (a :: as_) (Started a :: xs) o'
| log_ended s a as_ xs o' r :
    log_ok None as_ xs o' ->
    log_ok (Some s) (a :: as_) (Ended (mk_record s a r) :: xs) o'.
#[local] Hint Constructors log_ok : timelord.

Lemma recompute_log tr a r as_ xs o' :
  log_ok (open_since (recompute tr a r).1) as_ xs o' ->
  log_ok (open_since tr) (a :: as_) ((recompute tr a r).2 :: xs) o'.
Proof.
  unfold recompute.
  destruct (open_since tr) eqn:E, (any_visible tr); simpl; rewrite ?E; auto with timelord.
Qed.

Lemma run_log tr h :
  log_ok (open_since tr) h.*2 (run tr h).2 (open_since (run tr h).1).
Proof.
  revert tr. induction h as [|[e a] h IH]; intros tr; simpl; [constructor|].
  pose proof (recompute_log (update tr e) a (closing_reason e)) as Hl.
  rewrite update_open, <- apply_update in Hl.
  destruct (apply tr e a) as [tr1 x]. specialize (IH tr1).
  destruct (run tr1 h) as [tr2 xs]. by apply Hl.
Qed.

Definition record_ok (r : UsageSessionRecord) : Prop := rec_start r <= rec_end r.
Definition before (r1 r2 : UsageSessionRecord) : Prop := rec_end r1 <= rec_start r2.

Lemma log_ok_records o as_ xs o' :
  log_ok o as_ xs o' ->
  StronglySorted Z.le (option_list o ++ as_) ->
  Forall record_ok (ended_records xs) /\ StronglySorted before (ended_records xs) /\
  Forall (fun r => rec_start r ∈ option_list o ++ as_) (ended_records xs).
Proof.
  induction 1 as [o|o a as_ xs o' H IH|a as_ xs o' H IH|s a as_ xs o' r H IH]; intros Hs; simpl.
  - repeat constructor.
  - assert (Hs' : StronglySorted Z.le (option_list o ++ as_)).
    { destruct o; simpl in *; inversion_clear Hs as [|?? Ha Hb]; [|done].
      inversion_clear Ha. inversion_clear Hb. by constructor. }
    destruct (IH Hs') as (Hok & Hb & Hf). repeat split; [done..|].
    eapply Forall_impl; [exact Hf|]. simpl. intros r'.
    rewrite !elem_of_app, elem_of_cons. tauto.
  - destruct (IH Hs) as (Hok & Hb & Hf). auto.
  - inversion_clear Hs as [|?? Ha Hb]. inversion_clear Hb as [|?? Hsa Hsas].
    inversion_clear Ha as [|?? Has Haas].
    destruct (IH Has) as (Hok & Hbf & Hf). simpl in Hf. repeat split.
    + by constructor.
    + constructor; [done|]. apply Forall_forall. intros r' Hr.
      rewrite Forall_forall in Hf. rewrite Forall_forall in Haas. apply Haas, Hf, Hr.
    + constructor; [left|]. eapply Forall_impl; [exact Hf|]. intros r' ?. by do 2 right.
Qed.


(** The transition log is well bracketed from any tracker state: a
    [Started] only when no usage session is open, each [Ended] closing the
    open one with its true start, both stamped with the notification time,
    and [open_since] is what the log leaves open. *)
Lemma tracker_log_well_bracketed (tr : UsageTracker.t) (h : list (SessionEvent * DateTime)) :
  log_ok (open_since tr) h.*2 (run tr h).2 (open_since (run tr h).1).
Proof. apply run_log. Qed.

(** When the notification times do not go backwards, the usage records
    the tracker closes have non-negative length, come out in chronological
    order and never overlap. *)
Lemma tracker_records_disjoint (h : list (SessionEvent * DateTime)) :
  StronglySorted Z.le h.*2 ->
  Forall record_ok (ended_records (run new h).2) /\
  StronglySorted before (ended_records (run new h).2).
Proof.
  intros Hs. destruct (log_ok_records _ _ _ _ (run_log new h)) as (H1 & H2 & _); auto.
Qed.

Lemma tracker_records_disjoint_witness :
  StronglySorted Z.le [0; 60; 3600; 3700] /\
  length (ended_records (run new [(Logon 1, 0); (Suspend, 60); (Resume, 3600); (Lock 1, 3700)]).2) = 2%nat /\
  Forall record_ok
    (ended_records (run new [(Logon 1, 0); (Suspend, 60); (Resume, 3600); (Lock 1, 3700)]).2).
Proof.
  assert (Hs : StronglySorted Z.le [0; 60; 3600; 3700]) by (repeat constructor; lia).
  split; [exact Hs|]. split; [vm_compute; reflexivity|].
  exact (proj1 (tracker_records_disjoint
    [(Logon 1, 0); (Suspend, 60); (Resume, 3600); (Lock 1, 3700)] Hs)).
Defined.

Lemma apply_reason tr e a r :
  (apply tr e a).2 = Ended r ->
  rec_end r = a /\ open_since tr = Some (rec_start r) /\
  rec_end_reason r = default EndReason.Logoff (closing_reason e).
Proof.
  rewrite apply_update. unfold recompute. rewrite update_open.
  destruct (open_since tr), (any_visible (update tr e)); simpl; try done.
  intros [= <-]. done.
Qed.

Lemma apply_reason_not_restart tr e a r :
  (apply tr e a).2 = Ended r ->
  rec_end_reason r <> EndReason.AgentRestart /\ rec_end_reason r <> EndReason.AgentShutdown.
Proof. intros (_ & _ & ->)%apply_reason. by destruct e. Qed.
End TrackerProperties.
