(* ===== verification/Codec.v ===== *)
(** * Interfaces to the text encodings of third-party crates

    chrono's RFC 3339 text, [uuid]'s hyphenated text and [serde_json] are not
    part of the repository.  Each is an operations class with a class of the
    laws the code relies on; [Bits] gives concrete instances, so that the
    properties that assume the laws can be evaluated. *)
From S2P Require Import Prelude.
From Stdlib Require Import String Ascii.
#[local] Open Scope Z_scope.

(** [to_rfc3339] / [parse_from_rfc3339]; [representable] is the range of
    instants for which chrono prints a four-digit year. *)
Class TimeText : Type := {
  representable : Z -> Prop;
  to_rfc3339 : Z -> string;
  parse_from_rfc3339 : string -> option Z;
}.

(** RFC 3339 section 5.1: UTC timestamps sort as text the way they sort as
    instants, and parsing undoes printing. *)
Class TimeTextLaws `{!TimeText} : Prop := {
  rfc3339_round_trip : forall t, representable t -> parse_from_rfc3339 (to_rfc3339 t) = Some t;
  rfc3339_ordered : forall t u, representable t -> representable u ->
    (String.leb (to_rfc3339 t) (to_rfc3339 u) = true <-> t <= u);
}.

(** [Uuid::to_string] / [Uuid::parse_str]. *)
Class UuidText : Type := {
  uuid_valid : Uuid -> Prop;
  uuid_to_string : Uuid -> string;
  uuid_parse_str : string -> option Uuid;
}.
Class UuidTextLaws `{!UuidText} : Prop := {
  uuid_round_trip : forall u, uuid_valid u -> uuid_parse_str (uuid_to_string u) = Some u;
}.

(** [serde_json::to_string] / [from_str] at one type. *)
Class Serde (A : Type) : Type := {
  to_json : A -> option string;
  from_json : string -> option A;
}.
Class SerdeLaws (A : Type) `{!Serde A} : Prop := {
  serde_round_trip : forall a, exists s, to_json a = Some s /\ from_json s = Some a;
}.

(** [String.leb] is a total order on text: SQLite's BINARY collation. *)
Lemma string_leb_total s1 s2 : String.leb s1 s2 = true \/ String.leb s2 s1 = true.
Proof.
  unfold String.leb. rewrite (String.compare_antisym s1 s2).
  destruct (s2 ?= s1)%string; simpl; auto.
Qed.

Lemma string_leb_trans s1 s2 s3 :
  String.leb s1 s2 = true -> String.leb s2 s3 = true -> String.leb s1 s3 = true.
Proof.
  intros H1 H2.
  assert (H : String.le s1 s3); [|by apply Is_true_true].
  etrans; apply Is_true_true; eassumption.
Qed.

Lemma string_leb_refl s : String.leb s s = true.
Proof. by destruct (string_leb_total s s). Qed.

#[export] Hint Resolve string_leb_total string_leb_trans string_leb_refl : timelord.

Lemma to_rfc3339_inj `{TimeTextLaws} t u :
  representable t -> representable u -> to_rfc3339 t = to_rfc3339 u -> t = u.
Proof.
  intros Ht Hu Heq. assert (Some t = Some u) as [= ->]; [|done].
  by rewrite <- (rfc3339_round_trip t Ht), Heq, rfc3339_round_trip.
Qed.

Lemma uuid_to_string_inj `{UuidTextLaws} u v :
  uuid_valid u -> uuid_valid v -> uuid_to_string u = uuid_to_string v -> u = v.
Proof.
  intros Hu Hv Heq. assert (Some u = Some v) as [= ->]; [|done].
  by rewrite <- (uuid_round_trip u Hu), Heq, uuid_round_trip.
Qed.

(** ** Concrete instances: fixed-width binary numerals *)
Module Bits.
Definition digit (b : bool) : ascii := if b then "1"%char else "0"%char.

Fixpoint print (w : nat) (z : Z) : string :=
  match w with
  | O => EmptyString
  | S w' => String (digit (Z.testbit z (Z.of_nat w'))) (print w' z)
  end.

Fixpoint parse_from (acc : Z) (s : string) : option Z :=
  match s with
  | EmptyString => Some acc
  | String c s' =>
      if Ascii.eqb c "1" then parse_from (2 * acc + 1) s'
      else if Ascii.eqb c "0" then parse_from (2 * acc) s' else None
  end.

Lemma top_bit (w : nat) (z : Z) :
  0 <= z < 2 ^ Z.of_nat (S w) ->
  z = (if Z.testbit z (Z.of_nat w) then 2 ^ Z.of_nat w else 0) + z mod 2 ^ Z.of_nat w.
Proof.
  intros Hz. rewrite Nat2Z.inj_succ, Z.pow_succ_r in Hz by lia.
  pose proof (Z.div_mod z (2 ^ Z.of_nat w)).
  pose proof (Z.mod_pos_bound z (2 ^ Z.of_nat w)).
  assert (Hq : z / 2 ^ Z.of_nat w = 0 \/ z / 2 ^ Z.of_nat w = 1).
  { assert (0 <= z / 2 ^ Z.of_nat w < 2); [|lia].
    split; [apply Z.div_pos; lia|]. apply Z.div_lt_upper_bound; lia. }
  rewrite Z.testbit_odd, Z.shiftr_div_pow2 by lia.
  destruct Hq as [E|E]; rewrite E in *; simpl; lia.
Qed.

Lemma print_mod w z w' : (w <= w')%nat -> print w (z mod 2 ^ Z.of_nat w') = print w z.
Proof.
  revert w'. induction w as [|w IH]; intros w' Hw; simpl; [done|].
  rewrite Z.mod_pow2_bits_low by lia. rewrite IH by lia. done.
Qed.

Lemma parse_print w z acc :
  0 <= z < 2 ^ Z.of_nat w -> parse_from acc (print w z) = Some (acc * 2 ^ Z.of_nat w + z).
Proof.
  revert z acc. induction w as [|w IH]; intros z acc Hz.
  { simpl in *. f_equal. lia. }
  rewrite (top_bit w z Hz) at 2. cbn [print].
  rewrite <- (print_mod w z w) by lia. pose proof (Z.mod_pos_bound z (2 ^ Z.of_nat w)).
  rewrite Nat2Z.inj_succ, Z.pow_succ_r by lia. cbn [parse_from].
  destruct (Z.testbit z (Z.of_nat w)); simpl; rewrite IH by lia; f_equal; lia.
Qed.

Lemma print_leb w a b :
  0 <= a < 2 ^ Z.of_nat w -> 0 <= b < 2 ^ Z.of_nat w ->
  (String.leb (print w a) (print w b) = true <-> a <= b).
Proof.
  revert a b. induction w as [|w IH]; intros a b Ha Hb.
  { simpl in *. split; [lia|done]. }
  rewrite (top_bit w a Ha) at 2. rewrite (top_bit w b Hb) at 2. cbn [print].
  pose proof (Z.mod_pos_bound a (2 ^ Z.of_nat w)). pose proof (Z.mod_pos_bound b (2 ^ Z.of_nat w)).
  rewrite <- (print_mod w a w), <- (print_mod w b w) by lia.
  specialize (IH (a mod 2 ^ Z.of_nat w) (b mod 2 ^ Z.of_nat w)).
  unfold String.leb in *. cbn [String.compare].
  destruct (Z.testbit a (Z.of_nat w)), (Z.testbit b (Z.of_nat w)); cbn;
    first [rewrite IH by lia; lia | split; [done|lia] | split; [lia|done]].
Qed.

#[local] Arguments print : simpl never.
#[local] Arguments parse_from : simpl never.

Definition time_text : TimeText := {|
  representable t := 0 <= t < 2 ^ 64;
  to_rfc3339 := print 64;
  parse_from_rfc3339 := parse_from 0;
|}.
Definition time_text_laws : @TimeTextLaws time_text.
Proof.
  split; simpl.
  - intros t Ht. by rewrite parse_print by lia.
  - intros t u Ht Hu. apply print_leb; lia.
Qed.

Definition uuid_text : UuidText := {|
  uuid_valid u := (u < 2 ^ 128)%N;
  uuid_to_string u := print 128 (Z.of_N u);
  uuid_parse_str s := Z.to_N <$> parse_from 0 s;
|}.
Definition uuid_text_laws : @UuidTextLaws uuid_text.
Proof.
  split; simpl. intros u Hu. rewrite parse_print by lia. cbn -[Z.add Z.mul Z.to_N Z.pow]. by rewrite Z.mul_0_l, Z.add_0_l, N2Z.id.
Qed.

(** The digits of a code, lowest first, without the leading one. *)
Fixpoint pos_text (p : positive) : string :=
  match p with
  | xH => EmptyString
  | xO p' => String "0" (pos_text p')
  | xI p' => String "1" (pos_text p')
  end.
Fixpoint pos_parse (s : string) : option positive :=
  match s with
  | EmptyString => Some xH
  | String c s' =>
      if Ascii.eqb c "1" then xI <$> pos_parse s'
      else if Ascii.eqb c "0" then xO <$> pos_parse s' else None
  end.
Lemma pos_parse_text p : pos_parse (pos_text p) = Some p.
Proof. by induction p as [p IH|p IH|]; simpl; rewrite ?IH. Qed.

(** Any countable type, through its code. *)
Definition serde_of_countable (A : Type) `{Countable A} : Serde A := {|
  to_json a := Some (pos_text (encode a));
  from_json s := p ← pos_parse s; decode p;
|}.
Definition serde_of_countable_laws (A : Type) `{Countable A} :
  @SerdeLaws A (serde_of_countable A).
Proof.
  split; simpl. intros a. eexists. split; [done|]. rewrite pos_parse_text. apply decode_encode.
Qed.
End Bits.

#[export] Instance json_countable : Countable json.
Proof.
  refine (inj_countable'
    (fun j => match j with
              | JNull => inl (inl tt) | JBool b => inl (inr b)
              | JNumber z => inr (inl z) | JString s => inr (inr s)
              end)
    (fun x => match x with
              | inl (inl _) => JNull | inl (inr b) => JBool b
              | inr (inl z) => JNumber z | inr (inr s) => JString s
              end) _).
  by intros [].
Defined.

(** A wire for event payloads, for the witnesses. *)
Definition payload_serde : Serde (gmap string json) := Bits.serde_of_countable (gmap string json).
Definition payload_serde_laws : @SerdeLaws _ payload_serde :=
  Bits.serde_of_countable_laws (gmap string json).
