(* ===== verification/Json.v ===== *)
(** * JSON values and their text

    [serde_json] reads and writes text; between that and the program's types
    are JSON values.  The text is the interface [JsonText] with the laws the
    program relies on (what is written is read back, and a value is written on
    one line); [Rfc] is an instance of it, a printer and a parser of the grammar
    of RFC 8259, so that theorems about text can be run on text.  [Wire] has
    the program's types as values. *)
From Stdlib Require Import Ascii DecimalString DecimalZ DecimalPos.
From S2P Require Import Prelude Codec.
#[local] Open Scope Z_scope.

(** A number that is not written as an integer is kept as its text; an object
    keeps the order of its members, and repeated names. *)
#[local] Unset Elimination Schemes.
Inductive value : Type :=
| VNull
| VBool (b : bool)
| VNumber (z : Z)
| VReal (literal : string)
| VString (s : string)
| VArray (vs : list value)
| VObject (members : list (string * value)).
#[local] Set Elimination Schemes.

Section ValueInd.
Context (P : value -> Prop).
Context (Hnull : P VNull) (Hbool : forall b, P (VBool b)) (Hnumber : forall z, P (VNumber z))
  (Hreal : forall s, P (VReal s)) (Hstring : forall s, P (VString s))
  (Harray : forall vs, Forall P vs -> P (VArray vs))
  (Hobject : forall m, Forall (fun kv => P kv.2) m -> P (VObject m)).
Fixpoint value_ind (v : value) : P v :=
  match v with
  | VNull => Hnull
  | VBool b => Hbool b
  | VNumber z => Hnumber z
  | VReal s => Hreal s
  | VString s => Hstring s
  | VArray vs => Harray vs
      ((fix go (l : list value) : Forall P l :=
          match l with [] => Forall_nil_2 _ | x :: l' => Forall_cons_2 _ _ _ (value_ind x) (go l') end) vs)
  | VObject m => Hobject m
      ((fix go (l : list (string * value)) : Forall (fun kv => P kv.2) l :=
          match l with [] => Forall_nil_2 _ | x :: l' => Forall_cons_2 _ _ _ (value_ind x.2) (go l') end) m)
  end.
End ValueInd.

(** The values the program writes: their numbers are integers. *)
Fixpoint plain (v : value) : bool :=
  match v with
  | VReal _ => false
  | VArray vs => forallb plain vs
  | VObject m => forallb (fun kv => plain kv.2) m
  | _ => true
  end.

(** The characters that end a line. *)
Definition breaks_line (c : ascii) : bool := Ascii.eqb c "010" || Ascii.eqb c "013".
Fixpoint one_line (s : string) : bool :=
  match s with
  | EmptyString => true
  | String c s' => negb (breaks_line c) && one_line s'
  end.
Definition newline : string := String "010" EmptyString.

(** [serde_json::to_string], [to_vec_pretty] and [from_str] at values. *)
Class JsonText : Type := {
  json_print : value -> string;
  json_pretty : value -> string;
  json_parse : string -> option value;
}.
Class JsonTextLaws `{!JsonText} : Prop := {
  json_round_trip : forall v, plain v = true -> json_parse (json_print v) = Some v;
  json_pretty_round_trip : forall v, plain v = true -> json_parse (json_pretty v) = Some v;
  json_one_line : forall v, one_line (json_print v) = true;
  (** White space after a value is skipped. *)
  json_line_round_trip : forall v, plain v = true -> json_parse (json_print v +:+ newline) = Some v;
}.

(** ** An instance: the grammar of RFC 8259 *)
Module Rfc.
Definition dquote : ascii := "034".
Definition backslash : ascii := "092".

Definition hex (n : nat) : ascii := ascii_of_nat (if (n <? 10)%nat then 48 + n else 87 + n).
Definition unhex (c : ascii) : option nat :=
  let n := nat_of_ascii c in
  if ((48 <=? n) && (n <=? 57))%nat then Some (n - 48)%nat
  else if ((97 <=? n) && (n <=? 102))%nat then Some (n - 87)%nat
  else if ((65 <=? n) && (n <=? 70))%nat then Some (n - 55)%nat else None.

Definition escape_char (c : ascii) : list ascii :=
  if Ascii.eqb c dquote then [backslash; dquote]
  else if Ascii.eqb c backslash then [backslash; backslash]
  else if Ascii.eqb c "008" then [backslash; "b"%char]
  else if Ascii.eqb c "009" then [backslash; "t"%char]
  else if Ascii.eqb c "010" then [backslash; "n"%char]
  else if Ascii.eqb c "012" then [backslash; "f"%char]
  else if Ascii.eqb c "013" then [backslash; "r"%char]
  else if (nat_of_ascii c <? 32)%nat then
    [backslash; "u"%char; "0"%char; "0"%char; hex (nat_of_ascii c / 16); hex (nat_of_ascii c mod 16)]
  else [c].

Definition render_string (s : string) : list ascii :=
  dquote :: concat (map escape_char (String.list_ascii_of_string s)) ++ [dquote].
Definition render_number (z : Z) : list ascii :=
  String.list_ascii_of_string (NilZero.string_of_int (Z.to_int z)).

Fixpoint separated (l : list (list ascii)) : list ascii :=
  match l with
  | [] => []
  | [x] => x
  | x :: l' => x ++ ","%char :: separated l'
  end.

Fixpoint render (v : value) : list ascii :=
  match v with
  | VNull => String.list_ascii_of_string "null"
  | VBool true => String.list_ascii_of_string "true"
  | VBool false => String.list_ascii_of_string "false"
  | VNumber z => render_number z
  | VReal s => List.filter (fun c => negb (breaks_line c)) (String.list_ascii_of_string s)
  | VString s => render_string s
  | VArray vs => "["%char :: separated (map render vs) ++ ["]"%char]
  | VObject m =>
      "{"%char :: separated (map (fun kv => render_string kv.1 ++ ":"%char :: render kv.2) m) ++ ["}"%char]
  end.

(** *** The parser *)
Definition is_ws (c : ascii) : bool :=
  Ascii.eqb c " " || Ascii.eqb c "009" || Ascii.eqb c "010" || Ascii.eqb c "013".
Fixpoint skip_ws (l : list ascii) : list ascii :=
  match l with
  | c :: l' => if is_ws c then skip_ws l' else l
  | [] => []
  end.

Definition unescape (c : ascii) : option ascii :=
  if Ascii.eqb c "b" then Some "008"%char
  else if Ascii.eqb c "t" then Some "009"%char
  else if Ascii.eqb c "n" then Some "010"%char
  else if Ascii.eqb c "f" then Some "012"%char
  else if Ascii.eqb c "r" then Some "013"%char
  else if Ascii.eqb c dquote || Ascii.eqb c backslash || Ascii.eqb c "/" then Some c
  else None.

(** The rest of a string; [\u] escapes of ASCII characters only. *)
Fixpoint parse_chars (l : list ascii) : option (list ascii * list ascii) :=
  match l with
  | [] => None
  | c :: l' =>
      if Ascii.eqb c dquote then Some ([], l')
      else if Ascii.eqb c backslash then
        match l' with
        | e :: l1 =>
            if Ascii.eqb e "u" then
              match l1 with
              | a :: b :: x :: y :: l2 =>
                  a ← unhex a; b ← unhex b; x ← unhex x; y ← unhex y;
                  let n := (16 * (16 * (16 * a + b) + x) + y)%nat in
                  if (n <? 128)%nat then
                    '(s, rest) ← parse_chars l2; Some (ascii_of_nat n :: s, rest)
                  else None
              | _ => None
              end
            else ch ← unescape e; '(s, rest) ← parse_chars l1; Some (ch :: s, rest)
        | [] => None
        end
      else if (nat_of_ascii c <? 32)%nat then None
      else '(s, rest) ← parse_chars l'; Some (c :: s, rest)
  end.
Definition parse_string (l : list ascii) : option (string * list ascii) :=
  match skip_ws l with
  | c :: l' =>
      if Ascii.eqb c dquote then
        '(s, rest) ← parse_chars l'; Some (String.string_of_list_ascii s, rest)
      else None
  | [] => None
  end.

(** Words: literals and numbers. *)
Definition in_word (c : ascii) : bool :=
  let n := nat_of_ascii c in
  ((48 <=? n) && (n <=? 57))%nat || ((97 <=? n) && (n <=? 122))%nat || ((65 <=? n) && (n <=? 90))%nat ||
  Ascii.eqb c "-" || Ascii.eqb c "+" || Ascii.eqb c ".".
Fixpoint span_word (l : list ascii) : list ascii * list ascii :=
  match l with
  | c :: l' => if in_word c then let '(w, r) := span_word l' in (c :: w, r) else ([], l)
  | [] => ([], [])
  end.
Definition digits (l : list ascii) : bool :=
  match l with
  | [] => false
  | _ => forallb (fun c => (48 <=? nat_of_ascii c) && (nat_of_ascii c <=? 57))%nat l
  end.
Definition split_at (p : ascii -> bool) (l : list ascii) : list ascii * option (list ascii) :=
  let fix go l := match l with
    | [] => ([], None)
    | c :: l' => if p c then ([], Some l') else let '(a, b) := go l' in (c :: a, b)
    end in go l.
(** [-? int frac? exp?] *)
Definition is_real (w : list ascii) : bool :=
  let w := match w with c :: w' => if Ascii.eqb c "-" then w' else w | [] => w end in
  let '(mantissa, e) := split_at (fun c => Ascii.eqb c "e" || Ascii.eqb c "E") w in
  let '(int, frac) := split_at (fun c => Ascii.eqb c ".") mantissa in
  digits int && (match int with c :: _ :: _ => negb (Ascii.eqb c "0") | _ => true end) &&
  (match frac with Some f => digits f | None => true end) &&
  (match e with
   | Some (c :: x) => if Ascii.eqb c "+" || Ascii.eqb c "-" then digits x else digits (c :: x)
   | Some [] => false
   | None => true
   end).
Definition parse_word (w : list ascii) : option value :=
  let s := String.string_of_list_ascii w in
  if String.eqb s "null" then Some VNull
  else if String.eqb s "true" then Some (VBool true)
  else if String.eqb s "false" then Some (VBool false)
  else match NilZero.int_of_string s with
       | Some i =>
           let z := Z.of_int i in
           if String.eqb (NilZero.string_of_int (Z.to_int z)) s then Some (VNumber z)
           else if is_real w then Some (VReal s) else None
       | None => if is_real w then Some (VReal s) else None
       end.

Fixpoint parse_value (fuel : nat) (l : list ascii) : option (value * list ascii) :=
  match fuel with
  | O => None
  | S fuel =>
      match skip_ws l with
      | [] => None
      | c :: l' =>
          if Ascii.eqb c dquote then '(s, r) ← parse_chars l'; Some (VString (String.string_of_list_ascii s), r)
          else if Ascii.eqb c "[" then
            match skip_ws l' with
            | d :: r =>
                if Ascii.eqb d "]" then Some (VArray [], r)
                else '(vs, r) ← parse_elements fuel l'; Some (VArray vs, r)
            | [] => None
            end
          else if Ascii.eqb c "{" then
            match skip_ws l' with
            | d :: r =>
                if Ascii.eqb d "}" then Some (VObject [], r)
                else '(m, r) ← parse_members fuel l'; Some (VObject m, r)
            | [] => None
            end
          else let '(w, r) := span_word (c :: l') in v ← parse_word w; Some (v, r)
      end
  end
with parse_elements (fuel : nat) (l : list ascii) : option (list value * list ascii) :=
  match fuel with
  | O => None
  | S fuel =>
      '(v, r) ← parse_value fuel l;
      match skip_ws r with
      | c :: r' =>
          if Ascii.eqb c "," then '(vs, r'') ← parse_elements fuel r'; Some (v :: vs, r'')
          else if Ascii.eqb c "]" then Some ([v], r') else None
      | [] => None
      end
  end
with parse_members (fuel : nat) (l : list ascii) : option (list (string * value) * list ascii) :=
  match fuel with
  | O => None
  | S fuel =>
      '(k, r) ← parse_string l;
      match skip_ws r with
      | c :: r1 =>
          if Ascii.eqb c ":" then
            '(v, r2) ← parse_value fuel r1;
            match skip_ws r2 with
            | d :: r' =>
                if Ascii.eqb d "," then '(m, r'') ← parse_members fuel r'; Some ((k, v) :: m, r'')
                else if Ascii.eqb d "}" then Some ([(k, v)], r') else None
            | [] => None
            end
          else None
      | [] => None
      end
  end.

(** Each call takes a character or goes down one of the two others, so twice
    the length is enough fuel. *)
Definition parse (s : string) : option value :=
  let l := String.list_ascii_of_string s in
  '(v, rest) ← parse_value (2 * length l + 2) l;
  match skip_ws rest with [] => Some v | _ => None end.
Definition print (v : value) : string := String.string_of_list_ascii (render v).

(** *** What is printed is read back *)
Lemma parse_escape c l :
  parse_chars (escape_char c ++ l) = ('(s, rest) ← parse_chars l; Some (c :: s, rest)).
Proof. by destruct c as [[] [] [] [] [] [] [] []]. Qed.

Lemma parse_escaped cs rest :
  parse_chars (concat (map escape_char cs) ++ dquote :: rest) = Some (cs, rest).
Proof. induction cs as [|c cs IH]; [done|]. simpl. by rewrite <- app_assoc, parse_escape, IH. Qed.

Lemma parse_string_render s rest : parse_string (render_string s ++ rest) = Some (s, rest).
Proof.
  unfold parse_string, render_string. simpl.
  rewrite <- app_assoc. simpl. rewrite parse_escaped. simpl.
  by rewrite String.string_of_list_ascii_of_string.
Qed.

(** A value ends where a word would. *)
Definition word_ends (l : list ascii) : Prop :=
  match l with c :: _ => in_word c = false | [] => True end.

Lemma span_word_app w rest : forallb in_word w = true -> word_ends rest ->
  span_word (w ++ rest) = (w, rest).
Proof.
  intros Hw Hr. induction w as [|c w IH]; simpl in *.
  - destruct rest as [|c rest]; [done|]. simpl in *. by rewrite Hr.
  - apply andb_true_iff in Hw as [-> Hw]. by rewrite IH.
Qed.

Lemma digits_in_word d : forallb in_word (String.list_ascii_of_string (NilEmpty.string_of_uint d)) = true.
Proof. by induction d. Qed.
Lemma number_in_word z : forallb in_word (render_number z) = true.
Proof.
  assert (Hd : forall d, forallb in_word (String.list_ascii_of_string (NilZero.string_of_uint d)) = true)
    by (intros d; pose proof (digits_in_word d); by destruct d).
  unfold render_number. destruct (Z.to_int z) as [d|d]; simpl; by rewrite Hd.
Qed.

Lemma number_read z : NilZero.int_of_string (NilZero.string_of_int (Z.to_int z)) = Some (Z.to_int z).
Proof. apply NilZero.isi; destruct z; simpl; try done; intros [= H]; by eapply Unsigned.to_uint_nonnil. Qed.

Lemma parse_number z : parse_word (render_number z) = Some (VNumber z).
Proof.
  unfold parse_word, render_number. rewrite String.string_of_list_ascii_of_string.
  pose proof (number_read z) as Hz.
  destruct (String.eqb_spec (NilZero.string_of_int (Z.to_int z)) "null") as [E|_]; [by rewrite E in Hz|].
  destruct (String.eqb_spec (NilZero.string_of_int (Z.to_int z)) "true") as [E|_]; [by rewrite E in Hz|].
  destruct (String.eqb_spec (NilZero.string_of_int (Z.to_int z)) "false") as [E|_]; [by rewrite E in Hz|].
  by rewrite Hz, DecimalZ.of_to, String.eqb_refl.
Qed.

(** How a value starts. *)
Definition opens_value (c : ascii) : bool :=
  in_word c || Ascii.eqb c dquote || Ascii.eqb c "[" || Ascii.eqb c "{".
Lemma opens_not c : opens_value c = true ->
  is_ws c = false /\ Ascii.eqb c "]" = false /\ Ascii.eqb c "}" = false.
Proof. by destruct c as [[] [] [] [] [] [] [] []]. Qed.
Lemma word_opens c : in_word c = true ->
  is_ws c = false /\ Ascii.eqb c dquote = false /\ Ascii.eqb c "[" = false /\ Ascii.eqb c "{" = false.
Proof. by destruct c as [[] [] [] [] [] [] [] []]. Qed.

Lemma number_nonempty z : exists c w, render_number z = c :: w.
Proof.
  unfold render_number, NilZero.string_of_int, NilZero.string_of_uint.
  destruct (Z.to_int z) as [[]|[]]; eauto.
Qed.

Lemma render_opens v : plain v = true -> exists c l, render v = c :: l /\ opens_value c = true.
Proof.
  destruct v as [|[]|z|s|s|vs|m]; intros H; try done; simpl; try by eexists _, _.
  destruct (number_nonempty z) as (c & w & E). exists c, w. split; [done|].
  pose proof (number_in_word z) as Hw. rewrite E in Hw. simpl in Hw.
  apply andb_true_iff in Hw as [Hc _]. unfold opens_value. by rewrite Hc.
Qed.

Lemma skip_render v rest : plain v = true -> skip_ws (render v ++ rest) = render v ++ rest.
Proof.
  intros Hv. destruct (render_opens v Hv) as (c & l & -> & Hc). simpl.
  by rewrite (proj1 (opens_not c Hc)).
Qed.

(** A word is read as itself. *)
Lemma parse_value_word fuel w v rest :
  w <> [] -> forallb in_word w = true -> parse_word w = Some v -> word_ends rest ->
  parse_value (S fuel) (w ++ rest) = Some (v, rest).
Proof.
  intros Hne Hw Hp Hr. destruct w as [|c w]; [done|].
  pose proof (span_word_app (c :: w) rest Hw Hr) as Hs. cbn [forallb] in Hw.
  apply andb_true_iff in Hw as [Hc _]. destruct (word_opens c Hc) as (H1 & H2 & H3 & H4).
  cbn [app] in *. cbn [parse_value skip_ws]. rewrite H1, H2, H3, H4, Hs. by rewrite Hp.
Qed.

(** The induction hypothesis on the parts of a value. *)
Definition reads_back (v : value) : Prop :=
  plain v = true -> forall fuel rest, (2 * length (render v) <= fuel)%nat -> word_ends rest ->
  parse_value fuel (render v ++ rest) = Some (v, rest).

Lemma elements_read vs : vs <> [] -> Forall reads_back vs -> forallb plain vs = true ->
  forall fuel rest, (2 * length (separated (map render vs)) + 1 <= fuel)%nat ->
  parse_elements fuel (separated (map render vs) ++ "]"%char :: rest) = Some (vs, rest).
Proof.
  induction vs as [|v vs IH]; [done|]. intros _ Hf Hp fuel rest Hfuel.
  apply Forall_cons in Hf as [Hv Hf]. cbn [forallb] in Hp. apply andb_true_iff in Hp as [Hpv Hp].
  destruct fuel as [|fuel]; [lia|]. cbn [parse_elements].
  destruct vs as [|v' vs].
  - cbn [map separated] in *. rewrite Hv by (done || lia). done.
  - cbn [map separated] in *. rewrite length_app in Hfuel. cbn [length] in Hfuel.
    rewrite <- app_assoc. rewrite Hv by (done || lia). cbn -[separated parse_elements].
    by rewrite IH by (done || (cbn [map separated]; lia)).
Qed.

Definition render_member (kv : string * value) : list ascii :=
  render_string kv.1 ++ ":"%char :: render kv.2.
Lemma separated_cons x y l : separated (x :: y :: l) = x ++ ","%char :: separated (y :: l).
Proof. done. Qed.

Lemma members_read m : m <> [] -> Forall (fun kv => reads_back kv.2) m ->
  forallb (fun kv => plain kv.2) m = true ->
  forall fuel rest, (2 * length (separated (map render_member m)) + 1 <= fuel)%nat ->
  parse_members fuel (separated (map render_member m) ++ "}"%char :: rest) = Some (m, rest).
Proof.
  induction m as [|[k v] m IH]; [done|]. intros _ Hf Hp fuel rest Hfuel.
  apply Forall_cons in Hf as [Hv Hf]. cbn [forallb snd] in Hp. apply andb_true_iff in Hp as [Hpv Hp].
  cbn [snd] in Hv. destruct fuel as [|fuel]; [lia|]. cbn [parse_members].
  destruct m as [|kv' m].
  - cbn [map separated] in *. unfold render_member in *. cbn [fst snd] in *.
    rewrite length_app in Hfuel. cbn [length] in Hfuel.
    rewrite <- app_assoc, parse_string_render. cbn -[parse_value render].
    by rewrite Hv by (done || lia).
  - assert (Hsep : separated (map render_member ((k, v) :: kv' :: m)) =
      render_string k ++ ":"%char :: render v ++ ","%char :: separated (map render_member (kv' :: m))).
    { rewrite !map_cons, separated_cons. unfold render_member at 1. by rewrite <- app_assoc. }
    rewrite Hsep in *. rewrite !length_app in Hfuel. cbn [length] in Hfuel. rewrite length_app in Hfuel.
    cbn [length] in Hfuel. rewrite <- app_assoc, parse_string_render.
    cbn -[parse_value parse_members render separated map].
    rewrite <- app_assoc. rewrite Hv by (done || lia).
    cbn -[parse_members render separated map]. by rewrite IH by (done || lia).
Qed.

Lemma render_reads_back v : reads_back v.
Proof.
  induction v as [|[]|z|s|s|vs IH|m IH] using value_ind; intros Hp fuel rest Hf Hr;
    (destruct fuel as [|fuel];
     [destruct (render_opens _ Hp) as (c & l & E & _); rewrite E in Hf; simpl in Hf; lia|]).
  - by apply (parse_value_word _ (String.list_ascii_of_string "null")).
  - by apply (parse_value_word _ (String.list_ascii_of_string "true")).
  - by apply (parse_value_word _ (String.list_ascii_of_string "false")).
  - apply (parse_value_word _ (render_number z)); [by destruct (number_nonempty z) as (c & w & ->)|apply number_in_word|apply parse_number|done].
  - done.
  - cbn [render]. unfold render_string. cbn -[parse_chars]. rewrite <- app_assoc. cbn [app].
    rewrite parse_escaped. simpl. by rewrite String.string_of_list_ascii_of_string.
  - destruct vs as [|v vs]; [done|]. change (forallb plain (v :: vs) = true) in Hp.
    destruct (render_opens v) as (c & l & E & Hc); [by apply andb_true_iff in Hp as [Hp _]|].
    assert (Hs : exists l', separated (map render (v :: vs)) = c :: l').
    { cbn [map]. rewrite E. destruct (map render vs); cbn; eauto. }
    pose proof (elements_read (v :: vs) ltac:(done) IH Hp fuel rest) as He.
    change (render (VArray (v :: vs))) with ("["%char :: separated (map render (v :: vs)) ++ ["]"%char]) in *.
    generalize dependent (separated (map render (v :: vs))). intros sep Hf [l' ->] He.
    destruct (opens_not c Hc) as (H1 & H2 & _). cbn [length] in *. rewrite length_app in Hf. cbn [length] in Hf.
    cbn -[parse_elements] in *. rewrite <- app_assoc, H1, H2. cbn [app]. by rewrite He by lia.
  - destruct m as [|kv m]; [done|]. change (forallb (fun kv => plain kv.2) (kv :: m) = true) in Hp.
    assert (Hs : exists l', separated (map render_member (kv :: m)) = dquote :: l')
      by (cbn [map]; destruct (map _ m); cbn; eauto).
    pose proof (members_read (kv :: m) ltac:(done) IH Hp fuel rest) as He.
    change (render (VObject (kv :: m))) with
      ("{"%char :: separated (map render_member (kv :: m)) ++ ["}"%char]) in *.
    generalize dependent (separated (map render_member (kv :: m))). intros sep Hf [l' ->] He.
    cbn [length] in *. rewrite length_app in Hf. cbn [length] in Hf.
    cbn -[parse_members] in *. rewrite <- app_assoc. cbn [app]. by rewrite He by lia.
Qed.

Lemma parse_render v rest : plain v = true -> word_ends rest -> skip_ws rest = [] ->
  parse (String.string_of_list_ascii (render v ++ rest)) = Some v.
Proof.
  intros Hv Hw Hr. unfold parse. rewrite String.list_ascii_of_string_of_list_ascii, length_app.
  rewrite (render_reads_back v Hv) by (done || lia). cbn. by rewrite Hr.
Qed.
Lemma print_parse v : plain v = true -> parse (print v) = Some v.
Proof. intros Hv. unfold print. rewrite <- (app_nil_r (render v)). by apply parse_render. Qed.

Lemma string_of_list_app l1 l2 : String.string_of_list_ascii (l1 ++ l2) =
  String.string_of_list_ascii l1 +:+ String.string_of_list_ascii l2.
Proof. induction l1 as [|c l1 IH]; [done|]. simpl. by rewrite IH. Qed.

(** *** One line *)
Definition no_newline (l : list ascii) : Prop := Forall (fun c => breaks_line c = false) l.
Lemma no_newline_one_line l : no_newline l -> one_line (String.string_of_list_ascii l) = true.
Proof. induction 1 as [|c l Hc Hl IH]; simpl; [done|]. by rewrite Hc, IH. Qed.
Lemma words_no_newline w : forallb in_word w = true -> no_newline w.
Proof.
  intros Hw. apply Forall_forall. intros c Hc. rewrite forallb_forall in Hw.
  apply list_elem_of_In in Hc. specialize (Hw c Hc). by destruct c as [[] [] [] [] [] [] [] []].
Qed.
Lemma string_no_newline s : no_newline (render_string s).
Proof.
  unfold render_string. constructor; [done|]. apply Forall_app. split; [|by repeat constructor].
  induction (String.list_ascii_of_string s) as [|c cs IH]; [constructor|]. simpl. apply Forall_app. split; [|done].
  destruct c as [[] [] [] [] [] [] [] []]; by repeat constructor.
Qed.
Lemma separated_no_newline l : Forall no_newline l -> no_newline (separated l).
Proof.
  induction 1 as [|x l Hx Hl IH]; [constructor|]. destruct l; [done|].
  cbn [separated]. apply Forall_app. split; [done|]. by constructor.
Qed.
Lemma render_no_newline v : no_newline (render v).
Proof.
  induction v as [|[]|z|s|s|vs IH|m IH] using value_ind; simpl; try (by repeat constructor).
  - apply words_no_newline, number_in_word.
  - apply Forall_forall. intros c Hc%list_elem_of_In. apply filter_In in Hc as [_ Hc].
    by apply negb_true_iff in Hc.
  - apply string_no_newline.
  - constructor; [done|]. apply Forall_app. split; [|by repeat constructor].
    apply separated_no_newline, Forall_map. done.
  - constructor; [done|]. apply Forall_app. split; [|by repeat constructor].
    apply separated_no_newline, Forall_map. eapply Forall_impl; [exact IH|].
    intros [k v] Hv. apply (Forall_app_2 _ (render_string k)); [apply string_no_newline|]. by constructor.
Qed.

Definition text : JsonText := {| json_print := print; json_pretty := print; json_parse := parse |}.
Definition text_laws : @JsonTextLaws text.
Proof.
  split; simpl; [apply print_parse|apply print_parse| |].
  - intros v. apply no_newline_one_line, render_no_newline.
  - intros v Hv. unfold print. change newline with (String.string_of_list_ascii ["010"%char]).
    rewrite <- string_of_list_app. by apply parse_render.
Qed.
End Rfc.
