(* ===== verification/Fs.v ===== *)
(** * The file operations the caches use ([std::fs])

    A file system maps paths to contents.  [write] is not atomic: when it is
    interrupted, by an error or a crash, any prefix of the new contents may be
    in the file; [rename] and [remove] happen entirely or not at all.  A run
    of operations carries an optional fault: the operation that fails (or
    during which the machine dies) and how much of a write got out. *)
From S2P Require Import Prelude.
From Stdlib Require Import String.
#[local] Open Scope Z_scope.

(** Directory, file stem and extension of a path. *)
Abbreviation path := (string * string * string)%type (only parsing).

Definition with_extension (e : string) (p : path) : path := let '(d, s, _) := p in (d, s, e).

Module Fs.
Abbreviation t := (gmap (string * string * string) string).

Inductive io_error : Type := NotFound | OtherIo.

Inductive op : Type :=
| Write (p : path) (contents : string)
| Rename (from to : path)
| Remove (p : path).

(** An operation that goes through; [Rename] and [Remove] need their file. *)
Definition step (o : op) (fs : t) : result io_error unit * t :=
  match o with
  | Write p c => (Ok tt, <[p := c]> fs)
  | Rename a b =>
      match fs !! a with
      | Some c => (Ok tt, <[b := c]> (delete a fs))
      | None => (Err NotFound, fs)
      end
  | Remove p =>
      match fs !! p with
      | Some _ => (Ok tt, delete p fs)
      | None => (Err NotFound, fs)
      end
  end.

(** The same operation cut short after [k] characters. *)
Definition torn (o : op) (k : nat) (fs : t) : t :=
  match o with
  | Write p c => <[p := String.substring 0 k c]> fs
  | Rename _ _ | Remove _ => fs
  end.

Definition fault : Type := option (nat * nat).

(** Runs operations with [?] between them: the first failure stops the run. *)
Fixpoint run (f : fault) (ops : list op) (fs : t) : result io_error unit * t :=
  match ops with
  | [] => (Ok tt, fs)
  | o :: ops' =>
      match f with
      | Some (O, k) => (Err OtherIo, torn o k fs)
      | _ =>
          let '(r, fs') := step o fs in
          match r with
          | Ok _ => run (match f with Some (S i, k) => Some (i, k) | _ => None end) ops' fs'
          | Err e => (Err e, fs')
          end
      end
  end.

Definition read_to_string (p : path) (fs : t) : option string := fs !! p.

(** "Temp file + rename": the write all three caches share. *)
Definition write_via_tmp (p : path) (contents : string) : list op :=
  let tmp := with_extension "json.tmp" p in [Write tmp contents; Rename tmp p].

Definition not_tmp (p : path) : Prop := with_extension "json.tmp" p <> p.

(** Whatever goes wrong, the target holds its old or its new contents. *)
Lemma write_via_tmp_atomic f p c fs :
  not_tmp p ->
  let '(r, fs') := run f (write_via_tmp p c) fs in
  (r = Ok tt -> fs' !! p = Some c) /\ (is_ok r = false -> fs' !! p = fs !! p).
Proof.
  unfold not_tmp. intros Hp. set (tmp := with_extension "json.tmp" p) in *.
  unfold write_via_tmp. fold tmp. simpl.
  destruct f as [[[|[|i]] k]|]; simpl;
    rewrite ?lookup_insert_eq; simpl;
    rewrite ?lookup_insert_eq, ?lookup_insert_ne by done; split; intros; by simplify_eq/=.
Qed.

Lemma write_via_tmp_ok p c fs :
  (run None (write_via_tmp p c) fs).1 = Ok tt.
Proof. simpl. by rewrite lookup_insert_eq. Qed.

(** Other files are untouched, the temporary one apart. *)
Lemma write_via_tmp_frame f p c fs q :
  q <> p -> q <> with_extension "json.tmp" p ->
  (run f (write_via_tmp p c) fs).2 !! q = fs !! q.
Proof.
  intros Hq Ht. unfold write_via_tmp. set (tmp := with_extension "json.tmp" p) in *. simpl.
  destruct f as [[[|[|i]] k]|]; simpl; rewrite ?lookup_insert_eq; simpl;
    repeat first [rewrite lookup_insert_ne by done | rewrite lookup_delete_ne by done]; done.
Qed.
End Fs.
