(* ===== verification/Schedule.v ===== *)
(** * The on/off schedule ([agent/src/schedule.rs])

    [Schedule] and its queries [active_window] and [next_off_at], the readiness rule
    [enforcement_ready], and the cache file: [load] and [save] over the file
    model of [Fs]. *)
From S2P Require Import Prelude Codec Fs.
#[local] Open Scope Z_scope.

Inductive PowerAction : Type := Sleep | Shutdown.

#[export] Instance PowerAction_eq_dec : EqDecision PowerAction.
Proof. solve_decision. Defined.

Definition event_name (a : PowerAction) : string :=
  match a with Sleep => "SUSPEND" | Shutdown => "SHUTDOWN" end.

(** A span [[off_at, on_at)] during which the device must not be on. *)
Record OffWindow : Type := mk_window { off_at : DateTime; on_at : DateTime }.

#[export] Instance OffWindow_eq_dec : EqDecision OffWindow.
Proof. solve_decision. Defined.

Module Schedule.
Record t : Type := mk {
  revision : string;
  action : PowerAction;
  timezone : string;
  windows : list OffWindow;
}.

#[export] Instance eq_dec : EqDecision t.
Proof. solve_decision. Defined.

Definition active_window (s : t) (now : DateTime) : option OffWindow :=
  List.find (fun w => (off_at w <=? now) && (now <? on_at w)) (windows s).

(** [Iterator::min] *)
Definition min_time (l : list DateTime) : option DateTime := min_by Z.compare l.

Definition next_off_at (s : t) (now : DateTime) : option DateTime :=
  min_time (filter (fun t => t > now) (map off_at (windows s))).

Section Cache.
Context `{!Serde t}.

Definition load (fs : Fs.t) (p : path) : option t :=
  text ← Fs.read_to_string p fs; from_json text.

(** [fault] is what goes wrong with the file operations, if anything. *)
Definition save (f : Fs.fault) (fs : Fs.t) (p : path) (schedule : option t)
  : result Fs.io_error unit * Fs.t :=
  match schedule with
  | None =>
      match Fs.run f [Fs.Remove p] fs with
      | (Err Fs.NotFound, fs') => (Ok tt, fs')
      | r => r
      end
  | Some s =>
      match to_json s with
      | Some text => Fs.run f (Fs.write_via_tmp p text) fs
      | None => (Err Fs.OtherIo, fs)
      end
  end.
End Cache.
End Schedule.
#[export] Existing Instance Schedule.eq_dec.

Definition enforcement_ready (synced : bool) (unsynced_for grace : Duration) : bool :=
  synced || (grace <=? unsynced_for).

Section ScheduleProperties.
Import Schedule.

Definition covers (w : OffWindow) (t : DateTime) : Prop := off_at w <= t < on_at w.

#[export] Instance covers_dec w t : Decision (covers w t).
Proof. unfold covers. apply _. Defined.

Lemma active_window_some s now w :
  active_window s now = Some w -> w ∈ windows s /\ covers w now.
Proof.
  intros [Hin Hb]%List.find_some. apply list_elem_of_In in Hin.
  apply andb_true_iff in Hb as [H1 H2]. unfold covers. split; [done|lia].
Qed.

Lemma active_window_none s now :
  active_window s now = None <-> forall w, w ∈ windows s -> ~ covers w now.
Proof.
  split.
  - intros Hn w Hin Hc. apply list_elem_of_In in Hin.
    pose proof (List.find_none _ _ Hn _ Hin) as Hf. unfold covers in Hc.
    apply andb_false_iff in Hf as [Hf|Hf]; lia.
  - intros H. destruct (active_window s now) as [w|] eqn:E; [|done].
    apply active_window_some in E as [Hin Hc]. by destruct (H w Hin).
Qed.

Lemma active_window_is_some s now :
  is_Some (active_window s now) <-> exists w, w ∈ windows s /\ covers w now.
Proof.
  split.
  - intros [w Hw]. exists w. by apply active_window_some.
  - intros (w & Hin & Hc). destruct (active_window s now) eqn:E; [done|].
    by destruct (proj1 (active_window_none s now) E w Hin).
Qed.

Lemma min_time_spec l m : min_time l = Some m -> m ∈ l /\ forall x, x ∈ l -> m <= x.
Proof.
  intros [Hin Hle]%min_by_spec.
  - split; [done|]. intros x Hx. by apply Z.compare_le_iff, Hle.
  - intros x. by rewrite Z.compare_refl.
  - intros x y. rewrite Z.compare_gt_iff, Z.compare_le_iff. lia.
  - intros x y z. rewrite !Z.compare_le_iff. lia.
Qed.

Lemma next_off_at_some s now t :
  next_off_at s now = Some t ->
  (exists w, w ∈ windows s /\ off_at w = t) /\ now < t /\
  forall w, w ∈ windows s -> now < off_at w -> t <= off_at w.
Proof.
  intros [Hin Hmin]%min_time_spec. apply list_elem_of_filter in Hin as [Ht Hin].
  apply list_elem_of_fmap in Hin as (w & -> & Hw). split; [by exists w|]. split; [lia|].
  intros w' Hw' Hlt. apply Hmin, list_elem_of_filter. split; [lia|].
  by apply list_elem_of_fmap_2.
Qed.

Lemma next_off_at_none s now :
  next_off_at s now = None -> forall w, w ∈ windows s -> off_at w <= now.
Proof.
  unfold next_off_at, min_time. rewrite min_by_none. intros Hf w Hw.
  destruct (decide (off_at w <= now)); [done|exfalso].
  assert (Hin : off_at w ∈ filter (fun t => t > now) (map off_at (windows s))).
  { apply list_elem_of_filter. split; [lia|]. by apply list_elem_of_fmap_2. }
  rewrite Hf in Hin. by apply not_elem_of_nil in Hin.
Qed.

(** A window is reported active exactly when [now] is inside one of the
    schedule's half-open spans, and the one reported contains [now]. *)
Lemma schedule_active_window_correct (s : Schedule.t) (now : DateTime) :
  match active_window s now with
  | Some w => w ∈ windows s /\ off_at w <= now < on_at w
  | None => forall w, w ∈ windows s -> ~ (off_at w <= now < on_at w)
  end.
Proof.
  destruct (active_window s now) eqn:E; [by apply active_window_some|].
  by apply active_window_none.
Qed.

(** Sleeping until [next_off_at] misses nothing: if no window contains
    [now], none contains any later instant before the start it returns, and
    if it returns none no window ever becomes active again. *)
Lemma schedule_quiet_until_next_off (s : Schedule.t) (now t : DateTime) :
  active_window s now = None -> now <= t ->
  (forall next, next_off_at s now = Some next -> t < next) ->
  active_window s t = None.
Proof.
  intros Hnone Ht Hnext. apply active_window_none. intros w Hw [H1 H2].
  rewrite active_window_none in Hnone. specialize (Hnone w Hw). unfold covers in Hnone.
  assert (Hlt : now < off_at w) by lia.
  destruct (next_off_at s now) as [n|] eqn:E.
  - specialize (Hnext n eq_refl). apply next_off_at_some in E as (_ & _ & Hmin).
    specialize (Hmin w Hw Hlt). lia.
  - pose proof (next_off_at_none s now E w Hw). lia.
Qed.

End ScheduleProperties.

(** A concrete [serde] for the witnesses. *)
#[export] Instance PowerAction_countable : Countable PowerAction.
Proof.
  refine (inj_countable' (fun a => match a with Sleep => true | Shutdown => false end)
    (fun b : bool => if b then Sleep else Shutdown) _). by intros [].
Defined.
#[export] Instance OffWindow_countable : Countable OffWindow.
Proof.
  refine (inj_countable' (fun w => (off_at w, on_at w)) (fun '(a, b) => mk_window a b) _).
  by intros [].
Defined.
#[export] Instance Schedule_countable : Countable Schedule.t.
Proof.
  refine (inj_countable'
    (fun s => (Schedule.revision s, Schedule.action s, Schedule.timezone s, Schedule.windows s))
    (fun '(r, a, z, w) => Schedule.mk r a z w) _). by intros [].
Defined.

