(* ===== verification/Messages.v ===== *)
(** * Administrator messages ([agent/src/messages.rs], and [AgentMessage] of
    [agent/src/protocol.rs])

    [MessageStore] with [apply] (merge a batch, advance the cursor, drop what
    has expired), [live], and the cache file. *)
From S2P Require Import Prelude Codec Fs.
#[local] Open Scope Z_scope.

Module AgentMessage.
Record t : Type := mk {
  seq : Z;
  id : Uuid;
  title : option string;
  body : string;
  created_at : DateTime;
  expires_at : DateTime;
}.

#[export] Instance eq_dec : EqDecision t.
Proof. solve_decision. Defined.

#[export] Instance countable : Countable t.
Proof.
  refine (inj_countable'
    (fun m => (seq m, id m, title m, body m, created_at m, expires_at m))
    (fun '(a, b, c, d, e, f) => mk a b c d e f) _). by intros [].
Defined.
End AgentMessage.
#[export] Existing Instances AgentMessage.eq_dec AgentMessage.countable.

Module MessageStore.
Import AgentMessage.

Record t : Type := mk { last_seq : Z; messages : list AgentMessage.t }.

Definition default : t := mk 0 [].

#[export] Instance eq_dec : EqDecision t.
Proof. solve_decision. Defined.

(** One turn of the loop over the incoming messages. *)
Definition apply_one (s : t) (m : AgentMessage.t) : t :=
  let last := Z.max (last_seq s) (seq m) in
  if existsb (fun m' => N.eqb (id m') (id m)) (messages s)
  then mk last (messages s)
  else mk last (messages s ++ [m]).

Definition apply (s : t) (incoming : list AgentMessage.t) (now : DateTime) : t * bool :=
  let merged := fold_left apply_one incoming s in
  let s' := mk (last_seq merged) (filter (fun m => expires_at m > now) (messages merged)) in
  (s', bool_decide (s' <> s)).

Definition live (s : t) (now : DateTime) : list AgentMessage.t :=
  filter (fun m => expires_at m > now) (messages s).

Section Cache.
Context `{!Serde t}.

(** A missing or unreadable file is an empty store. *)
Definition load (fs : Fs.t) (p : path) : t :=
  match Fs.read_to_string p fs with
  | None => default
  | Some text => match from_json text with Some s => s | None => default end
  end.

Definition save (f : Fs.fault) (fs : Fs.t) (p : path) (s : t)
  : result Fs.io_error unit * Fs.t :=
  match to_json s with
  | Some text => Fs.run f (Fs.write_via_tmp p text) fs
  | None => (Err Fs.OtherIo, fs)
  end.
End Cache.
End MessageStore.
#[export] Existing Instance MessageStore.eq_dec.

#[export] Instance MessageStore_countable : Countable MessageStore.t.
Proof.
  refine (inj_countable' (fun s => (MessageStore.last_seq s, MessageStore.messages s))
    (fun '(a, b) => MessageStore.mk a b) _). by intros [].
Defined.

Section MessageProperties.
Import AgentMessage MessageStore.

(** No message is stored twice. *)
Definition store_wf (s : MessageStore.t) : Prop := NoDup (map id (messages s)).

Lemma existsb_id l i : existsb (fun m' => N.eqb (id m') i) l = true <-> i ∈ map id l.
Proof.
  rewrite existsb_exists, list_elem_of_fmap. setoid_rewrite N.eqb_eq.
  setoid_rewrite <- list_elem_of_In. naive_solver.
Qed.

Lemma apply_one_spec s m :
  last_seq (apply_one s m) = Z.max (last_seq s) (seq m) /\
  ((id m ∈ map id (messages s) /\ messages (apply_one s m) = messages s) \/
   ((id m ∉ map id (messages s)) /\ messages (apply_one s m) = messages s ++ [m])).
Proof.
  unfold apply_one. destruct (existsb _ _) eqn:E.
  - rewrite existsb_id in E. auto.
  - rewrite <- not_true_iff_false, existsb_id in E. auto.
Qed.

Lemma merge_seq inc s :
  last_seq (fold_left apply_one inc s) = fold_left Z.max (map seq inc) (last_seq s).
Proof.
  revert s. induction inc as [|m inc IH]; intros s; simpl; [done|].
  rewrite IH. by rewrite (proj1 (apply_one_spec s m)).
Qed.

Lemma fold_max_ge l a : a <= fold_left Z.max l a /\ forall x, x ∈ l -> x <= fold_left Z.max l a.
Proof.
  revert a. induction l as [|y l IH]; intros a; simpl.
  { split; [lia|]. intros x Hx. by apply not_elem_of_nil in Hx. }
  destruct (IH (Z.max a y)) as [H1 H2]. split; [lia|].
  intros x [->|Hx]%elem_of_cons; [lia|auto].
Qed.

Lemma fold_max_attained l a : fold_left Z.max l a = a \/ fold_left Z.max l a ∈ l.
Proof.
  revert a. induction l as [|y l IH]; intros a; simpl; [by left|].
  destruct (IH (Z.max a y)) as [->|H]; [|by right; right].
  destruct (Z.max_spec a y) as [[_ ->]|[_ ->]]; [right; left | by left].
Qed.

Lemma merge_wf inc s : store_wf s -> store_wf (fold_left apply_one inc s).
Proof.
  revert s. induction inc as [|m inc IH]; intros s Hs; simpl; [done|]. apply IH.
  destruct (apply_one_spec s m) as [_ [[_ H]|[Hn H]]]; unfold store_wf; rewrite H; [done|].
  rewrite map_app. apply NoDup_app. repeat split; [done| |apply NoDup_singleton].
  intros x Hx ->%list_elem_of_singleton. done.
Qed.

Lemma merge_messages inc s m :
  m ∈ messages (fold_left apply_one inc s) -> m ∈ messages s \/ m ∈ inc.
Proof.
  revert s. induction inc as [|x inc IH]; intros s; simpl; [by left|].
  intros [H|H]%IH; [|by right; right].
  destruct (apply_one_spec s x) as [_ [[_ E]|[_ E]]]; rewrite E in H; [by left|].
  apply elem_of_app in H as [H| ->%list_elem_of_singleton]; [by left|right; left].
Qed.

Lemma merge_keeps inc s m : m ∈ messages s -> m ∈ messages (fold_left apply_one inc s).
Proof.
  revert s. induction inc as [|x inc IH]; intros s Hm; simpl; [done|]. apply IH.
  destruct (apply_one_spec s x) as [_ [[_ ->]|[_ ->]]]; [done|].
  apply elem_of_app. by left.
Qed.

Lemma merge_has_id inc s m :
  m ∈ inc -> id m ∈ map id (messages (fold_left apply_one inc s)).
Proof.
  revert s. induction inc as [|x inc IH]; intros s Hm; [by apply not_elem_of_nil in Hm|].
  simpl. apply elem_of_cons in Hm as [->|Hm]; [|by apply IH].
  destruct (apply_one_spec s x) as [_ [[H E]|[H E]]].
  - apply list_elem_of_fmap in H as (m' & -> & H').
    apply list_elem_of_fmap_2, merge_keeps. by rewrite E.
  - apply list_elem_of_fmap_2, merge_keeps. rewrite E. apply elem_of_app. right. left.
Qed.

Lemma merge_extra inc s :
  exists extra, messages (fold_left apply_one inc s) = messages s ++ extra /\
    Forall (fun m => m ∈ inc /\ id m ∉ map id (messages s)) extra.
Proof.
  revert s. induction inc as [|x inc IH]; intros s; simpl.
  { exists []. by rewrite app_nil_r. }
  destruct (IH (apply_one s x)) as (extra & E & Hf).
  destruct (apply_one_spec s x) as [_ [[_ Ex]|[Hn Ex]]]; rewrite Ex in *.
  - exists extra. split; [done|]. eapply Forall_impl; [exact Hf|].
    intros m [Hin Hm]. split; [by right|done].
  - exists (x :: extra). rewrite <- app_assoc in E. split; [done|].
    constructor; [split; [left|done]|]. eapply Forall_impl; [exact Hf|].
    intros m [Hin Hm]. split; [by right|].
    rewrite map_app, elem_of_app in Hm. tauto.
Qed.

(** Applying a batch of messages advances the cursor to the largest
    sequence number seen (never back), keeps ids unique, keeps every stored
    message that has not expired, stores nothing that has expired and
    nothing that was neither stored nor delivered, and holds every delivered
    id unless the message carrying it has expired. *)
Lemma messages_apply_correct (s : MessageStore.t) (inc : list AgentMessage.t) (now : DateTime) :
  let s' := (apply s inc now).1 in
  (last_seq s <= last_seq s' /\ (forall m, m ∈ inc -> seq m <= last_seq s') /\
   (last_seq s' = last_seq s \/ exists m, m ∈ inc /\ last_seq s' = seq m)) /\
  (store_wf s -> store_wf s') /\
  (forall m, m ∈ messages s -> now < expires_at m -> m ∈ messages s') /\
  (forall m, m ∈ messages s' -> now < expires_at m /\ (m ∈ messages s \/ m ∈ inc)) /\
  (forall m, m ∈ inc -> exists m', id m' = id m /\ (m' ∈ messages s' \/ expires_at m' <= now)).
Proof.
  simpl. rewrite merge_seq. pose proof (fold_max_ge (map seq inc) (last_seq s)) as [Hge Hall].
  split; [split; [done|split]|].
  - intros m Hm. by apply Hall, list_elem_of_fmap_2.
  - destruct (fold_max_attained (map seq inc) (last_seq s)) as [E|E]; [by left|right].
    apply list_elem_of_fmap in E as (m & E & Hm). by exists m.
  - repeat split.
    + intros Hs%(merge_wf inc). unfold store_wf in *. simpl. revert Hs.
      generalize (messages (fold_left apply_one inc s)). intros l Hl.
      eapply sublist_NoDup; [exact Hl|]. apply fmap_sublist, sublist_filter.
    + intros m Hm He. apply list_elem_of_filter. split; [lia|by apply merge_keeps].
    + apply list_elem_of_filter in H as [He _]. lia.
    + apply list_elem_of_filter in H as [_ H]. by apply merge_messages.
    + intros m Hm. pose proof (merge_has_id inc s m Hm) as Hid.
      apply list_elem_of_fmap in Hid as (m' & Hid & Hin). exists m'. split; [done|].
      destruct (decide (now < expires_at m')); [left|right; lia].
      apply list_elem_of_filter. split; [lia|done].
Qed.

(** Redelivery is harmless: when ids identify messages, applying the
    same batch again at the same time changes nothing and reports no
    change, so nothing is written to disk and nothing is shown twice. *)
Lemma messages_apply_idempotent (s : MessageStore.t) (inc : list AgentMessage.t) (now : DateTime) :
  (forall m m', m ∈ messages s ++ inc -> m' ∈ messages s ++ inc -> id m = id m' -> m = m') ->
  let s' := (apply s inc now).1 in
  apply s' inc now = (s', false).
Proof.
  intros Hid. set (s' := (apply s inc now).1). cbn zeta.
  assert (E : (apply s' inc now).1 = s').
  2: { unfold apply in *. cbn [fst] in E. rewrite E. f_equal.
       apply bool_decide_eq_false. by intros []. }
  destruct (messages_apply_correct s inc now) as ([_ [Hseq _]] & _ & _ & _ & _).
  fold s' in Hseq. unfold apply. cbn [fst]. rewrite merge_seq.
  destruct (merge_extra inc s') as (extra & Ee & Hf). rewrite Ee, filter_app.
  assert (Hx : filter (fun m => expires_at m > now) extra = []).
  { apply filter_none. rewrite Forall_forall in Hf. apply Forall_forall.
    intros m Hm Hexp. destruct (Hf m Hm) as [Hinc Hnid]. apply Hnid.
    pose proof (merge_has_id inc s m Hinc) as H.
    apply list_elem_of_fmap in H as (m' & Him & Hin').
    assert (m' = m) as ->.
    { apply Hid; [apply elem_of_app| apply elem_of_app; by right|done].
      by apply merge_messages in Hin'. }
    apply list_elem_of_fmap_2. unfold s', apply. cbn. apply list_elem_of_filter. done. }
  rewrite Hx, app_nil_r. unfold s', apply. cbn [fst last_seq messages]. f_equal.
  - rewrite merge_seq. fold s'. pose proof (fold_max_ge (map seq inc) (last_seq s)) as [_ Hall].
    destruct (fold_max_attained (map seq inc) (fold_left Z.max (map seq inc) (last_seq s)))
      as [E|E]; [done|].
    pose proof (Hall _ E). pose proof (fold_max_ge (map seq inc)
      (fold_left Z.max (map seq inc) (last_seq s))) as [? _]. lia.
  - rewrite list_filter_filter. apply list_filter_iff. intros m. tauto.
Qed.
End MessageProperties.

Lemma messages_apply_idempotent_witness :
  let m1 := AgentMessage.mk 3 1 None "dinner" 0 60 in
  let m2 := AgentMessage.mk 5 2 (Some "Hi"%string) "bed" 0 5 in
  let s' := (MessageStore.apply MessageStore.default [m1; m2; m1] 10).1 in
  s' = MessageStore.mk 5 [m1] /\ MessageStore.apply s' [m1; m2; m1] 10 = (s', false).
Proof.
  intros m1 m2 s'. split; [reflexivity|].
  apply (messages_apply_idempotent MessageStore.default [m1; m2; m1] 10).
  intros m m' Hm Hm'. simpl in Hm, Hm'.
  rewrite !elem_of_cons in Hm, Hm'.
  destruct Hm as [->|[->|[->|Hm]]]; [..|by apply not_elem_of_nil in Hm];
    destruct Hm' as [->|[->|[->|Hm']]]; first [by apply not_elem_of_nil in Hm' | done].
Defined.

(** The message cache, like the schedule's, is never left half written. *)
Lemma messages_cache_crash_safe `{!Serde MessageStore.t, !SerdeLaws MessageStore.t}
    (f : Fs.fault) (fs : Fs.t) (p : path) (s : MessageStore.t) :
  Fs.not_tmp p ->
  let '(r, fs') := MessageStore.save f fs p s in
  (r = Ok tt -> MessageStore.load fs' p = s) /\
  (is_ok r = false -> MessageStore.load fs' p = MessageStore.load fs p).
Proof.
  intros Hp. unfold MessageStore.save, MessageStore.load, Fs.read_to_string.
  destruct (serde_round_trip s) as (text & -> & Hfrom).
  pose proof (Fs.write_via_tmp_atomic f p text fs Hp) as Ha.
  destruct (Fs.run f (Fs.write_via_tmp p text) fs) as [r fs']. destruct Ha as [Hok Herr].
  split; intros Hr; [by rewrite (Hok Hr), Hfrom | by rewrite (Herr Hr)].
Qed.
