(* ===== verification/Clock.v ===== *)
(** * The trusted clock and SNTP ([agent/src/clock.rs])

    [TrustedClock]; the NTP timestamp conversions on bytes ([to_ntp],
    [from_ntp]), [request_packet], [parse_reply], [offset_ms], [delay_ms],
    [query] (after the sockets: what was received and when), [median] and
    [measure].  Bytes are [Z] below 256; [i64] arithmetic wraps, as it does in
    a release build. *)
From S2P Require Import Prelude.
#[local] Open Scope Z_scope.

Definition DEFAULT_NTP_SERVERS : list string :=
  ["time.cloudflare.com"; "time.windows.com"; "pool.ntp.org"]%string.
Definition QUERY_TIMEOUT : Duration := secs 2.
Definition MAX_ROUND_TRIP_MS : Z := 3000.
Definition NTP_UNIX_DELTA : Z := 2208988800.

Abbreviation byte := Z (only parsing).

Module TrustedClock.
Record t : Type := mk { enabled : bool; offset_ms : Z; synced : bool }.

Definition new (e : bool) : t := mk e 0 false.

(** [Utc::now() + milliseconds(offset)], the system clock given. *)
Definition now (c : t) (utc_now : DateTime) : DateTime := utc_now + millis (offset_ms c).

Definition set_offset_ms (c : t) (o : Z) : t := mk (enabled c) o true.

Definition is_ready (c : t) : bool := negb (enabled c) || synced c.
End TrustedClock.

(** [wrap_i64] after every operation; [/] truncates. *)
Definition offset_ms (t1 t2 t3 t4 : Z) : Z :=
  Z.quot (wrap_i64 (wrap_i64 (t2 - t1) + wrap_i64 (t3 - t4))) 2.

Definition delay_ms (t1 t2 t3 t4 : Z) : Z :=
  wrap_i64 (wrap_i64 (t4 - t1) - wrap_i64 (t3 - t2)).

(** [u32::to_be_bytes] / [u32::from_be_bytes]. *)
Definition to_be_bytes (x : Z) : list byte :=
  [Z.shiftr x 24 mod 256; Z.shiftr x 16 mod 256; Z.shiftr x 8 mod 256; x mod 256].
Definition from_be_bytes (b : list byte) : Z :=
  fold_left (fun acc x => Z.lor (Z.shiftl acc 8) x) b 0.

(** [div_euclid] and [rem_euclid] by 1000 are [Z.div] and [Z.modulo]. *)
Definition to_ntp (unix_ms : Z) : list byte :=
  let s := wrap_u32 (unix_ms / 1000 + NTP_UNIX_DELTA) in
  let frac := Z.shiftl (unix_ms mod 1000) 32 / 1000 in
  to_be_bytes s ++ to_be_bytes (wrap_u32 frac).

Definition from_ntp (bytes : list byte) : Z :=
  let s := from_be_bytes (take 4 bytes) in
  let frac := from_be_bytes (take 4 (drop 4 bytes)) in
  let s := if Z.land s 0x80000000 =? 0 then s + Z.shiftl 1 32 else s in
  (s - NTP_UNIX_DELTA) * 1000 + Z.shiftr (frac * 1000) 32.

Definition zeros (n : nat) : list byte := replicate n 0.

Definition request_packet (t1_ms : Z) : list byte :=
  (<[0%nat := 0x23]> (zeros 40)) ++ to_ntp t1_ms.

Inductive ntp_error : Type :=
| ShortReply (len : nat)
| NotServerMode
| Unsynchronised
| UnusableStratum (stratum : byte)
| RequestMismatch
| NoTransmitTime
| WrongSender
| TooSlow (delay : Z)
| NoAnswer.

(** The bytes [from..to) of a slice. *)
Definition slice (from to : nat) (l : list byte) : list byte := take (to - from) (drop from l).

Definition nth_byte (l : list byte) (i : nat) : byte := default 0 (l !! i).

Definition parse_reply (reply request : list byte) : result ntp_error (Z * Z) :=
  if (length reply <? 48)%nat then Err (ShortReply (length reply))
  else if negb (Z.land (nth_byte reply 0) 7 =? 4) then Err NotServerMode
  else if Z.shiftr (nth_byte reply 0) 6 =? 3 then Err Unsynchronised
  else if negb ((1 <=? nth_byte reply 1) && (nth_byte reply 1 <=? 15))
    then Err (UnusableStratum (nth_byte reply 1))
  else if negb (bool_decide (slice 24 32 reply = slice 40 48 request)) then Err RequestMismatch
  else if forallb (fun b => b =? 0) (slice 40 48 reply) then Err NoTransmitTime
  else Ok (from_ntp (slice 32 40 reply), from_ntp (slice 40 48 reply)).

(** What the sockets of [query] gave: nothing (resolution, bind, send or
    receive failed, or the timeout passed) or a datagram, its sender being
    the address asked or another, with the local times around the exchange.
    The payload is what [recv_from] left in the 128-byte buffer. *)
Record exchange : Type := mk_exchange {
  ex_t1 : Z;
  ex_received : option (list byte * bool);  (* payload, sender matches *)
  ex_t4 : Z;
}.

Definition query (x : exchange) : result ntp_error Z :=
  let request := request_packet (ex_t1 x) in
  match ex_received x with
  | None => Err NoAnswer
  | Some (payload, same_sender) =>
      let reply := payload in
      if negb same_sender then Err WrongSender else
      '(t2, t3) ← parse_reply reply request;
      let delay := delay_ms (ex_t1 x) t2 t3 (ex_t4 x) in
      if negb ((0 <=? delay) && (delay <=? MAX_ROUND_TRIP_MS)) then Err (TooSlow delay)
      else Ok (offset_ms (ex_t1 x) t2 t3 (ex_t4 x))
  end.

(** The mid pair is averaged with [i64] addition and truncating division. *)
Definition median (values : list Z) : option Z :=
  match values with
  | [] => None
  | _ =>
      let sorted := isort Z.leb values in
      let mid := (length sorted / 2)%nat in
      Some (if (length sorted mod 2 =? 1)%nat then default 0 (sorted !! mid)
            else Z.quot (wrap_i64 (default 0 (sorted !! (mid - 1)%nat) + default 0 (sorted !! mid))) 2)
  end.

(** One exchange per configured server. *)
Definition measure (exchanges : list exchange) : option Z :=
  median (omap (fun x => result_ok (query x)) exchanges).

(** ** Lemmas on the byte conversions *)
Lemma be_bytes_round_trip x : 0 <= x < 2 ^ 32 -> from_be_bytes (to_be_bytes x) = x.
Proof.
  intros Hx. unfold to_be_bytes, from_be_bytes. cbn [fold_left].
  rewrite !Z.shiftr_div_pow2 by lia. change 256 with (2 ^ 8).
  rewrite !lor_shiftl_add by (lia || apply Z.mod_pos_bound; lia).
  Z.to_euclidean_division_equations. lia.
Qed.

Lemma land_top_bit x : 0 <= x < 2 ^ 32 -> (Z.land x 0x80000000 =? 0) = (x <? 2 ^ 31).
Proof.
  intros Hx. change 0x80000000 with (Z.shiftl 1 31).
  assert (Hl : Z.land x (Z.shiftl 1 31) = if Z.testbit x 31 then 2 ^ 31 else 0).
  { apply Z.bits_inj'. intros n Hn. rewrite Z.land_spec.
    destruct (decide (n = 31)) as [->|Hne].
    - replace (Z.testbit (Z.shiftl 1 31) 31) with true by reflexivity.
      rewrite andb_true_r. by destruct (Z.testbit x 31).
    - replace (Z.testbit (Z.shiftl 1 31) n) with false.
      + rewrite andb_false_r. destruct (Z.testbit x 31); [|by rewrite Z.bits_0].
        rewrite Z.pow2_bits_false; [done|lia].
      + change (Z.shiftl 1 31) with (2 ^ 31). rewrite Z.pow2_bits_false; [done|lia]. }
  rewrite Hl. rewrite Z.testbit_odd, Z.shiftr_div_pow2 by lia.
  assert (Hq : x / 2 ^ 31 = 0 /\ x < 2 ^ 31 \/ x / 2 ^ 31 = 1 /\ 2 ^ 31 <= x).
  { Z.to_euclidean_division_equations. lia. }
  destruct Hq as [[-> Hq]|[-> Hq]]; simpl Z.odd; cbn iota; symmetry.
  - by apply Z.ltb_lt.
  - by apply Z.ltb_ge.
Qed.

Lemma length_to_ntp ms : length (to_ntp ms) = 8%nat.
Proof. reflexivity. Qed.

(** From 1968-01-20T03:14:08Z to 2104-02-26T09:42:24Z, in Unix milliseconds:
    the span the era rule of [from_ntp] can tell apart. *)
Definition ntp_range (ms : Z) : Prop := -61505152000 <= ms < 4233462144000.

Lemma from_ntp_frac r : 0 <= r < 1000 ->
  let frac := Z.shiftl r 32 / 1000 in
  0 <= frac < 2 ^ 32 /\ r - 1 <= Z.shiftr (frac * 1000) 32 <= r.
Proof.
  intros Hr. cbn zeta. rewrite Z.shiftl_mul_pow2, Z.shiftr_div_pow2 by lia.
  Z.to_euclidean_division_equations. lia.
Qed.

Section ClockProperties.
(** Converting Unix milliseconds to a 64-bit NTP timestamp and back
    loses at most one millisecond, across the 2036 era change, for every
    instant from 1968 to 2104. *)
Lemma ntp_round_trip (ms : Z) :
  ntp_range ms -> ms - 1 <= from_ntp (to_ntp ms) <= ms.
Proof.
  unfold ntp_range. intros Hms. unfold to_ntp, from_ntp.
  change (take 4 (to_be_bytes ?a ++ to_be_bytes ?b)) with (to_be_bytes a).
  change (take 4 (drop 4 (to_be_bytes ?a ++ to_be_bytes ?b))) with (to_be_bytes b).
  pose proof (Z.mod_pos_bound ms 1000 ltac:(lia)) as Hr.
  destruct (from_ntp_frac _ Hr) as [Hf Hb]. rewrite (wrap_u32_id (Z.shiftl _ _ / _)) by done.
  assert (Hw : 0 <= wrap_u32 (ms / 1000 + NTP_UNIX_DELTA) < 2 ^ 32)
    by (apply Z.mod_pos_bound; lia).
  rewrite !be_bytes_round_trip, land_top_bit by done.
  assert (Hs : (if wrap_u32 (ms / 1000 + NTP_UNIX_DELTA) <? 2 ^ 31
                then wrap_u32 (ms / 1000 + NTP_UNIX_DELTA) + Z.shiftl 1 32
                else wrap_u32 (ms / 1000 + NTP_UNIX_DELTA)) = ms / 1000 + NTP_UNIX_DELTA).
  { change (Z.shiftl 1 32) with (2 ^ 32). unfold wrap_u32, NTP_UNIX_DELTA in *.
    destruct (Z.ltb_spec ((ms / 1000 + 2208988800) mod 2 ^ 32) (2 ^ 31));
      Z.to_euclidean_division_equations; lia. }
  rewrite Hs. pose proof (Z.div_mod ms 1000). lia.
Qed.

Lemma ntp_round_trip_witness :
  ntp_range 1792695600123 /\
  1792695600122 <= from_ntp (to_ntp 1792695600123) <= 1792695600123.
Proof.
  assert (Hr : ntp_range 1792695600123) by (unfold ntp_range; lia).
  split; [exact Hr|]. exact (ntp_round_trip 1792695600123 Hr).
Defined.

(** [parse_reply] accepts exactly the datagrams that are long enough,
    in server mode, synchronised, with stratum 1 to 15, that echo the
    transmit time of our request and carry a transmit time; and it returns
    the receive and transmit times they carry. *)
Lemma parse_reply_accepts (reply request : list byte) (t2 t3 : Z) :
  parse_reply reply request = Ok (t2, t3) <->
  (48 <= length reply)%nat /\ Z.land (nth_byte reply 0) 7 = 4 /\
  Z.shiftr (nth_byte reply 0) 6 <> 3 /\ 1 <= nth_byte reply 1 <= 15 /\
  slice 24 32 reply = slice 40 48 request /\
  (exists b, b ∈ slice 40 48 reply /\ b <> 0) /\
  t2 = from_ntp (slice 32 40 reply) /\ t3 = from_ntp (slice 40 48 reply).
Proof.
  unfold parse_reply.
  assert (Hz : forallb (fun b => b =? 0) (slice 40 48 reply) = false <->
               exists b, b ∈ slice 40 48 reply /\ b <> 0).
  { rewrite <- not_true_iff_false, forallb_forall. split.
    - intros H. destruct (decide (Forall (fun b => b = 0) (slice 40 48 reply))) as [Hf|Hf].
      + destruct H. intros x Hx%list_elem_of_In. rewrite Forall_forall in Hf.
        by apply Z.eqb_eq, Hf.
      + apply not_Forall_Exists in Hf; [|apply _]. by apply Exists_exists in Hf.
    - intros (b & Hb & Hn) H. apply Hn, Z.eqb_eq, H. by apply list_elem_of_In. }
  repeat match goal with |- context [if ?b then Err _ else _] => destruct b eqn:? end;
    rewrite ?Nat.ltb_lt, ?Nat.ltb_ge, ?negb_true_iff, ?negb_false_iff, ?Z.eqb_eq, ?Z.eqb_neq,
      ?andb_true_iff, ?andb_false_iff, ?Z.leb_le, ?Z.leb_gt, ?bool_decide_eq_true,
      ?bool_decide_eq_false in *;
    (split; [intros; simplify_eq; repeat split; try tauto; lia
            |intros (? & ? & ? & ? & ? & ? & -> & ->); try done; exfalso; try tauto; try lia]).
  all: rewrite <- Hz in *; congruence.
Qed.

Lemma request_transmit_slice t : slice 40 48 (request_packet t) = to_ntp t.
Proof. reflexivity. Qed.

(** No datagram answers two requests: one accepted for the request sent
    at [t] is refused for any request sent two milliseconds or more away,
    so replayed, stale and blindly spoofed replies do not move the clock. *)
Lemma stale_reply_rejected (reply : list byte) (t t' : Z) (stamps : Z * Z) :
  ntp_range t -> ntp_range t' -> 2 <= Z.abs (t - t') ->
  parse_reply reply (request_packet t) = Ok stamps ->
  is_ok (parse_reply reply (request_packet t')) = false.
Proof.
  intros Ht Ht' Hd Hp. destruct stamps as [t2 t3].
  apply parse_reply_accepts in Hp as (_ & _ & _ & _ & He & _).
  destruct (parse_reply reply (request_packet t')) as [[t2' t3']|] eqn:Hp'; [|done].
  apply parse_reply_accepts in Hp' as (_ & _ & _ & _ & He' & _).
  rewrite request_transmit_slice in He, He'.
  assert (Heq : to_ntp t = to_ntp t') by congruence.
  pose proof (ntp_round_trip t Ht). pose proof (ntp_round_trip t' Ht').
  rewrite Heq in *. lia.
Qed.

Definition sample_reply (t t2 t3 : Z) : list byte :=
  [0x24; 2] ++ zeros 22 ++ to_ntp t ++ to_ntp t2 ++ to_ntp t3.

Lemma stale_reply_rejected_witness :
  let r := sample_reply 1792695600000 1792695600010 1792695600011 in
  parse_reply r (request_packet 1792695600000) = Ok (1792695600009, 1792695600010) /\
  is_ok (parse_reply r (request_packet 1792695700000)) = false.
Proof.
  set (r := sample_reply 1792695600000 1792695600010 1792695600011).
  assert (Hp : parse_reply r (request_packet 1792695600000) = Ok (1792695600009, 1792695600010))
    by (vm_compute; reflexivity).
  split; [exact Hp|].
  apply (stale_reply_rejected r 1792695600000 1792695700000
           (1792695600009, 1792695600010)); [unfold ntp_range; lia..|lia|exact Hp].
Defined.

(** Timestamps (milliseconds) for which no [i64] operation overflows. *)
Definition small (t : Z) : Prop := - 2 ^ 60 <= t < 2 ^ 60.

Lemma offset_delay_small t1 t2 t3 t4 : small t1 -> small t2 -> small t3 -> small t4 ->
  offset_ms t1 t2 t3 t4 = Z.quot ((t2 - t1) + (t3 - t4)) 2 /\
  delay_ms t1 t2 t3 t4 = (t4 - t1) - (t3 - t2).
Proof.
  unfold small, offset_ms, delay_ms. intros.
  rewrite (wrap_i64_id (t2 - t1)), (wrap_i64_id (t3 - t4)), (wrap_i64_id (t4 - t1)),
    (wrap_i64_id (t3 - t2)), !wrap_i64_id by (unfold in_i64; lia). done.
Qed.

(** C33. The measured offset is right to within half the round trip.  If the
    server's clock is [theta] ms ahead of ours, the request takes [d1], the
    server [p] and the reply [d2] ms (none negative), an accepted exchange
    reports an offset within half the round trip [d1 + d2] (and half a
    millisecond of truncation), so at most 1500 ms, of [theta]. *)
Theorem query_offset_accuracy (t1 theta d1 p d2 : Z) (payload : list byte) (o : Z) :
  0 <= d1 -> 0 <= p -> 0 <= d2 ->
  Forall small [t1; t1 + d1 + theta; t1 + d1 + theta + p; t1 + d1 + p + d2] ->
  parse_reply payload (request_packet t1) = Ok (t1 + d1 + theta, t1 + d1 + theta + p) ->
  query (mk_exchange t1 (Some (payload, true)) (t1 + d1 + p + d2)) = Ok o ->
  d1 + d2 <= MAX_ROUND_TRIP_MS /\ 2 * Z.abs (o - theta) <= d1 + d2 + 1 /\ Z.abs (o - theta) <= 1500.
Proof.
  intros Hd1 Hp Hd2 Hsm Hparse. repeat setoid_rewrite Forall_cons in Hsm.
  destruct Hsm as (H1 & H2 & H3 & H4 & _).
  unfold query. cbn [ex_received ex_t1 ex_t4 negb]. rewrite Hparse. simpl.
  destruct (offset_delay_small _ _ _ _ H1 H2 H3 H4) as [-> ->].
  destruct (negb _) eqn:E; [done|]. intros [= <-].
  apply negb_false_iff, andb_true_iff in E as [_ E%Z.leb_le].
  unfold MAX_ROUND_TRIP_MS in *. Z.to_euclidean_division_equations. lia.
Qed.

Lemma query_offset_accuracy_witness :
  let t1 := 1792695600000 in
  let payload := sample_reply t1 (t1 + 3600011) (t1 + 3600016) in
  query (mk_exchange t1 (Some (payload, true)) (t1 + 45)) = Ok 3599990 /\
  2 * Z.abs (3599990 - 3600000) <= 10 + 30 + 1.
Proof.
  set (t1 := 1792695600000). set (payload := sample_reply t1 (t1 + 3600011) (t1 + 3600016)).
  assert (Hq : query (mk_exchange t1 (Some (payload, true)) (t1 + 45)) = Ok 3599990)
    by (vm_compute; reflexivity).
  split; [exact Hq|].
  apply (query_offset_accuracy t1 3600000 10 5 30 payload 3599990); try lia.
  - unfold small, t1. repeat constructor; lia.
  - vm_compute. reflexivity.
  - exact Hq.
Defined.

Lemma zleb_total x y : (x <=? y) = true \/ (y <=? x) = true.
Proof. rewrite !Z.leb_le. lia. Qed.
Lemma zleb_trans x y z : (x <=? y) = true -> (y <=? z) = true -> (x <=? z) = true.
Proof. rewrite !Z.leb_le. lia. Qed.

(** In a sorted list, too few small elements to reach position [k]. *)
Lemma sorted_lookup_lo l k v lo :
  StronglySorted (fun a b => (a <=? b) = true) l -> l !! k = Some v ->
  (length (filter (fun x => (x < lo)%Z) l) <= k)%nat -> lo <= v.
Proof.
  intros Hs Hk Hc. destruct (Z.lt_ge_cases v lo) as [Hv|]; [exfalso|done].
  revert k Hk Hc. induction Hs as [|a l Hs IH Ha]; intros k Hk Hc; [done|].
  assert (Hav : a < lo).
  { destruct k as [|k]; simpl in Hk; [by simplify_eq|].
    apply list_elem_of_lookup_2 in Hk. rewrite Forall_forall in Ha.
    specialize (Ha _ Hk). lia. }
  rewrite filter_cons_True in Hc by done. simpl in Hc.
  destruct k as [|k]; simpl in Hk; [lia|]. eapply IH; [exact Hk|lia].
Qed.

Lemma sorted_lookup_hi l k v hi :
  StronglySorted (fun a b => (a <=? b) = true) l -> l !! k = Some v ->
  (length (filter (fun x => (hi < x)%Z) l) < length l - k)%nat -> v <= hi.
Proof.
  intros Hs Hk Hc. destruct (Z.lt_ge_cases hi v) as [Hv|]; [exfalso|lia].
  revert k Hk Hc. induction Hs as [|a l Hs IH Ha]; intros k Hk Hc; [done|].
  destruct k as [|k]; simpl in Hk.
  - simplify_eq. rewrite filter_all in Hc; [simpl in Hc; lia|].
    constructor; [done|]. eapply Forall_impl; [exact Ha|]. simpl. intros. lia.
  - eapply IH; [exact Hk|]. simpl in Hc.
    rewrite filter_cons in Hc. case_decide; simpl in Hc; lia.
Qed.

Definition inside (lo hi x : Z) : Prop := lo <= x <= hi.
#[export] Instance inside_dec lo hi x : Decision (inside lo hi x).
Proof. unfold inside. apply _. Defined.

Lemma outside_counts lo hi l : lo <= hi ->
  (length (filter (fun x => (x < lo)%Z) l) + length (filter (fun x => (hi < x)%Z) l) =
   length (filter (fun x => ~ inside lo hi x) l))%nat.
Proof.
  intros Hlh. induction l as [|a l IH]; [done|]. unfold inside in *.
  rewrite !filter_cons. repeat case_decide; simpl; lia.
Qed.

(** C34. A minority of wrong servers cannot move the clock: if fewer than
    half of the measured offsets lie outside an interval, the median lies
    inside it, whatever the others are; and a median exists as soon as one
    server answered. *)
Theorem median_resists_minority (lo hi : Z) (values : list Z) :
  small lo -> small hi -> lo <= hi ->
  (2 * length (filter (fun v => ~ inside lo hi v) values) < length values)%nat ->
  exists m, median values = Some m /\ inside lo hi m.
Proof.
  unfold small. intros Hlo Hhi Hlh Hmaj. destruct values as [|v0 vs]; [simpl in Hmaj; lia|].
  unfold median. set (values := v0 :: vs) in *. clearbody values. set (l := isort Z.leb values).
  pose proof (isort_perm Z.leb values) as Hp. fold l in Hp.
  pose proof (isort_sorted Z.leb zleb_total zleb_trans values) as Hs. fold l in Hs.
  rewrite <- (outside_counts lo hi _ Hlh) in Hmaj. rewrite <- !Hp in Hmaj. clearbody l.
  pose proof (Nat.div_mod_eq (length l) 2) as Hdm.
  pose proof (Nat.mod_upper_bound (length l) 2 ltac:(lia)) as Hmb.
  set (mid := (length l / 2)%nat) in *. clearbody mid.
  assert (Hin : forall k, (k < length l)%nat ->
    (length (filter (fun x => (x < lo)%Z) l) <= k)%nat ->
    (length (filter (fun x => (hi < x)%Z) l) < length l - k)%nat ->
    inside lo hi (default 0 (l !! k))).
  { intros k Hk H1 H2. destruct (lookup_lt_is_Some_2 l k Hk) as [v Hv]. rewrite Hv. simpl.
    split; [by eapply sorted_lookup_lo|by eapply sorted_lookup_hi]. }
  destruct (Nat.eqb_spec (length l mod 2) 1) as [Ho|Ho]; (eexists; split; [done|]).
  - apply Hin; lia.
  - assert (H1 : inside lo hi (default 0 (l !! (mid - 1)%nat))) by (apply Hin; lia).
    assert (H2 : inside lo hi (default 0 (l !! mid))) by (apply Hin; lia).
    unfold inside in *. rewrite wrap_i64_id by (unfold in_i64; lia).
    Z.to_euclidean_division_equations. lia.
Qed.

Lemma median_resists_minority_witness :
  (exists m, median [5; 3600000; 7] = Some m /\ inside 0 10 m) /\
  (exists m, median [10; 20; 15; - 99999999] = Some m /\ inside 10 20 m).
Proof.
  split; apply median_resists_minority; unfold small; simpl; try lia; vm_compute; lia.
Defined.
End ClockProperties.
