(* ===== verification/Protocol.v ===== *)
(** * Wire types ([agent/src/protocol.rs])

    The enums with the names [serde] gives them under
    [rename_all = "SCREAMING_SNAKE_CASE"], and the request and response
    records.  [AgentMessage] is in [Messages]. *)
From S2P Require Import Prelude Schedule.
From Stdlib Require Import Ascii.
#[local] Open Scope Z_scope.

Module EventType.
Inductive t : Type :=
| AgentStarted | AgentStopping | AgentError
| ControllerDiscoveryStarted | ControllerDiscovered | ControllerDiscoveryFailed
| ControllerConnected | ControllerDisconnected
| RegistrationSucceeded | RegistrationFailed | HeartbeatSent
| UserLogon | UserLogoff | UserLock | UserUnlock | Active | Inactive
| SessionConnected | SessionDisconnected
| SystemBoot | SystemShutdown | SystemSuspend | SystemResume
| SystemTimeChanged | TimeZoneChanged | IdleStarted | IdleEnded
| SupervisoryWarning | PolicyViolation
| PowerActionRequested | PowerActionCompleted | PowerActionFailed.

#[export] Instance eq_dec : EqDecision t.
Proof. solve_decision. Defined.

Definition ident (e : t) : string :=
  match e with
  | AgentStarted => "AgentStarted" | AgentStopping => "AgentStopping"
  | AgentError => "AgentError"
  | ControllerDiscoveryStarted => "ControllerDiscoveryStarted"
  | ControllerDiscovered => "ControllerDiscovered"
  | ControllerDiscoveryFailed => "ControllerDiscoveryFailed"
  | ControllerConnected => "ControllerConnected"
  | ControllerDisconnected => "ControllerDisconnected"
  | RegistrationSucceeded => "RegistrationSucceeded"
  | RegistrationFailed => "RegistrationFailed"
  | HeartbeatSent => "HeartbeatSent"
  | UserLogon => "UserLogon" | UserLogoff => "UserLogoff"
  | UserLock => "UserLock" | UserUnlock => "UserUnlock"
  | Active => "Active" | Inactive => "Inactive"
  | SessionConnected => "SessionConnected" | SessionDisconnected => "SessionDisconnected"
  | SystemBoot => "SystemBoot" | SystemShutdown => "SystemShutdown"
  | SystemSuspend => "SystemSuspend" | SystemResume => "SystemResume"
  | SystemTimeChanged => "SystemTimeChanged" | TimeZoneChanged => "TimeZoneChanged"
  | IdleStarted => "IdleStarted" | IdleEnded => "IdleEnded"
  | SupervisoryWarning => "SupervisoryWarning" | PolicyViolation => "PolicyViolation"
  | PowerActionRequested => "PowerActionRequested"
  | PowerActionCompleted => "PowerActionCompleted"
  | PowerActionFailed => "PowerActionFailed"
  end.

Definition all : list t :=
  [AgentStarted; AgentStopping; AgentError; ControllerDiscoveryStarted; ControllerDiscovered;
   ControllerDiscoveryFailed; ControllerConnected; ControllerDisconnected;
   RegistrationSucceeded; RegistrationFailed; HeartbeatSent; UserLogon; UserLogoff; UserLock;
   UserUnlock; Active; Inactive; SessionConnected; SessionDisconnected; SystemBoot;
   SystemShutdown; SystemSuspend; SystemResume; SystemTimeChanged; TimeZoneChanged;
   IdleStarted; IdleEnded; SupervisoryWarning; PolicyViolation; PowerActionRequested;
   PowerActionCompleted; PowerActionFailed].
End EventType.
#[export] Existing Instance EventType.eq_dec.

Module EventSeverity.
Inductive t : Type := Info | Warning | Error | Critical.
#[export] Instance eq_dec : EqDecision t.
Proof. solve_decision. Defined.
Definition ident (s : t) : string :=
  match s with Info => "Info" | Warning => "Warning" | Error => "Error"
             | Critical => "Critical" end.
Definition all : list t := [Info; Warning; Error; Critical].
End EventSeverity.
#[export] Existing Instance EventSeverity.eq_dec.

Module EventSource.
Inductive t : Type := Agent | Controller.
#[export] Instance eq_dec : EqDecision t.
Proof. solve_decision. Defined.
Definition ident (s : t) : string :=
  match s with Agent => "Agent" | Controller => "Controller" end.
Definition all : list t := [Agent; Controller].
End EventSource.
#[export] Existing Instance EventSource.eq_dec.

Module EventResultStatus.
Inductive t : Type := Accepted | Duplicate | Rejected.
#[export] Instance eq_dec : EqDecision t.
Proof. solve_decision. Defined.
Definition ident (s : t) : string :=
  match s with Accepted => "Accepted" | Duplicate => "Duplicate" | Rejected => "Rejected" end.
Definition all : list t := [Accepted; Duplicate; Rejected].
End EventResultStatus.
#[export] Existing Instance EventResultStatus.eq_dec.

(** ** [rename_all = "SCREAMING_SNAKE_CASE"]: an underscore before every
    capital but the first, then upper case. *)
Definition is_upper (c : ascii) : bool :=
  (65 <=? Z.of_nat (nat_of_ascii c)) && (Z.of_nat (nat_of_ascii c) <=? 90).
Definition is_lower (c : ascii) : bool :=
  (97 <=? Z.of_nat (nat_of_ascii c)) && (Z.of_nat (nat_of_ascii c) <=? 122).
Definition to_upper (c : ascii) : ascii :=
  if is_lower c then ascii_of_nat (nat_of_ascii c - 32) else c.

Fixpoint screaming_rest (s : string) : string :=
  match s with
  | EmptyString => EmptyString
  | String c s' =>
      if is_upper c then String "_" (String c (screaming_rest s'))
      else String (to_upper c) (screaming_rest s')
  end.
Definition screaming_snake_case (s : string) : string :=
  match s with
  | EmptyString => EmptyString
  | String c s' => String (to_upper c) (screaming_rest s')
  end.

(** The JSON text of a unit variant: its name in quotes. *)
Definition quote (s : string) : string :=
  (String (ascii_of_nat 34) s +:+ String (ascii_of_nat 34) EmptyString).

Section UnitVariants.
Context {A : Type} (ident : A -> string) (all : list A).
Definition variant_to_string (a : A) : string := quote (screaming_snake_case (ident a)).
Definition variant_from_str (s : string) : option A :=
  List.find (fun a => bool_decide (variant_to_string a = s)) all.
End UnitVariants.

Definition event_type_to_string : EventType.t -> string := variant_to_string EventType.ident.
Definition event_type_from_str : string -> option EventType.t :=
  variant_from_str EventType.ident EventType.all.
Definition severity_to_string : EventSeverity.t -> string := variant_to_string EventSeverity.ident.
Definition severity_from_str : string -> option EventSeverity.t :=
  variant_from_str EventSeverity.ident EventSeverity.all.
Definition source_to_string : EventSource.t -> string := variant_to_string EventSource.ident.
Definition source_from_str : string -> option EventSource.t :=
  variant_from_str EventSource.ident EventSource.all.
Definition status_from_str : string -> option EventResultStatus.t :=
  variant_from_str EventResultStatus.ident EventResultStatus.all.

(** ** Requests and responses *)
Record NetworkInterfaceInfo : Type := mk_interface {
  ni_name : string;
  ni_mac_address : option string;
  ni_addresses : list string;
}.

Record RegisterRequest : Type := mk_register_request {
  rq_device_id : Uuid;
  rq_device_name : string;
  rq_hostname : string;
  rq_agent_version : string;
  rq_operating_system : string;
  rq_operating_system_version : string;
  rq_architecture : string;
  rq_local_ip_addresses : list string;
  rq_network_interfaces : list NetworkInterfaceInfo;
}.

Record RegisterResponse : Type := mk_register_response {
  rr_device_id : Uuid;
  rr_controller_id : Uuid;
  rr_registered_at : DateTime;
  rr_heartbeat_interval_seconds : Z;
  rr_accepted : bool;
  rr_schedule : option Schedule.t;
}.

Record HeartbeatRequest : Type := mk_heartbeat_request {
  hq_event_id : Uuid;
  hq_occurred_at : DateTime;
  hq_agent_version : string;
  hq_uptime_seconds : Z;
  hq_service_state : string;
  hq_current_user : option string;
  hq_session_state : string;
  hq_idle_seconds : option Z;
  hq_controller_url : option string;
}.

Record HeartbeatResponse : Type := mk_heartbeat_response {
  hr_accepted : bool;
  hr_server_time : DateTime;
  hr_heartbeat_interval_seconds : Z;
  hr_schedule : option Schedule.t;
}.

Record EventItem : Type := mk_event_item {
  ei_event_id : Uuid;
  ei_event_type : EventType.t;
  ei_occurred_at : DateTime;
  ei_severity : EventSeverity.t;
  ei_source : EventSource.t;
  ei_session_id : option Uuid;
  ei_username : option string;
  ei_data : gmap string json;
}.

Record EventSubmissionRequest : Type := mk_submission { es_events : list EventItem }.

Record EventResult : Type := mk_event_result {
  er_event_id : Uuid;
  er_status : EventResultStatus.t;
  er_reason : option string;
}.

Record EventSubmissionResponse : Type := mk_submission_response {
  sr_accepted : Z;
  sr_duplicates : Z;
  sr_rejected : Z;
  sr_results : list EventResult;
}.

Record SystemInfoResponse : Type := mk_system_info {
  si_controller_id : Uuid;
  si_controller_name : string;
  si_protocol_version : Z;
  si_controller_version : string;
  si_server_time : DateTime;
}.

(** ** Properties *)
Example event_type_names :
  (screaming_snake_case (EventType.ident EventType.AgentStarted),
   screaming_snake_case (EventType.ident EventType.UserLogon),
   screaming_snake_case (EventType.ident EventType.ControllerDiscoveryFailed)) =
  ("AGENT_STARTED", "USER_LOGON", "CONTROLLER_DISCOVERY_FAILED")%string.
Proof. reflexivity. Qed.

Lemma event_type_round_trip e : event_type_from_str (event_type_to_string e) = Some e.
Proof. by destruct e. Qed.
Lemma severity_round_trip s : severity_from_str (severity_to_string s) = Some s.
Proof. by destruct s. Qed.
Lemma source_round_trip s : source_from_str (source_to_string s) = Some s.
Proof. by destruct s. Qed.

(** The wire names of the four enums are decodable and unambiguous:
    every value is read back as itself, and text that is read as a value is
    exactly the text written for it. *)
Lemma wire_names_round_trip :
  (forall e s, event_type_from_str s = Some e <-> s = event_type_to_string e) /\
  (forall v s, severity_from_str s = Some v <-> s = severity_to_string v) /\
  (forall v s, source_from_str s = Some v <-> s = source_to_string v) /\
  (forall v s, status_from_str s = Some v <-> s = variant_to_string EventResultStatus.ident v).
Proof.
  assert (Hg : forall A (ident : A -> string) all,
    (forall a, variant_from_str ident all (variant_to_string ident a) = Some a) ->
    forall a s, variant_from_str ident all s = Some a <-> s = variant_to_string ident a).
  { intros A ident all Hr a s. split; [|by intros ->].
    intros [_ H%bool_decide_eq_true]%List.find_some. done. }
  repeat split; try (apply Hg; by intros []).
Qed.
