(* ===== verification/Derive.v ===== *)
(** * What [serde] derives

    The program's types are written and read by derived code.  A [wire] is
    such a pair for one type: [enc] gives the JSON value written, [dec] reads
    one.  The combinators follow serde's documentation for the attributes the
    program uses: [rename_all = "camelCase"], [default], [tag] on enums, the
    names of unit variants, [Option] fields that may be missing, and unknown
    fields, which are ignored. *)
From Stdlib Require Import Ascii.
From S2P Require Import Prelude Codec Json Protocol.
#[local] Open Scope Z_scope.

(** chrono's [Serialize] and [Deserialize] of [DateTime<Utc>], as text. *)
Class TimeJson : Type := {
  time_valid : DateTime -> Prop;
  time_text : DateTime -> string;
  time_read : string -> option DateTime;
}.
Class TimeJsonLaws `{!TimeJson} : Prop := {
  time_round_trip : forall t, time_valid t -> time_read (time_text t) = Some t;
}.

(** The order in which a [HashMap] is written. *)
Class DataOrder : Type := { entries : gmap string json -> list (string * json) }.
Class DataOrderLaws `{!DataOrder} : Prop := { entries_all : forall m, entries m ≡ₚ map_to_list m }.

(** ** Types that are written and read *)
Record wire (A : Type) : Type := mk_wire {
  valid : A -> Prop;
  enc : A -> value;
  dec : value -> option A;
}.
Arguments mk_wire {A}. Arguments valid {A}. Arguments enc {A}. Arguments dec {A}.

Class Lawful {A} (w : wire A) : Prop := {
  enc_plain : forall a, plain (enc w a) = true;
  dec_enc : forall a, valid w a -> dec w (enc w a) = Some a;
}.
(** A value that an [Option] tells from [None]. *)
Class NotNull {A} (w : wire A) : Prop := { enc_not_null : forall a, enc w a <> VNull }.

(** *** Scalars *)
Definition w_string : wire string :=
  mk_wire (fun _ => True) VString (fun v => match v with VString s => Some s | _ => None end).
(** An integer of the width that holds [lo .. hi]. *)
Definition w_int (lo hi : Z) : wire Z :=
  mk_wire (fun z => lo <= z <= hi) VNumber
    (fun v => match v with VNumber z => if (lo <=? z) && (z <=? hi) then Some z else None | _ => None end).
Definition w_bool : wire bool :=
  mk_wire (fun _ => True) VBool (fun v => match v with VBool b => Some b | _ => None end).
Definition w_u32 : wire Z := w_int 0 (2 ^ 32 - 1).
Definition w_i32 : wire Z := w_int (- 2 ^ 31) (2 ^ 31 - 1).
Definition w_u64 : wire Z := w_int 0 (2 ^ 64 - 1).
Definition w_i64 : wire Z := w_int (- 2 ^ 63) (2 ^ 63 - 1).

Definition w_uuid `{!UuidText} : wire Uuid :=
  mk_wire uuid_valid (fun u => VString (uuid_to_string u))
    (fun v => match v with VString s => uuid_parse_str s | _ => None end).
Definition w_time `{!TimeJson} : wire DateTime :=
  mk_wire time_valid (fun t => VString (time_text t))
    (fun v => match v with VString s => time_read s | _ => None end).

(** *** Containers *)
Definition w_option {A} (w : wire A) : wire (option A) :=
  mk_wire (fun o => match o with Some a => valid w a | None => True end)
    (fun o => match o with Some a => enc w a | None => VNull end)
    (fun v => match v with VNull => Some None | _ => Some <$> dec w v end).
Definition w_vec {A} (w : wire A) : wire (list A) :=
  mk_wire (Forall (valid w)) (fun l => VArray (map (enc w) l))
    (fun v => match v with VArray vs => mapM (dec w) vs | _ => None end).

(** [HashMap<String, Value>] with the values of [json]; of a name given twice
    the last is kept. *)
Definition of_json (j : json) : value :=
  match j with JNull => VNull | JBool b => VBool b | JNumber z => VNumber z | JString s => VString s end.
Definition to_json_value (v : value) : option json :=
  match v with
  | VNull => Some JNull | VBool b => Some (JBool b) | VNumber z => Some (JNumber z)
  | VString s => Some (JString s) | _ => None
  end.
Definition w_data `{!DataOrder} : wire (gmap string json) :=
  mk_wire (fun _ => True) (fun m => VObject (map (fun kv => (kv.1, of_json kv.2)) (entries m)))
    (fun v => match v with
              | VObject m => l ← mapM (fun kv => (fun j => (kv.1, j)) <$> to_json_value kv.2) m;
                             Some (list_to_map (reverse l))
              | _ => None
              end).

(** *** Unit variants: the name, or an object with the name and [null] *)
Definition de_name {A} (name : A -> string) (all : list A) (v : value) : option A :=
  let read s := List.find (fun a => String.eqb (name a) s) all in
  match v with
  | VString s => read s
  | VObject [(s, VNull)] => read s
  | _ => None
  end.
Definition w_names {A} (name : A -> string) (all : list A) : wire A :=
  mk_wire (fun _ => True) (fun a => VString (name a)) (de_name name all).

(** *** Structs *)
Fixpoint camel_from (up : bool) (s : string) : string :=
  match s with
  | EmptyString => EmptyString
  | String c s' =>
      if Ascii.eqb c "_" then camel_from true s'
      else String (if up then to_upper c else c) (camel_from false s')
  end.
(** [rename_all = "camelCase"], of a field. *)
Definition camel_case : string -> string := camel_from false.

Definition field {A} (w : wire A) (name : string) (a : A) : string * value := (camel_case name, enc w a).

Fixpoint member (n : string) (m : list (string * value)) : option value :=
  match m with
  | [] => None
  | (k, v) :: m' => if String.eqb k n then Some v else member n m'
  end.
Definition known (names : list string) (m : list (string * value)) : list (string * value) :=
  List.filter (fun kv => existsb (String.eqb kv.1) names) m.
Fixpoint repeated (m : list (string * value)) : bool :=
  match m with
  | [] => false
  | (k, _) :: m' => existsb (fun kv => String.eqb kv.1 k) m' || repeated m'
  end.

(** The members of an object by name, or the elements of an array in the
    order of the fields. *)
Record source : Type := mk_source { get : string -> option value; by_name : bool }.

Definition de_struct {A} (fields : list string) (build : source -> option A) (v : value) : option A :=
  let names := map camel_case fields in
  match v with
  | VObject m =>
      let m := known names m in
      if repeated m then None else build (mk_source (fun n => member n m) true)
  | VArray vs =>
      if (length vs <=? length names)%nat
      then build (mk_source (fun n => member n (zip names vs)) false) else None
  | _ => None
  end.

Definition need {A} (w : wire A) (name : string) (s : source) : option A :=
  v ← get s (camel_case name); dec w v.
(** A field of type [Option]: a missing member is [None]. *)
Definition need_option {A} (w : wire A) (name : string) (s : source) : option (option A) :=
  match get s (camel_case name) with
  | Some v => dec (w_option w) v
  | None => if by_name s then Some None else None
  end.
(** With [#[serde(default)]]. *)
Definition need_default {A} (w : wire A) (d : A) (name : string) (s : source) : option A :=
  match get s (camel_case name) with Some v => dec w v | None => Some d end.

(** *** Enums with [#[serde(tag = "..")]] *)
Definition de_tagged {A} (tag : string) (variant : string -> value -> option A) (v : value) : option A :=
  match v with
  | VObject m =>
      let '(tags, rest) := (known [tag] m, List.filter (fun kv => negb (String.eqb kv.1 tag)) m) in
      match tags with [(_, VString t)] => variant t (VObject rest) | _ => None end
  | VArray (VString t :: vs) => variant t (VArray vs)
  | _ => None
  end.
Definition de_unit_variant {A} (a : A) (v : value) : option A :=
  match v with VObject _ | VArray [] => Some a | _ => None end.

(** ** What is written is read back *)
#[export] Instance string_lawful : Lawful w_string.
Proof. by split. Qed.
#[export] Instance bool_lawful : Lawful w_bool.
Proof. by split. Qed.
#[export] Instance int_lawful lo hi : Lawful (w_int lo hi).
Proof.
  split; [done|]. simpl. intros z Hz.
  by rewrite (proj2 (Z.leb_le lo z)), (proj2 (Z.leb_le z hi)) by lia.
Qed.
#[export] Instance uuid_lawful `{UuidTextLaws} : Lawful w_uuid.
Proof. split; [done|]. apply uuid_round_trip. Qed.
#[export] Instance time_lawful `{TimeJsonLaws} : Lawful w_time.
Proof. split; [done|]. apply time_round_trip. Qed.

#[export] Instance string_not_null : NotNull w_string.
Proof. by split. Qed.
#[export] Instance option_lawful {A} (w : wire A) `{!Lawful w, !NotNull w} : Lawful (w_option w).
Proof.
  split.
  - intros [a|]; [apply (enc_plain (w := w))|done].
  - intros [a|] Ha; [|done]. simpl in *. pose proof (enc_not_null a) as Hn.
    destruct (enc w a) eqn:E; rewrite <- ?E in *; try done; by rewrite dec_enc.
Qed.

Lemma mapM_enc {A} (w : wire A) `{!Lawful w} l :
  Forall (valid w) l -> mapM (dec w) (map (enc w) l) = Some l.
Proof.
  intros H. apply mapM_Some. induction H; [constructor|]. constructor; [by apply dec_enc|done].
Qed.
#[export] Instance vec_lawful {A} (w : wire A) `{!Lawful w} : Lawful (w_vec w).
Proof.
  split.
  - intros l. simpl. apply forallb_forall. intros v (a & <- & _)%in_map_iff. apply enc_plain.
  - intros l Hl. by apply mapM_enc.
Qed.

#[export] Instance data_lawful `{DataOrderLaws} : Lawful w_data.
Proof.
  split.
  - intros m. simpl. apply forallb_forall. intros kv ([k j] & <- & _)%in_map_iff. by destruct j.
  - intros m _. simpl. assert (Hl : forall l : list (string * json),
      mapM (fun kv => (fun j => (kv.1, j)) <$> to_json_value kv.2) (map (fun kv => (kv.1, of_json kv.2)) l) = Some l).
    { intros l. apply mapM_Some. induction l as [|[k j] l IH]; constructor; [by destruct j|done]. }
    rewrite Hl. simpl. f_equal. rewrite <- (list_to_map_to_list m) at 2. pose proof (entries_all m) as Hp.
    assert (Hr : reverse (entries m) ≡ₚ map_to_list m) by (by rewrite reverse_Permutation).
    apply list_to_map_proper; [|exact Hr]. rewrite Hr. apply NoDup_fst_map_to_list.
Qed.

Lemma names_lawful {A} (name : A -> string) (all : list A) :
  (forall a, List.find (fun b => String.eqb (name b) (name a)) all = Some a) -> Lawful (w_names name all).
Proof. intros H. split; [done|]. intros a _. apply H. Qed.

(** *** Structs *)
Lemma need_field {A} (w : wire A) `{!Lawful w} name s a :
  get s (camel_case name) = Some (enc w a) -> valid w a -> need w name s = Some a.
Proof. intros E Ha. unfold need. rewrite E. by apply dec_enc. Qed.
Lemma need_option_field {A} (w : wire A) `{!Lawful w, !NotNull w} name s a :
  get s (camel_case name) = Some (enc (w_option w) a) -> valid (w_option w) a ->
  need_option w name s = Some a.
Proof. intros E Ha. unfold need_option. rewrite E. by apply dec_enc. Qed.

Lemma de_struct_object {A} fields (build : source -> option A) m :
  known (map camel_case fields) m = m -> repeated m = false ->
  de_struct fields build (VObject m) = build (mk_source (fun n => member n m) true).
Proof. intros H1 H2. unfold de_struct. by rewrite H1, H2. Qed.

(** A value of a struct: its fields one after the other. *)
Ltac read_field :=
  match goal with
  | |- context [need ?w ?n ?s] =>
      let H := fresh in
      eassert (need w n s = Some _) as H by (eapply need_field; [typeclasses eauto|reflexivity|simpl in *; intuition eauto]);
      rewrite H; clear H
  | |- context [need_option ?w ?n ?s] =>
      let H := fresh in
      eassert (need_option w n s = Some _) as H
        by (eapply need_option_field; [typeclasses eauto|typeclasses eauto|reflexivity|match goal with |- valid _ ?o => by destruct o end]);
      rewrite H; clear H
  end; cbn [mbind option_bind].
Ltac read_fields := rewrite de_struct_object by reflexivity; repeat read_field; done.
Lemma field_plain {A} (w : wire A) `{!Lawful w} name a : plain (field w name a).2 = true.
Proof. apply enc_plain. Qed.
Lemma plain_cons kv m : plain kv.2 = true -> plain (VObject m) = true -> plain (VObject (kv :: m)) = true.
Proof. intros H1 H2. simpl in *. by rewrite H1. Qed.
Ltac plain_fields := intros; repeat (apply plain_cons; [apply field_plain; typeclasses eauto|]); done.
