(* ===== verification/Db.v ===== *)
(** * SQL statements as a state-and-error monad

    The two SQLite databases of the agent run one statement at a time, each a
    transaction of its own ([rusqlite] autocommit).  A statement either
    happens entirely or fails and changes nothing; which ones fail is given by
    a list of faults.  The order SQL leaves open, that of rows with equal
    [ORDER BY] keys, is the engine's choice: [SqlEngine] with its laws. *)
From S2P Require Import Prelude Codec.
#[local] Open Scope Z_scope.

Definition db (S E A : Type) : Type := S * list bool -> result E A * (S * list bool).

Section Monad.
Context {S E : Type}.

Definition db_ret {A} (a : A) : db S E A := fun w => (Ok a, w).
Definition db_fail {A} (e : E) : db S E A := fun w => (Err e, w).
(** [?] *)
Definition db_bind {A B} (m : db S E A) (f : A -> db S E B) : db S E B := fun w =>
  let '(r, w') := m w in match r with Ok a => f a w' | Err e => (Err e, w') end.
(** A conversion that touches no table. *)
Definition db_lift {A} (r : result E A) : db S E A := fun w => (r, w).

(** One SQL statement: [true] at the head of the faults makes it fail. *)
Definition stmt {A} (e : E) (f : S -> S * A) : db S E A := fun '(s, faults) =>
  match faults with
  | true :: fs => (Err e, (s, fs))
  | _ => let '(s', a) := f s in (Ok a, (s', tail faults))
  end.

(** No statement fails. *)
Definition quiet (faults : list bool) : Prop := Forall (fun b => b = false) faults.

Lemma quiet_tail fs : quiet fs -> quiet (tail fs).
Proof. destruct 1; simpl; [constructor|done]. Qed.

Lemma stmt_quiet {A} (e : E) (f : S -> S * A) s fs :
  quiet fs -> stmt e f (s, fs) = (Ok (f s).2, ((f s).1, tail fs)).
Proof. intros H. destruct H as [|b fs -> H]; simpl; by destruct (f s). Qed.

(** A statement that fails changes nothing; one that does not returns [a] in
    a state satisfying [post]. *)
Definition outcome {A} (s : S) (faults : list bool) (a : A) (post : S -> Prop)
    (res : result E A * (S * list bool)) : Prop :=
  (exists e, head faults = Some true /\ res = (Err e, (s, tail faults))) \/
  (exists s', res = (Ok a, (s', tail faults)) /\ post s').

Lemma stmt_outcome {A} (e : E) (f : S -> S * A) s fs a (post : S -> Prop) :
  (f s).2 = a -> post (f s).1 -> outcome s fs a post (stmt e f (s, fs)).
Proof.
  intros <- Hp. destruct fs as [|[] fs]; simpl; [|left; by exists e|];
    right; exists (f s).1; (split; [|done]); simpl; by destruct (f s).
Qed.

Lemma outcome_quiet {A} s fs (a : A) (post : S -> Prop) res :
  quiet fs -> outcome s fs a post res ->
  exists s', res = (Ok a, (s', tail fs)) /\ post s'.
Proof. intros Hq [(e & Hh & _)|H]; [|done]. destruct Hq as [|? ? -> ?]; by simplify_eq/=. Qed.

Lemma outcome_ret {A B} s fs (a : A) (b : B) (post : S -> Prop) (m : db S E A) :
  outcome s fs a post (m (s, fs)) ->
  outcome s fs b post (db_bind m (fun _ => db_ret b) (s, fs)).
Proof.
  unfold db_bind. intros [(e & Hh & ->)|(s' & -> & Hp)]; [left; by exists e|right; by exists s'].
Qed.

Lemma stmt_cases {A} (e : E) (f : S -> S * A) s fs :
  (exists fs', stmt e f (s, fs) = (Err e, (s, fs'))) \/
  stmt e f (s, fs) = (Ok (f s).2, ((f s).1, tail fs)).
Proof. destruct fs as [|[] fs]; simpl; destruct (f s); eauto. Qed.
(** A statement that ran did its work. *)
Lemma stmt_ok {A} (e : E) (f : S -> S * A) w a w' :
  stmt e f w = (Ok a, w') -> a = (f w.1).2 /\ w'.1 = (f w.1).1.
Proof. destruct w as [s [|[] fs]]; simpl; destruct (f s); by intros [= <- <-]. Qed.
End Monad.

#[global] Arguments stmt : simpl never.

#[export] Hint Resolve quiet_tail : timelord.

(** The two outcomes of the goal's next statement: it fails and changes
    nothing, or it runs. *)
Ltac stmt_split :=
  match goal with |- context [stmt ?e ?f (?s, ?fs)] =>
    let E := fresh "E" in
    destruct (stmt_cases e f s fs) as [[? E]|E]; rewrite E
  end.

(** The next statement runs: no fault is left. *)
Ltac stmt_runs := rewrite stmt_quiet by auto with timelord.

Notation "x <-- m ;; k" := (db_bind m (fun x => k))
  (at level 100, m at next level, right associativity) : timelord_scope.
Notation "m ;;; k" := (db_bind m (fun _ => k))
  (at level 100, right associativity) : timelord_scope.

Class SqlEngine : Type := {
  order_by_asc : forall A, (A -> string) -> list A -> list A;
  order_by_desc : forall A, (A -> string) -> list A -> list A;
}.
Class SqlEngineLaws `{!SqlEngine} : Prop := {
  order_by_asc_perm : forall A (key : A -> string) l, order_by_asc A key l ≡ₚ l;
  order_by_asc_sorted : forall A (key : A -> string) l,
    StronglySorted (fun a b => String.leb (key a) (key b) = true) (order_by_asc A key l);
  order_by_desc_perm : forall A (key : A -> string) l, order_by_desc A key l ≡ₚ l;
  order_by_desc_sorted : forall A (key : A -> string) l,
    StronglySorted (fun a b => String.leb (key b) (key a) = true) (order_by_desc A key l);
}.
#[global] Arguments order_by_asc {_ A} key l.
#[global] Arguments order_by_desc {_ A} key l.

(** An engine that keeps the stored order among equal keys. *)
Definition stable_engine : SqlEngine := {|
  order_by_asc A key := isort (fun a b => String.leb (key a) (key b));
  order_by_desc A key := isort (fun a b => String.leb (key b) (key a));
|}.
Lemma stable_engine_laws : @SqlEngineLaws stable_engine.
Proof.
  split; intros; simpl; try apply isort_perm; apply isort_sorted; eauto using string_leb_total,
    string_leb_trans.
Qed.

(** An engine that reverses the stored order among equal keys. *)
Definition reversing_engine : SqlEngine := {|
  order_by_asc A key l := isort (fun a b => String.leb (key a) (key b)) (reverse l);
  order_by_desc A key l := isort (fun a b => String.leb (key b) (key a)) (reverse l);
|}.
Lemma reversing_engine_laws : @SqlEngineLaws reversing_engine.
Proof.
  split; intros; simpl; try (rewrite isort_perm; apply reverse_Permutation);
    apply isort_sorted; eauto using string_leb_total, string_leb_trans.
Qed.
