(* ===== verification/Queue.v ===== *)
(** * The persistent event queue ([agent/src/queue.rs])

    The table [event_queue] with its text columns, and the operations of
    [EventQueue] as sequences of SQL statements in the monad of [Db].
    [row_repr] relates a row to the abstract [entry] it encodes. *)
From S2P Require Import Prelude Codec Protocol Db.
#[local] Open Scope Z_scope.

Definition BACKOFF_SCHEDULE_SECONDS : list Z := [10; 30; 60; 300; 900; 1800].
Definition MAX_ATTEMPTS : Z := 48.
Definition MAX_QUEUE_SIZE : Z := 5000.

Inductive QueueError : Type :=
| QSqlite
| QSerde
| QPanic.  (* an [expect] on a stored column *)

Record QueuedEvent : Type := mk_event {
  event_id : Uuid;
  event_type : EventType.t;
  occurred_at : DateTime;
  severity : EventSeverity.t;
  source : EventSource.t;
  ev_session_id : option Uuid;
  username : option string;
  data : gmap string json;
}.

#[export] Instance QueuedEvent_eq_dec : EqDecision QueuedEvent.
Proof. solve_decision. Defined.

Definition to_event_item (e : QueuedEvent) : EventItem :=
  mk_event_item (event_id e) (event_type e) (occurred_at e) (severity e) (source e)
    (ev_session_id e) (username e) (data e).

Record PendingDelivery : Type := mk_pending {
  row_id : Z;
  pd_event : QueuedEvent;
  pd_attempt_count : Z;
}.

(** [attempt] is 1-indexed: the count after the failure just recorded. *)
Definition backoff_delay (attempt : Z) : Duration :=
  let index := Nat.min (Z.to_nat (Z.max (attempt - 1) 0)) (length BACKOFF_SCHEDULE_SECONDS - 1) in
  secs (default 0 (BACKOFF_SCHEDULE_SECONDS !! index)).

Module EventQueue.
(** One row of [event_queue]. *)
Record row : Type := mk_row {
  id : Z;
  c_event_id : string;
  c_event_type : string;
  c_occurred_at : string;
  c_severity : string;
  c_source : string;
  c_session_id : option string;
  c_username : option string;
  c_payload_json : string;
  attempt_count : Z;
  next_attempt_at : string;
  created_at : string;
}.

(** The table and the [AUTOINCREMENT] sequence. *)
Record t : Type := mk { rows : list row; next_id : Z }.

(** What [CREATE TABLE IF NOT EXISTS] leaves in a new database. *)
Definition init : t := mk [] 1.

Section Ops.
Context {TT : TimeText} {UT : UuidText} {SJ : Serde (gmap string json)} {SQ : SqlEngine}.

Abbreviation M A := (db t QueueError A).

Definition or_serde {A} (o : option A) : M A :=
  match o with Some a => db_ret a | None => db_fail QSerde end.

(** [INSERT INTO event_queue ... ON CONFLICT(event_id) DO NOTHING] *)
Definition insert_on_conflict_nothing (mk : Z -> row) (q : t) : t * unit :=
  let r := mk (next_id q) in
  if existsb (fun r' => String.eqb (c_event_id r') (c_event_id r)) (rows q)
  then (q, tt)
  else (EventQueue.mk (rows q ++ [r]) (next_id q + 1), tt).

Definition delete_where (p : row -> bool) (q : t) : t * unit :=
  (mk (List.filter (fun r => negb (p r)) (rows q)) (next_id q), tt).

(** [SELECT COUNT of all rows] *)
Definition count (q : t) : t * Z := (q, Z.of_nat (length (rows q))).

(** [DELETE ... WHERE id IN (SELECT id ... ORDER BY created_at ASC LIMIT n)] *)
Definition delete_oldest (n : Z) (q : t) : t * unit :=
  let ids := map id (take (Z.to_nat n) (order_by_asc created_at (rows q))) in
  delete_where (fun r => existsb (Z.eqb (id r)) ids) q.

Definition enforce_max_size_with_cap (cap : Z) : M unit :=
  n <-- stmt QSqlite count;;
  let overflow := n - cap in
  if overflow >? 0 then stmt QSqlite (delete_oldest overflow) else db_ret tt.

Definition enforce_max_size : M unit := enforce_max_size_with_cap MAX_QUEUE_SIZE.

Definition enqueue (e : QueuedEvent) (now : DateTime) : M unit :=
  payload_json <-- or_serde (to_json (data e));;
  stmt QSqlite (insert_on_conflict_nothing (fun i =>
    mk_row i (uuid_to_string (event_id e)) (event_type_to_string (event_type e))
      (to_rfc3339 (occurred_at e)) (severity_to_string (severity e))
      (source_to_string (source e)) (uuid_to_string <$> ev_session_id e) (username e)
      payload_json 0 (to_rfc3339 now) (to_rfc3339 now)));;;
  enforce_max_size.

Definition expect {A} (o : option A) : result QueueError A :=
  match o with Some a => Ok a | None => Err QPanic end.
Definition from_str {A} (o : option A) : result QueueError A :=
  match o with Some a => Ok a | None => Err QSerde end.

(** The closure that rebuilds a [PendingDelivery], fields in source order. *)
Definition decode_row (r : row) : result QueueError PendingDelivery :=
  eid ← expect (uuid_parse_str (c_event_id r));
  ety ← from_str (event_type_from_str (c_event_type r));
  occ ← expect (parse_from_rfc3339 (c_occurred_at r));
  sev ← from_str (severity_from_str (c_severity r));
  src ← from_str (source_from_str (c_source r));
  sid ← match c_session_id r with
        | None => Ok None
        | Some s => u ← expect (uuid_parse_str s); Ok (Some u)
        end;
  dat ← from_str (from_json (c_payload_json r));
  Ok (mk_pending (id r) (mk_event eid ety occ sev src sid (c_username r) dat)
        (wrap_u32 (attempt_count r))).

(** [collect::<Result<Vec<_>, _>>]: stops at the first error. *)
Fixpoint collect {A B} (f : A -> result QueueError B) (l : list A) : result QueueError (list B) :=
  match l with
  | [] => Ok []
  | a :: l' => b ← f a; bs ← collect f l'; Ok (b :: bs)
  end.

(** [WHERE next_attempt_at <= now ORDER BY created_at ASC LIMIT limit] *)
Definition select_due (now : DateTime) (limit : nat) (q : t) : t * list row :=
  (q, take limit (order_by_asc created_at
        (List.filter (fun r => String.leb (next_attempt_at r) (to_rfc3339 now)) (rows q)))).

Definition due_batch (now : DateTime) (limit : nat) : M (list PendingDelivery) :=
  rs <-- stmt QSqlite (select_due now limit);;
  db_lift (collect decode_row rs).

Definition mark_delivered (rid : Z) : M unit :=
  stmt QSqlite (delete_where (fun r => id r =? rid)).

Definition mark_delivered_by_event_id (eid : Uuid) : M unit :=
  stmt QSqlite (delete_where (fun r => String.eqb (c_event_id r) (uuid_to_string eid))).

Definition set_retry (attempts : Z) (next : string) (r : row) : row :=
  mk_row (id r) (c_event_id r) (c_event_type r) (c_occurred_at r) (c_severity r) (c_source r)
    (c_session_id r) (c_username r) (c_payload_json r) attempts next (created_at r).

Definition update_where (p : row -> bool) (f : row -> row) (q : t) : t * unit :=
  (mk (map (fun r => if p r then f r else r) (rows q)) (next_id q), tt).

Definition mark_failed (rid : Z) (attempts : Z) (now : DateTime) : M unit :=
  let next_attempt_count := wrap_u32 (attempts + 1) in
  if next_attempt_count >=? MAX_ATTEMPTS then
    stmt QSqlite (delete_where (fun r => id r =? rid))
  else
    let next := now + backoff_delay next_attempt_count in
    stmt QSqlite (update_where (fun r => id r =? rid)
                    (set_retry next_attempt_count (to_rfc3339 next))).

Definition len : M nat :=
  n <-- stmt QSqlite count;; db_ret (Z.to_nat n).

Definition is_empty : M bool := n <-- len;; db_ret (n =? 0)%nat.
End Ops.
End EventQueue.

(** ** What an operation may remove from the table *)
Section QueueSafety.
Import EventQueue.
Context {TT : TimeText} {UT : UuidText} {SJ : Serde (gmap string json)} {SQ : SqlEngine}.

Inductive qop : Type :=
| OpEnqueue (e : QueuedEvent) (now : DateTime)
| OpDueBatch (now : DateTime) (limit : nat)
| OpMarkDelivered (rid : Z)
| OpMarkDeliveredByEventId (eid : Uuid)
| OpMarkFailed (rid attempts : Z) (now : DateTime)
| OpLen.

(** The table after one operation, whatever it returned. *)
Definition exec (o : qop) (w : t * list bool) : t * list bool :=
  match o with
  | OpEnqueue e now => (enqueue e now w).2
  | OpDueBatch now limit => (due_batch now limit w).2
  | OpMarkDelivered rid => (mark_delivered rid w).2
  | OpMarkDeliveredByEventId eid => (mark_delivered_by_event_id eid w).2
  | OpMarkFailed rid attempts now => (mark_failed rid attempts now w).2
  | OpLen => (len w).2
  end.
Definition exec_all (os : list qop) (w : t * list bool) : t * list bool :=
  fold_left (fun w o => exec o w) os w.

(** The event a row carries (everything but its retry state). *)
Definition same_event (r r' : row) : Prop :=
  id r' = id r /\ c_event_id r' = c_event_id r /\ c_event_type r' = c_event_type r /\
  c_occurred_at r' = c_occurred_at r /\ c_severity r' = c_severity r /\
  c_source r' = c_source r /\ c_session_id r' = c_session_id r /\
  c_username r' = c_username r /\ c_payload_json r' = c_payload_json r /\
  created_at r' = created_at r.
Definition present (r : row) (q : t) : Prop := exists r', r' ∈ rows q /\ same_event r r'.

(** An acknowledgement, the last permitted failure, or a full table. *)
Definition explains (q : t) (o : qop) (r : row) : Prop :=
  match o with
  | OpMarkDelivered rid => rid = id r
  | OpMarkDeliveredByEventId eid => uuid_to_string eid = c_event_id r
  | OpMarkFailed rid attempts _ => rid = id r /\ MAX_ATTEMPTS <= wrap_u32 (attempts + 1)
  | OpEnqueue _ _ => MAX_QUEUE_SIZE <= Z.of_nat (length (rows q))
  | OpDueBatch _ _ | OpLen => False
  end.

Lemma same_event_refl r : same_event r r.
Proof. by repeat split. Qed.
Lemma same_event_trans r1 r2 r3 : same_event r1 r2 -> same_event r2 r3 -> same_event r1 r3.
Proof. unfold same_event. intuition congruence. Qed.
#[local] Hint Resolve same_event_refl : timelord.

Lemma delete_where_present p q r :
  r ∈ rows q -> p r = false -> present r (delete_where p q).1.
Proof.
  intros Hr Hp. exists r. split; [|auto with timelord].
  simpl. apply elem_of_bfilter. by rewrite Hp.
Qed.

Lemma insert_rows mk q :
  rows (insert_on_conflict_nothing mk q).1 = rows q \/
  rows (insert_on_conflict_nothing mk q).1 = rows q ++ [mk (next_id q)].
Proof. unfold insert_on_conflict_nothing. destruct (existsb _ _); auto. Qed.

(** After the INSERT, [enforce_max_size] only deletes from an overfull table. *)
Lemma enforce_present cap w r :
  r ∈ rows w.1 -> Z.of_nat (length (rows w.1)) <= cap ->
  present r (enforce_max_size_with_cap cap w).2.1.
Proof.
  intros Hr Hlen. destruct w as [q fs]. unfold enforce_max_size_with_cap, db_bind. simpl in Hr, Hlen.
  stmt_split; simpl.
  { exists r. auto with timelord. }
  rewrite Z.gtb_ltb. destruct (Z.ltb_spec 0 (Z.of_nat (length (rows q)) - cap)); [lia|].
  simpl. exists r. auto with timelord.
Qed.

Lemma enqueue_present e now w r :
  r ∈ rows w.1 -> Z.of_nat (length (rows w.1)) < MAX_QUEUE_SIZE ->
  present r (enqueue e now w).2.1.
Proof.
  intros Hr Hlen. destruct w as [q fs]. unfold enqueue, db_bind, or_serde.
  assert (Hq : present r q) by (exists r; auto with timelord).
  destruct (to_json (data e)) as [pj|]; [|done]. unfold db_ret.
  match goal with |- context [stmt QSqlite ?f (q, fs)] =>
    pose proof (insert_rows _ q : rows (f q).1 = _ \/ rows (f q).1 = _) as Hins;
    stmt_split; [done|] end.
  apply enforce_present; simpl; destruct Hins as [-> | ->]; simpl in *;
    rewrite ?elem_of_app, ?length_app; simpl; auto; lia.
Qed.

Lemma update_present p n x q r : r ∈ rows q -> present r (update_where p (set_retry n x) q).1.
Proof.
  intros Hr. exists (if p r then set_retry n x r else r). split.
  - simpl. apply list_elem_of_fmap. by exists r.
  - destruct (p r); by repeat split.
Qed.

Lemma exec_present o w r :
  r ∈ rows w.1 -> ~ explains w.1 o r -> present r (exec o w).1.
Proof.
  destruct w as [q fs]. intros Hr Hex. simpl in Hr, Hex.
  assert (Hq : present r q) by (exists r; auto with timelord).
  destruct o as [e now|now lim|rid|eid|rid att now|]; cbn [exec explains] in Hex |- *.
  - apply enqueue_present; simpl; [done|lia].
  - unfold due_batch, db_bind. by stmt_split.
  - unfold mark_delivered.
    stmt_split; [done|].
    apply delete_where_present; [done|]. by apply Z.eqb_neq.
  - unfold mark_delivered_by_event_id.
    stmt_split; [done|].
    apply delete_where_present; [done|]. apply String.eqb_neq. congruence.
  - unfold mark_failed. rewrite Z.geb_leb.
    destruct (Z.leb_spec MAX_ATTEMPTS (wrap_u32 (att + 1)));
      (stmt_split; [done|]).
    + apply delete_where_present; [done|]. apply Z.eqb_neq. intros Hid. by apply Hex.
    + by apply update_present.
  - unfold len, db_bind. by stmt_split.
Qed.

Lemma explains_same q o r r' : same_event r r' -> explains q o r' -> explains q o r.
Proof. unfold same_event, explains. destruct o; intuition congruence. Qed.

#[local] Instance explains_dec q o r : Decision (explains q o r).
Proof. destruct o; simpl; apply _. Defined.

(** A sequence that removes an event contains an operation that may. *)
Lemma exec_all_keeps os q r :
  present r q.1 -> present r (exec_all os q).1 \/ exists o q', o ∈ os /\ explains q' o r.
Proof.
  revert q. induction os as [|o os IH]; intros q Hp; [by left|].
  change (exec_all (o :: os) q) with (exec_all os (exec o q)).
  destruct Hp as (r1 & Hin & Hs). destruct (decide (explains q.1 o r1)) as [He|He].
  { right. exists o, q.1. split; [by left|]. by eapply explains_same. }
  destruct (exec_present o q r1 Hin He) as (r2 & Hin2 & Hs2).
  destruct (IH (exec o q)) as [Hp|(o' & q' & Ho & He')].
  - exists r2. split; [done|]. by eapply same_event_trans.
  - by left.
  - right. exists o', q'. split; [by right|done].
Qed.

(** No event is ever lost silently.  Through any sequence of queue
    operations, with any statement failing, an event that is in the table
    stays there unless some operation of the sequence removed it for one of
    the three documented reasons: it was acknowledged, its 48th attempt
    failed, or an enqueue found the table already at its cap. *)
Lemma queue_loss_explained (os : list qop) (q : t) (faults : list bool) (r : row) :
  present r q ->
  present r (exec_all os (q, faults)).1 \/
  exists os1 o os2, os = os1 ++ o :: os2 /\ explains (exec_all os1 (q, faults)).1 o r.
Proof.
  revert q faults. induction os as [|o os IH]; intros q faults Hr; [by left|].
  destruct Hr as (r' & Hr' & Hs). destruct (decide (explains q o r')) as [He|He].
  { right. exists [], o, os. split; [done|]. by eapply explains_same. }
  pose proof (exec_present o (q, faults) r' Hr' He) as (r'' & Hr'' & Hs').
  change (exec_all (o :: os) (q, faults)) with (exec_all os (exec o (q, faults))).
  destruct (exec o (q, faults)) as [q1 fs1] eqn:Eo.
  destruct (IH q1 fs1) as [Hp|(os1 & o' & os2 & -> & He')].
  - exists r''. split; [done|]. by eapply same_event_trans.
  - by left.
  - right. exists (o :: os1), o', os2. split; [done|].
    change (exec_all (o :: os1) (q, faults)) with (exec_all os1 (exec o (q, faults))).
    by rewrite Eo.
Qed.
End QueueSafety.

(** ** The abstract queue and its refinement by the table *)
Record entry : Type := mk_entry {
  en_id : Z;
  en_event : QueuedEvent;
  en_attempts : Z;
  en_next : DateTime;
  en_created : DateTime;
}.
#[export] Instance entry_eq_dec : EqDecision entry.
Proof. solve_decision. Defined.

Section QueueRefinement.
Import EventQueue.
Context {TT : TimeText} {UT : UuidText} {SJ : Serde (gmap string json)} {SQ : SqlEngine}.
Context {TL : TimeTextLaws} {UL : UuidTextLaws} {SL : SerdeLaws (gmap string json)}
  {QL : SqlEngineLaws}.

Definition event_valid (e : QueuedEvent) : Prop :=
  uuid_valid (event_id e) /\ representable (occurred_at e) /\
  (forall u, ev_session_id e = Some u -> uuid_valid u).

(** The row is the encoding of the entry. *)
Definition row_repr (r : row) (en : entry) : Prop :=
  event_valid (en_event en) /\ representable (en_next en) /\ representable (en_created en) /\
  0 <= en_attempts en < 2 ^ 32 /\
  exists payload, to_json (data (en_event en)) = Some payload /\
  r = mk_row (en_id en) (uuid_to_string (event_id (en_event en)))
        (event_type_to_string (event_type (en_event en)))
        (to_rfc3339 (occurred_at (en_event en)))
        (severity_to_string (severity (en_event en))) (source_to_string (source (en_event en)))
        (uuid_to_string <$> ev_session_id (en_event en)) (username (en_event en)) payload
        (en_attempts en) (to_rfc3339 (en_next en)) (to_rfc3339 (en_created en)).

Definition queue_repr (q : t) (es : list entry) : Prop :=
  Forall2 row_repr (rows q) es /\ NoDup (map en_id es) /\
  Forall (fun en => en_id en < next_id q) es /\
  NoDup (map (fun en => event_id (en_event en)) es).

Definition pending_of (en : entry) : PendingDelivery :=
  mk_pending (en_id en) (en_event en) (en_attempts en).

Lemma row_repr_fields r en : row_repr r en ->
  id r = en_id en /\ created_at r = to_rfc3339 (en_created en) /\
  next_attempt_at r = to_rfc3339 (en_next en) /\
  c_event_id r = uuid_to_string (event_id (en_event en)).
Proof. by intros (_ & _ & _ & _ & payload & _ & ->). Qed.

Lemma decode_row_repr r en : row_repr r en -> decode_row r = Ok (pending_of en).
Proof.
  destruct en as [i e a n c]. intros ((Hu & Ho & Hs) & _ & _ & Ha & payload & Hp & ->).
  simpl in *. unfold decode_row. simpl.
  destruct (serde_round_trip (data e)) as (s & Hs1 & Hs2). rewrite Hp in Hs1.
  injection Hs1 as <-.
  rewrite uuid_round_trip by done. simpl.
  rewrite event_type_round_trip. simpl. rewrite rfc3339_round_trip by done. simpl.
  rewrite severity_round_trip. simpl. rewrite source_round_trip. simpl.
  unfold pending_of. simpl.
  rewrite wrap_u32_id by done.
  destruct e as [ei et oc sv sr [sid|] un dt]; simpl in *.
  - rewrite uuid_round_trip by auto. simpl. by rewrite Hs2.
  - by rewrite Hs2.
Qed.

Lemma collect_repr rs es : Forall2 row_repr rs es ->
  collect decode_row rs = Ok (map pending_of es).
Proof.
  induction 1 as [|r en rs es Hr H IH]; simpl; [done|].
  rewrite (decode_row_repr r en Hr). simpl. by rewrite IH.
Qed.

Lemma repr_created_le r1 r2 e1 e2 : row_repr r1 e1 -> row_repr r2 e2 ->
  String.leb (created_at r1) (created_at r2) = true -> en_created e1 <= en_created e2.
Proof.
  intros H1 H2. destruct (row_repr_fields _ _ H1) as (_ & -> & _).
  destruct (row_repr_fields _ _ H2) as (_ & -> & _).
  destruct H1 as (_ & _ & ? & _), H2 as (_ & _ & ? & _). by rewrite rfc3339_ordered.
Qed.

Definition by_age (a b : entry) : Prop := en_created a <= en_created b.
Definition due (now : DateTime) (en : entry) : bool := en_next en <=? now.

(** The engine's answer to an [ORDER BY created_at], read as entries. *)
Lemma order_repr rs es : Forall2 row_repr rs es ->
  exists es', es ≡ₚ es' /\ StronglySorted by_age es' /\
              Forall2 row_repr (order_by_asc created_at rs) es'.
Proof.
  intros H. destruct (Forall2_perm _ _ (order_by_asc created_at rs) _ H) as (es' & Hp & Hf).
  { symmetry. apply order_by_asc_perm. }
  exists es'. split; [done|]. split; [|done].
  eapply Forall2_sorted; [exact Hf| |apply order_by_asc_sorted].
  intros a b c d Ha Hb Hab. by eapply repr_created_le.
Qed.

Lemma due_repr now r en : representable now -> row_repr r en ->
  String.leb (next_attempt_at r) (to_rfc3339 now) = due now en.
Proof.
  intros Hnow Hr. destruct (row_repr_fields _ _ Hr) as (_ & _ & -> & _).
  destruct Hr as (_ & Hn & _). apply eq_true_iff_eq. rewrite rfc3339_ordered by done.
  unfold due. by rewrite Z.leb_le.
Qed.

Lemma length_repr q es : queue_repr q es -> length (rows q) = length es.
Proof. intros [H _]. by eapply Forall2_length. Qed.

Lemma delete_repr q es (p : row -> bool) (pe : entry -> bool) :
  queue_repr q es -> (forall r en, row_repr r en -> p r = pe en) ->
  queue_repr (delete_where p q).1 (List.filter (fun en => negb (pe en)) es).
Proof.
  intros (H & Hi & Hn & He) Hp. split; [|split; [|split]]; simpl.
  - eapply Forall2_bfilter; [exact H|]. intros r en Hr. by rewrite (Hp r en Hr).
  - by apply NoDup_map_bfilter.
  - rewrite Forall_forall in *. intros en [Hin _]%elem_of_bfilter. auto.
  - by apply (NoDup_map_bfilter (fun en => event_id (en_event en))).
Qed.

(** [due_batch] is the due part of the queue, oldest first.  Without a
    statement failing it changes nothing and returns, decoded to exactly the
    events that were enqueued, the first [limit] of the entries whose retry
    time has passed, in the order of their enqueue times (the order among
    equal times being the engine's). *)
Lemma due_batch_correct (q : t) (es : list entry) (now : DateTime) (limit : nat)
    (faults : list bool) :
  queue_repr q es -> representable now -> quiet faults ->
  exists es', es' ≡ₚ List.filter (due now) es /\ StronglySorted by_age es' /\
    due_batch now limit (q, faults) =
      (Ok (map pending_of (take limit es')), (q, tail faults)).
Proof.
  intros (Hf & _) Hnow Hq.
  pose proof (Forall2_bfilter _ _ _ _ _ Hf (fun r en => due_repr now r en Hnow)) as Hd.
  destruct (order_repr _ _ Hd) as (es' & Hp & Hs & Ho).
  exists es'. split; [done|]. split; [done|].
  unfold due_batch, db_bind. stmt_runs. simpl. unfold db_lift.
  by rewrite (collect_repr _ (take limit es')) by (by apply Forall2_take).
Qed.

(** Deleting the rows picked by a LIMITed subquery deletes exactly those. *)
Lemma delete_oldest_repr q es n : queue_repr q es ->
  exists gone kept, es ≡ₚ gone ++ kept /\ length gone = Nat.min n (length es) /\
    (forall g k, g ∈ gone -> k ∈ kept -> en_created g <= en_created k) /\
    queue_repr (delete_oldest (Z.of_nat n) q).1 kept.
Proof.
  intros Hq. pose proof Hq as (Hf & Hi & Hn & He). unfold delete_oldest. rewrite Nat2Z.id.
  destruct (order_repr _ _ Hf) as (es' & Hp & Hs & Ho).
  set (ids := map en_id (take n es')).
  assert (Hids : map id (take n (order_by_asc created_at (rows q))) = ids).
  { unfold ids. clear -Ho. revert n. induction Ho as [|r en rs es Hr Ho IH]; intros [|n]; simpl; try done.
    by rewrite IH, (proj1 (row_repr_fields r en Hr)). }
  rewrite Hids.
  set (pe := fun en => existsb (Z.eqb (en_id en)) ids).
  assert (Hpe : forall en, pe en = true <-> en_id en ∈ ids).
  { intros en. unfold pe. rewrite existsb_exists. setoid_rewrite Z.eqb_eq.
    setoid_rewrite <- list_elem_of_In. naive_solver. }
  pose proof (delete_repr q es _ pe Hq
    (fun r en Hr => f_equal (fun i => existsb (Z.eqb i) ids) (proj1 (row_repr_fields r en Hr)))) as Hd.
  exists (take n es'), (List.filter (fun en => negb (pe en)) es).
  rewrite <- (take_drop n es') in Hs. split; [|split; [|split; [|done]]].
  - rewrite Hp at 1. rewrite <- (take_drop n es') at 1. apply Permutation_app_head.
    rewrite (bfilter_perm _ _ _ Hp). rewrite <- (take_drop n es') at 2.
    rewrite List.filter_app, bfilter_none, bfilter_all; [done| |].
    + intros en Hen. apply negb_true_iff, not_true_iff_false. rewrite Hpe. intros Hin.
      assert (Hnd : NoDup (map en_id (take n es') ++ map en_id (drop n es'))).
      { rewrite <- map_app, take_drop. by rewrite <- Hp. }
      apply NoDup_app in Hnd as (_ & Hnd & _). eapply Hnd; [exact Hin|].
      by apply list_elem_of_fmap_2.
    + intros en Hen. apply negb_false_iff, Hpe. by apply list_elem_of_fmap_2.
  - rewrite length_take. by rewrite <- Hp.
  - intros g k Hg Hk. apply elem_of_bfilter in Hk as [Hk Hkn].
    apply negb_true_iff, not_true_iff_false in Hkn. rewrite Hpe in Hkn.
    rewrite Hp in Hk. rewrite <- (take_drop n es') in Hk. apply elem_of_app in Hk as [Hk|Hk].
    { destruct Hkn. by apply list_elem_of_fmap_2. }
    by apply (StronglySorted_app_le _ _ _ _ _ Hs Hg Hk).
Qed.

Definition ids_of (es : list entry) : list Uuid := map (fun en => event_id (en_event en)) es.

(** The abstract INSERT: a known event id is a no-op. *)
Definition add_entry (i : Z) (e : QueuedEvent) (now : DateTime) (es : list entry) : list entry :=
  if decide (event_id e ∈ ids_of es) then es else es ++ [mk_entry i e 0 now now].

Lemma known_id_repr q es e : queue_repr q es -> event_valid e ->
  existsb (fun r' => String.eqb (c_event_id r') (uuid_to_string (event_id e))) (rows q) = true <->
  event_id e ∈ ids_of es.
Proof.
  intros (Hf & _) (Hu & _). unfold ids_of. rewrite existsb_exists, list_elem_of_fmap.
  setoid_rewrite String.eqb_eq. setoid_rewrite <- list_elem_of_In. split.
  - intros (r & Hr & Heq). apply list_elem_of_lookup in Hr as [i Hi].
    destruct (Forall2_lookup_l _ _ _ _ _ Hf Hi) as (en & Hen & Hrep).
    exists en. split; [|by eapply list_elem_of_lookup_2].
    destruct (row_repr_fields _ _ Hrep) as (_ & _ & _ & Hc). rewrite Hc in Heq.
    destruct Hrep as ((Hv & _) & _). symmetry. by apply uuid_to_string_inj.
  - intros (en & Heq & Hen). apply list_elem_of_lookup in Hen as [i Hi].
    destruct (Forall2_lookup_r _ _ _ _ _ Hf Hi) as (r & Hr & Hrep).
    exists r. split; [by eapply list_elem_of_lookup_2|].
    destruct (row_repr_fields _ _ Hrep) as (_ & _ & _ & ->). by rewrite Heq.
Qed.

Lemma insert_repr q es e now payload :
  queue_repr q es -> event_valid e -> representable now -> to_json (data e) = Some payload ->
  queue_repr (insert_on_conflict_nothing (fun i =>
      mk_row i (uuid_to_string (event_id e)) (event_type_to_string (event_type e))
        (to_rfc3339 (occurred_at e)) (severity_to_string (severity e))
        (source_to_string (source e)) (uuid_to_string <$> ev_session_id e) (username e)
        payload 0 (to_rfc3339 now) (to_rfc3339 now)) q).1 (add_entry (next_id q) e now es).
Proof.
  intros Hq Hv Hnow Hp. pose proof (known_id_repr q es e Hq Hv) as Hk.
  unfold insert_on_conflict_nothing, add_entry. simpl.
  destruct (existsb _ _); case_decide as Hin; simpl.
  - done.
  - exfalso. apply Hin. by apply Hk.
  - exfalso. by apply Hk in Hin.
  - destruct Hq as (Hf & Hi & Hn & He). split; [|split; [|split]]; simpl.
    + apply Forall2_app; [done|]. constructor; [|constructor].
      split; [done|]. do 2 (split; [done|]). split; [simpl; lia|]. by exists payload.
    + rewrite map_app. apply NoDup_app. repeat split; [done| |apply NoDup_singleton].
      intros x Hx ->%list_elem_of_singleton. apply list_elem_of_fmap in Hx as (en & Heq & Hen).
      rewrite Forall_forall in Hn. specialize (Hn en Hen). simpl in Heq. lia.
    + apply Forall_app. split; [|by repeat constructor; simpl; lia].
      eapply Forall_impl; [exact Hn|]. simpl. lia.
    + rewrite map_app. apply NoDup_app. repeat split; [done| |apply NoDup_singleton].
      by intros x Hx ->%list_elem_of_singleton.
Qed.

(** [enqueue] stores the event durably at once: it appends one entry,
    due immediately with no attempts made, or does nothing if the event id
    is already queued; then, only if the table exceeds its cap of 5000, it
    discards exactly the excess, none of the discarded being younger than
    any that is kept. *)
Lemma enqueue_correct (q : t) (es : list entry) (e : QueuedEvent) (now : DateTime)
    (faults : list bool) :
  queue_repr q es -> event_valid e -> representable now -> quiet faults ->
  exists q' gone kept faults',
    enqueue e now (q, faults) = (Ok tt, (q', faults')) /\ quiet faults' /\ queue_repr q' kept /\
    add_entry (next_id q) e now es ≡ₚ gone ++ kept /\
    length gone = (length (add_entry (next_id q) e now es) - Z.to_nat MAX_QUEUE_SIZE)%nat /\
    (forall g k, g ∈ gone -> k ∈ kept -> en_created g <= en_created k).
Proof.
  intros Hq Hv Hnow Hfs. destruct (serde_round_trip (data e)) as (payload & Hp & _).
  unfold enqueue, db_bind, or_serde. rewrite Hp. simpl. stmt_runs.
  pose proof (insert_repr q es e now payload Hq Hv Hnow Hp) as Hins. simpl.
  destruct (insert_on_conflict_nothing _ q) as [q1 []]. simpl in *.
  unfold enforce_max_size, enforce_max_size_with_cap, db_bind.
  pose proof (quiet_tail _ Hfs) as Hfs1. stmt_runs. simpl.
  pose proof (quiet_tail _ Hfs1) as Hfs2. set (all := add_entry (next_id q) e now es) in *.
  rewrite (length_repr _ _ Hins), Z.gtb_ltb.
  destruct (Z.ltb_spec 0 (Z.of_nat (length all) - MAX_QUEUE_SIZE)) as [Hlt|Hge].
  - stmt_runs.
    replace (Z.of_nat (length all) - MAX_QUEUE_SIZE)
      with (Z.of_nat (length all - Z.to_nat MAX_QUEUE_SIZE)) by (unfold MAX_QUEUE_SIZE in *; lia).
    destruct (delete_oldest_repr q1 all (length all - Z.to_nat MAX_QUEUE_SIZE) Hins)
      as (gone & kept & Hperm & Hlen & Hage & Hr).
    eexists _, gone, kept, _. split; [done|]. split; [by apply quiet_tail|].
    split; [done|]. split; [done|]. split; [lia|done].
  - exists q1, [], all, (tail (tail faults)). repeat split; try done; try apply Hins.
    + unfold MAX_QUEUE_SIZE in *. simpl. lia.
    + intros g k Hg. by apply not_elem_of_nil in Hg.
Qed.

Lemma mark_delivered_correct q es rid faults : queue_repr q es -> quiet faults ->
  exists q', mark_delivered rid (q, faults) = (Ok tt, (q', tail faults)) /\
    queue_repr q' (List.filter (fun en => negb (en_id en =? rid)) es).
Proof.
  intros Hq Hfs. unfold mark_delivered. stmt_runs. simpl.
  eexists. split; [done|].
  apply (delete_repr q es (fun r => id r =? rid) (fun en => en_id en =? rid)); [done|].
  intros r en Hr. by rewrite (proj1 (row_repr_fields r en Hr)).
Qed.

Definition retry (attempts : Z) (next : DateTime) (en : entry) : entry :=
  mk_entry (en_id en) (en_event en) attempts next (en_created en).

(** The abstract effect of a failed attempt on the whole queue. *)
Definition fail_entry (rid attempts : Z) (now : DateTime) (es : list entry) : list entry :=
  if attempts + 1 >=? MAX_ATTEMPTS then List.filter (fun en => negb (en_id en =? rid)) es
  else map (fun en => if en_id en =? rid
                      then retry (attempts + 1) (now + backoff_delay (attempts + 1)) en
                      else en) es.

Lemma map_id_fields {B} (f : entry -> B) (g : entry -> entry) es :
  (forall en, f (g en) = f en) -> map f (map g es) = map f es.
Proof. intros Hg. rewrite map_map. apply map_ext. apply Hg. Qed.

(** The UPDATE of a row's retry state. *)
Lemma update_repr q es rid n next :
  queue_repr q es -> 0 <= n < 2 ^ 32 -> representable next ->
  queue_repr (update_where (fun r => id r =? rid) (set_retry n (to_rfc3339 next)) q).1
    (map (fun en => if en_id en =? rid then retry n next en else en) es).
Proof.
  intros (Hf & Hi & Hn & He) Ha Hnow. split; [|split; [|split]]; simpl.
  - clear -Hf Ha Hnow.
    induction Hf as [|r en rs es Hr Hf IH]; simpl; constructor; [|done].
    rewrite (proj1 (row_repr_fields r en Hr)). destruct (en_id en =? rid); [|done].
    destruct Hr as (Hv & _ & Hc & _ & payload & Hp & ->).
    split; [done|]. do 2 (split; [done|]). split; [simpl; lia|]. by exists payload.
  - rewrite map_id_fields; [done|]. intros en. by destruct (en_id en =? rid).
  - apply Forall_fmap. eapply Forall_impl; [exact Hn|]. intros en Hen. simpl.
    by destruct (en_id en =? rid).
  - rewrite (map_id_fields (fun en => event_id (en_event en))); [done|].
    intros en. by destruct (en_id en =? rid).
Qed.

(** [mark_failed] puts the entry off by the backoff of its new attempt
    count, touching no other entry, and on the 48th failure discards that
    entry and only it. *)
Lemma mark_failed_correct (q : t) (es : list entry) (rid attempts : Z) (now : DateTime)
    (faults : list bool) :
  queue_repr q es -> 0 <= attempts < 2 ^ 32 - 1 ->
  representable (now + backoff_delay (attempts + 1)) -> quiet faults ->
  exists q', mark_failed rid attempts now (q, faults) = (Ok tt, (q', tail faults)) /\
    queue_repr q' (fail_entry rid attempts now es).
Proof.
  intros Hq Ha Hnow Hfs. unfold mark_failed, fail_entry. rewrite wrap_u32_id by lia.
  destruct (attempts + 1 >=? MAX_ATTEMPTS).
  { destruct (mark_delivered_correct q es rid faults Hq Hfs) as (q' & Hm & Hr). by exists q'. }
  stmt_runs. simpl. eexists. split; [done|]. apply update_repr; [done|lia|done].
Qed.
End QueueRefinement.

(** The retry schedule: the delays start at 10 s, never shrink as
      attempts accumulate and never exceed 30 minutes; the 47 delays before
      an event is given up add up to 76900 s (just over 21 hours). *)
Lemma backoff_schedule :
  (forall n, secs 10 <= backoff_delay n <= secs 1800) /\
  (forall n m, n <= m -> backoff_delay n <= backoff_delay m) /\
  (forall n, 6 <= n -> backoff_delay n = secs 1800) /\
  fold_left Z.add (map backoff_delay (seqZ 1 47)) 0 = secs 76900.
Proof.
  assert (Hcases : forall n, backoff_delay n =
    secs (if n <=? 1 then 10 else if n <=? 2 then 30 else if n <=? 3 then 60
          else if n <=? 4 then 300 else if n <=? 5 then 900 else 1800)).
  { intros n. unfold backoff_delay.
    destruct (Z.leb_spec n 1). { by replace (Z.to_nat (Z.max (n - 1) 0)) with 0%nat by lia. }
    destruct (Z.leb_spec n 2). { by replace (Z.to_nat (Z.max (n - 1) 0)) with 1%nat by lia. }
    destruct (Z.leb_spec n 3). { by replace (Z.to_nat (Z.max (n - 1) 0)) with 2%nat by lia. }
    destruct (Z.leb_spec n 4). { by replace (Z.to_nat (Z.max (n - 1) 0)) with 3%nat by lia. }
    destruct (Z.leb_spec n 5). { by replace (Z.to_nat (Z.max (n - 1) 0)) with 4%nat by lia. }
    rewrite Nat.min_r; [done|simpl; lia]. }
  unfold secs, ns_per_sec in *. split; [|split; [|split]].
  - intros n. rewrite Hcases. repeat case_match; lia.
  - intros n m Hnm. rewrite !Hcases.
    repeat match goal with |- context [?a <=? ?b] => destruct (Z.leb_spec a b) end; lia.
  - intros n Hn. rewrite Hcases.
    repeat match goal with |- context [?a <=? ?b] => destruct (Z.leb_spec a b) end; lia.
  - vm_compute. reflexivity.
Qed.

(** ** A concrete queue *)
Section QueueSample.
Import EventQueue.
#[local] Existing Instances Bits.time_text Bits.uuid_text payload_serde stable_engine.
#[local] Existing Instances Bits.time_text_laws Bits.uuid_text_laws payload_serde_laws
  stable_engine_laws.

Definition sample_event : QueuedEvent :=
  mk_event 7 EventType.UserLogon (secs 100) EventSeverity.Info EventSource.Agent None
    (Some "alice"%string) {["windowsSessionId"%string := JNumber 1]}.
Definition sample_row (i : Z) : row :=
  mk_row i (uuid_to_string 7%N) (event_type_to_string EventType.UserLogon)
    (to_rfc3339 (secs 100)) (severity_to_string EventSeverity.Info)
    (source_to_string EventSource.Agent) None (Some "alice"%string)
    (default EmptyString (to_json (data sample_event))) 0 (to_rfc3339 (secs 100))
    (to_rfc3339 (secs 100)).
Definition sample_queue : t := EventQueue.mk [sample_row 1] 2.
Definition sample_entry : entry := mk_entry 1 sample_event 0 (secs 100) (secs 100).

Lemma sample_valid : event_valid sample_event.
Proof. split; [done|]. split; [by vm_compute|done]. Qed.
Lemma init_repr : queue_repr init [].
Proof. split; [constructor|]. split; [constructor|]. by repeat constructor. Qed.
Lemma sample_repr : queue_repr sample_queue [sample_entry].
Proof.
  split; [|split; [apply NoDup_singleton|split; [by repeat constructor|apply NoDup_singleton]]].
  constructor; [|constructor]. split; [apply sample_valid|].
  do 2 (split; [by vm_compute|]). split; [simpl; lia|].
  exists (default EmptyString (to_json (data sample_event))). done.
Qed.

(** Acknowledging it is what removes a stored event. *)
Lemma queue_loss_explained_witness :
  present (sample_row 1) sample_queue /\
  (present (sample_row 1) (exec_all [OpMarkDelivered 1] (sample_queue, [])).1 \/
   exists os1 o os2, [OpMarkDelivered 1] = os1 ++ o :: os2 /\
     explains (exec_all os1 (sample_queue, [])).1 o (sample_row 1)).
Proof.
  assert (present (sample_row 1) sample_queue).
  { exists (sample_row 1). split; [by constructor|by repeat split]. }
  split; [done|]. by apply queue_loss_explained.
Defined.

Lemma enqueue_correct_witness :
  exists q' gone kept faults',
    enqueue sample_event (secs 100) (init, []) = (Ok tt, (q', faults')) /\ quiet faults' /\
    queue_repr q' kept /\
    add_entry (next_id init) sample_event (secs 100) [] ≡ₚ gone ++ kept /\
    length gone = (length (add_entry (next_id init) sample_event (secs 100) [])
                   - Z.to_nat MAX_QUEUE_SIZE)%nat /\
    (forall g k, g ∈ gone -> k ∈ kept -> en_created g <= en_created k).
Proof.
  apply (enqueue_correct init [] sample_event (secs 100) []);
    [apply init_repr|apply sample_valid|by vm_compute|constructor].
Defined.

Lemma mark_failed_correct_witness :
  exists q', mark_failed 1 0 (secs 100) (sample_queue, []) = (Ok tt, (q', [])) /\
    queue_repr q' (fail_entry 1 0 (secs 100) [sample_entry]).
Proof.
  apply (mark_failed_correct sample_queue [sample_entry] 1 0 (secs 100) []);
    [apply sample_repr|lia|by vm_compute|constructor].
Defined.
End QueueSample.
