(* ===== verification/Table.v ===== *)
(** * What every operation keeps of the event queue's table

    The invariant of [event_queue] under any operation, with any statement
    failing ([wf_queue]); which rows an operation leaves ([exec_tracks]); and
    what stays true of a batch that is out for delivery while others use the
    table ([batch_ok]). *)
From S2P Require Import Prelude Codec Protocol Db Queue.
#[local] Open Scope Z_scope.

Section Table.
Import EventQueue.
Context {TT : TimeText} {UT : UuidText} {SJ : Serde (gmap string json)} {SQ : SqlEngine}.

(** ** Rows: an operation keeps what it does not delete, and adds new ids. *)
Definition from_table (w : t) (w' : t) : Prop :=
  next_id w <= next_id w' /\
  forall r', r' ∈ rows w' ->
    (exists r, r ∈ rows w /\ same_event r r') \/ next_id w <= id r'.

Lemma from_table_refl w : from_table w w.
Proof. split; [lia|]. intros r' Hr. left. exists r'. split; [done|by repeat split]. Qed.

Lemma from_table_trans w1 w2 w3 : from_table w1 w2 -> from_table w2 w3 -> from_table w1 w3.
Proof.
  intros [Hn1 H1] [Hn2 H2]. split; [lia|]. intros r3 Hr3.
  destruct (H2 r3 Hr3) as [(r2 & Hr2 & Hs2)|Hid]; [|right; lia].
  destruct (H1 r2 Hr2) as [(r1 & Hr1 & Hs1)|Hid].
  - left. exists r1. split; [done|]. by eapply same_event_trans.
  - right. destruct Hs2 as [-> _]. done.
Qed.

Lemma delete_from p q : from_table q (delete_where p q).1.
Proof.
  split; [simpl; lia|]. simpl. intros r' [Hr _]%elem_of_bfilter. left. exists r'.
  split; [done|by repeat split].
Qed.

Lemma insert_from mk q : (forall i, id (mk i) = i) ->
  from_table q (insert_on_conflict_nothing mk q).1.
Proof.
  intros Hid. unfold insert_on_conflict_nothing. destruct (existsb _ _); simpl;
    [apply from_table_refl|].
  split; [simpl; lia|]. simpl. intros r' [Hr| ->%list_elem_of_singleton]%elem_of_app.
  - left. exists r'. split; [done|by repeat split].
  - right. rewrite Hid. lia.
Qed.

Lemma update_from p n x q : from_table q (update_where p (set_retry n x) q).1.
Proof.
  split; [simpl; lia|]. simpl. intros r' (r & -> & Hr)%list_elem_of_fmap. left. exists r.
  split; [done|]. destruct (p r); by repeat split.
Qed.

(** Statements that add no row. *)
Inductive edit : t -> t -> Prop :=
| edit_delete p q : edit q (delete_where p q).1
| edit_update p n x q : edit q (update_where p (set_retry n x) q).1.

(** Every operation inserts at most one row, and then edits. *)
Lemma exec_shape o q fs :
  exists q1, rtc edit q1 (exec o (q, fs)).1 /\
    (q1 = q \/ exists mk, (forall i, id (mk i) = i) /\ q1 = (insert_on_conflict_nothing mk q).1).
Proof.
  assert (Hsame : forall q1, q1 = q -> exists q0, rtc edit q0 q1 /\
    (q0 = q \/ exists mk, (forall i, id (mk i) = i) /\ q0 = (insert_on_conflict_nothing mk q).1))
    by (intros q1 ->; exists q; split; [done|by left]).
  assert (Hedit : forall q1, edit q q1 -> exists q0, rtc edit q0 q1 /\
    (q0 = q \/ exists mk, (forall i, id (mk i) = i) /\ q0 = (insert_on_conflict_nothing mk q).1))
    by (intros q1 He; exists q; split; [by apply rtc_once|by left]).
  destruct o as [e now|now lim|rid|eid|rid att now|]; cbn [exec fst].
  - unfold enqueue, db_bind, or_serde. destruct (to_json (data e)) as [pj|]; [|by apply Hsame].
    unfold db_ret. match goal with |- context [stmt QSqlite (insert_on_conflict_nothing ?f) (q, fs)] =>
      set (mk := f); stmt_split; [by apply Hsame|] end.
    exists (insert_on_conflict_nothing mk q).1. split; [|right; by exists mk].
    unfold enforce_max_size, enforce_max_size_with_cap, db_bind. stmt_split; [done|]. simpl.
    destruct (_ >? _); [|done]. stmt_split; [done|]. apply rtc_once, edit_delete.
  - unfold due_batch, db_bind. stmt_split; by apply Hsame.
  - unfold mark_delivered. stmt_split; [by apply Hsame|apply Hedit, edit_delete].
  - unfold mark_delivered_by_event_id. stmt_split; [by apply Hsame|apply Hedit, edit_delete].
  - unfold mark_failed. destruct (_ >=? _); (stmt_split; [by apply Hsame|]); apply Hedit;
      [apply edit_delete|apply edit_update].
  - unfold len, db_bind. stmt_split; by apply Hsame.
Qed.

Lemma edits_from q q' : rtc edit q q' -> from_table q q' /\ (length (rows q') <= length (rows q))%nat.
Proof.
  induction 1 as [q|q1 q2 q3 He _ [IHf IHl]]; [split; [apply from_table_refl|done]|].
  assert (Hf : from_table q1 q2 /\ (length (rows q2) <= length (rows q1))%nat).
  { destruct He; (split; [auto using delete_from, update_from|]); simpl.
    - apply List.filter_length_le.
    - by rewrite length_map. }
  destruct Hf. split; [by eapply from_table_trans|lia].
Qed.

Lemma exec_from o w :
  from_table w.1 (exec o w).1 /\ (length (rows (exec o w).1) <= S (length (rows w.1)))%nat.
Proof.
  destruct w as [q fs]. destruct (exec_shape o q fs) as (q1 & He%edits_from & Hq1).
  destruct He as [Hf Hl]. simpl. destruct Hq1 as [->|(mk & Hid & ->)]; [split; [done|lia]|].
  split; [eapply from_table_trans; [by apply insert_from|done]|].
  etrans; [exact Hl|]. destruct (insert_rows mk q) as [-> | ->]; [lia|].
  rewrite length_app. simpl. lia.
Qed.

Lemma exec_all_from os w : from_table w.1 (exec_all os w).1.
Proof.
  revert w. induction os as [|o os IH]; intros w; [apply from_table_refl|].
  eapply from_table_trans; [apply exec_from|]. apply IH.
Qed.

(** ** A batch that is out for delivery *)
Definition batch_ok (q : t) (pending : list PendingDelivery) : Prop :=
  Forall (fun d => row_id d < next_id q /\ 0 <= pd_attempt_count d < MAX_ATTEMPTS /\
    forall r, r ∈ rows q -> id r = row_id d ->
              c_event_id r = uuid_to_string (Queue.event_id (pd_event d))) pending.

(** Row ids are never used again, so it stays right whatever is done to the
    table meanwhile. *)
Lemma batch_ok_from q q' pending : from_table q q' -> batch_ok q pending -> batch_ok q' pending.
Proof.
  intros [Hn Hf] Hb. eapply Forall_impl; [exact Hb|]. intros d (Hd & Ha & Hr).
  split; [lia|]. split; [done|]. intros r' Hr' Hid.
  destruct (Hf r' Hr') as [(r & Hin & Hs)|Hge]; [|lia].
  destruct Hs as (Hsid & -> & _). apply Hr; [done|congruence].
Qed.
End Table.

(** ** The invariant of the table *)
Section WellFormed.
Import EventQueue.
Context {TT : TimeText} {UT : UuidText} {SJ : Serde (gmap string json)} {SQ : SqlEngine}.
Context {TL : TimeTextLaws} {UL : UuidTextLaws} {SL : SerdeLaws (gmap string json)}
  {QL : SqlEngineLaws}.

(** Every row encodes an entry, ids and event ids are unique, and no entry has
    used up its attempts. *)
Definition wf_queue (q : t) : Prop :=
  exists es, queue_repr q es /\ Forall (fun en => en_attempts en < MAX_ATTEMPTS) es.

(** The arguments the program gives an operation. *)
Definition qop_ok (o : qop) : Prop :=
  match o with
  | OpEnqueue e now => event_valid e /\ representable now
  | OpMarkFailed _ attempts now =>
      0 <= attempts < MAX_ATTEMPTS /\ forall n, representable (now + backoff_delay n)
  | _ => True
  end.

Lemma delete_wf q p (pe : entry -> bool) : wf_queue q ->
  (forall r en, row_repr r en -> p r = pe en) -> wf_queue (delete_where p q).1.
Proof.
  intros (es & Hq & Ha) Hp. eexists. split; [by apply delete_repr|].
  apply Forall_forall. intros en [Hen _]%elem_of_bfilter. by eapply Forall_forall in Ha.
Qed.

Lemma delete_ids_wf q (l : list Z) : wf_queue q ->
  wf_queue (delete_where (fun r => existsb (Z.eqb (id r)) l) q).1.
Proof.
  intros Hq. apply (delete_wf q _ (fun en => existsb (Z.eqb (en_id en)) l)); [done|].
  intros r en Hr. by rewrite (proj1 (row_repr_fields r en Hr)).
Qed.

Lemma enqueue_wf e now q fs : wf_queue q -> event_valid e -> representable now ->
  wf_queue (enqueue e now (q, fs)).2.1.
Proof.
  intros Hq Hv Hnow. unfold enqueue, db_bind, or_serde.
  destruct (to_json (data e)) as [pj|] eqn:Ej; [|done]. unfold db_ret. stmt_split; [done|].
  destruct Hq as (es & Hq & Ha). pose proof (insert_repr q es e now pj Hq Hv Hnow Ej) as Hi.
  match type of Hi with queue_repr ?q1 ?es1 => assert (Hw : wf_queue q1) end.
  { exists (add_entry (next_id q) e now es). split; [done|]. unfold add_entry.
    case_decide; [done|]. by apply Forall_app_2, Forall_singleton. }
  revert Hw. generalize (insert_on_conflict_nothing (fun i =>
      mk_row i (uuid_to_string (Queue.event_id e)) (event_type_to_string (event_type e))
        (to_rfc3339 (occurred_at e)) (severity_to_string (severity e))
        (source_to_string (source e)) (uuid_to_string <$> ev_session_id e) (username e)
        pj 0 (to_rfc3339 now) (to_rfc3339 now)) q). intros [q1 []] Hw. simpl in Hw |- *.
  unfold enforce_max_size, enforce_max_size_with_cap, db_bind. stmt_split; [done|]. simpl.
  destruct (_ >? _); [|done]. stmt_split; [done|]. by apply delete_ids_wf.
Qed.

Lemma exec_wf o q fs : wf_queue q -> qop_ok o -> wf_queue (exec o (q, fs)).1.
Proof.
  intros Hq Ho. destruct o as [e now|now lim|rid|eid|rid att now|]; cbn [exec qop_ok] in Ho |- *.
  - destruct Ho. by apply enqueue_wf.
  - unfold due_batch, db_bind. by stmt_split.
  - unfold mark_delivered. stmt_split; [done|].
    apply (delete_wf q _ (fun en => en_id en =? rid)); [done|].
    intros r en Hr. by rewrite (proj1 (row_repr_fields r en Hr)).
  - unfold mark_delivered_by_event_id. stmt_split; [done|].
    apply (delete_wf q _ (fun en => String.eqb (uuid_to_string (Queue.event_id (en_event en)))
                                      (uuid_to_string eid))); [done|].
    intros r en Hr. by destruct (row_repr_fields r en Hr) as (_ & _ & _ & ->).
  - destruct Ho as [Ha Hr]. unfold mark_failed, MAX_ATTEMPTS in *. rewrite wrap_u32_id by lia.
    rewrite Z.geb_leb. destruct (Z.leb_spec 48 (att + 1)).
    + stmt_split; [done|]. apply (delete_wf q _ (fun en => en_id en =? rid)); [done|].
      intros r en Hrep. by rewrite (proj1 (row_repr_fields r en Hrep)).
    + stmt_split; [done|]. destruct Hq as (es & Hq & Hat). eexists.
      split; [apply update_repr; [exact Hq|lia|apply Hr]|]. apply Forall_fmap.
      eapply Forall_impl; [exact Hat|]. intros en Hen. simpl.
      destruct (en_id en =? rid); simpl; unfold MAX_ATTEMPTS in *; lia.
  - unfold len, db_bind. by stmt_split.
Qed.

Lemma exec_all_wf os w : wf_queue w.1 -> Forall qop_ok os -> wf_queue (exec_all os w).1.
Proof.
  revert w. induction os as [|o os IH]; intros [q fs] Hq Ho; [done|].
  apply Forall_cons in Ho as [Ho Hos]. by apply IH; [apply exec_wf|].
Qed.

(** Reading the queue can fail, but never unwinds, and what it returns is a
    batch of the table. *)
Lemma due_batch_wf now limit q fs : wf_queue q ->
  let '(r, _) := due_batch now limit (q, fs) in
  match r with Ok pending => batch_ok q pending | Err e => e <> QPanic end.
Proof.
  intros (es & (Hf & Hi & Hn & He) & Ha). unfold due_batch, db_bind. stmt_split; [done|].
  cbn [select_due fst snd]. set (rs := take limit _).
  assert (Hrs : forall r, r ∈ rs -> exists en, en ∈ es /\ row_repr r en).
  { intros r Hr. unfold rs in Hr. apply elem_of_take in Hr as (k & Hk & _).
    apply list_elem_of_lookup_2 in Hk. rewrite order_by_asc_perm in Hk.
    apply elem_of_bfilter in Hk as [Hk _]. apply list_elem_of_lookup in Hk as [m Hm].
    destruct (Forall2_lookup_l _ _ _ _ _ Hf Hm) as (en & Hen & Hrep). exists en.
    split; [by eapply list_elem_of_lookup_2|done]. }
  assert (Hc : exists ens, Forall2 row_repr rs ens /\ (forall en, en ∈ ens -> en ∈ es)).
  { clearbody rs. induction rs as [|r rs IH].
    { exists []. split; [constructor|]. intros en Hen. by apply not_elem_of_nil in Hen. }
    destruct (Hrs r (list_elem_of_here _ _)) as (en & Hen & Hrep).
    destruct IH as (ens & H1 & H2); [intros r' Hr'; apply Hrs; by right|].
    exists (en :: ens). split; [by constructor|]. intros en' [->|Hin]%elem_of_cons; auto. }
  destruct Hc as (ens & Hc & Hsub). rewrite (collect_repr _ _ Hc). unfold db_lift.
  apply Forall_fmap, Forall_forall. intros en Hen. apply Hsub in Hen. simpl.
  rewrite Forall_forall in Hn, Ha. split; [by apply Hn|]. 
  apply list_elem_of_lookup in Hen as Hl. destruct Hl as [m Hm].
  destruct (Forall2_lookup_r _ _ _ _ _ Hf Hm) as (r0 & _ & Hrep0). split.
  { split; [|by apply Ha]. destruct Hrep0 as (_ & _ & _ & Hx & _). lia. }
  intros r Hr Hid. apply list_elem_of_lookup in Hr as [k Hk].
  destruct (Forall2_lookup_l _ _ _ _ _ Hf Hk) as (en' & Hen' & Hrep).
  destruct (row_repr_fields _ _ Hrep) as (Hid' & _ & _ & ->).
  apply list_elem_of_lookup_2 in Hen'. f_equal. f_equal. f_equal.
  apply (NoDup_map_inj en_id es); [done..|congruence].
Qed.
End WellFormed.
