(* ===== verification/Store.v ===== *)
(** * The usage-session table ([agent/src/store.rs])

    The table [usage_session] with its text columns and the operations of
    [Store] as SQL statements.  [store_repr] relates the table to the abstract
    list of [session]s it encodes; the refinement lemmas here are what the
    recorder relies on. *)
From S2P Require Import Prelude Codec Tracker Db.
#[local] Open Scope Z_scope.

Inductive StoreError : Type :=
| SSqlite
| SPanic.  (* an [expect] on a stored column *)

Definition reason_to_str (reason : EndReason.t) : string :=
  match reason with
  | EndReason.Lock => "LOCK"
  | EndReason.Logoff => "LOGOFF"
  | EndReason.Suspend => "SUSPEND"
  | EndReason.ConsoleDisconnect => "CONSOLE_DISCONNECT"
  | EndReason.RemoteDisconnect => "REMOTE_DISCONNECT"
  | EndReason.AgentRestart => "AGENT_RESTART"
  | EndReason.AgentShutdown => "AGENT_SHUTDOWN"
  end.

Lemma reason_to_str_inj a b : reason_to_str a = reason_to_str b -> a = b.
Proof. by destruct a, b. Qed.

Module Store.
(** One row of [usage_session]. *)
Record row : Type := mk_row {
  id : string;
  start_utc : string;
  end_utc : option string;
  end_reason : option string;
}.
Definition t : Type := list row.

(** A new database. *)
Definition init : t := [].

Section Ops.
Context {TT : TimeText} {UT : UuidText} {SQ : SqlEngine}.

Abbreviation M A := (db t StoreError A).

(** [INSERT INTO usage_session]: [id] is the primary key. *)
Definition insert_row (r : row) : M unit := fun w =>
  if existsb (fun r' => String.eqb (id r') (id r)) w.1
  then (Err SSqlite, (w.1, tail w.2))
  else stmt SSqlite (fun s => (s ++ [r], tt)) w.

(** [fresh] is what [Uuid::new_v4] returns. *)
Definition start_session (fresh : Uuid) (start : DateTime) : M Uuid :=
  insert_row (mk_row (uuid_to_string fresh) (to_rfc3339 start) None None);;;
  db_ret fresh.

Definition set_end (end_ reason : string) (r : row) : row :=
  mk_row (id r) (start_utc r) (Some end_) (Some reason).

Definition end_session (sid : Uuid) (end_ : DateTime) (reason : EndReason.t) : M unit :=
  stmt SSqlite (fun s =>
    (map (fun r => if String.eqb (id r) (uuid_to_string sid)
                   then set_end (to_rfc3339 end_) (reason_to_str reason) r else r) s, tt)).

Definition expect {A} (o : option A) : result StoreError A :=
  match o with Some a => Ok a | None => Err SPanic end.

(** [WHERE end_utc IS NULL ORDER BY start_utc DESC LIMIT 1] *)
Definition select_dangling (s : t) : t * option row :=
  (s, head (order_by_desc start_utc
         (List.filter (fun r => match end_utc r with None => true | Some _ => false end) s))).

Definition find_dangling_session : M (option (Uuid * DateTime)) :=
  o <-- stmt SSqlite select_dangling;;
  db_lift (match o with
           | None => Ok None
           | Some r => i ← expect (uuid_parse_str (id r));
                       st ← expect (parse_from_rfc3339 (start_utc r));
                       Ok (Some (i, st))
           end).

Definition insert_closed_session (fresh : Uuid) (record : UsageSessionRecord) : M Uuid :=
  insert_row (mk_row (uuid_to_string fresh) (to_rfc3339 (rec_start record))
                (Some (to_rfc3339 (rec_end record)))
                (Some (reason_to_str (rec_end_reason record))));;;
  db_ret fresh.
End Ops.
End Store.

(** ** The abstract sessions and their refinement by the table *)
Record session : Type := mk_session {
  s_id : Uuid;
  s_start : DateTime;
  s_end : option (DateTime * EndReason.t);
}.

Definition is_open (s : session) : bool :=
  match s_end s with None => true | Some _ => false end.

(** The abstract effect of [end_session]. *)
Definition close_session (sid : Uuid) (end_ : DateTime) (reason : EndReason.t)
    (ss : list session) : list session :=
  map (fun s => if (s_id s =? sid)%N then mk_session (s_id s) (s_start s) (Some (end_, reason))
                else s) ss.

Section StoreRefinement.
Import Store.
Context {TT : TimeText} {UT : UuidText} {SQ : SqlEngine}.
Context {TL : TimeTextLaws} {UL : UuidTextLaws} {QL : SqlEngineLaws}.

Definition row_of (s : session) : row :=
  mk_row (uuid_to_string (s_id s)) (to_rfc3339 (s_start s)) (to_rfc3339 ∘ fst <$> s_end s)
    (reason_to_str ∘ snd <$> s_end s).

Definition session_valid (s : session) : Prop :=
  uuid_valid (s_id s) /\ representable (s_start s) /\
  (forall e r, s_end s = Some (e, r) -> representable e).

Definition store_repr (s : Store.t) (ss : list session) : Prop :=
  s = map row_of ss /\ Forall session_valid ss /\ NoDup (map s_id ss).

Lemma store_repr_init : store_repr init [].
Proof. repeat split; constructor. Qed.

Lemma known_session ss sid : Forall session_valid ss -> uuid_valid sid ->
  existsb (fun r' => String.eqb (id r') (uuid_to_string sid)) (map row_of ss) = true <->
  sid ∈ map s_id ss.
Proof.
  intros Hv Hu. rewrite existsb_exists, list_elem_of_fmap. setoid_rewrite String.eqb_eq.
  setoid_rewrite <- list_elem_of_In. split.
  - intros (r & Hr & Heq). apply list_elem_of_fmap in Hr as (s & -> & Hs).
    exists s. split; [|done]. rewrite Forall_forall in Hv. destruct (Hv s Hs) as [Hus _].
    symmetry. by apply uuid_to_string_inj.
  - intros (s & -> & Hs). exists (row_of s). split; [|done]. by apply list_elem_of_fmap_2.
Qed.

Lemma insert_row_repr s ss x faults :
  store_repr s ss -> session_valid x -> s_id x ∉ map s_id ss ->
  outcome s faults tt (fun s' => store_repr s' (ss ++ [x])) (insert_row (row_of x) (s, faults)).
Proof.
  intros (-> & Hv & Hn) Hx Hfresh. unfold insert_row. simpl.
  pose proof (known_session ss (s_id x) Hv (proj1 Hx)) as Hk.
  destruct (existsb _ _); [by destruct Hfresh; apply Hk|].
  apply stmt_outcome; [done|]. simpl. split; [by rewrite map_app|].
  split; [apply Forall_app; split; [done|by constructor]|].
  rewrite map_app. apply NoDup_app. repeat split; [done| |apply NoDup_singleton].
  by intros y Hy ->%list_elem_of_singleton.
Qed.

Lemma start_session_repr s ss sid start faults :
  store_repr s ss -> uuid_valid sid -> representable start -> sid ∉ map s_id ss ->
  outcome s faults sid (fun s' => store_repr s' (ss ++ [mk_session sid start None]))
    (start_session sid start (s, faults)).
Proof.
  intros Hs Hu Hst Hf. eapply (outcome_ret _ _ tt).
  by apply (insert_row_repr s ss (mk_session sid start None)).
Qed.

Definition closed_session (sid : Uuid) (record : UsageSessionRecord) : session :=
  mk_session sid (rec_start record) (Some (rec_end record, rec_end_reason record)).

Lemma insert_closed_repr s ss sid record faults :
  store_repr s ss -> uuid_valid sid -> representable (rec_start record) ->
  representable (rec_end record) -> sid ∉ map s_id ss ->
  outcome s faults sid (fun s' => store_repr s' (ss ++ [closed_session sid record]))
    (insert_closed_session sid record (s, faults)).
Proof.
  intros Hs Hu Hst Hen Hf. eapply (outcome_ret _ _ tt).
  apply (insert_row_repr s ss (closed_session sid record)); [done| |done].
  split; [done|]. split; [done|]. by intros e r [= <- _].
Qed.

Lemma end_session_repr s ss sid end_ reason faults :
  store_repr s ss -> uuid_valid sid -> representable end_ ->
  outcome s faults tt (fun s' => store_repr s' (close_session sid end_ reason ss))
    (end_session sid end_ reason (s, faults)).
Proof.
  intros (-> & Hv & Hn) Hu He. apply stmt_outcome; [done|]. unfold close_session. simpl. split; [|split].
  - rewrite !map_map. apply map_ext_in. intros x Hx%list_elem_of_In.
    rewrite Forall_forall in Hv. destruct (Hv x Hx) as [Hux _]. simpl.
    destruct (N.eqb_spec (s_id x) sid) as [Heq|Hne]; [by rewrite Heq, String.eqb_refl; unfold set_end, row_of; simpl; rewrite Heq|].
    destruct (String.eqb_spec (uuid_to_string (s_id x)) (uuid_to_string sid)) as [Heq|]; [|done].
    by destruct (Hne (uuid_to_string_inj _ _ Hux Hu Heq)).
  - apply Forall_fmap. eapply Forall_impl; [exact Hv|]. intros x (Hx1 & Hx2 & Hx3). simpl.
    destruct (s_id x =? sid)%N; [|done]. split; [done|]. split; [done|].
    by intros e r [= <- _].
  - rewrite map_map. erewrite map_ext; [exact Hn|]. intros x. by destruct (s_id x =? sid)%N.
Qed.

Lemma open_rows ss :
  List.filter (fun r => match end_utc r with None => true | Some _ => false end) (map row_of ss)
  = map row_of (List.filter is_open ss).
Proof.
  induction ss as [|x ss IH]; simpl; [done|]. unfold is_open in *.
  destruct (s_end x); simpl; by rewrite IH.
Qed.

(** [find_dangling_session] recovers the latest open session: on a
    table holding valid sessions, without a failing statement, it changes
    nothing and never panics; it returns [None] exactly when every session
    has ended, and otherwise the id and the start, decoded to what was
    stored, of an open session that no open session started after. *)
Lemma find_dangling_correct (s : Store.t) (ss : list session) (faults : list bool) :
  store_repr s ss -> quiet faults ->
  exists o, find_dangling_session (s, faults) = (Ok o, (s, tail faults)) /\
    match o with
    | None => Forall (fun x => is_open x = false) ss
    | Some (sid, start) =>
        mk_session sid start None ∈ ss /\
        forall x, x ∈ ss -> is_open x = true -> s_start x <= start
    end.
Proof.
  intros (-> & Hv & Hn) Hq. unfold find_dangling_session, db_bind. stmt_runs.
  simpl. rewrite open_rows. set (os := List.filter is_open ss).
  pose proof (order_by_desc_perm _ start_utc (map row_of os)) as Hp.
  pose proof (order_by_desc_sorted _ start_utc (map row_of os)) as Hs.
  destruct (order_by_desc start_utc (map row_of os)) as [|r rs]; simpl.
  - exists None. split; [done|]. apply Permutation_nil, map_eq_nil in Hp.
    apply Forall_forall. intros x Hx. destruct (is_open x) eqn:E; [|done].
    assert (Hin : x ∈ os) by (by apply elem_of_bfilter). by rewrite Hp in Hin; apply not_elem_of_nil in Hin.
  - assert (Hr : r ∈ map row_of os) by (rewrite <- Hp; by left).
    apply list_elem_of_fmap in Hr as (x & -> & Hx). apply elem_of_bfilter in Hx as [Hx Ho].
    pose proof Hv as Hv'. rewrite Forall_forall in Hv'. destruct (Hv' x Hx) as (Hux & Hsx & _).
    simpl. rewrite uuid_round_trip by done. simpl. rewrite rfc3339_round_trip by done.
    eexists. split; [done|]. simpl. split.
    { unfold is_open in Ho. by destruct x as [? ? [[]|]]. }
    intros y Hy Hoy. assert (Hin : row_of y ∈ row_of x :: rs).
    { rewrite Hp. apply list_elem_of_fmap_2. by apply elem_of_bfilter. }
    destruct (Hv' y Hy) as (_ & Hsy & _).
    apply rfc3339_ordered; [done..|]. change (String.leb (start_utc (row_of y)) (start_utc (row_of x)) = true).
    apply elem_of_cons in Hin as [->|Hin]; [apply string_leb_refl|].
    apply StronglySorted_inv in Hs as [_ Hs]. rewrite Forall_forall in Hs. by apply Hs.
Qed.
End StoreRefinement.
