(* ===== verification/Events.v ===== *)
(** * Building the events the agent reports ([agent/src/events.rs])

    [Uuid::new_v4()] and [Utc::now()] are the arguments [fresh] and [clock] of
    every constructor.  [from_session_event] is total over the tracker's
    notifications; [activity_event] overrides the clock with the instant of the
    transition. *)
From S2P Require Import Prelude Codec Tracker Protocol Queue.
#[local] Open Scope Z_scope.

Abbreviation payload := (gmap string json) (only parsing).

Section Events.
Context {UT : UuidText}.

Definition new_event (fresh : Uuid) (clock : DateTime) (event_type : EventType.t)
    (severity : EventSeverity.t) (data : payload) : QueuedEvent :=
  mk_event fresh event_type clock severity EventSource.Agent None None data.

(** [QueuedEvent { username, ..new_event(..) }] *)
Definition new_session_event (fresh : Uuid) (clock : DateTime) (event_type : EventType.t)
    (severity : EventSeverity.t) (username : option string) (data : payload) : QueuedEvent :=
  let e := new_event fresh clock event_type severity data in
  mk_event (event_id e) (Queue.event_type e) (occurred_at e) (Queue.severity e) (source e)
    (ev_session_id e) username (Queue.data e).

(** [collect] into a map: a later pair replaces an earlier one. *)
Definition data (pairs : list (string * json)) : payload :=
  fold_left (fun m kv => <[kv.1 := kv.2]> m) pairs ∅.

Definition from_session_event (fresh : Uuid) (clock : DateTime) (event : SessionEvent)
    (username : option string) : QueuedEvent :=
  let '(event_type, windows_session_id) :=
    match event with
    | Logon id => (EventType.UserLogon, Some id)
    | Logoff id => (EventType.UserLogoff, Some id)
    | Lock id => (EventType.UserLock, Some id)
    | Unlock id => (EventType.UserUnlock, Some id)
    | ConsoleConnect id => (EventType.SessionConnected, Some id)
    | ConsoleDisconnect id => (EventType.SessionDisconnected, Some id)
    | RemoteConnect id => (EventType.SessionConnected, Some id)
    | RemoteDisconnect id => (EventType.SessionDisconnected, Some id)
    | Suspend => (EventType.SystemSuspend, None)
    | Resume => (EventType.SystemResume, None)
    end in
  let event_data := match windows_session_id with
                    | Some id => data [("windowsSessionId"%string, JNumber (Z.of_N id))]
                    | None => ∅
                    end in
  new_session_event fresh clock event_type EventSeverity.Info username event_data.

Definition activity_event (fresh : Uuid) (clock : DateTime) (active : bool)
    (at_ : DateTime) (username : option string) : QueuedEvent :=
  let e := new_session_event fresh clock
             (if active then EventType.Active else EventType.Inactive)
             EventSeverity.Info username ∅ in
  mk_event (event_id e) (Queue.event_type e) at_ (Queue.severity e) (source e)
    (ev_session_id e) (Queue.username e) (Queue.data e).

Definition agent_started fresh clock (agent_version start_reason : string) : QueuedEvent :=
  new_event fresh clock EventType.AgentStarted EventSeverity.Info
    (data [("agentVersion"%string, JString agent_version);
           ("startReason"%string, JString start_reason)]).

Definition system_boot fresh clock : QueuedEvent :=
  new_event fresh clock EventType.SystemBoot EventSeverity.Info ∅.

Definition agent_stopping fresh clock (agent_version : string) : QueuedEvent :=
  new_event fresh clock EventType.AgentStopping EventSeverity.Info
    (data [("agentVersion"%string, JString agent_version)]).

Definition system_shutdown fresh clock : QueuedEvent :=
  new_event fresh clock EventType.SystemShutdown EventSeverity.Info ∅.

Definition agent_error fresh clock (message : string) : QueuedEvent :=
  new_event fresh clock EventType.AgentError EventSeverity.Error
    (data [("message"%string, JString message)]).

Definition controller_discovery_started fresh clock : QueuedEvent :=
  new_event fresh clock EventType.ControllerDiscoveryStarted EventSeverity.Info ∅.

Definition controller_discovered fresh clock (controller_id : Uuid)
    (controller_name controller_url : string) : QueuedEvent :=
  new_event fresh clock EventType.ControllerDiscovered EventSeverity.Info
    (data [("controllerId"%string, JString (uuid_to_string controller_id));
           ("controllerName"%string, JString controller_name);
           ("controllerUrl"%string, JString controller_url)]).

Definition controller_discovery_failed fresh clock (reason : string) : QueuedEvent :=
  new_event fresh clock EventType.ControllerDiscoveryFailed EventSeverity.Warning
    (data [("reason"%string, JString reason)]).

Definition controller_connected fresh clock (controller_url : string) : QueuedEvent :=
  new_event fresh clock EventType.ControllerConnected EventSeverity.Info
    (data [("controllerUrl"%string, JString controller_url)]).

Definition controller_disconnected fresh clock (reason : string) : QueuedEvent :=
  new_event fresh clock EventType.ControllerDisconnected EventSeverity.Warning
    (data [("reason"%string, JString reason)]).

Definition registration_succeeded fresh clock (device_id : Uuid) : QueuedEvent :=
  new_event fresh clock EventType.RegistrationSucceeded EventSeverity.Info
    (data [("deviceId"%string, JString (uuid_to_string device_id))]).

Definition registration_failed fresh clock (reason : string) : QueuedEvent :=
  new_event fresh clock EventType.RegistrationFailed EventSeverity.Error
    (data [("reason"%string, JString reason)]).

Definition heartbeat_sent fresh clock : QueuedEvent :=
  new_event fresh clock EventType.HeartbeatSent EventSeverity.Info ∅.

Definition power_action_requested fresh clock (action reason : string) : QueuedEvent :=
  new_event fresh clock EventType.PowerActionRequested EventSeverity.Warning
    (data [("action"%string, JString action); ("reason"%string, JString reason)]).

Definition power_action_completed fresh clock (action : string) : QueuedEvent :=
  new_event fresh clock EventType.PowerActionCompleted EventSeverity.Info
    (data [("action"%string, JString action)]).

Definition power_action_failed fresh clock (action reason : string) : QueuedEvent :=
  new_event fresh clock EventType.PowerActionFailed EventSeverity.Error
    (data [("action"%string, JString action); ("reason"%string, JString reason)]).
End Events.

(** Whatever a notification is, its event is valid for the queue. *)
Lemma from_session_event_fields fresh clock e u :
  event_id (from_session_event fresh clock e u) = fresh /\
  occurred_at (from_session_event fresh clock e u) = clock /\
  username (from_session_event fresh clock e u) = u /\
  ev_session_id (from_session_event fresh clock e u) = None.
Proof. by destruct e. Qed.

(** The wire type of an event determines the notification up to the session
    id and the console/remote distinction. *)
Lemma from_session_event_session fresh clock e u :
  Queue.data (from_session_event fresh clock e u) !! "windowsSessionId"%string =
  (fun id => JNumber (Z.of_N id)) <$> session_id e.
Proof. destruct e; simpl; by rewrite ?lookup_insert_eq. Qed.
