(* ===== verification/Recorder.v ===== *)
(** * The usage recorder ([agent/src/lib.rs])

    [UsageRecorder] ties the tracker to the session table and the event queue.
    A table comes with the faults its statements will meet.  What the outside
    supplies to one call ([Uuid::new_v4], [Utc::now]) is the record [inputs].
    A store error leaves the call through [?] with the fields as they are at
    that point; a queue error is logged and ignored. *)
From S2P Require Import Prelude Codec Tracker Protocol Db Queue Store Events.
#[local] Open Scope Z_scope.

Record SessionSnapshot : Type := mk_snapshot {
  snap_username : option string;
  snap_state : string;
}.
Definition default_snapshot : SessionSnapshot := mk_snapshot None "NO_SESSION".

(** [HashMap::values().next()]: the iteration order is the map's choice. *)
Class HashOrder : Type := { first_value : gmap SessionId string -> option string }.
Class HashOrderLaws `{!HashOrder} : Prop := {
  first_value_none : forall m, first_value m = None <-> m = ∅;
  first_value_some : forall m v, first_value m = Some v -> exists k, m !! k = Some v;
}.

(** The fresh identifiers and the clock reading one call may use. *)
Record inputs : Type := mk_inputs {
  in_row_id : Uuid;         (* the session row's [Uuid::new_v4] *)
  in_event_id : Uuid;       (* the raw event's *)
  in_activity_id : Uuid;    (* the activity event's *)
  in_clock : DateTime;      (* [Utc::now] inside [new_event] *)
}.

Module UsageRecorder.
Record t : Type := mk {
  tracker : UsageTracker.t;
  store : Store.t * list bool;
  open_session_id : option Uuid;
  event_queue : option (EventQueue.t * list bool);
  session_usernames : gmap SessionId string;
  snapshot : SessionSnapshot;
}.

Section Ops.
Context {TT : TimeText} {UT : UuidText} {SJ : Serde (gmap string json)} {SQ : SqlEngine}
  {HO : HashOrder}.

Definition from_store (st : Store.t * list bool) : result StoreError t :=
  let '(found, st') := Store.find_dangling_session st in
  o ← found;
  let '(tracker, open_session_id) :=
    match o with
    | Some (id, started_at) => (UsageTracker.resume_open_session started_at, Some id)
    | None => (UsageTracker.new, None)
    end in
  Ok (mk tracker st' open_session_id None ∅ default_snapshot).

Definition with_event_queue (queue : EventQueue.t * list bool) (r : t) : t :=
  mk (tracker r) (store r) (open_session_id r) (Some queue) (session_usernames r) (snapshot r).

Definition set_tracker tr (r : t) : t :=
  mk tr (store r) (open_session_id r) (event_queue r) (session_usernames r) (snapshot r).
Definition set_store st o (r : t) : t :=
  mk (tracker r) st o (event_queue r) (session_usernames r) (snapshot r).
Definition set_usernames (f : gmap SessionId string -> gmap SessionId string) (r : t) : t :=
  mk (tracker r) (store r) (open_session_id r) (event_queue r) (f (session_usernames r))
    (snapshot r).
Definition set_snapshot s (r : t) : t :=
  mk (tracker r) (store r) (open_session_id r) (event_queue r) (session_usernames r) s.
Definition set_queue q (r : t) : t :=
  mk (tracker r) (store r) (open_session_id r) q (session_usernames r) (snapshot r).

(** The [match &transition]: the store's part of a transition. *)
Definition persist (inp : inputs) (transition : Transition) (r : t)
  : result StoreError unit * t :=
  match transition with
  | Started start =>
      let '(res, st) := Store.start_session (in_row_id inp) start (store r) in
      match res with
      | Ok id => (Ok tt, set_store st (Some id) r)
      | Err e => (Err e, set_store st (open_session_id r) r)
      end
  | Ended record =>
      match open_session_id r with
      | Some id =>
          let '(res, st) :=
            Store.end_session id (rec_end record) (rec_end_reason record) (store r) in
          (res, set_store st None r)
      | None =>
          let '(res, st) := Store.insert_closed_session (in_row_id inp) record (store r) in
          (_ ← res; Ok tt, set_store st None r)
      end
  | NoChange => (Ok tt, r)
  end.

Definition snapshot_state (r : t) (event : SessionEvent) : string :=
  let username := first_value (session_usernames r) in
  if UsageTracker.is_active (tracker r) && bool_decide (is_Some username) then "ACTIVE"
  else if UsageTracker.is_active (tracker r) then "LOCKED"
  else match event with
       | Suspend => "SUSPENDED"
       | Logoff _ => "NO_SESSION"
       | Lock _ => "LOCKED"
       | ConsoleDisconnect _ | RemoteDisconnect _ => "DISCONNECTED"
       | _ => "NO_SESSION"
       end.

Definition refresh_snapshot (event : SessionEvent) (r : t) : t :=
  set_snapshot (mk_snapshot (first_value (session_usernames r)) (snapshot_state r event)) r.

Definition activity_transition (transition : Transition) (event : SessionEvent)
  : option bool :=
  match transition, event with
  | Started _, _ => Some true
  | Ended _, Logoff _ => None
  | Ended _, _ => Some false
  | NoChange, _ => None
  end.

(** The events one accepted notification reports, in enqueue order. *)
Definition reported (inp : inputs) (event : SessionEvent) (username : option string)
    (transition : Transition) (now : DateTime) : list QueuedEvent :=
  from_session_event (in_event_id inp) (in_clock inp) event username ::
  match activity_transition transition event with
  | Some active =>
      [activity_event (in_activity_id inp) (in_clock inp) active now username]
  | None => []
  end.

(** [if let Err(err) = queue.enqueue(..) { error!(..) }], event by event. *)
Definition enqueue_all (es : list QueuedEvent) (now : DateTime)
    (q : EventQueue.t * list bool) : EventQueue.t * list bool :=
  fold_left (fun q e => (EventQueue.enqueue e now q).2) es q.

Definition handle_at (inp : inputs) (event : SessionEvent) (username : option string)
    (now : DateTime) (r : t) : result StoreError unit * t :=
  if match event with Logon id => UsageTracker.is_logged_on (tracker r) id | _ => false end
  then (Ok tt, r)
  else
    let r1 := match session_id event, username with
              | Some id, Some name => set_usernames <[id := name]> r
              | _, _ => r
              end in
    let event_username := id ← session_id event; session_usernames r1 !! id in
    let '(tr, transition) := UsageTracker.apply (tracker r1) event now in
    let '(res, r2) := persist inp transition (set_tracker tr r1) in
    match res with
    | Err e => (Err e, r2)
    | Ok _ =>
        let r3 := match event with
                  | Logoff id => set_usernames (delete id) r2
                  | _ => r2
                  end in
        let r4 := refresh_snapshot event r3 in
        let q := enqueue_all (reported inp event event_username transition now) now
                   <$> event_queue r4 in
        (Ok tt, set_queue q r4)
    end.

(** [handle] stamps the notification with its own clock reading. *)
Definition handle (inp : inputs) (event : SessionEvent) (username : option string)
    (utc_now : DateTime) (r : t) : result StoreError unit * t :=
  handle_at inp event username utc_now r.

Definition shutdown (utc_now : DateTime) (r : t) : result StoreError unit * t :=
  let '(tr, closed) := UsageTracker.close (tracker r) utc_now EndReason.AgentShutdown in
  let taken := open_session_id r in
  let r1 := set_tracker tr (set_store (store r) None r) in
  match closed, taken with
  | Some record, Some id =>
      let '(res, st) :=
        Store.end_session id (rec_end record) (rec_end_reason record) (store r1) in
      (res, set_store st None r1)
  | _, _ => (Ok tt, r1)
  end.

Definition is_active (r : t) : bool := UsageTracker.is_active (tracker r).
End Ops.
End UsageRecorder.

(** ** The recorder keeps the session table in step with the tracker *)
Section RecorderFacts.
Import UsageRecorder.
Context {TT : TimeText} {UT : UuidText} {SJ : Serde (gmap string json)} {SQ : SqlEngine}
  {HO : HashOrder}.
Context {TL : TimeTextLaws} {UL : UuidTextLaws} {QL : SqlEngineLaws} {HL : HashOrderLaws}.

#[local] Arguments Store.end_session : simpl never.
#[local] Arguments Store.start_session : simpl never.
#[local] Arguments Store.insert_closed_session : simpl never.

(** A repeated logon notification. *)
Definition duplicate (tr : UsageTracker.t) (e : SessionEvent) : bool :=
  match e with Logon id => UsageTracker.is_logged_on tr id | _ => false end.

(** What a transition does to the abstract sessions. *)
Definition log_transition (fresh : Uuid) (open : option Uuid) (x : Transition)
    (ss : list session) : list session :=
  match x with
  | NoChange => ss
  | Started start => ss ++ [mk_session fresh start None]
  | Ended rec =>
      match open with
      | Some id => close_session id (rec_end rec) (rec_end_reason rec) ss
      | None => ss ++ [closed_session fresh rec]
      end
  end.

(** Holds through store failures: an id the recorder remembers is that of an
    open row with the tracker's start. *)
Definition linked (r : t) (ss : list session) : Prop :=
  store_repr (store r).1 ss /\
  (forall st, UsageTracker.open_since (tracker r) = Some st -> representable st) /\
  (forall id, open_session_id r = Some id -> exists st,
     UsageTracker.open_since (tracker r) = Some st /\ mk_session id st None ∈ ss).

(** The session the recorder believes open. *)
Definition current (r : t) : list session :=
  match UsageTracker.open_since (tracker r), open_session_id r with
  | Some st, Some id => [mk_session id st None]
  | _, _ => []
  end.

(** Holds as long as the store works: the table holds the records closed so
    far, in order, then the tracker's open session if there is one. *)
Definition tracked (r : t) (closed : list session) : Prop :=
  linked r (closed ++ current r) /\ Forall (fun s => is_open s = false) closed /\
  (UsageTracker.open_since (tracker r) = None <-> open_session_id r = None).

Definition core (r : t) := (tracker r, store r, open_session_id r).

Lemma persist_core inp x r r' : core r = core r' ->
  (persist inp x r).1 = (persist inp x r').1 /\
  core (persist inp x r).2 = core (persist inp x r').2.
Proof.
  destruct r, r'. unfold core. simpl. intros [= -> -> ->]. unfold persist.
  destruct x as [|st|rec]; simpl.
  - done.
  - by destruct (Store.start_session _ _ _) as [[|] ?].
  - case_match; [by destruct (Store.end_session _ _ _ _) as [[|] ?]|].
    by destruct (Store.insert_closed_session _ _ _) as [[|] ?].
Qed.

(** [handle_at] is the tracker's step followed by [persist], as far as the
    tracker and the table are concerned. *)
Lemma handle_at_core inp e u now r : duplicate (tracker r) e = false ->
  let '(tr, x) := UsageTracker.apply (tracker r) e now in
  (handle_at inp e u now r).1 = (persist inp x (set_tracker tr r)).1 /\
  core (handle_at inp e u now r).2 = core (persist inp x (set_tracker tr r)).2.
Proof.
  intros Hd. unfold handle_at. fold (duplicate (tracker r) e). rewrite Hd.
  set (r1 := match session_id e, u with
             | Some id, Some name => set_usernames <[id:=name]> r | _, _ => r end).
  assert (Hr1 : core r1 = core r).
  { unfold r1. by destruct (session_id e), u. }
  replace (tracker r1) with (tracker r) by (by injection Hr1).
  destruct (UsageTracker.apply (tracker r) e now) as [tr x].
  destruct (persist_core inp x (set_tracker tr r1) (set_tracker tr r)) as [H1 H2].
  { unfold core in *. simpl. by injection Hr1 as _ -> ->. }
  destruct (persist inp x (set_tracker tr r1)) as [res r2]. simpl in H1, H2. rewrite <- H1, <- H2.
  assert (Hunit : forall r2, (persist inp x r2).1 = Ok tt \/ exists err, (persist inp x r2).1 = Err err).
  { intros r0. destruct (persist inp x r0) as [[[]|] ?]; [by left|right; by eexists]. }
  destruct res as [[]|err]; [|done]. split; [done|]. by destruct e.
Qed.

Lemma apply_open tr e now :
  match UsageTracker.apply tr e now with
  | (tr', NoChange) => UsageTracker.open_since tr' = UsageTracker.open_since tr
  | (tr', Started st) =>
      st = now /\ UsageTracker.open_since tr = None /\ UsageTracker.open_since tr' = Some now
  | (tr', Ended rec) =>
      rec_end rec = now /\ UsageTracker.open_since tr = Some (rec_start rec) /\
      UsageTracker.open_since tr' = None
  end.
Proof.
  rewrite TrackerFacts.apply_update. unfold UsageTracker.recompute.
  rewrite TrackerFacts.update_open.
  destruct (UsageTracker.open_since tr) eqn:E, (UsageTracker.any_visible _); simpl;
    rewrite ?TrackerFacts.update_open, ?E; auto.
Qed.

Definition fresh_for (inp : inputs) (ss : list session) : Prop :=
  uuid_valid (in_row_id inp) /\ in_row_id inp ∉ map s_id ss.

Lemma close_session_in sid e rs st ss :
  mk_session sid st None ∈ ss -> mk_session sid st (Some (e, rs)) ∈ close_session sid e rs ss.
Proof.
  intros Hin. apply list_elem_of_fmap. exists (mk_session sid st None). split; [|done].
  simpl. by rewrite N.eqb_refl.
Qed.

Lemma close_session_ids sid e rs ss : map s_id (close_session sid e rs ss) = map s_id ss.
Proof.
  unfold close_session. rewrite map_map. apply map_ext. intros x.
  by destruct (s_id x =? sid)%N.
Qed.

(** One transition reaches the table, or the statement failed and the table
    is as before; either way the recorder stays [linked]. *)
Lemma persist_step inp e now r ss tr x :
  linked r ss -> fresh_for inp ss -> representable now ->
  UsageTracker.apply (tracker r) e now = (tr, x) ->
  let '(res, r') := persist inp x (set_tracker tr r) in
  tracker r' = tr /\ (quiet (store r).2 -> quiet (store r').2) /\
  ((exists er, res = Err er /\ head (store r).2 = Some true /\
      (store r').1 = (store r).1 /\ linked r' ss) \/
   (res = Ok tt /\ linked r' (log_transition (in_row_id inp) (open_session_id r) x ss) /\
    open_session_id r' = match x with
                         | NoChange => open_session_id r
                         | Started _ => Some (in_row_id inp)
                         | Ended _ => None
                         end)).
Proof.
  intros (Hs & Hrep & Hl) [Hu Hf] Hnow Ha. pose proof (apply_open (tracker r) e now) as Hx.
  rewrite Ha in Hx. destruct r as [tr0 [s fs] oid q us sn]. simpl in *.
  destruct x as [|st|rec]; simpl.
  - split; [done|]. split; [done|]. right. split; [done|]. split; [|done].
    split; [done|]. simpl. rewrite Hx. auto.
  - destruct Hx as (-> & Hnone & Hsome).
    assert (oid = None) as ->.
    { destruct oid as [id|]; [|done]. destruct (Hl id) as (? & ? & _); congruence. }
    destruct (start_session_repr s ss (in_row_id inp) now fs Hs Hu Hnow Hf)
      as [(er & Hh & ->)|(s' & -> & Hs')]; simpl;
      (split; [done|]); (split; [by apply quiet_tail|]).
    + left. exists er. do 3 (split; [done|]). split; [done|]. simpl. rewrite Hsome.
      split; [by intros ? [= <-]|done].
    + right. split; [done|]. split; [|done]. split; [done|]. simpl. rewrite Hsome.
      split; [by intros ? [= <-]|]. intros id [= <-]. exists now. split; [done|].
      apply elem_of_app. right. by left.
  - destruct Hx as (Hend & Hopen & Hnone).
    assert (Hst : representable (rec_start rec)) by auto.
    assert (Hen : representable (rec_end rec)) by (by rewrite Hend).
    assert (Hl' : forall s' fs' ss', store_repr s' ss' ->
      linked (mk tr (s', fs') None q us sn) ss').
    { intros s' fs' ss' H'. split; [done|]. simpl. rewrite Hnone. done. }
    destruct oid as [id|].
    + destruct (Hl id eq_refl) as (st & Hst' & Hin).
      assert (Hid : uuid_valid id).
      { destruct Hs as (_ & Hv & _). rewrite Forall_forall in Hv. apply (Hv _ Hin). }
      destruct (end_session_repr s ss id (rec_end rec) (rec_end_reason rec) fs Hs Hid Hen)
        as [(er & Hh & ->)|(s' & -> & Hs')]; simpl;
        (split; [done|]); (split; [by apply quiet_tail|]); [left; exists er|right];
        repeat (split; [done|]); first [by apply Hl' | split; [by apply Hl'|done]].
    + destruct (insert_closed_repr s ss (in_row_id inp) rec fs Hs Hu Hst Hen Hf)
        as [(er & Hh & ->)|(s' & -> & Hs')]; simpl;
        (split; [done|]); (split; [by apply quiet_tail|]); [left; exists er|right];
        repeat (split; [done|]); first [by apply Hl' | split; [by apply Hl'|done]].
Qed.

Lemma linked_core r r' ss : core r = core r' -> linked r ss -> linked r' ss.
Proof. unfold core, linked. intros [= -> -> ->]. done. Qed.

(** A call that is ignored, fails, or logs its transition. *)
Lemma handle_at_step inp e u now r ss :
  linked r ss -> fresh_for inp ss -> representable now ->
  let '(tr, x) := if duplicate (tracker r) e then (tracker r, NoChange)
                  else UsageTracker.apply (tracker r) e now in
  let '(res, r') := handle_at inp e u now r in
  tracker r' = tr /\ (quiet (store r).2 -> quiet (store r').2) /\
  ((exists er, res = Err er /\ head (store r).2 = Some true /\
      (store r').1 = (store r).1 /\ linked r' ss) \/
   (res = Ok tt /\ linked r' (log_transition (in_row_id inp) (open_session_id r) x ss) /\
    open_session_id r' = match x with
                         | NoChange => open_session_id r
                         | Started _ => Some (in_row_id inp)
                         | Ended _ => None
                         end)).
Proof.
  intros Hl Hf Hnow. destruct (duplicate (tracker r) e) eqn:Hd.
  { unfold handle_at. fold (duplicate (tracker r) e). rewrite Hd.
    do 2 (split; [done|]). right. done. }
  pose proof (handle_at_core inp e u now r Hd) as Hc.
  destruct (UsageTracker.apply (tracker r) e now) as [tr x] eqn:Ha.
  pose proof (persist_step inp e now r ss tr x Hl Hf Hnow Ha) as Hp.
  destruct (handle_at inp e u now r) as [res r'].
  destruct (persist inp x (set_tracker tr r)) as [res2 r2]. simpl in Hc.
  destruct Hc as [-> Hc]. pose proof Hc as Hc'. injection Hc' as -> -> ->.
  destruct Hp as (-> & Hq & Hp). split; [done|]. split; [done|].
  destruct Hp as [(er & -> & Hh & Hst & Hp)|(-> & Hp & Ho)]; [left; exists er|right].
  - do 3 (split; [done|]). by eapply (linked_core r2).
  - split; [done|]. split; [by eapply (linked_core r2)|done].
Qed.

Definition closed_record (s : session) : option UsageSessionRecord :=
  (fun er => mk_record (s_start s) er.1 er.2) <$> s_end s.

Lemma close_session_last sid st e rs cl :
  NoDup (map s_id (cl ++ [mk_session sid st None])) ->
  close_session sid e rs (cl ++ [mk_session sid st None]) =
  cl ++ [mk_session sid st (Some (e, rs))].
Proof.
  rewrite map_app. intros (_ & Hd & _)%NoDup_app. unfold close_session. rewrite map_app. simpl.
  rewrite N.eqb_refl. f_equal. rewrite <- (map_id cl) at 2. apply map_ext_in.
  intros x Hx%list_elem_of_In. destruct (N.eqb_spec (s_id x) sid) as [Heq|]; [|done].
  destruct (Hd (s_id x)); [by apply list_elem_of_fmap_2|]. rewrite Heq. by left.
Qed.

(** Without store failures a call keeps the recorder [tracked] and appends
    exactly the record its transition closed. *)
Lemma handle_at_tracked inp e u now r cl :
  tracked r cl -> quiet (store r).2 -> fresh_for inp (cl ++ current r) -> representable now ->
  let '(tr, x) := if duplicate (tracker r) e then (tracker r, NoChange)
                  else UsageTracker.apply (tracker r) e now in
  let '(res, r') := handle_at inp e u now r in
  res = Ok tt /\ tracker r' = tr /\ quiet (store r').2 /\
  exists cl', tracked r' cl' /\
    omap closed_record cl' = omap closed_record cl ++ ended_records [x] /\
    map s_id (cl' ++ current r') ⊆ in_row_id inp :: map s_id (cl ++ current r).
Proof.
  intros (Hl & Hc & Ho) Hq Hf Hnow.
  pose proof (handle_at_step inp e u now r _ Hl Hf Hnow) as Hs.
  assert (Hx : let '(tr, x) := if duplicate (tracker r) e then (tracker r, NoChange)
                               else UsageTracker.apply (tracker r) e now in
    match x with
    | NoChange => UsageTracker.open_since tr = UsageTracker.open_since (tracker r)
    | Started st => st = now /\ UsageTracker.open_since (tracker r) = None /\
                    UsageTracker.open_since tr = Some now
    | Ended rec => rec_end rec = now /\
        UsageTracker.open_since (tracker r) = Some (rec_start rec) /\
        UsageTracker.open_since tr = None
    end).
  { destruct (duplicate (tracker r) e); [done|].
    pose proof (apply_open (tracker r) e now) as Ha.
    destruct (UsageTracker.apply (tracker r) e now) as [tr []]; done. }
  destruct (if duplicate (tracker r) e then _ else _) as [tr x].
  destruct (handle_at inp e u now r) as [res r'].
  destruct Hs as (Htr & Hq' & [(er & _ & Hh & _)|(-> & Hl' & Hid)]).
  { destruct Hq as [|? ? -> ?]; by simplify_eq/=. }
  subst tr. split; [done|]. split; [done|]. split; [auto|]. unfold current in *.
  destruct x as [|st|rec]; simpl in Hl', Hid.
  - exists cl. rewrite Hx, Hid. unfold tracked, current. rewrite Hx, Hid.
    split; [done|]. split; [first [done | symmetry; apply app_nil_r]|]. set_solver.
  - destruct Hx as (-> & Hn & Hsm). exists cl. unfold tracked, current. rewrite Hsm, Hid.
    rewrite Hn in Hl' |- *. rewrite app_nil_r in *. split; [by split_and!|]. split; [first [done | symmetry; apply app_nil_r]|].
    rewrite map_app. simpl. set_solver.
  - destruct Hx as (Hend & Hst & Hn). rewrite Hst in Ho, Hl', Hl |- *.
    destruct (open_session_id r) as [id|]; [|by destruct Ho as [_ Ho]; discriminate Ho].
    rewrite close_session_last in Hl' by apply Hl.
    exists (cl ++ [mk_session id (rec_start rec) (Some (rec_end rec, rec_end_reason rec))]).
    unfold tracked, current. rewrite Hn, Hid, app_nil_r. split; [|split].
    + split; [done|]. split; [|done]. apply Forall_app. split; [done|by constructor].
    + rewrite omap_app. by destruct rec.
    + rewrite !map_app. simpl. set_solver.
Qed.

(** ** Whole runs *)
Record call : Type := mk_call {
  c_inp : inputs;
  c_event : SessionEvent;
  c_user : option string;
  c_now : DateTime;
}.

Definition step_call (r : t) (c : call) : t :=
  (handle_at (c_inp c) (c_event c) (c_user c) (c_now c) r).2.
Definition handle_all (cs : list call) (r : t) : t := fold_left step_call cs r.

(** The notifications that are not repeated logons. *)
Fixpoint accepted (tr : UsageTracker.t) (cs : list call) : list (SessionEvent * DateTime) :=
  match cs with
  | [] => []
  | c :: cs' =>
      if duplicate tr (c_event c) then accepted tr cs'
      else (c_event c, c_now c) ::
           accepted (UsageTracker.apply tr (c_event c) (c_now c)).1 cs'
  end.

(** [Uuid::new_v4] does not repeat, and times are printable. *)
Definition fresh_calls (cs : list call) : Prop :=
  NoDup (map (fun c => in_row_id (c_inp c)) cs) /\
  Forall (fun c => uuid_valid (in_row_id (c_inp c)) /\ representable (c_now c)) cs.

Definition start (faults : list bool) (queue : option (EventQueue.t * list bool)) : t :=
  mk UsageTracker.new (Store.init, faults) None queue ∅ default_snapshot.

Lemma start_linked faults queue : linked (start faults queue) [].
Proof. split; [apply store_repr_init|done]. Qed.

Lemma handle_all_tracked cs : forall r cl,
  tracked r cl -> quiet (store r).2 -> fresh_calls cs ->
  Forall (fun c => in_row_id (c_inp c) ∉ map s_id (cl ++ current r)) cs ->
  let '(tr, xs) := UsageTracker.run (tracker r) (accepted (tracker r) cs) in
  let r' := handle_all cs r in
  tracker r' = tr /\ quiet (store r').2 /\
  exists cl', tracked r' cl' /\ omap closed_record cl' = omap closed_record cl ++ ended_records xs.
Proof.
  induction cs as [|c cs IH]; intros r cl Ht Hq Hfr Hnew.
  { simpl. split; [done|]. split; [done|]. exists cl. by rewrite app_nil_r. }
  destruct Hfr as [Hnd Hv]. apply NoDup_cons in Hnd as [Hnc Hnd].
  apply Forall_cons in Hv as [[Hu Hnow] Hv]. apply Forall_cons in Hnew as [Hnew0 Hnew].
  pose proof (handle_at_tracked (c_inp c) (c_event c) (c_user c) (c_now c) r cl Ht Hq
                (conj Hu Hnew0) Hnow) as Hs.
  cbn [accepted]. change (handle_all (c :: cs) r) with (handle_all cs (step_call r c)).
  unfold step_call.
  destruct (handle_at (c_inp c) (c_event c) (c_user c) (c_now c) r) as [res r1]. simpl.
  assert (Hnext : forall cl1, map s_id (cl1 ++ current r1) ⊆
      in_row_id (c_inp c) :: map s_id (cl ++ current r) ->
    Forall (fun c' => in_row_id (c_inp c') ∉ map s_id (cl1 ++ current r1)) cs).
  { intros cl1 Hsub. rewrite Forall_forall in Hnew |- *. intros c' Hc' Hin.
    apply Hsub, elem_of_cons in Hin as [Heq|Hin]; [|by apply (Hnew c')].
    apply Hnc. rewrite <- Heq. by apply (list_elem_of_fmap_2 (fun c => in_row_id (c_inp c))). }
  destruct (duplicate (tracker r) (c_event c)).
  - destruct Hs as (-> & Htr & Hq1 & cl1 & Ht1 & Hom & Hsub).
    specialize (IH r1 cl1 Ht1 Hq1 (conj Hnd Hv) (Hnext cl1 Hsub)). rewrite Htr in IH.
    destruct (UsageTracker.run _ _) as [tr2 xs2].
    destruct IH as (H1 & H2 & cl2 & H3 & H4). split; [done|]. split; [done|].
    exists cl2. split; [done|]. by rewrite H4, Hom, app_nil_r.
  - cbn [UsageTracker.run].
    destruct (UsageTracker.apply (tracker r) (c_event c) (c_now c)) as [tr1 x]. simpl.
    destruct Hs as (-> & Htr & Hq1 & cl1 & Ht1 & Hom & Hsub).
    specialize (IH r1 cl1 Ht1 Hq1 (conj Hnd Hv) (Hnext cl1 Hsub)). rewrite Htr in IH.
    destruct (UsageTracker.run tr1 _) as [tr2 xs2].
    destruct IH as (H1 & H2 & cl2 & H3 & H4). split; [done|]. split; [done|].
    exists cl2. split; [done|]. rewrite H4, Hom, <- app_assoc. f_equal.
    unfold ended_records. by destruct x.
Qed.

Lemma start_tracked faults queue : tracked (start faults queue) [].
Proof. split; [apply start_linked|]. by split; [constructor|]. Qed.

(** C18. The session table is exactly the tracker's log.  Running the
    recorder from an empty table over any notifications (fresh row ids, no
    failing statement), the closed rows, in order, are the usage records the
    tracker closed on the notifications that were not repeated logons; the
    only open row, if any, is the session the tracker has open, and it is
    the one the recorder remembers. *)
Theorem recorder_log_refines_tracker (cs : list call) (faults : list bool)
    (queue : option (EventQueue.t * list bool)) :
  fresh_calls cs -> quiet faults ->
  let r := handle_all cs (start faults queue) in
  let '(tr, xs) := UsageTracker.run UsageTracker.new (accepted UsageTracker.new cs) in
  tracker r = tr /\
  exists ss, store_repr (store r).1 ss /\
    omap closed_record ss = ended_records xs /\
    match UsageTracker.open_since tr with
    | None => open_session_id r = None /\ List.filter is_open ss = []
    | Some st => exists id, open_session_id r = Some id /\
                 List.filter is_open ss = [mk_session id st None]
    end.
Proof.
  intros Hf Hq r. assert (Hnew : Forall (fun c : call => in_row_id (c_inp c) ∉ @nil Uuid) cs).
  { apply Forall_true. intros c. apply not_elem_of_nil. }
  pose proof (handle_all_tracked cs (start faults queue) [] (start_tracked _ _) Hq Hf Hnew) as Hh.
  change (tracker (start faults queue)) with UsageTracker.new in Hh.
  destruct (UsageTracker.run _ _) as [tr xs]. destruct Hh as (<- & _ & cl & (Hl & Hc & Ho) & Hom).
  fold r in Hl, Ho |- *. split; [done|]. exists (cl ++ current r).
  assert (Hcl : List.filter is_open cl = []).
  { apply bfilter_none. intros x Hx. rewrite Forall_forall in Hc. by apply Hc. }
  split; [apply Hl|]. rewrite List.filter_app, Hcl, omap_app, Hom. unfold current.
  destruct (UsageTracker.open_since (tracker r)) as [st|].
  - destruct (open_session_id r) as [id|]; [|by destruct Ho as [_ Ho]; discriminate Ho].
    split; [simpl; by rewrite app_nil_r|]. by exists id.
  - split; [simpl; by rewrite app_nil_r|]. split; [by apply Ho|done].
Qed.

Lemma log_transition_ids fresh open x ss :
  map s_id (log_transition fresh open x ss) ⊆ fresh :: map s_id ss.
Proof.
  destruct x as [|st|rec]; simpl; [set_solver|rewrite map_app; simpl; set_solver|].
  destruct open; [rewrite close_session_ids|rewrite map_app; simpl]; set_solver.
Qed.

(** The link survives every store failure. *)
Lemma handle_all_linked cs : forall r ss,
  linked r ss -> fresh_calls cs ->
  Forall (fun c => in_row_id (c_inp c) ∉ map s_id ss) cs ->
  exists ss', linked (handle_all cs r) ss' /\
    map s_id ss' ⊆ map (fun c => in_row_id (c_inp c)) cs ++ map s_id ss.
Proof.
  induction cs as [|c cs IH]; intros r ss Hl Hf Hnew; [by exists ss|].
  destruct Hf as [Hnd Hv]. apply NoDup_cons in Hnd as [Hnc Hnd].
  apply Forall_cons in Hv as [[Hu Hnow] Hv]. apply Forall_cons in Hnew as [Hnew0 Hnew].
  pose proof (handle_at_step (c_inp c) (c_event c) (c_user c) (c_now c) r ss Hl
                (conj Hu Hnew0) Hnow) as Hs.
  change (handle_all (c :: cs) r) with (handle_all cs (step_call r c)). unfold step_call.
  destruct (if duplicate (tracker r) (c_event c) then _ else _) as [tr x].
  destruct (handle_at (c_inp c) (c_event c) (c_user c) (c_now c) r) as [res r1]. simpl.
  assert (H1 : exists ss1, linked r1 ss1 /\ map s_id ss1 ⊆ in_row_id (c_inp c) :: map s_id ss).
  { destruct Hs as (_ & _ & [(er & _ & _ & _ & H)|(_ & H & _)]).
    - exists ss. split; [done|]. set_solver.
    - eexists. split; [exact H|]. apply log_transition_ids. }
  destruct H1 as (ss1 & Hl1 & Hsub).
  destruct (IH r1 ss1 Hl1 (conj Hnd Hv)) as (ss2 & Hl2 & Hsub2).
  - rewrite Forall_forall in Hnew |- *. intros c' Hc' Hin.
    apply Hsub, elem_of_cons in Hin as [Heq|Hin]; [|by apply (Hnew c')].
    apply Hnc. rewrite <- Heq. by apply (list_elem_of_fmap_2 (fun c => in_row_id (c_inp c))).
  - exists ss2. split; [done|]. intros y Hy.
    apply Hsub2, elem_of_app in Hy as [Hy|Hy]; [right; apply elem_of_app; by left|].
    apply Hsub, elem_of_cons in Hy as [->|Hy]; [by left|right; apply elem_of_app; by right].
Qed.

(** C19. No ended session is lost to an earlier store failure.  After any
    notifications with any statements failing, when a notification makes the
    tracker end a usage session, either the call reports the store's error
    and has not changed the table, or the table now holds a closed row with
    exactly that start, end and reason, even if the row the session should
    have had was never written. *)
Theorem ended_session_recorded (cs : list call) (c : call) (faults : list bool)
    (queue : option (EventQueue.t * list bool)) (rec : UsageSessionRecord) :
  fresh_calls (cs ++ [c]) ->
  let r := handle_all cs (start faults queue) in
  duplicate (tracker r) (c_event c) = false ->
  (UsageTracker.apply (tracker r) (c_event c) (c_now c)).2 = Ended rec ->
  let '(res, r') := handle_at (c_inp c) (c_event c) (c_user c) (c_now c) r in
  (exists e, res = Err e /\ (store r').1 = (store r).1) \/
  (res = Ok tt /\ exists ss s, store_repr (store r').1 ss /\ s ∈ ss /\
                               closed_record s = Some rec).
Proof.
  intros [Hnd Hv] r Hd Ha. rewrite map_app in Hnd. apply NoDup_app in Hnd as (Hnd & Hdis & _).
  apply Forall_app in Hv as [Hv [[Hu Hnow] _]%Forall_cons].
  destruct (handle_all_linked cs (start faults queue) [] (start_linked _ _) (conj Hnd Hv))
    as (ss & Hl & Hsub).
  { apply Forall_true. intros c'. apply not_elem_of_nil. }
  fold r in Hl. assert (Hf : fresh_for (c_inp c) ss).
  { split; [done|]. intros Hin. apply Hsub in Hin. rewrite app_nil_r in Hin.
    apply (Hdis _ Hin). simpl. by left. }
  pose proof (handle_at_step (c_inp c) (c_event c) (c_user c) (c_now c) r ss Hl Hf Hnow) as Hs.
  pose proof (apply_open (tracker r) (c_event c) (c_now c)) as Hx.
  rewrite Hd in Hs. destruct (UsageTracker.apply _ _ _) as [tr x]. simpl in Ha. subst x.
  destruct (handle_at _ _ _ _ r) as [res r'].
  destruct Hs as (_ & _ & [(er & -> & _ & Hst & _)|(-> & Hl' & _)]); [left; by exists er|right].
  split; [done|]. destruct Hx as (Hend & Hst & _). simpl in Hl'.
  destruct (open_session_id r) as [id|] eqn:Hid.
  - destruct Hl as (_ & _ & Hlk). destruct (Hlk id Hid) as (st & Hst' & Hin).
    assert (st = rec_start rec) as -> by congruence.
    eexists _, (mk_session id (rec_start rec) (Some (rec_end rec, rec_end_reason rec))).
    split; [exact (proj1 Hl')|]. split; [by apply close_session_in|]. by destruct rec.
  - eexists _, (closed_session (in_row_id (c_inp c)) rec). split; [exact (proj1 Hl')|].
    split; [|by destruct rec]. apply elem_of_app. right. by left.
Qed.

(** Opening the table of a [tracked] recorder finds its open session. *)
Lemma from_store_tracked r cl : tracked r cl -> quiet (store r).2 ->
  exists r2, from_store (store r) = Ok r2 /\
    UsageTracker.open_since (tracker r2) = UsageTracker.open_since (tracker r) /\
    open_session_id r2 = open_session_id r /\ (store r2).1 = (store r).1.
Proof.
  intros ((Hs & _) & Hc & Ho) Hq. unfold from_store. destruct (store r) as [s fs].
  destruct (find_dangling_correct s (cl ++ current r) fs Hs Hq) as (o & -> & Hd). simpl.
  unfold current in Hd. rewrite Forall_forall in Hc.
  destruct o as [[id st]|]; simpl; eexists; (split; [done|]); simpl.
  - destruct Hd as [Hin _]. apply elem_of_app in Hin as [Hin|Hin].
    { by specialize (Hc _ Hin). }
    destruct (UsageTracker.open_since (tracker r)), (open_session_id r);
      try (by apply not_elem_of_nil in Hin).
    by apply list_elem_of_singleton in Hin as [= -> ->].
  - apply Forall_app in Hd as [_ Hd].
    destruct (UsageTracker.open_since (tracker r)), (open_session_id r);
      try (by destruct Ho as [Ho1 Ho2]; first [discriminate (Ho1 eq_refl)|discriminate (Ho2 eq_refl)]).
    + by inversion Hd.
    + done.
Qed.

Lemma shutdown_tracked r cl now : tracked r cl -> quiet (store r).2 -> representable now ->
  exists r' cl', shutdown now r = (Ok tt, r') /\ tracked r' cl' /\ quiet (store r').2 /\
    UsageTracker.open_since (tracker r') = None /\
    omap closed_record cl' = omap closed_record cl ++
      option_list ((fun st => mk_record st now EndReason.AgentShutdown) <$>
                     UsageTracker.open_since (tracker r)).
Proof.
  intros ((Hs & Hrep & Hl) & Hc & Ho) Hq Hnow. destruct r as [tr [s fs] oid q us sn].
  unfold current in Hs. simpl in *. unfold shutdown. simpl.
  destruct (UsageTracker.open_since tr) as [st|] eqn:Est; destruct oid as [id|]; simpl;
    try (by destruct Ho as [Ho1 Ho2]; first [discriminate (Ho1 eq_refl)|discriminate (Ho2 eq_refl)]).
  - assert (Hid : uuid_valid id).
    { destruct Hs as (_ & Hv & _). rewrite Forall_app in Hv. destruct Hv as [_ Hv].
      apply Forall_cons in Hv as [[Hv _] _]. exact Hv. }
    assert (Hend := end_session_repr s _ id now EndReason.AgentShutdown fs Hs Hid Hnow).
    destruct (outcome_quiet _ _ _ _ _ Hq Hend) as (s' & -> & Hs').
    rewrite close_session_last in Hs' by apply Hs.
    eexists _, (cl ++ [mk_session id st (Some (now, EndReason.AgentShutdown))]).
    split; [done|]. unfold tracked, linked, current. simpl. rewrite app_nil_r.
    split; [split_and!; try done|].
    { apply Forall_app. split; [done|by constructor]. }
    split; [by apply quiet_tail|]. split; [done|]. by rewrite omap_app.
  - eexists _, cl. split; [done|]. unfold tracked, linked, current. simpl.
    split; [by split_and!|]. by rewrite app_nil_r.
Qed.

End RecorderFacts.

(** ** Rows the recorder writes, whatever fails *)
Section RecorderRows.
Import UsageRecorder.
Context {TT : TimeText} {UT : UuidText} {SJ : Serde (gmap string json)} {SQ : SqlEngine}
  {HO : HashOrder}.

(** Every row of [s'] was in [s] or carries the end reason [rsn]. *)
Definition writes_only (rsn : option string) (s s' : Store.t) : Prop :=
  forall row, row ∈ s' -> row ∈ s \/ Store.end_reason row = rsn.

Lemma insert_row_writes r w : writes_only (Store.end_reason r) w.1 (Store.insert_row r w).2.1.
Proof.
  destruct w as [s fs]. intros row. unfold Store.insert_row. simpl.
  destruct (existsb _ s); [by left|]. unfold stmt. destruct fs as [|[] fs]; simpl; try (by left);
  intros [H| ->%list_elem_of_singleton]%elem_of_app; auto.
Qed.

Lemma start_session_writes id st w : writes_only None w.1 (Store.start_session id st w).2.1.
Proof.
  unfold Store.start_session, db_bind. pose proof (insert_row_writes (Store.mk_row
    (uuid_to_string id) (to_rfc3339 st) None None) w) as H.
  by destruct (Store.insert_row _ w) as [[|] ?].
Qed.

Lemma insert_closed_writes id rec w :
  writes_only (Some (reason_to_str (rec_end_reason rec))) w.1
    (Store.insert_closed_session id rec w).2.1.
Proof.
  unfold Store.insert_closed_session, db_bind.
  match goal with |- context [Store.insert_row ?r w] =>
    pose proof (insert_row_writes r w) as H; by destruct (Store.insert_row r w) as [[|] ?] end.
Qed.

Lemma end_session_writes id e rsn w :
  writes_only (Some (reason_to_str rsn)) w.1 (Store.end_session id e rsn w).2.1.
Proof.
  destruct w as [s fs]. intros row. unfold Store.end_session, stmt. destruct fs as [|[] fs]; simpl; try (by left);
  intros (r & -> & Hr)%list_elem_of_fmap; case_match; auto.
Qed.

Lemma find_dangling_writes w : (Store.find_dangling_session w).2.1 = w.1.
Proof.
  destruct w as [s fs]. unfold Store.find_dangling_session, db_bind.
  by stmt_split.
Qed.

(** What can happen to the recorder in one agent's life and across restarts. *)
Inductive life : Type :=
| Notify (c : call)
| ShutDown (utc_now : DateTime)
| Reopen.

Definition live (r : t) (l : life) : t :=
  match l with
  | Notify c => step_call r c
  | ShutDown now => (shutdown now r).2
  | Reopen => match from_store (store r) with Ok r' => r' | Err _ => r end
  end.

#[local] Arguments Store.end_session : simpl never.
#[local] Arguments Store.start_session : simpl never.
#[local] Arguments Store.insert_closed_session : simpl never.

Definition restart_free (s s' : Store.t) : Prop :=
  forall row, row ∈ s' -> Store.end_reason row = Some (reason_to_str EndReason.AgentRestart) ->
  row ∈ s.

Lemma writes_restart_free rsn s s' :
  rsn <> Some (reason_to_str EndReason.AgentRestart) -> writes_only rsn s s' ->
  restart_free s s'.
Proof. intros Hr Hw row Hin He. destruct (Hw row Hin) as [|He']; [done|congruence]. Qed.

Lemma persist_restart_free inp e now tr0 r :
  restart_free (store r).1
    (store (persist inp (UsageTracker.apply tr0 e now).2 r).2).1.
Proof.
  destruct (UsageTracker.apply tr0 e now).2 as [|st|rec] eqn:Ha; simpl; [by intros row|..].
  - pose proof (start_session_writes (in_row_id inp) st (store r)) as Hw.
    apply writes_restart_free in Hw; [|done].
    by destruct (Store.start_session _ _ _) as [[|] ?].
  - apply Tracker.apply_reason_not_restart in Ha as [Hne _].
    assert (Hne' : Some (reason_to_str (rec_end_reason rec)) <>
                   Some (reason_to_str EndReason.AgentRestart)).
    { intros Heq. apply Hne. apply reason_to_str_inj. by injection Heq. }
    case_match.
    + pose proof (end_session_writes n (rec_end rec) (rec_end_reason rec) (store r)) as Hw.
      apply writes_restart_free in Hw; [|done]. by destruct (Store.end_session _ _ _ _).
    + pose proof (insert_closed_writes (in_row_id inp) rec (store r)) as Hw.
      apply writes_restart_free in Hw; [|done].
      by destruct (Store.insert_closed_session _ _ _).
Qed.

Lemma live_restart_free r l : restart_free (store r).1 (store (live r l)).1.
Proof.
  destruct l as [c|now|]; simpl.
  - unfold step_call. destruct (duplicate (tracker r) (c_event c)) eqn:Hd.
    { unfold handle_at. fold (duplicate (tracker r) (c_event c)). rewrite Hd. by intros row. }
    pose proof (handle_at_core (c_inp c) (c_event c) (c_user c) (c_now c) r Hd) as Hc.
    pose proof (persist_restart_free (c_inp c) (c_event c) (c_now c) (tracker r)
      (set_tracker (UsageTracker.apply (tracker r) (c_event c) (c_now c)).1 r)) as Hp.
    destruct (UsageTracker.apply _ _ _) as [tr x]. destruct Hc as [_ Hc].
    injection Hc as _ Hst _. rewrite Hst. exact Hp.
  - unfold shutdown. simpl. destruct (open_session_id r) as [id|], (UsageTracker.open_since (tracker r));
      try (by intros row). simpl.
    pose proof (end_session_writes id now EndReason.AgentShutdown (store r)) as Hw.
    apply writes_restart_free in Hw; [|done]. by destruct (Store.end_session _ _ _ _).
  - unfold from_store. pose proof (find_dangling_writes (store r)) as Hw.
    destruct (Store.find_dangling_session (store r)) as [[o|e] st']; simpl in *; [|by intros row].
    destruct o as [[id st]|]; simpl; rewrite Hw; by intros row.
Qed.

(** AGENT_RESTART is never written.  Whatever notifications, shutdowns
    and restarts follow one another and whatever statements fail, every row
    that carries the end reason AGENT_RESTART was already there: a session
    found open at startup is resumed, and ends with the reason of the
    notification that ends it. *)
Lemma agent_restart_never_written (ls : list life) (r : t) (row : Store.row) :
  row ∈ (store (fold_left live ls r)).1 -> row ∉ (store r).1 ->
  Store.end_reason row <> Some (reason_to_str EndReason.AgentRestart).
Proof.
  intros Hin Hnew Hr. apply Hnew. clear Hnew. revert r Hin.
  induction ls as [|l ls IH]; intros r Hin; simpl in Hin; [done|].
  by apply (live_restart_free r l row), Hr; apply IH.
Qed.
End RecorderRows.

(** ** The snapshot the heartbeats report *)
Section Snapshot.
Import UsageRecorder.
Context {TT : TimeText} {UT : UuidText} {SJ : Serde (gmap string json)} {SQ : SqlEngine}
  {HO : HashOrder} {HL : HashOrderLaws}.

(** The snapshot says ACTIVE exactly when a usage session is open and the
    account of some logged-on session is known, it names the account of a
    session that is logged on, and otherwise says one of the four inactive
    states. *)
Definition truthful (r : t) : Prop :=
  (snap_state (snapshot r) = "ACTIVE"%string <->
     is_active r = true /\ session_usernames r <> ∅) /\
  (forall name, snap_username (snapshot r) = Some name ->
     exists id, session_usernames r !! id = Some name) /\
  (snap_username (snapshot r) = None <-> session_usernames r = ∅) /\
  snap_state (snapshot r) ∈
    ["ACTIVE"; "LOCKED"; "SUSPENDED"; "NO_SESSION"; "DISCONNECTED"]%string.

(** Every notification that is handled leaves a truthful snapshot. *)
Lemma handle_truthful (inp : inputs) (e : SessionEvent) (u : option string)
    (now : DateTime) (r : t) :
  duplicate (tracker r) e = false -> (handle_at inp e u now r).1 = Ok tt ->
  truthful (handle_at inp e u now r).2.
Proof.
  intros Hd Hok. unfold handle_at in *. fold (duplicate (tracker r) e) in *. rewrite Hd in *.
  destruct (UsageTracker.apply _ _ _) as [tr x].
  destruct (persist inp x _) as [[[]|] r2]; [|done]. simpl. clear Hok.
  set (r3 := match e with Logoff id => set_usernames (delete id) r2 | _ => r2 end).
  assert (Hn : first_value (session_usernames r3) = None <-> session_usernames r3 = ∅)
    by apply first_value_none.
  unfold truthful. simpl. unfold snapshot_state, is_active. simpl. split; [|split; [|split; [done|]]].
  - destruct (first_value (session_usernames r3)) as [v|] eqn:Ev.
    + rewrite bool_decide_eq_true_2 by done. assert (session_usernames r3 <> ∅) by (by intros Hm%Hn).
      destruct (UsageTracker.is_active (tracker r3)); simpl; [done|].
      split; [by destruct e|by intros []].
    + rewrite bool_decide_eq_false_2 by (by intros []). rewrite andb_false_r.
      assert (session_usernames r3 = ∅) by (by apply Hn).
      split; [|by intros []]. destruct (UsageTracker.is_active (tracker r3)); [done|by destruct e].
  - intros name. apply first_value_some.
  - destruct (UsageTracker.is_active (tracker r3)), (bool_decide _), e; simpl; set_solver.
Qed.

Lemma handle_at_truthful inp e u now r :
  truthful r -> (handle_at inp e u now r).1 = Ok tt -> truthful (handle_at inp e u now r).2.
Proof.
  intros Ht Hok. destruct (duplicate (tracker r) e) eqn:Hd; [|by apply handle_truthful].
  unfold handle_at. fold (duplicate (tracker r) e). by rewrite Hd.
Qed.
End Snapshot.

(** ** Concrete runs *)
Section RecorderSample.
Import UsageRecorder.
#[local] Existing Instances Bits.time_text Bits.uuid_text payload_serde stable_engine.
#[local] Existing Instances Bits.time_text_laws Bits.uuid_text_laws stable_engine_laws.

(** The map's own enumeration order. *)
Definition tree_order : HashOrder := {| first_value m := snd <$> head (map_to_list m) |}.
Definition tree_order_laws : @HashOrderLaws tree_order.
Proof.
  split; simpl.
  - intros m. rewrite <- map_to_list_empty_iff. by destruct (map_to_list m).
  - intros m v. destruct (map_to_list m) as [|[k w] l] eqn:E; simpl; [done|]. intros [= ->].
    exists k. apply elem_of_map_to_list. rewrite E. by left.
Defined.
#[local] Existing Instances tree_order tree_order_laws.

Definition sample_call (i : N) (e : SessionEvent) (t : Z) : call :=
  mk_call (mk_inputs i (100 + i) (200 + i) (secs t + 1)) e (Some "alice"%string) (secs t).
Definition sample_calls : list call :=
  [sample_call 1 (Logon 5) 100; sample_call 2 (Logon 5) 110; sample_call 3 (Lock 5) 200;
   sample_call 4 (Unlock 5) 300].

Lemma sample_fresh : fresh_calls sample_calls.
Proof.
  split; [apply (bool_decide_unpack _); vm_compute; exact I|].
  repeat (apply Forall_cons_2; [by vm_compute|]). by apply Forall_nil_2.
Qed.

Lemma recorder_log_refines_tracker_witness :
  let r := handle_all sample_calls (start [] None) in
  let '(tr, xs) :=
    UsageTracker.run UsageTracker.new (accepted UsageTracker.new sample_calls) in
  tracker r = tr /\
  exists ss, store_repr (store r).1 ss /\
    omap closed_record ss = ended_records xs /\
    match UsageTracker.open_since tr with
    | None => open_session_id r = None /\ List.filter is_open ss = []
    | Some st => exists id, open_session_id r = Some id /\
                 List.filter is_open ss = [mk_session id st None]
    end.
Proof. apply recorder_log_refines_tracker; [apply sample_fresh|constructor]. Defined.

(** The insertion of the session's row fails; the session is recorded when
    it ends. *)
Lemma ended_session_recorded_witness :
  let r := handle_all [sample_call 1 (Logon 5) 100] (start [true] None) in
  let '(res, r') := handle_at (c_inp (sample_call 3 (Lock 5) 200)) (Lock 5)
                      (Some "alice"%string) (secs 200) r in
  (exists e, res = Err e /\ (store r').1 = (store r).1) \/
  (res = Ok tt /\ exists ss s, store_repr (store r').1 ss /\ s ∈ ss /\
     closed_record s = Some (mk_record (secs 100) (secs 200) EndReason.Lock)).
Proof.
  apply (ended_session_recorded
           [sample_call 1 (Logon 5) 100] (sample_call 3 (Lock 5) 200) [true] None);
    [|vm_compute; reflexivity..].
  split; [apply (bool_decide_unpack _); vm_compute; exact I|].
  repeat (apply Forall_cons_2; [by vm_compute|]). by apply Forall_nil_2.
Defined.


(** A dangling row is resumed; the next notification ends it. *)
Lemma agent_restart_never_written_witness :
  let r := start [] None in
  let ls := [Notify (sample_call 1 (Logon 5) 100); Reopen; Notify (sample_call 3 (Lock 5) 200)] in
  let row := Store.mk_row (uuid_to_string 1%N) (to_rfc3339 (secs 100))
               (Some (to_rfc3339 (secs 200))) (Some "LOCK"%string) in
  row ∈ (store (fold_left live ls r)).1 /\
  Store.end_reason row <> Some (reason_to_str EndReason.AgentRestart).
Proof.
  intros r ls row.
  assert (Hin : row ∈ (store (fold_left live ls r)).1).
  { replace (store (fold_left live ls r)).1 with [row]
      by (vm_compute; reflexivity). by left. }
  split; [exact Hin|].
  apply (agent_restart_never_written ls r row Hin). apply not_elem_of_nil.
Defined.

(** The events the delivery loop would send after one logon. *)
Definition delivered_after_logon (engine : SqlEngine) : list (EventType.t * DateTime) :=
  let c := sample_call 1 (Logon 5) 100 in
  match event_queue (step_call (SQ := engine) (start [] (Some (EventQueue.init, []))) c) with
  | Some q =>
      match (EventQueue.due_batch (SQ := engine) (secs 100) 100 q).1 with
      | Ok ps => map (fun p => (event_type (pd_event p), occurred_at (pd_event p))) ps
      | Err _ => []
      end
  | None => []
  end.

(** The order LOGON before ACTIVE is not guaranteed by the table.  Both
    are enqueued with the same instant and a batch is ordered by that instant
    alone, so an engine that breaks ties the other way delivers ACTIVE first;
    and the LOGON's own time, read when the event is built, is later than
    that of the ACTIVE it caused. *)
Lemma logon_active_order_unspecified :
  delivered_after_logon stable_engine =
    [(EventType.UserLogon, secs 100 + 1); (EventType.Active, secs 100)] /\
  exists engine, @SqlEngineLaws engine /\
    delivered_after_logon engine =
      [(EventType.Active, secs 100); (EventType.UserLogon, secs 100 + 1)].
Proof.
  split; [vm_compute; reflexivity|]. exists reversing_engine.
  split; [apply reversing_engine_laws|vm_compute; reflexivity].
Qed.
End RecorderSample.
