(* ===== verification/Closing.v ===== *)
(** * No usage session is left open ([UsageRecorder] of [agent/src/lib.rs])

    While the session table can be written, the only row without an end is
    that of the session the recorder has open ([only_current]); a [shutdown]
    that could be written leaves none. *)
From S2P Require Import Prelude Codec Tracker Protocol Db Queue Store Events Recorder.
#[local] Open Scope Z_scope.

Section Closing.
Import UsageRecorder.
Context {TT : TimeText} {UT : UuidText} {SJ : Serde (gmap string json)} {SQ : SqlEngine}
  {HO : HashOrder}.

(** Rows whose session has no end. *)
Definition open_rows (s : Store.t) : list Store.row :=
  List.filter (fun r => match Store.end_utc r with None => true | Some _ => false end) s.

Definition only_current (r : t) : Prop :=
  (forall row, row ∈ open_rows (store r).1 ->
     exists id, open_session_id r = Some id /\ Store.id row = uuid_to_string id) /\
  (UsageTracker.open_since (tracker r) = None -> open_session_id r = None).

Lemma only_current_core r r' : core r = core r' -> only_current r -> only_current r'.
Proof. unfold core, only_current. by intros [= -> -> ->]. Qed.

Lemma no_open_rows r : only_current r -> open_session_id r = None -> open_rows (store r).1 = [].
Proof.
  intros [H _] Hn. apply bfilter_none. intros row Hrow.
  destruct (Store.end_utc row) eqn:E; [done|].
  destruct (H row) as (id & Hid & _); [|congruence].
  apply elem_of_bfilter. by rewrite E.
Qed.

(** Each of the three writes, when it goes through. *)
Lemma insert_row_ok row w st : Store.insert_row row w = (Ok tt, st) -> st.1 = w.1 ++ [row].
Proof.
  unfold Store.insert_row. destruct (existsb _ _); [done|]. by intros [_ H]%stmt_ok.
Qed.

Lemma start_session_ok id start w x st : Store.start_session id start w = (Ok x, st) ->
  x = id /\ open_rows st.1 = open_rows w.1 ++
    [Store.mk_row (uuid_to_string id) (to_rfc3339 start) None None].
Proof.
  unfold Store.start_session, db_bind. destruct (Store.insert_row _ w) as [[[]|] w'] eqn:E; [|done].
  intros [= <- <-]. split; [done|]. rewrite (insert_row_ok _ _ _ E). apply List.filter_app.
Qed.

Lemma insert_closed_ok id rec w x st : Store.insert_closed_session id rec w = (Ok x, st) ->
  open_rows st.1 = open_rows w.1.
Proof.
  unfold Store.insert_closed_session, db_bind.
  destruct (Store.insert_row _ w) as [[[]|] w'] eqn:E; [|done].
  intros [= <- <-]. rewrite (insert_row_ok _ _ _ E). unfold open_rows.
  rewrite List.filter_app. apply app_nil_r.
Qed.

Lemma end_session_ok id e rsn w st : Store.end_session id e rsn w = (Ok tt, st) ->
  forall row, row ∈ open_rows st.1 -> row ∈ open_rows w.1 /\ Store.id row <> uuid_to_string id.
Proof.
  unfold Store.end_session. intros [_ Hw]%stmt_ok row Hrow. rewrite Hw in Hrow. simpl in Hrow.
  apply elem_of_bfilter in Hrow as [Hin He]. apply list_elem_of_fmap in Hin as (r0 & -> & Hin).
  destruct (String.eqb_spec (Store.id r0) (uuid_to_string id)) as [Heq|Hne]; [done|].
  split; [by apply elem_of_bfilter|done].
Qed.

(** A notification that is handled without an error keeps it so. *)
Lemma handle_only_current inp e u now r : only_current r -> (handle_at inp e u now r).1 = Ok tt ->
  only_current (handle_at inp e u now r).2.
Proof.
  intros Hr Hok. destruct (duplicate (tracker r) e) eqn:Hd.
  { unfold handle_at. fold (duplicate (tracker r) e). by rewrite Hd. }
  pose proof (handle_at_core inp e u now r Hd) as Hc. pose proof (apply_open (tracker r) e now) as Ha.
  destruct (UsageTracker.apply (tracker r) e now) as [tr x]. destruct Hc as [Hres Hc].
  rewrite Hok in Hres. symmetry in Hres. apply (only_current_core _ _ (eq_sym Hc)). clear Hok Hc.
  destruct Hr as [Hrow Hid]. unfold persist in *. destruct x as [|st|rec]; simpl in *.
  - split; [done|]. simpl. rewrite Ha. exact Hid.
  - destruct (Store.start_session _ _ _) as [[x|] w] eqn:E; [|done]. simpl.
    apply start_session_ok in E as [-> Hw]. destruct Ha as (_ & Hnone & Hsome).
    split; simpl; [|congruence]. intros row Hin. rewrite Hw in Hin.
    rewrite (no_open_rows r (conj Hrow Hid) (Hid Hnone)) in Hin. apply list_elem_of_singleton in Hin as ->.
    by eexists.
  - destruct Ha as (_ & _ & Hnone). destruct (open_session_id r) as [id|] eqn:Eid.
    + destruct (Store.end_session _ _ _ _) as [[[]|] w] eqn:E; [|done]. simpl. split; [|done].
      intros row Hin. destruct (end_session_ok _ _ _ _ _ E row Hin) as [Hold Hne].
      destruct (Hrow row Hold) as (id' & [= <-] & Heq). done.
    + destruct (Store.insert_closed_session _ _ _) as [[y|] w] eqn:E; [|done]. simpl. split; [|done].
      simpl. intros row Hin. rewrite (insert_closed_ok _ _ _ _ _ E) in Hin.
      destruct (Hrow row Hin) as (id' & [=] & _).
Qed.

(** A clean shutdown that is written closes the last session. *)
Lemma shutdown_closes now r : only_current r -> (shutdown now r).1 = Ok tt ->
  open_rows (store (shutdown now r).2).1 = [] /\ is_active (shutdown now r).2 = false.
Proof.
  intros [Hrow Hid] Hok. unfold shutdown, is_active, UsageTracker.is_active in *. simpl in *.
  destruct (UsageTracker.open_since (tracker r)) as [st|] eqn:Eo; simpl in *.
  - destruct (open_session_id r) as [id|] eqn:Eid; simpl in *.
    + destruct (Store.end_session _ _ _ _) as [[[]|] w] eqn:E; [|done]. simpl. split; [|done].
      apply bfilter_none. intros row Hin. destruct (Store.end_utc row) eqn:Ee; [done|].
      assert (row ∈ open_rows w.1) as Hopen by (apply elem_of_bfilter; by rewrite Ee).
      destruct (end_session_ok _ _ _ _ _ E row Hopen) as [Hold Hne].
      destruct (Hrow row Hold) as (id' & [= <-] & Heq). done.
    + split; [|done]. apply (no_open_rows r); [|done]. split; [by rewrite Eid|by rewrite Eo].
  - split; [|done]. apply (no_open_rows r); [|by apply Hid]. split; [done|by rewrite Eo].
Qed.

(** At most one session was left open by an agent that was killed. *)
Definition one_left_open (s : Store.t) : Prop :=
  open_rows s = [] \/
  exists id start, uuid_valid id /\ representable start /\
    open_rows s = [Store.mk_row (uuid_to_string id) (to_rfc3339 start) None None].

Lemma from_store_only_current {TL : TimeTextLaws} {UL : UuidTextLaws} {QL : SqlEngineLaws} st r :
  from_store st = Ok r -> one_left_open st.1 -> only_current r.
Proof.
  unfold from_store, Store.find_dangling_session, db_bind, db_lift. intros H Hs.
  destruct (stmt _ _ st) as [[o|] w] eqn:E; [|done]. apply stmt_ok in E as [-> Hw].
  unfold Store.select_dangling in *. simpl in H, Hw.
  change (List.filter _ st.1) with (open_rows st.1) in H.
  assert (Hrows : open_rows w.1 = open_rows st.1) by (by rewrite Hw).
  pose proof (order_by_desc_perm _ Store.start_utc (open_rows st.1)) as Hp.
  destruct Hs as [Hs|(id & start & Hid & Hst & Hs)]; rewrite Hs in H, Hp, Hrows.
  - apply Permutation_nil_r in Hp. rewrite Hp in H. injection H as <-.
    split; simpl; [|done]. rewrite Hrows. by intros row ?%not_elem_of_nil.
  - apply Permutation_singleton_r in Hp. rewrite Hp in H. simpl in H. unfold Store.expect in H.
    rewrite uuid_round_trip, rfc3339_round_trip in H by done. injection H as <-.
    split; simpl; [|done]. rewrite Hrows. intros row ->%list_elem_of_singleton. by eexists.
Qed.
End Closing.
