(* ===== verification/Config.v ===== *)
(** * Agent configuration ([agent/src/config.rs])

    [resolve] layers CLI arguments, environment and [agent.toml] over the
    defaults; [load] also persists a generated device id.  TOML is the codec
    [Serde AgentFileConfig].  Text is ASCII: [trim] removes the ASCII white
    space characters. *)
From Stdlib Require Import Ascii.
From S2P Require Import Prelude Codec Fs Clock.
#[local] Open Scope Z_scope.

Definition DEFAULT_HEARTBEAT_INTERVAL_SECONDS : Z := 30.
Definition DEFAULT_EVENT_RETRY_INTERVAL_SECONDS : Z := 10.
Definition DEFAULT_DISCOVERY_PORT : Z := 45821.
Definition DEFAULT_DISCOVERY_TIMEOUT_SECONDS : Z := 5.

(** ** Text *)
Definition is_whitespace (c : ascii) : bool :=
  let n := Ascii.N_of_ascii c in ((9 <=? n) && (n <=? 13) || (n =? 32))%N.

Fixpoint trim_start (s : string) : string :=
  match s with
  | EmptyString => EmptyString
  | String c s' => if is_whitespace c then trim_start s' else s
  end.

(** Drops a suffix of characters satisfying [p]. *)
Fixpoint trim_end_matches (p : ascii -> bool) (s : string) : string :=
  match s with
  | EmptyString => EmptyString
  | String c s' =>
      match trim_end_matches p s' with
      | EmptyString => if p c then EmptyString else String c EmptyString
      | r => String c r
      end
  end.

Definition trim (s : string) : string := trim_end_matches is_whitespace (trim_start s).

Definition is_empty (s : string) : bool := match s with EmptyString => true | _ => false end.

Definition to_ascii_lower (c : ascii) : ascii :=
  let n := Ascii.N_of_ascii c in
  if ((65 <=? n) && (n <=? 90))%N then Ascii.ascii_of_N (n + 32) else c.

Fixpoint to_ascii_lowercase (s : string) : string :=
  match s with
  | EmptyString => EmptyString
  | String c s' => String (to_ascii_lower c) (to_ascii_lowercase s')
  end.

Definition non_empty (value : option string) : option string :=
  option_filter (fun s => negb (is_empty (trim s))) value.

Definition parse_bool (value : string) : option bool :=
  let v := to_ascii_lowercase (trim value) in
  if existsb (String.eqb v) ["1"; "true"; "yes"; "on"]%string then Some true
  else if existsb (String.eqb v) ["0"; "false"; "no"; "off"]%string then Some false
  else None.

(** ** The layers *)
Record TimeSection : Type := mk_time_section {
  f_ntp_enabled : option bool;
  f_ntp_servers : option (list string);
}.
Record AgentSection : Type := mk_agent_section {
  f_device_id : string;
  f_device_name : string;
  f_heartbeat_interval_seconds : option Z;
  f_event_retry_interval_seconds : option Z;
}.
Record ControllerSection : Type := mk_controller_section {
  f_url : string;
  f_discovery_enabled : option bool;
  f_discovery_port : option Z;
  f_discovery_timeout_seconds : option Z;
}.
Record AgentFileConfig : Type := mk_file {
  f_agent : AgentSection;
  f_controller : ControllerSection;
  f_time : TimeSection;
}.
Definition default_file : AgentFileConfig :=
  mk_file (mk_agent_section "" "" None None) (mk_controller_section "" None None None)
    (mk_time_section None None).

(** [EnvOverrides] and [CliOverrides] have the same four fields. *)
Record Overrides : Type := mk_overrides {
  o_controller_url : option string;
  o_device_id : option string;
  o_device_name : option string;
  o_discovery_enabled : option bool;
}.
Definition no_overrides : Overrides := mk_overrides None None None None.

(** [var] is [std::env::var(..).ok()]. *)
Definition from_process_env (var : string -> option string) : Overrides :=
  mk_overrides (non_empty (var "TIMELORD_CONTROLLER_URL"))
    (non_empty (var "TIMELORD_DEVICE_ID")) (non_empty (var "TIMELORD_DEVICE_NAME"))
    (v ← var "TIMELORD_DISCOVERY_ENABLED"%string; parse_bool v).

Record AgentConfig : Type := mk_config {
  device_id : Uuid;
  device_id_generated : bool;
  device_name : string;
  heartbeat_interval : Duration;
  event_retry_interval : Duration;
  controller_url : option string;
  discovery_enabled : bool;
  discovery_port : Z;
  discovery_timeout : Duration;
  ntp_enabled : bool;
  ntp_servers : list string;
}.

Definition or_else {A} (a b : option A) : option A := match a with Some _ => a | None => b end.

Definition resolve_servers (servers : option (list string)) : list string :=
  default DEFAULT_NTP_SERVERS
    (option_filter (fun l => negb (bool_decide (l = [])))
       ((fun l => List.filter (fun s => negb (is_empty s)) (map trim l)) <$> servers)).

Inductive ConfigError : Type := CParse | CIo.

Section Resolve.
Context {UT : UuidText} {ST : Serde AgentFileConfig}.

(** [fresh] is [Uuid::new_v4()]. *)
Definition resolve (fresh : Uuid) (file : AgentFileConfig) (env cli : Overrides)
    (default_hostname : string) : AgentConfig :=
  let device_id_str :=
    or_else (or_else (o_device_id cli) (o_device_id env))
      (non_empty (Some (f_device_id (f_agent file)))) in
  let '(did, generated) :=
    match device_id_str ≫= uuid_parse_str with
    | Some id => (id, false)
    | None => (fresh, true)
    end in
  mk_config did generated
    (default default_hostname
       (or_else (or_else (o_device_name cli) (o_device_name env))
          (non_empty (Some (f_device_name (f_agent file))))))
    (secs (default DEFAULT_HEARTBEAT_INTERVAL_SECONDS
             (f_heartbeat_interval_seconds (f_agent file))))
    (secs (default DEFAULT_EVENT_RETRY_INTERVAL_SECONDS
             (f_event_retry_interval_seconds (f_agent file))))
    (or_else (or_else (o_controller_url cli) (o_controller_url env))
       (non_empty (Some (f_url (f_controller file)))))
    (default true (or_else (or_else (o_discovery_enabled cli) (o_discovery_enabled env))
                     (f_discovery_enabled (f_controller file))))
    (default DEFAULT_DISCOVERY_PORT (f_discovery_port (f_controller file)))
    (secs (default DEFAULT_DISCOVERY_TIMEOUT_SECONDS
             (f_discovery_timeout_seconds (f_controller file))))
    (default true (f_ntp_enabled (f_time file)))
    (resolve_servers (f_ntp_servers (f_time file))).

Definition load_file (fs : Fs.t) (p : path) : result ConfigError AgentFileConfig :=
  match Fs.read_to_string p fs with
  | Some contents => match from_json contents with Some c => Ok c | None => Err CParse end
  | None => Ok default_file
  end.

(** [fs::write]: the directory exists in the model. *)
Definition save_file (f : Fs.fault) (fs : Fs.t) (p : path) (config : AgentFileConfig)
  : result ConfigError unit * Fs.t :=
  match to_json config with
  | None => (Err CParse, fs)
  | Some text =>
      match Fs.run f [Fs.Write p text] fs with
      | (Ok _, fs') => (Ok tt, fs')
      | (Err _, fs') => (Err CIo, fs')
      end
  end.

Definition set_device_id (id : string) (file : AgentFileConfig) : AgentFileConfig :=
  let a := f_agent file in
  mk_file (mk_agent_section id (f_device_name a) (f_heartbeat_interval_seconds a)
             (f_event_retry_interval_seconds a)) (f_controller file) (f_time file).
Definition set_url (url : string) (file : AgentFileConfig) : AgentFileConfig :=
  let c := f_controller file in
  mk_file (f_agent file) (mk_controller_section url (f_discovery_enabled c)
             (f_discovery_port c) (f_discovery_timeout_seconds c)) (f_time file).

Definition persist_device_id (f : Fs.fault) (fs : Fs.t) (p : path) (did : Uuid)
  : result ConfigError unit * Fs.t :=
  match load_file fs p with
  | Err e => (Err e, fs)
  | Ok file => save_file f fs p (set_device_id (uuid_to_string did) file)
  end.

Definition persist_controller_url (f : Fs.fault) (fs : Fs.t) (p : path) (url : string)
  : result ConfigError unit * Fs.t :=
  match load_file fs p with
  | Err e => (Err e, fs)
  | Ok file => save_file f fs p (set_url url file)
  end.

Definition load (fresh : Uuid) (hostname : option string) (var : string -> option string)
    (f : Fs.fault) (fs : Fs.t) (p : path) (cli : Overrides)
  : result ConfigError AgentConfig * Fs.t :=
  match load_file fs p with
  | Err e => (Err e, fs)
  | Ok file =>
      let env := from_process_env var in
      let resolved := resolve fresh file env cli (default "unknown-host"%string hostname) in
      if device_id_generated resolved then
        match persist_device_id f fs p (device_id resolved) with
        | (Err e, fs') => (Err e, fs')
        | (Ok _, fs') => (Ok resolved, fs')
        end
      else (Ok resolved, fs)
  end.
End Resolve.

(** ** Facts about text *)
Lemma trim_end_no_suffix p s c s' :
  trim_end_matches p s = (s' +:+ String c EmptyString)%string -> p c = false.
Proof.
  revert s'. induction s as [|a s IH]; intros s' H; simpl in H.
  { by destruct s'. }
  destruct (trim_end_matches p s) as [|b r] eqn:E.
  - destruct (p a) eqn:Ea; [by destruct s'|].
    destruct s' as [|x [|y s']]; simpl in H; [by injection H as ->|discriminate|discriminate].
  - destruct s' as [|x s']; [discriminate|]. injection H as _ H. by apply (IH s').
Qed.

Lemma trim_end_idemp p s : trim_end_matches p (trim_end_matches p s) = trim_end_matches p s.
Proof.
  induction s as [|a s IH]; simpl; [done|].
  destruct (trim_end_matches p s) as [|b r] eqn:E.
  - destruct (p a) eqn:Ea; simpl; by rewrite ?Ea.
  - simpl in *. by rewrite IH.
Qed.

Lemma trim_end_head p c s : p c = false -> exists r, trim_end_matches p (String c s) = String c r.
Proof. intros Hc. simpl. destruct (trim_end_matches p s); rewrite ?Hc; eauto. Qed.

Lemma trim_start_head s :
  trim_start s = EmptyString \/
  exists c r, trim_start s = String c r /\ is_whitespace c = false.
Proof.
  induction s as [|c s IH]; simpl; [by left|]. destruct (is_whitespace c) eqn:E; [done|].
  right. by exists c, s.
Qed.

Lemma trim_idemp s : trim (trim s) = trim s.
Proof.
  unfold trim. destruct (trim_start_head s) as [->|(c & r & -> & Hc)]; [done|].
  destruct (trim_end_head _ c r Hc) as (r' & Hr). rewrite Hr.
  replace (trim_start (String c r')) with (String c r') by (simpl; by rewrite Hc).
  rewrite <- Hr. apply trim_end_idemp.
Qed.

Lemma non_empty_some v s : non_empty v = Some s <-> v = Some s /\ trim s <> EmptyString.
Proof.
  unfold non_empty. rewrite option_filter_some. f_equiv. by destruct (trim s).
Qed.

(** ** What the resolved configuration guarantees *)
Section ConfigProperties.
Context {UT : UuidText} {ST : Serde AgentFileConfig}.
Context {UL : UuidTextLaws} {SL : SerdeLaws AgentFileConfig}.

Lemma default_servers_usable :
  DEFAULT_NTP_SERVERS <> [] /\
  Forall (fun s => trim s = s /\ s <> EmptyString) DEFAULT_NTP_SERVERS.
Proof. split; [done|]. repeat (apply Forall_cons_2; [done|]). apply Forall_nil_2. Qed.

(** Whatever the file says, the agent always has somebody to ask for the
    time: the resolved server list is never empty and every entry is a
    non-blank name without surrounding white space; it is the configured
    list, trimmed and without its blank entries, whenever that leaves one. *)
Lemma ntp_servers_usable (fresh : Uuid) (file : AgentFileConfig) (env cli : Overrides)
    (host : string) :
  let servers := ntp_servers (resolve fresh file env cli host) in
  servers <> [] /\ Forall (fun s => trim s = s /\ s <> EmptyString) servers /\
  (forall l s, f_ntp_servers (f_time file) = Some l -> s ∈ l -> trim s <> EmptyString ->
     trim s ∈ servers).
Proof.
  unfold resolve. destruct (match _ ≫= _ with Some _ => _ | None => _ end). simpl.
  unfold resolve_servers. destruct (f_ntp_servers (f_time file)) as [l|]; simpl;
    [|split; [done|]; split; [apply default_servers_usable|done]].
  assert (Hin : forall s, s ∈ l -> trim s <> EmptyString ->
    trim s ∈ List.filter (fun s => negb (is_empty s)) (map trim l)).
  { intros s Hs Hn. apply elem_of_bfilter. split; [by apply list_elem_of_fmap_2|].
    by destruct (trim s). }
  set (l' := List.filter _ _) in *. destruct (decide (l' = [])) as [E|E].
  - rewrite bool_decide_eq_true_2 by done. split; [done|]. split; [apply default_servers_usable|].
    intros l0 s [= <-] Hs Hn. specialize (Hin s Hs Hn). rewrite E in Hin.
    by apply not_elem_of_nil in Hin.
  - rewrite bool_decide_eq_false_2 by done. split; [done|]. split; [|intros l0 s [= <-]; apply Hin].
    apply Forall_forall. intros s [Hs Hn]%elem_of_bfilter.
    apply list_elem_of_fmap in Hs as (s' & -> & _). split; [apply trim_idemp|].
    by destruct (trim s').
Qed.

Lemma save_file_ok f fs p config fs' :
  save_file f fs p config = (Ok tt, fs') -> load_file fs' p = Ok config.
Proof.
  unfold save_file, load_file. destruct (serde_round_trip config) as (text & -> & Hfrom).
  destruct f as [[[|i] k]|]; simpl; [done| |]; intros [= <-]; unfold Fs.read_to_string;
    by rewrite lookup_insert_eq, Hfrom.
Qed.

(** An override that is present is a well-formed id. *)
Definition override_ok (env cli : Overrides) : Prop :=
  forall s, or_else (o_device_id cli) (o_device_id env) = Some s -> is_Some (uuid_parse_str s).

Lemma resolve_device_id fresh file env cli host :
  device_id (resolve fresh file env cli host) =
    default fresh (or_else (or_else (o_device_id cli) (o_device_id env))
                     (non_empty (Some (f_device_id (f_agent file)))) ≫= uuid_parse_str) /\
  device_id_generated (resolve fresh file env cli host) =
    bool_decide (or_else (or_else (o_device_id cli) (o_device_id env))
                   (non_empty (Some (f_device_id (f_agent file)))) ≫= uuid_parse_str = None).
Proof. unfold resolve. by destruct (_ ≫= uuid_parse_str). Qed.

(** C36. The device keeps its identity.  Once [load] has succeeded, loading
    again with the same overrides succeeds, returns the same device id,
    generates nothing and leaves the file alone, whatever id a generator
    would have offered; this holds when an overriding id, if there is one,
    is well formed, and printed ids are not blank. *)
Theorem device_id_stable (fresh1 fresh2 : Uuid) (host1 host2 : option string)
    (var : string -> option string) (f1 f2 : Fs.fault) (fs fs1 : Fs.t) (p : path)
    (cli : Overrides) (cfg : AgentConfig) :
  override_ok (from_process_env var) cli ->
  uuid_valid fresh1 -> trim (uuid_to_string fresh1) <> EmptyString ->
  load fresh1 host1 var f1 fs p cli = (Ok cfg, fs1) ->
  exists cfg2, load fresh2 host2 var f2 fs1 p cli = (Ok cfg2, fs1) /\
    device_id cfg2 = device_id cfg /\ device_id_generated cfg2 = false.
Proof.
  intros Ho Hv Hb. unfold load at 1. set (env := from_process_env var) in *.
  assert (Hnext : forall file, load_file fs1 p = Ok file ->
    (or_else (or_else (o_device_id cli) (o_device_id env))
       (non_empty (Some (f_device_id (f_agent file)))) ≫= uuid_parse_str) = Some (device_id cfg) ->
    exists cfg2, load fresh2 host2 var f2 fs1 p cli = (Ok cfg2, fs1) /\
      device_id cfg2 = device_id cfg /\ device_id_generated cfg2 = false).
  { intros file Hf Hid. unfold load. rewrite Hf. fold env.
    destruct (resolve_device_id fresh2 file env cli (default "unknown-host"%string host2))
      as [H1 H2]. rewrite Hid in H1, H2. rewrite H2. simpl. by eexists. }
  destruct (load_file fs p) as [file|] eqn:Hf; [|done].
  destruct (resolve_device_id fresh1 file env cli (default "unknown-host"%string host1)) as [H1 H2].
  set (res := resolve fresh1 file env cli _) in *.
  destruct (_ ≫= uuid_parse_str) as [id|] eqn:Eid; rewrite H2; simpl.
  - intros [= <- <-]. apply (Hnext file Hf). by rewrite Eid, H1.
  - assert (Hnone : or_else (o_device_id cli) (o_device_id env) = None).
    { destruct (or_else (o_device_id cli) (o_device_id env)) as [s|] eqn:E; [|done].
      destruct (Ho s E) as [u Hu]. simpl in Eid. congruence. }
    unfold persist_device_id. rewrite Hf.
    destruct (save_file f1 fs p _) as [[[]|e] fs'] eqn:Es; [|done]. intros [= <- <-].
    apply (Hnext _ (save_file_ok _ _ _ _ _ Es)). rewrite Hnone. simpl in H1 |- *.
    replace (device_id res) with fresh1 by done.
    destruct (trim (uuid_to_string fresh1)); [done|]. simpl. by rewrite uuid_round_trip.
Qed.

(** A malformed overriding id destroys the stored one.  If the
    environment's TIMELORD_DEVICE_ID is not an id, [load] generates a new
    identity and writes it over the valid one in the file, although removing
    the override would have kept the device's id. *)
Lemma malformed_override_replaces_id (fresh old : Uuid) (host : option string)
    (var : string -> option string) (fs : Fs.t) (p : path) (bad : string)
    (file : AgentFileConfig) :
  var "TIMELORD_DEVICE_ID"%string = Some bad -> trim bad <> EmptyString ->
  uuid_parse_str bad = None -> load_file fs p = Ok file ->
  non_empty (Some (f_device_id (f_agent file))) = Some (uuid_to_string old) -> uuid_valid old ->
  device_id (resolve fresh file no_overrides no_overrides "host") = old /\
  exists cfg fs', load fresh host var None fs p no_overrides = (Ok cfg, fs') /\
    device_id cfg = fresh /\
    load_file fs' p = Ok (set_device_id (uuid_to_string fresh) file).
Proof.
  intros Hvar Hblank Hbad Hf Hold Hv. split.
  { destruct (resolve_device_id fresh file no_overrides no_overrides "host") as [-> _].
    rewrite Hold. simpl. by rewrite uuid_round_trip. }
  unfold load. rewrite Hf. set (env := from_process_env var).
  assert (Henv : o_device_id env = Some bad).
  { unfold env, from_process_env. cbn [o_device_id]. rewrite Hvar. by apply non_empty_some. }
  destruct (resolve_device_id fresh file env no_overrides (default "unknown-host"%string host))
    as [H1 H2]. rewrite Henv in H1, H2. simpl in H1, H2. rewrite Hbad in H1, H2. simpl in H1, H2.
  rewrite H2. unfold persist_device_id. rewrite Hf, H1.
  destruct (save_file None fs p (set_device_id (uuid_to_string fresh) file)) as [r fs'] eqn:Es.
  assert (r = Ok tt) as ->.
  { unfold save_file in Es. destruct (serde_round_trip (set_device_id (uuid_to_string fresh) file))
      as (text & Ht & _). rewrite Ht in Es. simpl in Es. by injection Es. }
  exists (resolve fresh file env no_overrides (default "unknown-host"%string host)), fs'.
  split; [done|]. split; [done|]. by eapply save_file_ok.
Qed.

(** Persisting a discovered controller URL takes effect and changes
    nothing else: afterwards the file resolves to that URL unless the
    command line or the environment overrides it, and every other setting
    resolves as before. *)
Lemma persist_url_effective (f : Fs.fault) (fs fs' : Fs.t) (p : path) (url : string)
    (file : AgentFileConfig) (fresh : Uuid) (env cli : Overrides) (host : string) :
  trim url <> EmptyString -> load_file fs p = Ok file ->
  persist_controller_url f fs p url = (Ok tt, fs') ->
  exists file', load_file fs' p = Ok file' /\
    let before := resolve fresh file env cli host in
    resolve fresh file' env cli host =
      mk_config (device_id before) (device_id_generated before) (device_name before)
        (heartbeat_interval before) (event_retry_interval before)
        (Some (default url (or_else (o_controller_url cli) (o_controller_url env))))
        (discovery_enabled before) (discovery_port before) (discovery_timeout before)
        (ntp_enabled before) (ntp_servers before).
Proof.
  intros Hu Hf. unfold persist_controller_url. rewrite Hf. intros Hs%save_file_ok.
  exists (set_url url file). split; [done|]. unfold resolve. simpl.
  destruct (match _ ≫= _ with Some _ => _ | None => _ end). simpl.
  destruct (trim url); [done|]. simpl.
  by destruct (o_controller_url cli), (o_controller_url env).
Qed.
End ConfigProperties.

(** ** A concrete configuration *)
#[export] Instance AgentFileConfig_eq_dec : EqDecision AgentFileConfig.
Proof.
  assert (EqDecision TimeSection) by solve_decision.
  assert (EqDecision AgentSection) by solve_decision.
  assert (EqDecision ControllerSection) by solve_decision. solve_decision.
Defined.
#[export] Instance AgentFileConfig_countable : Countable AgentFileConfig.
Proof.
  refine (inj_countable'
    (fun f => let a := f_agent f in let c := f_controller f in let t := f_time f in
      ((f_ntp_enabled t, f_discovery_enabled c, f_heartbeat_interval_seconds a,
        f_event_retry_interval_seconds a),
       (f_discovery_port c, f_discovery_timeout_seconds c, f_ntp_servers t),
       (f_url c, f_device_name a), f_device_id a))
    (fun '((ne, e, h, r), (p, s, ns), (u, n), d) =>
      mk_file (mk_agent_section d n h r) (mk_controller_section u e p s)
        (mk_time_section ne ns)) _). by intros [[] [] []].
Defined.

Section ConfigSample.
#[local] Existing Instances Bits.uuid_text Bits.uuid_text_laws.
#[local] Instance sample_toml : Serde AgentFileConfig := Bits.serde_of_countable AgentFileConfig.
#[local] Instance sample_toml_laws : SerdeLaws AgentFileConfig :=
  Bits.serde_of_countable_laws AgentFileConfig.

Definition sample_path : path := ("data", "agent", "toml")%string.
Definition sample_file : AgentFileConfig := set_device_id (uuid_to_string 7%N) default_file.
Definition sample_disk : Fs.t :=
  {[sample_path := default EmptyString (to_json sample_file)]}.
Definition no_env (_ : string) : option string := None.
Definition bad_env (v : string) : option string :=
  if String.eqb v "TIMELORD_DEVICE_ID" then Some "not-an-id"%string else None.

(** A first start with no file. *)
Lemma device_id_stable_witness :
  exists cfg fs1 cfg2,
    load 5%N None no_env None ∅ sample_path no_overrides = (Ok cfg, fs1) /\
    load 9%N (Some "h"%string) no_env None fs1 sample_path no_overrides = (Ok cfg2, fs1) /\
    device_id cfg2 = device_id cfg /\ device_id_generated cfg2 = false.
Proof.
  destruct (load 5%N None no_env None ∅ sample_path no_overrides) as [[cfg|e] fs1] eqn:E.
  - destruct (device_id_stable 5%N 9%N None (Some "h"%string) no_env None None ∅ fs1 sample_path
                no_overrides cfg) as (cfg2 & H).
    + intros s Hs. discriminate Hs.
    + reflexivity.
    + intros Hb. vm_compute in Hb. discriminate Hb.
    + exact E.
    + exists cfg, fs1, cfg2. split; [reflexivity|exact H].
  - exfalso. assert (Hok : is_ok (load 5%N None no_env None ∅ sample_path no_overrides).1 = true)
      by (vm_compute; reflexivity).
    rewrite E in Hok. discriminate Hok.
Defined.

Lemma malformed_override_replaces_id_witness :
  device_id (resolve 9%N sample_file no_overrides no_overrides "host") = 7%N /\
  exists cfg fs', load 9%N None bad_env None sample_disk sample_path no_overrides = (Ok cfg, fs') /\
    device_id cfg = 9%N /\ load_file fs' sample_path = Ok (set_device_id (uuid_to_string 9%N) sample_file).
Proof.
  apply (malformed_override_replaces_id 9%N 7%N None bad_env sample_disk sample_path "not-an-id"
           sample_file); try (vm_compute; reflexivity).
  intros H. vm_compute in H. discriminate H.
Defined.

Lemma persist_url_effective_witness :
  exists file' fs', persist_controller_url None sample_disk sample_path "http://c:80" = (Ok tt, fs') /\
    load_file fs' sample_path = Ok file' /\
    controller_url (resolve 9%N file' no_overrides no_overrides "host") = Some "http://c:80"%string /\
    device_id (resolve 9%N file' no_overrides no_overrides "host") = 7%N.
Proof.
  destruct (persist_controller_url None sample_disk sample_path "http://c:80") as [r fs'] eqn:E.
  assert (Hok : (persist_controller_url None sample_disk sample_path "http://c:80").1 = Ok tt)
    by (vm_compute; reflexivity).
  rewrite E in Hok. simpl in Hok. subst r.
  destruct (persist_url_effective None sample_disk fs' sample_path "http://c:80" sample_file 9%N
              no_overrides no_overrides "host") as (file' & Hf & Hr).
  - intros H. vm_compute in H. discriminate H.
  - vm_compute. reflexivity.
  - exact E.
  - exists file', fs'. split; [reflexivity|]. split; [exact Hf|]. rewrite Hr.
    split; vm_compute; reflexivity.
Defined.
End ConfigSample.
