(* ===== verification/Client.v ===== *)
(** * The controller client ([agent/src/controller_client.rs])

    Each call builds an [HttpRequest], hands it to the transport [send] (the
    parameter that stands for [reqwest]: a response, or the text of its error)
    and reads the answer with [parse].  JSON bodies go through [Serde]. *)
From Stdlib Require Import Ascii.
From stdpp Require Import pretty.
From S2P Require Import Prelude Codec Schedule Messages Protocol Config.
#[local] Open Scope Z_scope.

Definition REQUEST_TIMEOUT : Duration := secs 10.

Inductive ClientError : Type :=
| Request (text : string)
| ApiError (status : Z) (body : string).

Definition is_device_not_found (e : ClientError) : bool :=
  match e with ApiError status _ => status =? 404 | Request _ => false end.

(** [Display], through [thiserror]. *)
Definition client_error_to_string (e : ClientError) : string :=
  match e with
  | Request text => "request error: " +:+ text
  | ApiError status body => "controller returned HTTP " +:+ pretty status +:+ ": " +:+ body
  end.

Inductive Method : Type := GET | POST.

Record HttpRequest : Type := mk_request {
  rq_method : Method;
  rq_url : string;
  rq_query : list (string * string);
  rq_body : option string;
  rq_timeout : Duration;
}.
Record HttpResponse : Type := mk_response { rs_status : Z; rs_body : string }.

Definition is_success (status : Z) : bool := (200 <=? status) && (status <? 300).

(** The no-op signer signs nothing. *)
Definition no_op_sign (body : string) : result string (option (list (string * string))) := Ok None.

Module ControllerClient.
Record t : Type := mk { base_url : string }.

Definition new (url : string) : t := mk (trim_end_matches (Ascii.eqb "/") url).

Section Calls.
Context {UT : UuidText}.
(** What [reqwest] does with a request, and its text for a bad body. *)
Context (send : HttpRequest -> result string HttpResponse) (bad_body : string).

Definition parse {A} `{!Serde A} (r : HttpResponse) : result ClientError A :=
  if is_success (rs_status r) then
    match from_json (rs_body r) with
    | Some a => Ok a
    | None => Err (Request bad_body)
    end
  else Err (ApiError (rs_status r) (rs_body r)).

Definition sent (rq : HttpRequest) : result ClientError HttpResponse :=
  match send rq with Ok r => Ok r | Err text => Err (Request text) end.

Definition get (url : string) (query : list (string * string)) (timeout : Duration) :=
  sent (mk_request GET url query None timeout).
Definition post {A} `{!Serde A} (url : string) (body : A) : result ClientError HttpResponse :=
  match to_json body with
  | Some text => sent (mk_request POST url [] (Some text) REQUEST_TIMEOUT)
  | None => Err (Request bad_body)
  end.

Definition agent_url (c : t) (device_id : Uuid) (suffix : string) : string :=
  base_url c +:+ "/api/v1/agents/" +:+ uuid_to_string device_id +:+ suffix.

Definition system_info `{!Serde SystemInfoResponse} (c : t)
  : result ClientError SystemInfoResponse :=
  r ← get (base_url c +:+ "/api/v1/system/info") [] REQUEST_TIMEOUT; parse r.

Definition register `{!Serde RegisterRequest, !Serde RegisterResponse} (c : t)
    (request : RegisterRequest) : result ClientError RegisterResponse :=
  r ← post (base_url c +:+ "/api/v1/agents/register") request; parse r.

Definition heartbeat `{!Serde HeartbeatRequest, !Serde HeartbeatResponse} (c : t)
    (device_id : Uuid) (request : HeartbeatRequest) : result ClientError HeartbeatResponse :=
  r ← post (agent_url c device_id "/heartbeat") request; parse r.

(** [revision] is sent only when there is one. *)
Definition schedule_request (c : t) (device_id : Uuid) (revision : option string)
    (wait : Duration) : HttpRequest :=
  mk_request GET (agent_url c device_id "/schedule")
    (("waitSeconds"%string, pretty (wait / ns_per_sec)) ::
     match revision with Some r => [("revision"%string, r)] | None => [] end)
    None (wait + REQUEST_TIMEOUT).

Definition poll_schedule `{!Serde Schedule.t} (c : t) (device_id : Uuid)
    (revision : option string) (wait : Duration) : result ClientError (option Schedule.t) :=
  r ← sent (schedule_request c device_id revision wait);
  if rs_status r =? 204 then Ok None
  else s ← parse r; Ok (Some s).

Definition poll_messages `{!Serde (list AgentMessage.t)} (c : t) (device_id : Uuid)
    (after : Z) (wait : Duration) : result ClientError (list AgentMessage.t) :=
  r ← get (agent_url c device_id "/messages")
        [("after"%string, pretty after); ("waitSeconds"%string, pretty (wait / ns_per_sec))]
        (wait + REQUEST_TIMEOUT);
  parse r.

Definition submit_events `{!Serde EventSubmissionRequest, !Serde EventSubmissionResponse}
    (c : t) (device_id : Uuid) (request : EventSubmissionRequest)
  : result ClientError EventSubmissionResponse :=
  r ← post (agent_url c device_id "/events") request; parse r.
End Calls.
End ControllerClient.

Section ClientProperties.
Import ControllerClient.
Context {UT : UuidText}.

Lemma trim_end_append p s c : p c = true ->
  trim_end_matches p (s +:+ String c EmptyString) = trim_end_matches p s.
Proof.
  intros Hc. induction s as [|a s IH]; simpl; [by rewrite Hc|]. by rewrite IH.
Qed.

(** A base URL is used the same however many slashes it was given with:
    the stored one never ends in a slash, appending slashes does not change
    it, and building a client from it again (as the poll loops do) gives
    the same client. *)
Lemma base_url_normal (url : string) :
  (forall s, base_url (new url) <> (s +:+ "/")%string) /\
  new (url +:+ "/") = new url /\
  new (base_url (new url)) = new url.
Proof.
  split; [|split].
  - intros s H. by apply trim_end_no_suffix in H.
  - unfold new. by rewrite trim_end_append.
  - unfold new. simpl. by rewrite trim_end_idemp.
Qed.

(** Every answer to a schedule poll is classified: 204 means that no
    schedule is assigned, a decodable success carries the schedule, 404 and
    only 404 says the controller does not know the device; a failed
    transport, an undecodable body and any other status are errors that are
    not mistaken for it. *)
Lemma poll_schedule_classified `{!Serde Schedule.t}
    (send : HttpRequest -> result string HttpResponse) (bad_body : string) (c : t)
    (did : Uuid) (revision : option string) (wait : Duration) :
  let res := poll_schedule send bad_body c did revision wait in
  match send (schedule_request c did revision wait) with
  | Err text => res = Err (Request text)
  | Ok r =>
      (rs_status r = 204 <-> res = Ok None) /\
      (forall s, res = Ok (Some s) <->
         200 <= rs_status r < 300 /\ rs_status r <> 204 /\ from_json (rs_body r) = Some s) /\
      ((exists e, res = Err e /\ is_device_not_found e = true) <-> rs_status r = 404)
  end.
Proof.
  unfold poll_schedule, sent. destruct (send _) as [r|text]; [|reflexivity]. simpl.
  unfold parse, is_success. destruct (Z.eqb_spec (rs_status r) 204) as [E|E]; simpl.
  { split; [done|]. split; [naive_solver|]. split; [naive_solver|]. intros; lia. }
  destruct (Z.leb_spec 200 (rs_status r)), (Z.ltb_spec (rs_status r) 300); simpl;
    try (destruct (from_json (rs_body r)) as [s0|] eqn:Ej; simpl);
    (split; [naive_solver|]); (split; [naive_solver lia|]).
  all: split; [intros (e & [= <-] & He); simpl in He; lia|intros He].
  all: first [lia | eexists; split; [done|]; simpl; lia].
Qed.
End ClientProperties.
