(* ===== verification/Discovery.v ===== *)
(** * UDP controller discovery ([agent/src/discovery.rs])

    IPv4 addresses are [u32] values.  [hosts_in_subnet] and
    [local_sweep_subnets] choose who is asked; [discover] is the listening loop
    over what the socket delivers, a list of arrival times (since the listen
    window opened) and datagrams; [validate_response] and [select_best] judge
    the answers. *)
From S2P Require Import Prelude Codec.
#[local] Open Scope Z_scope.

Definition EXCLUDED_INTERFACE_PREFIXES : list string :=
  ["docker"; "veth"; "br-"; "virbr"; "cni"; "tun"; "tap"]%string.
Definition MAX_SWEEP_HOSTS_PER_SUBNET : nat := 1024.
Definition PROTOCOL_NAME : string := "timelord-discovery".
Definition PROTOCOL_VERSION : Z := 1.
Definition TYPE_DISCOVER_CONTROLLER : string := "DISCOVER_CONTROLLER".
Definition TYPE_CONTROLLER_AVAILABLE : string := "CONTROLLER_AVAILABLE".
Definition MAX_PACKET_SIZE : nat := 4096.

Record DiscoverRequestMessage : Type := mk_discover {
  dm_protocol : string;
  dm_protocol_version : Z;
  dm_message_type : string;
  dm_request_id : Uuid;
  dm_agent_version : string;
  dm_device_id : Uuid;
  dm_hostname : string;
}.
Record ControllerAvailableMessage : Type := mk_available {
  am_protocol : string;
  am_protocol_version : Z;
  am_message_type : string;
  am_request_id : Uuid;
  am_controller_id : Uuid;
  am_controller_name : string;
  am_controller_url : string;
  am_priority : Z;
}.
Record DiscoveredController : Type := mk_discovered {
  controller_id : Uuid;
  controller_name : string;
  controller_url : string;
  priority : Z;
  response_time : Duration;
}.

Abbreviation Ipv4Addr := Z (only parsing).
Inductive IfAddr : Type := V4 (ip netmask : Ipv4Addr) | V6.
Record Interface : Type := mk_if { if_name : string; is_loopback : bool; if_addr : IfAddr }.
Record SweepSubnet : Type := mk_subnet {
  interface_name : string;
  own_addr : Ipv4Addr;
  hosts : list Ipv4Addr;
}.

Definition starts_with (s prefix : string) : bool := String.prefix prefix s.

(** [u32] complement. *)
Definition not_u32 (x : Z) : Z := Z.lxor x (2 ^ 32 - 1).

Definition hosts_in_subnet (ip netmask : Ipv4Addr) : list Ipv4Addr :=
  let mask := netmask in
  let network := Z.land ip mask in
  let broadcast := Z.lor network (not_u32 mask) in
  let first := wrap_u32 (network + 1) in
  if broadcast <=? first then [] else seqZ first (broadcast - first).

(** [None] is a failure to enumerate the interfaces. *)
Definition local_sweep_subnets (interfaces : option (list Interface)) : list SweepSubnet :=
  omap (fun iface =>
    if is_loopback iface then None
    else if existsb (starts_with (if_name iface)) EXCLUDED_INTERFACE_PREFIXES then None
    else match if_addr iface with
         | V6 => None
         | V4 ip netmask =>
             let all_hosts := hosts_in_subnet ip netmask in
             if (MAX_SWEEP_HOSTS_PER_SUBNET <? length all_hosts)%nat then None
             else Some (mk_subnet (if_name iface) ip
                          (List.filter (fun a => negb (a =? ip)) all_hosts))
         end) (default [] interfaces).

Section Discover.
Context {UT : UuidText} {SD : Serde DiscoverRequestMessage}
  {SA : Serde ControllerAvailableMessage}.

Definition validate_response (payload : string) (expected_request_id : Uuid)
    (response_time : Duration) : option DiscoveredController :=
  message ← from_json payload;
  if negb (String.eqb (am_protocol message) PROTOCOL_NAME) then None
  else if negb (am_protocol_version message =? PROTOCOL_VERSION) then None
  else if negb (String.eqb (am_message_type message) TYPE_CONTROLLER_AVAILABLE) then None
  else if negb (am_request_id message =? expected_request_id)%N then None
  else if negb (starts_with (am_controller_url message) "http://" ||
                starts_with (am_controller_url message) "https://") then None
  else Some (mk_discovered (am_controller_id message) (am_controller_name message)
               (am_controller_url message) (am_priority message) response_time).

Definition then_cmp (c d : comparison) : comparison := match c with Eq => d | _ => c end.

Definition compare_candidates (a b : DiscoveredController) : comparison :=
  then_cmp (then_cmp (priority b ?= priority a) (response_time a ?= response_time b))
    (String.compare (uuid_to_string (controller_id a)) (uuid_to_string (controller_id b))).

Definition select_best (candidates : list DiscoveredController) : option DiscoveredController :=
  min_by compare_candidates candidates.

(** What [recv_from] yields: a datagram, or a socket error. *)
Inductive received : Type :=
| Datagram (payload : string)
| SocketError.

(** The receive loop, until the deadline passes or the socket fails. *)
Fixpoint listen (discovery_timeout : Duration) (request_id : Uuid)
    (rx : list (Duration * received)) : list DiscoveredController :=
  match rx with
  | [] => []
  | (elapsed, r) :: rx' =>
      if discovery_timeout <=? elapsed then []
      else match r with
           | SocketError => []
           | Datagram payload =>
               match validate_response (String.substring 0 MAX_PACKET_SIZE payload)
                       request_id elapsed with
               | Some c => c :: listen discovery_timeout request_id rx'
               | None => listen discovery_timeout request_id rx'
               end
           end
  end.

Inductive DiscoverError : Type := BindFailed | BadRequest.

Definition targets (interfaces : option (list Interface)) : list Ipv4Addr :=
  flat_map hosts (local_sweep_subnets interfaces).

(** [bind_ok]: the socket could be bound; [request_id] is [Uuid::new_v4()].
    The second component is the datagrams sent. *)
Definition discover (device_id request_id : Uuid) (agent_version hostname : string)
    (discovery_port : Z) (discovery_timeout : Duration) (interfaces : option (list Interface))
    (bind_ok : bool) (rx : list (Duration * received))
  : result DiscoverError (list DiscoveredController) * list (Ipv4Addr * Z * string) :=
  let targets := targets interfaces in
  match targets with
  | [] => (Ok [], [])
  | _ =>
      if negb bind_ok then (Err BindFailed, [])
      else
        match to_json (mk_discover PROTOCOL_NAME PROTOCOL_VERSION TYPE_DISCOVER_CONTROLLER
                         request_id agent_version device_id hostname) with
        | None => (Err BadRequest, [])
        | Some payload =>
            (Ok (listen discovery_timeout request_id rx),
             map (fun a => (a, discovery_port, payload)) targets)
        end
  end.
End Discover.

(** ** Who is asked *)
Section SweepProperties.

Lemma not_u32_prefix p : 0 <= p <= 32 -> not_u32 (2 ^ 32 - 2 ^ (32 - p)) = 2 ^ (32 - p) - 1.
Proof.
  intros Hp. unfold not_u32. apply Z.bits_inj'. intros n Hn.
  assert (Hpow : 2 ^ 32 = 2 ^ p * 2 ^ (32 - p)) by (rewrite <- Z.pow_add_r; f_equal; lia).
  replace (2 ^ 32 - 2 ^ (32 - p)) with (Z.shiftl (Z.ones p) (32 - p)).
  2:{ rewrite Z.shiftl_mul_pow2, Z.ones_equiv by lia. lia. }
  replace (2 ^ 32 - 1) with (Z.ones 32) by (rewrite Z.ones_equiv; lia).
  replace (2 ^ (32 - p) - 1) with (Z.ones (32 - p)) by (rewrite Z.ones_equiv; lia).
  rewrite Z.lxor_spec, Z.shiftl_spec by lia.
  destruct (Z.lt_ge_cases n (32 - p)).
  - rewrite (Z.testbit_neg_r _ (n - (32 - p))) by lia.
    by rewrite !Z.ones_spec_low by lia.
  - rewrite (Z.ones_spec_high (32 - p)) by lia. destruct (Z.lt_ge_cases n 32).
    + by rewrite !Z.ones_spec_low by lia.
    + by rewrite !Z.ones_spec_high by lia.
Qed.

Lemma land_prefix ip p : 0 <= ip < 2 ^ 32 -> 0 <= p <= 32 ->
  Z.land ip (2 ^ 32 - 2 ^ (32 - p)) = ip / 2 ^ (32 - p) * 2 ^ (32 - p).
Proof.
  intros Hip Hp. rewrite <- Z.shiftr_div_pow2, <- Z.shiftl_mul_pow2 by lia.
  assert (Hpow : 2 ^ 32 = 2 ^ p * 2 ^ (32 - p)) by (rewrite <- Z.pow_add_r; f_equal; lia).
  replace (2 ^ 32 - 2 ^ (32 - p)) with (Z.shiftl (Z.ones p) (32 - p)).
  2:{ rewrite Z.shiftl_mul_pow2, Z.ones_equiv by lia. lia. }
  apply Z.bits_inj'. intros n Hn. rewrite Z.land_spec, !Z.shiftl_spec by lia.
  destruct (Z.lt_ge_cases n (32 - p)).
  - rewrite !(Z.testbit_neg_r _ (n - (32 - p))) by lia. by rewrite andb_false_r.
  - rewrite Z.shiftr_spec by lia. replace (n - (32 - p) + (32 - p)) with n by lia.
    destruct (Z.lt_ge_cases (n - (32 - p)) p).
    + by rewrite Z.ones_spec_low, andb_true_r by lia.
    + rewrite Z.ones_spec_high, andb_false_r by lia. symmetry.
      rewrite <- (Z.mod_small ip (2 ^ 32)) by lia. apply Z.mod_pow2_bits_high. lia.
Qed.

(** A subnet's hosts are exactly its usable addresses.  For an address
    and a netmask of [p] ones, below 31, the sweep list has no duplicates,
    has [2^(32-p) - 2] entries, and contains an address exactly when it is on
    the same subnet and is neither the network nor the broadcast address;
    for /31 and /32 there is nothing to sweep. *)
Lemma hosts_in_subnet_correct (ip p : Z) :
  0 <= ip < 2 ^ 32 - 1 -> 0 <= p <= 32 ->
  let size := 2 ^ (32 - p) in
  let l := hosts_in_subnet ip (2 ^ 32 - size) in
  NoDup l /\ Z.of_nat (length l) = Z.max 0 (size - 2) /\
  forall a, a ∈ l <-> a / size = ip / size /\ a mod size <> 0 /\ a mod size <> size - 1.
Proof.
  intros Hip Hp size l. assert (Hs : 0 < size) by (apply Z.pow_pos_nonneg; lia).
  set (net := ip / size * size).
  assert (Hpow : 2 ^ 32 = 2 ^ p * size) by (unfold size; rewrite <- Z.pow_add_r; f_equal; lia).
  assert (Hnet : 0 <= net <= ip).
  { unfold net. pose proof (Z.div_mod ip size ltac:(lia)). pose proof (Z.mod_pos_bound ip size ltac:(lia)).
    pose proof (Z.div_pos ip size ltac:(lia) ltac:(lia)). nia. }
  assert (Hl : l = if (net + size - 1 <=? net + 1) then []
                   else seqZ (net + 1) (net + size - 1 - (net + 1))).
  { assert (Hnot : not_u32 (2 ^ 32 - size) = size - 1) by (by apply not_u32_prefix).
    assert (Hland : Z.land ip (2 ^ 32 - size) = net) by (apply land_prefix; lia).
    unfold l, hosts_in_subnet. rewrite Hnot, Hland, wrap_u32_id by lia.
    replace (Z.lor net (size - 1)) with (net + size - 1); [done|].
    unfold net at 2. unfold size at 3. rewrite <- Z.shiftl_mul_pow2 by lia.
    rewrite lor_shiftl_add; fold size; unfold net; lia. }
  assert (Ha : forall a, (a / size = ip / size /\ a mod size <> 0 /\ a mod size <> size - 1) <->
                         net + 1 <= a < net + size - 1).
  { intros a. unfold net. pose proof (Z.div_mod a size ltac:(lia)).
    pose proof (Z.mod_pos_bound a size ltac:(lia)).
    split; [intros (<- & H1 & H2); lia|]. intros Hr.
    assert (Hq : a / size = ip / size).
    { symmetry. apply (Z.div_unique_pos a size (ip / size) (a - ip / size * size)); lia. }
    rewrite Hq in *. split; [done|]. lia. }
  rewrite Hl. destruct (Z.leb_spec (net + size - 1) (net + 1)).
  - split; [constructor|]. split; [simpl; lia|]. intros a. rewrite Ha.
    split; [by intros ?%not_elem_of_nil|lia].
  - split; [apply NoDup_seqZ|]. rewrite length_seqZ. split; [lia|].
    intros a. rewrite Ha, elem_of_seqZ. lia.
Qed.

(** The sweep stays on the real LAN and never asks the machine itself:
    every subnet swept belongs to a non-loopback interface with an allowed
    name, offers at most 1024 targets, each a host of that subnet, and the
    interface's own address is not among them. *)
Lemma sweep_targets_bounded (interfaces : option (list Interface)) (s : SweepSubnet) :
  s ∈ local_sweep_subnets interfaces ->
  (exists iface netmask, iface ∈ default [] interfaces /\ is_loopback iface = false /\
     if_addr iface = V4 (own_addr s) netmask /\ if_name iface = interface_name s /\
     (forall p, p ∈ EXCLUDED_INTERFACE_PREFIXES -> starts_with (if_name iface) p = false) /\
     (forall a, a ∈ hosts s <-> a ∈ hosts_in_subnet (own_addr s) netmask /\ a <> own_addr s)) /\
  (length (hosts s) <= 1024)%nat.
Proof.
  unfold local_sweep_subnets. intros (iface & Hin & H)%list_elem_of_omap.
  destruct (is_loopback iface) eqn:El; [done|].
  destruct (existsb _ _) eqn:Ee; [done|].
  destruct (if_addr iface) as [ip netmask|] eqn:Ea; [|done].
  destruct (Nat.ltb_spec MAX_SWEEP_HOSTS_PER_SUBNET (length (hosts_in_subnet ip netmask)))
    as [|Hle]; [done|].
  injection H as <-. cbn [own_addr interface_name hosts]. split.
  - exists iface, netmask. split; [done|]. split; [done|]. split; [done|]. split; [done|].
    split.
    + intros p Hp. apply not_true_iff_false. intros Ht. apply not_true_iff_false in Ee.
      apply Ee, existsb_exists. exists p. split; [by apply list_elem_of_In|done].
    + intros a. rewrite elem_of_bfilter, negb_true_iff. by rewrite Z.eqb_neq.
  - unfold MAX_SWEEP_HOSTS_PER_SUBNET in *. etrans; [|exact Hle]. apply List.filter_length_le.
Qed.
End SweepProperties.

(** ** Which answer wins *)
Section Choice.
Context {UT : UuidText} {SD : Serde DiscoverRequestMessage}
  {SA : Serde ControllerAvailableMessage}.

Definition id_text (c : DiscoveredController) : string := uuid_to_string (controller_id c).

(** [a] is at least as good as [b]. *)
Definition preferred (a b : DiscoveredController) : Prop :=
  priority b < priority a \/
  (priority a = priority b /\
   (response_time a < response_time b \/
    (response_time a = response_time b /\ String.leb (id_text a) (id_text b) = true))).

Lemma compare_preferred a b : compare_candidates a b <> Gt <-> preferred a b.
Proof.
  unfold compare_candidates, preferred, then_cmp, String.leb, id_text.
  destruct (Z.compare_spec (priority b) (priority a)) as [Hp|Hp|Hp].
  2: { split; [intros _; by left|discriminate]. }
  2: { split; [by intros []|intros; lia]. }
  destruct (Z.compare_spec (response_time a) (response_time b)) as [Ht|Ht|Ht].
  2: { split; [intros _; auto|discriminate]. }
  2: { split; [by intros []|intros; lia]. }
  destruct (String.compare _ _); (split; [intros H; auto 6|]); try discriminate.
  - by destruct H.
  - intros [?|[_ [?|[_ ?]]]]; lia.
Qed.

Lemma preferred_refl a : preferred a a.
Proof. right. split; [done|]. right. split; [done|]. apply string_leb_refl. Qed.
Lemma preferred_total a b : preferred a b \/ preferred b a.
Proof.
  unfold preferred. destruct (string_leb_total (id_text a) (id_text b)) as [H|H]; rewrite H;
    destruct (Z.lt_trichotomy (priority a) (priority b)) as [?|[?|?]];
    destruct (Z.lt_trichotomy (response_time a) (response_time b)) as [?|[?|?]]; auto 8.
Qed.
Lemma preferred_trans a b c : preferred a b -> preferred b c -> preferred a c.
Proof.
  unfold preferred. intros Hab Hbc.
  assert (Hs : String.leb (id_text a) (id_text b) = true ->
               String.leb (id_text b) (id_text c) = true ->
               String.leb (id_text a) (id_text c) = true) by apply string_leb_trans.
  destruct (Z.lt_trichotomy (priority c) (priority a)) as [?|[?|?]]; [by left| |lia].
  right. split; [lia|].
  destruct (Z.lt_trichotomy (response_time a) (response_time c)) as [?|[?|?]]; [by left| |lia].
  right. split; [lia|]. apply Hs; intuition lia.
Qed.
Lemma preferred_antisym a b : preferred a b -> preferred b a -> id_text a = id_text b.
Proof.
  unfold preferred. intros Hab Hba. assert (H : String.leb (id_text a) (id_text b) = true) by intuition lia.
  assert (H' : String.leb (id_text b) (id_text a) = true) by intuition lia.
  revert H H'. unfold String.leb. rewrite (String.compare_antisym (id_text a) (id_text b)).
  destruct (String.compare (id_text b) (id_text a)) eqn:E; simpl; try done.
  by apply String.compare_eq_iff in E.
Qed.

Lemma select_best_spec l best :
  select_best l = Some best -> best ∈ l /\ forall c, c ∈ l -> preferred best c.
Proof.
  intros [Hin Hb]%min_by_spec.
  - split; [done|]. intros c Hc. by apply compare_preferred, Hb.
  - intros x. apply compare_preferred, preferred_refl.
  - intros x y Hxy. apply compare_preferred.
    destruct (preferred_total x y) as [Hxy2|Hxy2]; [|done]. by apply compare_preferred in Hxy2.
  - intros x y z. rewrite !compare_preferred. apply preferred_trans.
Qed.

(** The choice of controller is right and does not depend on the order
    of arrival: [select_best] returns a candidate unless there is none, one
    that no other beats on priority, then response time, then id; and any
    reordering of candidates with distinct ids gives the same controller. *)
Lemma select_best_deterministic (l : list DiscoveredController) :
  (select_best l = None <-> l = []) /\
  (forall best, select_best l = Some best ->
     best ∈ l /\ forall c, c ∈ l -> preferred best c) /\
  (NoDup (map id_text l) -> forall l', l' ≡ₚ l -> select_best l' = select_best l).
Proof.
  split; [apply min_by_none|]. split; [apply select_best_spec|]. intros Hnd l' Hp.
  destruct (select_best l') as [b'|] eqn:E', (select_best l) as [b|] eqn:E.
  - apply select_best_spec in E' as [Hin' Hb'], E as [Hin Hb]. f_equal.
    rewrite Hp in Hin'. assert (Hid : id_text b' = id_text b).
    { apply preferred_antisym; [apply Hb'; by rewrite Hp|by apply Hb]. }
    by eapply NoDup_map_inj.
  - apply min_by_none in E. subst l. symmetry in Hp. apply Permutation_nil in Hp. by subst l'.
  - apply min_by_none in E'. subst l'. apply Permutation_nil in Hp. by subst l.
  - done.
Qed.

Lemma validate_response_some payload rid t c :
  validate_response payload rid t = Some c ->
  exists m, from_json payload = Some m /\
    am_protocol m = PROTOCOL_NAME /\ am_protocol_version m = PROTOCOL_VERSION /\
    am_message_type m = TYPE_CONTROLLER_AVAILABLE /\ am_request_id m = rid /\
    (starts_with (am_controller_url m) "http://" = true \/
     starts_with (am_controller_url m) "https://" = true) /\
    c = mk_discovered (am_controller_id m) (am_controller_name m) (am_controller_url m)
          (am_priority m) t.
Proof.
  unfold validate_response. destruct (from_json payload) as [m|]; [|done]. simpl.
  destruct (String.eqb_spec (am_protocol m) PROTOCOL_NAME); [|done].
  destruct (Z.eqb_spec (am_protocol_version m) PROTOCOL_VERSION); [|done].
  destruct (String.eqb_spec (am_message_type m) TYPE_CONTROLLER_AVAILABLE); [|done].
  destruct (N.eqb_spec (am_request_id m) rid); [|done]. simpl.
  destruct (starts_with _ "http://") eqn:E1; simpl.
  - intros [= <-]. exists m. by split_and!; auto.
  - destruct (starts_with _ "https://") eqn:E2; simpl; [|done].
    intros [= <-]. exists m. by split_and!; auto.
Qed.

End Choice.

(** ** Concrete sweeps and answers *)
Lemma hosts_in_subnet_correct_witness :
  let ip := 167772320 in  (* 10.0.0.160 *)
  NoDup (hosts_in_subnet ip (2 ^ 32 - 2 ^ (32 - 24))) /\
  Z.of_nat (length (hosts_in_subnet ip (2 ^ 32 - 2 ^ (32 - 24)))) = 254.
Proof.
  intros ip. destruct (hosts_in_subnet_correct ip 24) as (H1 & H2 & _); [lia|lia|].
  split; [exact H1|]. rewrite H2. reflexivity.
Defined.

Definition sample_interfaces : list Interface :=
  [mk_if "lo" true (V4 2130706433 4278190080); mk_if "docker0" false (V4 2886729729 4294901760);
   mk_if "eth0" false (V4 167772162 4294967288)].

Lemma sweep_targets_bounded_witness :
  let s := mk_subnet "eth0" 167772162 [167772161; 167772163; 167772164; 167772165; 167772166] in
  s ∈ local_sweep_subnets (Some sample_interfaces) /\ (length (hosts s) <= 1024)%nat.
Proof.
  intros s. assert (Hs : s ∈ local_sweep_subnets (Some sample_interfaces)).
  { assert (E : local_sweep_subnets (Some sample_interfaces) = [s]) by (vm_compute; reflexivity).
    rewrite E. left. }
  split; [exact Hs|]. apply (sweep_targets_bounded (Some sample_interfaces) s Hs).
Defined.

Section DiscoverySample.
#[local] Existing Instances Bits.uuid_text.
(** Requests written as their id; the only readable answer is "answer". *)
#[local] Instance sample_request_codec : Serde DiscoverRequestMessage := {|
  to_json m := Some (uuid_to_string (dm_request_id m));
  from_json _ := None;
|}.
#[local] Instance sample_answer_codec : Serde ControllerAvailableMessage := {|
  to_json _ := None;
  from_json s := if String.eqb s "answer" then
    Some (mk_available "timelord-discovery" 1 "CONTROLLER_AVAILABLE" 5%N 9%N "c" "http://c:80" 10)
    else None;
|}.

End DiscoverySample.
