(* ===== verification/Agent.v ===== *)
(** * The agent's shared state ([Agent] of [agent/src/agent.rs])

    [Agent.t] holds what the networking loops share behind mutexes and atomics.
    Clock readings ([Utc::now], [Instant::now]), fresh ids and the faults of
    the file operations are arguments; a [tokio::sync::Notify] is the permit it
    stores.  [enqueue] ignores the queue's error, as the code does. *)
From S2P Require Import Prelude Codec Fs Schedule Messages Clock Protocol Db Queue Store Events.
From S2P Require Import Recorder Config Client Discovery.
#[local] Open Scope Z_scope.

Definition AGENT_VERSION : string := "0.2.3".
Definition EVENT_BATCH_SIZE : nat := 100.
Definition RECONNECT_BACKOFF : Duration := secs 15.
Definition SCHEDULE_SYNC_GRACE : Duration := secs 90.
Definition SLEEP_DETECT_SLACK : Duration := secs 30.
Definition SCHEDULE_POLL_WAIT : Duration := secs 30.
Definition ENFORCEMENT_MAX_WAIT : Duration := secs 60.
Definition SHUTDOWN_COOLDOWN : Duration := secs 300.
Definition CLOCK_RESYNC_INTERVAL : Duration := secs (15 * 60).
Definition CLOCK_RETRY_INTERVAL : Duration := secs 30.
Definition CLOCK_RETRY_INTERVAL_KNOWN : Duration := secs (5 * 60).
Definition CLOCK_WATCH_INTERVAL : Duration := secs 15.
Definition CLOCK_JUMP_THRESHOLD : Duration := secs 5.
Definition CLOCK_SKEW_WARN_MS : Z := 30000.
Definition SHUTDOWN_FLUSH_TIMEOUT : Duration := secs 5.

Abbreviation Instant := Z (only parsing).

(** What building and storing one event reads: [Uuid::new_v4], [Utc::now] in
    the constructor and [Utc::now] in [enqueue]. *)
Record stamp : Type := mk_stamp {
  st_id : Uuid;
  st_built : DateTime;
  st_now : DateTime;
}.

Record ScheduleSync : Type := mk_sync { confirmed : bool; since : Instant }.

Module Agent.
Record t : Type := mk {
  config : AgentConfig;
  agent_toml_path : path;
  queue : EventQueue.t * list bool;
  connected : bool;
  session_snapshot : SessionSnapshot;
  shutdown : bool;
  flush_notify : bool;
  schedule : option Schedule.t;
  schedule_path : path;
  schedule_changed : bool;
  messages : MessageStore.t;
  messages_path : path;
  schedule_sync : ScheduleSync;
  clock : TrustedClock.t;
  clock_resync : bool;
  disk : Fs.t;
}.

Definition with_file_name (stem ext : string) (p : path) : path :=
  let '(dir, _, _) := p in (dir, stem, ext).

Definition set_queue q (a : t) : t :=
  mk (config a) (agent_toml_path a) q (connected a) (session_snapshot a) (shutdown a)
    (flush_notify a) (schedule a) (schedule_path a) (schedule_changed a) (messages a)
    (messages_path a) (schedule_sync a) (clock a) (clock_resync a) (disk a).
Definition set_connected b (a : t) : t :=
  mk (config a) (agent_toml_path a) (queue a) b (session_snapshot a) (shutdown a)
    (flush_notify a) (schedule a) (schedule_path a) (schedule_changed a) (messages a)
    (messages_path a) (schedule_sync a) (clock a) (clock_resync a) (disk a).
Definition set_shutdown b (a : t) : t :=
  mk (config a) (agent_toml_path a) (queue a) (connected a) (session_snapshot a) b
    (flush_notify a) (schedule a) (schedule_path a) (schedule_changed a) (messages a)
    (messages_path a) (schedule_sync a) (clock a) (clock_resync a) (disk a).
Definition set_flush b (a : t) : t :=
  mk (config a) (agent_toml_path a) (queue a) (connected a) (session_snapshot a) (shutdown a)
    b (schedule a) (schedule_path a) (schedule_changed a) (messages a)
    (messages_path a) (schedule_sync a) (clock a) (clock_resync a) (disk a).
Definition set_schedule s d (a : t) : t :=
  mk (config a) (agent_toml_path a) (queue a) (connected a) (session_snapshot a) (shutdown a)
    (flush_notify a) s (schedule_path a) true (messages a)
    (messages_path a) (schedule_sync a) (clock a) (clock_resync a) d.
Definition set_schedule_changed b (a : t) : t :=
  mk (config a) (agent_toml_path a) (queue a) (connected a) (session_snapshot a) (shutdown a)
    (flush_notify a) (schedule a) (schedule_path a) b (messages a)
    (messages_path a) (schedule_sync a) (clock a) (clock_resync a) (disk a).
Definition set_messages m d (a : t) : t :=
  mk (config a) (agent_toml_path a) (queue a) (connected a) (session_snapshot a) (shutdown a)
    (flush_notify a) (schedule a) (schedule_path a) (schedule_changed a) m
    (messages_path a) (schedule_sync a) (clock a) (clock_resync a) d.
Definition set_sync s (a : t) : t :=
  mk (config a) (agent_toml_path a) (queue a) (connected a) (session_snapshot a) (shutdown a)
    (flush_notify a) (schedule a) (schedule_path a) (schedule_changed a) (messages a)
    (messages_path a) s (clock a) (clock_resync a) (disk a).
Definition set_clock c (a : t) : t :=
  mk (config a) (agent_toml_path a) (queue a) (connected a) (session_snapshot a) (shutdown a)
    (flush_notify a) (schedule a) (schedule_path a) (schedule_changed a) (messages a)
    (messages_path a) (schedule_sync a) c (clock_resync a) (disk a).
Definition set_resync b (a : t) : t :=
  mk (config a) (agent_toml_path a) (queue a) (connected a) (session_snapshot a) (shutdown a)
    (flush_notify a) (schedule a) (schedule_path a) (schedule_changed a) (messages a)
    (messages_path a) (schedule_sync a) (clock a) b (disk a).
Definition set_disk d (a : t) : t :=
  mk (config a) (agent_toml_path a) (queue a) (connected a) (session_snapshot a) (shutdown a)
    (flush_notify a) (schedule a) (schedule_path a) (schedule_changed a) (messages a)
    (messages_path a) (schedule_sync a) (clock a) (clock_resync a) d.

Definition set_snapshot (s : SessionSnapshot) (a : t) : t :=
  mk (config a) (agent_toml_path a) (queue a) (connected a) s (shutdown a)
    (flush_notify a) (schedule a) (schedule_path a) (schedule_changed a) (messages a)
    (messages_path a) (schedule_sync a) (clock a) (clock_resync a) (disk a).

Section Ops.
Context {TT : TimeText} {UT : UuidText} {SJ : Serde (gmap string json)} {SQ : SqlEngine}
  {SS : Serde Schedule.t} {SM : Serde MessageStore.t} {SF : Serde AgentFileConfig}.

Definition new (config : AgentConfig) (toml : path) (queue : EventQueue.t * list bool)
    (snapshot : SessionSnapshot) (fs : Fs.t) (started : Instant) : t :=
  let schedule_path := with_file_name "schedule" "json" toml in
  let messages_path := with_file_name "messages" "json" toml in
  mk config toml queue false snapshot false false (Schedule.load fs schedule_path)
    schedule_path false (MessageStore.load fs messages_path) messages_path
    (mk_sync false started) (TrustedClock.new (ntp_enabled config)) false fs.

Definition now (a : t) (utc_now : DateTime) : DateTime := TrustedClock.now (clock a) utc_now.

Definition schedule_revision (a : t) : option string := Schedule.revision <$> schedule a.

Definition mark_schedule_synced (a : t) : t :=
  if confirmed (schedule_sync a) then a
  else set_schedule_changed true (set_sync (mk_sync true (since (schedule_sync a))) a).

Definition invalidate_schedule_sync (instant : Instant) (a : t) : t :=
  set_sync (mk_sync false instant) (set_resync true a).

Definition enforcement_view (a : t) (grace : Duration) (instant : Instant)
  : option Schedule.t * option Duration :=
  let confirmed := confirmed (schedule_sync a) in
  let unsynced_for := instant - since (schedule_sync a) in
  if enforcement_ready (confirmed && TrustedClock.is_ready (clock a)) unsynced_for grace
  then (schedule a, None)
  else (None, Some (Z.max 0 (grace - unsynced_for))).

Definition schedule_for_notices (a : t) (instant : Instant) : option Schedule.t :=
  (enforcement_view a SCHEDULE_SYNC_GRACE instant).1.

Definition apply_schedule (f : Fs.fault) (incoming : option Schedule.t) (a : t) : t :=
  if bool_decide (schedule a = incoming) then a
  else set_schedule incoming (Schedule.save f (disk a) (schedule_path a) incoming).2 a.

Definition live_messages (a : t) (utc_now : DateTime) : list AgentMessage.t :=
  MessageStore.live (messages a) (now a utc_now).

Definition messages_cursor (a : t) : Z := MessageStore.last_seq (messages a).

Definition apply_messages (f : Fs.fault) (incoming : list AgentMessage.t) (utc_now : DateTime)
    (a : t) : t :=
  let '(store, changed) := MessageStore.apply (messages a) incoming (now a utc_now) in
  let d := if changed then (MessageStore.save f (disk a) (messages_path a) store).2
           else disk a in
  set_messages store d a.

Definition is_connected (a : t) : bool := connected a.
Definition begin_shutdown (a : t) : t := set_shutdown true a.
Definition request_flush (a : t) : t := set_flush true a.

Definition enqueue (event : Uuid -> DateTime -> QueuedEvent) (s : stamp) (a : t) : t :=
  set_queue (EventQueue.enqueue (event (st_id s) (st_built s)) (st_now s) (queue a)).2 a.

Definition note_disconnected (reason : string) (s : stamp) (a : t) : t :=
  if connected a
  then enqueue (fun i c => controller_disconnected i c reason) s (set_connected false a)
  else set_connected false a.

Definition note_connected (controller_url : string) (s : stamp) (a : t) : t :=
  if connected a then set_connected true a
  else request_flush
         (enqueue (fun i c => controller_connected i c controller_url) s
            (set_connected true a)).

(** What an answer of [discovery::discover] does: the URL, if a controller was
    found. *)
Definition resolve_found (f : Fs.fault) (s2 : stamp)
    (found : result string (list DiscoveredController)) (a : t) : option string * t :=
  match found with
  | Ok (c :: cs) =>
      match select_best (c :: cs) with
      | Some best =>
          let a := enqueue (fun i k => controller_discovered i k (Discovery.controller_id best)
                     (Discovery.controller_name best) (Discovery.controller_url best)) s2 a in
          let d := (persist_controller_url f (disk a) (agent_toml_path a)
                      (Discovery.controller_url best)).2 in
          (Some (Discovery.controller_url best), set_disk d a)
      | None => (None, a)  (* [expect("non-empty")] *)
      end
  | Ok [] =>
      (None, enqueue (fun i k => controller_discovery_failed i k "no controller responded") s2 a)
  | Err text => (None, enqueue (fun i k => controller_discovery_failed i k text) s2 a)
  end.

(** One turn of the loop in [resolve_controller_url]. *)
Definition resolve_attempt (f : Fs.fault) (s1 s2 : stamp)
    (found : result string (list DiscoveredController)) (a : t) : option string * t :=
  resolve_found f s2 found (enqueue controller_discovery_started s1 a).

(** The loop over the discovery rounds; [None] while still searching. *)
Fixpoint resolve_loop
    (rounds : list (Fs.fault * stamp * stamp * result string (list DiscoveredController)))
    (a : t) : option string * t :=
  match rounds with
  | [] => (None, a)
  | (f, s1, s2, found) :: rounds' =>
      match resolve_attempt f s1 s2 found a with
      | (Some url, a') => (Some url, a')
      | (None, a') => resolve_loop rounds' a'
      end
  end.

Definition resolve_controller_url (force_rediscover : bool)
    (rounds : list (Fs.fault * stamp * stamp * result string (list DiscoveredController)))
    (a : t) : option string * t :=
  match (if force_rediscover then None else Config.controller_url (config a)) with
  | Some url => (Some url, a)
  | None => resolve_loop rounds a
  end.

(** The machine's description, for the registration. *)
Definition register_request (a : t) (os os_version arch : string) (ips : list string)
    (interfaces : list NetworkInterfaceInfo) : RegisterRequest :=
  mk_register_request (device_id (config a)) (device_name (config a)) (device_name (config a))
    AGENT_VERSION os os_version arch ips interfaces.

(** What a registration that was accepted does after its event is queued. *)
Definition registered (f : Fs.fault) (r : RegisterResponse) (a : t) : t :=
  request_flush (mark_schedule_synced (apply_schedule f (rr_schedule r) (set_connected true a))).

(** One turn of the loop in [register]. *)
Definition register_attempt (f : Fs.fault) (s : stamp)
    (response : result ClientError RegisterResponse) (a : t) : option Uuid * t :=
  match response with
  | Ok r =>
      let a := enqueue (fun i c => registration_succeeded i c (rr_device_id r)) s a in
      (Some (rr_device_id r), registered f r a)
  | Err e =>
      (None, enqueue (fun i c => registration_failed i c (client_error_to_string e)) s a)
  end.

Fixpoint register (attempts : list (Fs.fault * stamp * result ClientError RegisterResponse))
    (a : t) : option Uuid * t :=
  match attempts with
  | [] => (None, a)
  | (f, s, response) :: attempts' =>
      match register_attempt f s response a with
      | (Some id, a') => (Some id, a')
      | (None, a') => register attempts' a'
      end
  end.
End Ops.
End Agent.
