(* ===== verification/Loops.v ===== *)
(** * The networking and clock loops ([agent/src/agent.rs])

    One turn of [heartbeat_loop], [schedule_poll_loop], [message_poll_loop] and
    [clock_sync_loop] as functions of the agent, the answer received and the
    clock readings; and the description of the machine sent on registration.
    [aop] collects everything these loops (and delivery) do to the shared
    state, for the theorems about interleavings. *)
From S2P Require Import Prelude Codec Fs Schedule Messages Clock Protocol Db Queue Store Events.
From S2P Require Import Recorder Config Client Discovery Agent.
#[local] Open Scope Z_scope.

Section Heartbeat.
Import Agent.
Context {TT : TimeText} {UT : UuidText} {SJ : Serde (gmap string json)} {SQ : SqlEngine}
  {SS : Serde Schedule.t} {SM : Serde MessageStore.t}.

Definition heartbeat_request (s : stamp) (url : string) (a : Agent.t) : HeartbeatRequest :=
  mk_heartbeat_request (st_id s) (st_now s) AGENT_VERSION 0 "RUNNING"
    (snap_username (session_snapshot a)) (snap_state (session_snapshot a)) None (Some url).

(** What a heartbeat's answer does.  [true]: the device must register again. *)
Definition heartbeat_answer (f : Fs.fault) (s1 s2 : stamp) (url : string)
    (result : result ClientError HeartbeatResponse) (a : Agent.t) : bool * Agent.t :=
  match result with
  | Ok response =>
      let a := note_connected url s1 a in
      let a := apply_schedule f (hr_schedule response) a in
      let a := mark_schedule_synced a in
      (false, enqueue heartbeat_sent s2 a)
  | Err e =>
      if is_device_not_found e
      then (true, note_disconnected "device not found; re-registering" s1 a)
      else (false, note_disconnected (client_error_to_string e) s1 a)
  end.

(** The re-registration of a device the controller has forgotten; [attempts]
    are the registration's answers. *)
Definition heartbeat_turn (f : Fs.fault) (s1 s2 : stamp) (url : string)
    (result : result ClientError HeartbeatResponse)
    (attempts : list (Fs.fault * stamp * Prelude.result ClientError RegisterResponse))
    (device_id : Uuid) (a : Agent.t) : Uuid * Agent.t :=
  match heartbeat_answer f s1 s2 url result a with
  | (true, a) =>
      match register attempts a with
      | (Some new_id, a) => (new_id, a)
      | (None, a) => (device_id, a)  (* still registering *)
      end
  | (false, a) => (device_id, a)
  end.

(** [true]: back off before the next poll. *)
Definition schedule_poll_answer (f : Fs.fault)
    (result : result ClientError (option Schedule.t)) (a : Agent.t) : bool * Agent.t :=
  match result with
  | Ok schedule => (false, mark_schedule_synced (apply_schedule f schedule a))
  | Err _ => (true, a)
  end.

Definition message_poll_answer (f : Fs.fault) (utc_now : DateTime)
    (result : result ClientError (list AgentMessage.t)) (a : Agent.t) : bool * Agent.t :=
  match result with
  | Ok incoming => (false, apply_messages f incoming utc_now a)
  | Err _ => (true, a)
  end.
End Heartbeat.

(** ** The clock loop *)
Module ClockSync.
Record t : Type := mk {
  last_system : DateTime;
  last_tick : Instant;
  next_sync : Instant;
}.

Definition start (utc_now : DateTime) (instant : Instant) : t := mk utc_now instant instant.

(** The top of the loop: measure when due.  [measured] is what
    [measure_default] gives on the configured servers. *)
Definition sync (measured : option Z) (utc_now : DateTime) (instant : Instant)
    (l : t) (a : Agent.t) : t * Agent.t :=
  if next_sync l <=? instant then
    let '(next, a) :=
      match measured with
      | Some offset_ms =>
          (instant + CLOCK_RESYNC_INTERVAL,
           Agent.set_clock (TrustedClock.set_offset_ms (Agent.clock a) offset_ms) a)
      | None =>
          (instant + (if TrustedClock.is_ready (Agent.clock a)
                      then CLOCK_RETRY_INTERVAL_KNOWN else CLOCK_RETRY_INTERVAL), a)
      end in
    (mk utc_now instant next, Agent.set_schedule_changed true a)
  else (l, a).

Inductive wake : Type :=
| SleepUntil        (* [next_sync] was reached *)
| Resync            (* [clock_resync] was notified *)
| WatchTick.        (* the watch interval ticked *)

(** The [select!]. *)
Definition woken (w : wake) (utc_now : DateTime) (instant : Instant) (l : t) (a : Agent.t)
  : t * Agent.t :=
  match w with
  | SleepUntil => (l, a)
  | Resync => (mk (last_system l) (last_tick l) instant, Agent.set_resync false a)
  | WatchTick =>
      let drift := (utc_now - last_system l) - (instant - last_tick l) in
      let next := if CLOCK_JUMP_THRESHOLD <? Z.abs drift then instant else next_sync l in
      (mk utc_now instant next, a)
  end.

(** A run of watch ticks (system time, monotonic time), none of which was
    seen as a jump. *)
Fixpoint quiet_ticks (l : t) (a : Agent.t) (ticks : list (DateTime * Instant)) : Prop :=
  match ticks with
  | [] => True
  | (utc, instant) :: ticks' =>
      next_sync (woken WatchTick utc instant l a).1 = next_sync l /\
      instant < next_sync l /\ last_tick l + CLOCK_WATCH_INTERVAL <= instant /\
      quiet_ticks (woken WatchTick utc instant l a).1 a ticks'
  end.
End ClockSync.

Section ClockSyncProperties.
Import ClockSync.

Lemma quiet_ticks_drift l a ticks : quiet_ticks l a ticks ->
  let '(utc, instant) := default (last_system l, last_tick l) (last ticks) in
  Z.abs ((utc - last_system l) - (instant - last_tick l)) <=
    Z.of_nat (length ticks) * CLOCK_JUMP_THRESHOLD /\
  Z.of_nat (length ticks) * CLOCK_WATCH_INTERVAL <= instant - last_tick l /\
  (ticks <> [] -> instant < next_sync l).
Proof.
  revert l. induction ticks as [|[u i] ticks IH]; intros l H.
  { simpl. split; [|split; [lia|done]].
    replace (last_system l - last_system l - (last_tick l - last_tick l)) with 0 by lia. simpl. lia. }
  destruct H as (Hn & Hi & Hw & Hq). specialize (IH _ Hq). simpl in Hn, IH |- *.
  rewrite last_cons.
  assert (Hd : Z.abs ((u - last_system l) - (i - last_tick l)) <= CLOCK_JUMP_THRESHOLD).
  { destruct (Z.ltb_spec CLOCK_JUMP_THRESHOLD (Z.abs (u - last_system l - (i - last_tick l)))); lia. }
  assert (Hlen : forall x, Z.of_nat (S x) = Z.of_nat x + 1) by lia.
  destruct (last ticks) as [[u' i']|] eqn:Eo; simpl in IH |- *; destruct IH as (H1 & H2 & H3);
    rewrite Hlen, !Z.mul_add_distr_r.
  - rewrite Hn in H3. split; [lia|]. split; [lia|]. intros _. apply H3.
    intros ->. discriminate Eo.
  - split; [lia|]. split; [lia|]. done.
Qed.


(** A jump beyond the threshold is measured at the next turn. *)
Lemma jump_remeasured offset utc instant utc' instant' l a :
  CLOCK_JUMP_THRESHOLD < Z.abs ((utc - last_system l) - (instant - last_tick l)) ->
  instant <= instant' ->
  let '(l', a') := woken WatchTick utc instant l a in
  Agent.clock (sync (Some offset) utc' instant' l' a').2 =
    TrustedClock.set_offset_ms (Agent.clock a) offset.
Proof.
  simpl. intros H Hi. rewrite (proj2 (Z.ltb_lt _ _) H). unfold sync. simpl.
  by rewrite (proj2 (Z.leb_le _ _) Hi).
Qed.
End ClockSyncProperties.

(** ** The machine's description *)
Inductive IpAddr : Type :=
| IpV4 (octets : list byte)
| IpV6 (segments : list Z).

Definition os_info (windows : bool) (consts_os : string) : string * string :=
  if windows then ("Windows"%string, EmptyString) else (consts_os, EmptyString).

Definition is_link_local (ip : IpAddr) : bool :=
  match ip with
  | IpV4 o => (nth_byte o 0 =? 169) && (nth_byte o 1 =? 254)
  | IpV6 s => Z.land (nth_byte s 0) 0xffc0 =? 0xfe80
  end.

(** [ip.to_string()] and [ip.is_loopback()] belong to [std::net]; here the
    text comes with the address. *)
Definition local_ip_addresses (interfaces : option (list (string * IpAddr * bool * string)))
  : list string :=
  match interfaces with
  | Some l =>
      map (fun '(name, _, _, text) => name +:+ ": " +:+ text)
        (List.filter (fun '(_, ip, loopback, _) => negb loopback && negb (is_link_local ip)) l)
  | None => []
  end.

Definition network_interfaces (show : option (list (string * option string * list string)))
  : list NetworkInterfaceInfo :=
  match show with
  | Some l =>
      map (fun '(name, mac, addrs) => mk_interface name mac addrs)
        (isort (fun a b => String.leb a.1.1 b.1.1) l)
  | None => []
  end.
