(* ===== verification/Delivery.v ===== *)
(** * Event delivery ([deliver_due_batch] of [agent/src/agent.rs])

    The batch is taken under the queue's lock, submitted without it, and
    settled under it again, so the function is cut in two: [take_batch] and
    [settle_batch].  Errors of the queue are logged and ignored.  Each
    [Utc::now()] passed to [mark_failed] is a value of [clock_at]. *)
From S2P Require Import Prelude Codec Fs Schedule Messages Clock Protocol Db Queue Store Events.
From S2P Require Import Recorder Config Client Discovery Agent.
#[local] Open Scope Z_scope.

Section Delivery.
Import Agent.
Context {TT : TimeText} {UT : UuidText} {SJ : Serde (gmap string json)} {SQ : SqlEngine}.

(** An error: the queue could not be read, and the turn is over.  [QPanic] is
    not an error of the code but an unwinding ([Network.dl_panic]). *)
Definition take_batch (utc_now : DateTime) (a : Agent.t)
  : result QueueError (list PendingDelivery) * Agent.t :=
  let '(r, q) := EventQueue.due_batch utc_now EVENT_BATCH_SIZE (queue a) in
  (r, set_queue q a).

Definition submission_request (pending : list PendingDelivery) : EventSubmissionRequest :=
  mk_submission (map (fun p => to_event_item (pd_event p)) pending).

(** What one result does to the queue. *)
Definition settle_op (clock_at : PendingDelivery -> DateTime) (d : PendingDelivery)
    (status : EventResultStatus.t) : qop :=
  match status with
  | EventResultStatus.Accepted | EventResultStatus.Duplicate => OpMarkDelivered (row_id d)
  | EventResultStatus.Rejected => OpMarkFailed (row_id d) (pd_attempt_count d) (clock_at d)
  end.

(** The change of connection an answer shows. *)
Definition note_result (s : stamp) (base_url : string)
    (submit_result : result ClientError EventSubmissionResponse) (a : Agent.t) : Agent.t :=
  match submit_result with
  | Ok _ => note_connected base_url s a
  | Err e => note_disconnected (client_error_to_string e) s a
  end.

(** The operations an answer causes. *)
Definition settle_ops (clock_at : PendingDelivery -> DateTime) (pending : list PendingDelivery)
    (submit_result : result ClientError EventSubmissionResponse) : list qop :=
  match submit_result with
  | Ok response =>
      map (fun dr => settle_op clock_at dr.1 (er_status dr.2)) (zip pending (sr_results response))
  | Err _ =>
      map (fun delivery => OpMarkFailed (row_id delivery) (pd_attempt_count delivery)
                             (clock_at delivery)) pending
  end.

(** Under the queue's lock again; [exec_all] runs queue operations and drops
    their results, since the errors are only logged. *)
Definition settle_batch (s : stamp) (base_url : string)
    (clock_at : PendingDelivery -> DateTime) (pending : list PendingDelivery)
    (submit_result : result ClientError EventSubmissionResponse) (a : Agent.t) : Agent.t :=
  let a := note_result s base_url submit_result a in
  set_queue (exec_all (settle_ops clock_at pending submit_result) (queue a)) a.

(** The whole function, when nothing else happens in between; [submit] is
    the controller. *)
Definition deliver_due_batch (utc_now : DateTime) (s : stamp) (base_url : string)
    (clock_at : PendingDelivery -> DateTime)
    (submit : EventSubmissionRequest -> result ClientError EventSubmissionResponse)
    (a : Agent.t) : Agent.t :=
  match take_batch utc_now a with
  | (Err _, a) => a
  | (Ok [], a) => a
  | (Ok pending, a) =>
      settle_batch s base_url clock_at pending (submit (submission_request pending)) a
  end.

(** Noting a change of connection loses nothing unless the table is full. *)
Lemma enqueue_keeps event s a r :
  present r (queue a).1 -> Z.of_nat (length (EventQueue.rows (queue a).1)) < MAX_QUEUE_SIZE ->
  present r (queue (enqueue event s a)).1.
Proof.
  intros (r1 & Hin & Hs) Hlen. destruct (enqueue_present (event (st_id s) (st_built s)) (st_now s)
    (queue a) r1 Hin Hlen) as (r2 & Hin2 & Hs2).
  exists r2. split; [done|]. by eapply same_event_trans.
Qed.

Lemma note_connected_keeps url s a r :
  present r (queue a).1 -> Z.of_nat (length (EventQueue.rows (queue a).1)) < MAX_QUEUE_SIZE ->
  present r (queue (note_connected url s a)).1.
Proof. intros Hp Hl. unfold note_connected. destruct (connected a); [done|]. by apply enqueue_keeps. Qed.

Lemma note_disconnected_keeps reason s a r :
  present r (queue a).1 -> Z.of_nat (length (EventQueue.rows (queue a).1)) < MAX_QUEUE_SIZE ->
  present r (queue (note_disconnected reason s a)).1.
Proof. intros Hp Hl. unfold note_disconnected. destruct (connected a); [|done]. by apply enqueue_keeps. Qed.

Lemma note_result_keeps s url r (res : result ClientError EventSubmissionResponse) a :
  present r (queue a).1 -> Z.of_nat (length (EventQueue.rows (queue a).1)) < MAX_QUEUE_SIZE ->
  present r (queue (note_result s url res a)).1.
Proof. destruct res; [apply note_connected_keeps|apply note_disconnected_keeps]. Qed.

(** What may explain a loss among the operations of an answer. *)
Lemma settle_ops_explain clock_at pending res (o : qop) q (r : EventQueue.row) :
  o ∈ settle_ops clock_at pending res -> explains q o r ->
  (exists response d x, res = Ok response /\
     (d, x) ∈ zip pending (sr_results response) /\ row_id d = EventQueue.id r /\
     (er_status x = EventResultStatus.Accepted \/ er_status x = EventResultStatus.Duplicate)) \/
  (exists d, d ∈ pending /\ row_id d = EventQueue.id r /\
     MAX_ATTEMPTS <= wrap_u32 (pd_attempt_count d + 1)).
Proof.
  intros Ho He. destruct res as [response|e]; simpl in Ho.
  - apply list_elem_of_fmap in Ho as ([d x] & -> & Hin).
    unfold settle_op in He. simpl in He. destruct (er_status x) eqn:Est; simpl in He;
      [left; exists response, d, x; auto 6..|right].
    exists d. split; [|by destruct He].
    apply list_elem_of_In, (in_combine_l _ _ _ _ (proj1 (list_elem_of_In _ _) Hin)).
  - apply list_elem_of_fmap in Ho as (d & -> & Hin). right. exists d. split; [done|].
    by destruct He.
Qed.

(** An event leaves the queue only when the controller has taken it, or
    after its last attempt.  Settling a submitted batch, whatever statements
    fail, keeps every event of a queue that is not full, except one whose
    place in the answer says ACCEPTED or DUPLICATE, or one of the batch that
    was refused or could not be sent for the 48th time. *)
Lemma settled_only_if_acknowledged (s : stamp) (base_url : string)
    (clock_at : PendingDelivery -> DateTime) (pending : list PendingDelivery)
    (submit_result : result ClientError EventSubmissionResponse) (a : Agent.t)
    (r : EventQueue.row) :
  present r (queue a).1 -> Z.of_nat (length (EventQueue.rows (queue a).1)) < MAX_QUEUE_SIZE ->
  present r (queue (settle_batch s base_url clock_at pending submit_result a)).1 \/
  (exists response d res, submit_result = Ok response /\
     (d, res) ∈ zip pending (sr_results response) /\ row_id d = EventQueue.id r /\
     (er_status res = EventResultStatus.Accepted \/ er_status res = EventResultStatus.Duplicate)) \/
  (exists d, d ∈ pending /\ row_id d = EventQueue.id r /\
     MAX_ATTEMPTS <= wrap_u32 (pd_attempt_count d + 1)).
Proof.
  intros Hp Hl.
  destruct (exec_all_keeps (settle_ops clock_at pending submit_result)
    (queue (note_result s base_url submit_result a)) r
    (note_result_keeps s base_url r submit_result a Hp Hl)) as [H|(o & q' & Ho & He)]; [by left|].
  right. by apply (settle_ops_explain clock_at pending submit_result o q').
Qed.
End Delivery.

(** ** A turn whose batch is taken empties the due part of the queue *)
Section Progress.
Import Agent.
Context {TT : TimeText} {UT : UuidText} {SJ : Serde (gmap string json)} {SQ : SqlEngine}.
Context {TL : TimeTextLaws} {UL : UuidTextLaws} {SL : SerdeLaws (gmap string json)}
  {QL : SqlEngineLaws}.

Definition acknowledged (res : EventResult) : Prop :=
  er_status res = EventResultStatus.Accepted \/ er_status res = EventResultStatus.Duplicate.

Definition is_sent (sent : list entry) (en : entry) : bool :=
  existsb (fun s => en_id en =? en_id s) sent.

Lemma exec_mark_delivered q es rid faults : queue_repr q es -> quiet faults ->
  exists q', exec (OpMarkDelivered rid) (q, faults) = (q', tail faults) /\
    queue_repr q' (List.filter (fun en => negb (en_id en =? rid)) es).
Proof.
  intros Hq Hf. destruct (mark_delivered_correct q es rid faults Hq Hf) as (q' & Hm & Hr).
  exists q'. split; [|done]. cbn [exec]. by rewrite Hm.
Qed.

Lemma settle_acknowledged clock_at (sent : list entry) : forall results q es faults,
  queue_repr q es -> quiet faults ->
  length results = length sent -> Forall acknowledged results ->
  exists q' faults',
    exec_all (map (fun dr => settle_op clock_at dr.1 (er_status dr.2))
      (zip (map pending_of sent) results)) (q, faults) = (q', faults') /\ quiet faults' /\
    queue_repr q' (List.filter (fun en => negb (is_sent sent en)) es).
Proof.
  induction sent as [|s sent IH]; intros results q es faults Hq Hf Hlen Hack.
  { exists q, faults. split; [done|]. split; [done|]. simpl. by rewrite bfilter_all. }
  destruct results as [|res results]; [done|]. apply Forall_cons in Hack as [Ha Hack].
  simpl in Hlen. injection Hlen as Hlen. unfold exec_all. cbn [map zip zip_with fold_left].
  replace (settle_op clock_at (pending_of s, res).1 (er_status (pending_of s, res).2))
    with (OpMarkDelivered (en_id s)) by (unfold settle_op; simpl; by destruct Ha as [-> | ->]).
  destruct (exec_mark_delivered q es (en_id s) faults Hq Hf) as (q1 & He & Hq1). rewrite He.
  destruct (IH results q1 _ (tail faults) Hq1 (quiet_tail _ Hf) Hlen Hack)
    as (q2 & f2 & Hfold & Hf2 & Hq2).
  exists q2, f2. split; [done|]. split; [done|]. rewrite bfilter_bfilter in Hq2.
  erewrite List.filter_ext; [exact Hq2|]. intros en. simpl. by rewrite negb_orb.
Qed.

(** A controller that acknowledges everything it is sent. *)
Definition acknowledges
    (submit : EventSubmissionRequest -> result ClientError EventSubmissionResponse) : Prop :=
  forall req, exists response, submit req = Ok response /\
    length (sr_results response) = length (es_events req) /\
    Forall acknowledged (sr_results response).

(** An agent online over a database that works. *)
Definition working (a : Agent.t) (es : list entry) : Prop :=
  queue_repr (queue a).1 es /\ quiet (queue a).2 /\ connected a = true.

(** One turn with a working database and controller. *)
Lemma deliver_turn utc_now s base_url clock_at submit a es :
  working a es -> representable utc_now -> acknowledges submit ->
  exists oldest, oldest ≡ₚ List.filter (due utc_now) es /\ StronglySorted by_age oldest /\
    let sent := take EVENT_BATCH_SIZE oldest in
    (exists a0 : Agent.t, take_batch utc_now a = (Ok (map pending_of sent), a0)) /\
    working (deliver_due_batch utc_now s base_url clock_at submit a)
      (List.filter (fun en => negb (is_sent sent en)) es).
Proof.
  intros (Hq & Hf & Hc) Hnow Hsub.
  destruct a as [cf tp [q faults] cn sn sh fl sc scp scc ms mp ss ck cr dk].
  simpl in Hq, Hf, Hc. subst cn.
  destruct (due_batch_correct q es utc_now EVENT_BATCH_SIZE faults Hq Hnow Hf)
    as (oldest & Hp & Hs & Hdue).
  exists oldest. split; [done|]. split; [done|].
  set (sent := take EVENT_BATCH_SIZE oldest) in *.
  unfold deliver_due_batch, take_batch. cbn [Agent.queue]. rewrite Hdue.
  split; [by eexists|].
  destruct sent as [|en sent'] eqn:Esent.
  { rewrite bfilter_all by done. split; [done|]. by split; [apply quiet_tail|]. }
  destruct (Hsub (submission_request (map pending_of (en :: sent'))))
    as (response & Hresp & Hlen & Hack).
  assert (Hlen' : length (sr_results response) = length (en :: sent')).
  { rewrite Hlen. simpl. by rewrite !length_map. }
  destruct (settle_acknowledged clock_at (en :: sent') (sr_results response) q es (tail faults)
              Hq (quiet_tail _ Hf) Hlen' Hack) as (q' & f' & Hfold & Hf' & Hq').
  cbn [map]. change (pending_of en :: map pending_of sent') with (map pending_of (en :: sent')).
  rewrite Hresp. unfold settle_batch, note_result, note_connected, settle_ops, working,
    set_connected, set_queue. cbn [Agent.queue Agent.connected].
  by rewrite Hfold.
Qed.

(** Delivery makes progress.  On a queue that holds [es], when nothing
    fails and the controller acknowledges what it is sent, one turn submits
    the first hundred due events, oldest first and as they were enqueued,
    and removes exactly those from the queue. *)
Lemma delivery_drains_due (utc_now : DateTime) (s : stamp) (base_url : string)
    (clock_at : PendingDelivery -> DateTime)
    (submit : EventSubmissionRequest -> result ClientError EventSubmissionResponse)
    (a : Agent.t) (es : list entry) :
  working a es -> representable utc_now -> acknowledges submit ->
  exists oldest, oldest ≡ₚ List.filter (due utc_now) es /\ StronglySorted by_age oldest /\
    let sent := take 100 oldest in
    let a' := deliver_due_batch utc_now s base_url clock_at submit a in
    (exists a0 : Agent.t, take_batch utc_now a = (Ok (map pending_of sent), a0)) /\
    es_events (submission_request (map pending_of sent)) =
      map (fun en => to_event_item (en_event en)) sent /\
    queue_repr (queue a').1 (List.filter (fun en => negb (is_sent sent en)) es).
Proof.
  intros Hw Hnow Hsub.
  destruct (deliver_turn utc_now s base_url clock_at submit a es Hw Hnow Hsub)
    as (oldest & Hp & Hs & Ht & Hw' & _).
  exists oldest. split; [done|]. split; [done|]. change 100%nat with EVENT_BATCH_SIZE.
  split; [done|]. split; [|done]. unfold submission_request. simpl. by rewrite map_map.
Qed.

(** The entries sent are those of the table with their row ids. *)
Lemma sent_entries (es sent : list entry) :
  NoDup (map en_id es) -> NoDup sent -> (forall en, en ∈ sent -> en ∈ es) ->
  List.filter (is_sent sent) es ≡ₚ sent.
Proof.
  intros Hi Hn Hsub. apply NoDup_Permutation; [|done|].
  - apply (NoDup_fmap_1 en_id). by apply NoDup_map_bfilter.
  - intros en. rewrite elem_of_bfilter. unfold is_sent. rewrite existsb_exists. split.
    + intros [Hen (s & Hs & Heq%Z.eqb_eq)]. apply list_elem_of_In in Hs.
      by rewrite (NoDup_map_inj en_id es en s Hi Hen (Hsub s Hs) Heq).
    + intros Hen. split; [auto|]. exists en. rewrite <- list_elem_of_In. split; [done|].
      apply Z.eqb_refl.
Qed.

Lemma length_unsent es sent :
  NoDup (map en_id es) -> NoDup sent -> (forall en, en ∈ sent -> en ∈ es) ->
  (length (List.filter (fun en => negb (is_sent sent en)) es) + length sent = length es)%nat.
Proof.
  intros Hi Hn Hsub. pose proof (Permutation_length (sent_entries es sent Hi Hn Hsub)) as Hl.
  pose proof (filter_length (is_sent sent) es) as Hf. lia.
Qed.

(** Turns at the given clock readings. *)
Definition drain (s : stamp) (base_url : string) (clock_at : PendingDelivery -> DateTime)
    (submit : EventSubmissionRequest -> result ClientError EventSubmissionResponse)
    (readings : list DateTime) (a : Agent.t) : Agent.t :=
  fold_left (fun a u => deliver_due_batch u s base_url clock_at submit a) readings a.

Lemma drain_sublist s url ck submit readings : forall a es,
  working a es -> Forall representable readings -> acknowledges submit ->
  exists left, working (drain s url ck submit readings a) left /\ left `sublist_of` es.
Proof.
  induction readings as [|u rest IH]; intros a es Hw Hr Hs; [by exists es|].
  apply Forall_cons in Hr as [Hu Hr].
  destruct (deliver_turn u s url ck submit a es Hw Hu Hs) as (old & _ & _ & _ & Hw').
  destruct (IH _ _ Hw' Hr Hs) as (left & Hl & Hsub). exists left. split; [done|].
  etrans; [exact Hsub|]. apply bfilter_sublist.
Qed.

End Progress.

(** ** A concrete queue, delivered and not delivered *)
Section DeliverySample.
#[local] Existing Instances Bits.time_text Bits.uuid_text payload_serde stable_engine.
#[local] Existing Instances Bits.time_text_laws Bits.uuid_text_laws payload_serde_laws
  stable_engine_laws.

Definition sample_config : AgentConfig :=
  mk_config 1%N false "pc" (secs 30) (secs 10) None true 45821 (secs 5) true DEFAULT_NTP_SERVERS.
Definition sample_agent (online : bool) : Agent.t :=
  Agent.mk sample_config ("d", "agent", "toml")%string (sample_queue, []) online
    default_snapshot false false None ("d", "schedule", "json")%string false
    MessageStore.default ("d", "messages", "json")%string (mk_sync false 0)
    (TrustedClock.new true) false ∅.
Definition sample_stamp : stamp := mk_stamp 50%N (secs 100) (secs 100).

Definition accept_all (req : EventSubmissionRequest) : result ClientError EventSubmissionResponse :=
  Ok (mk_submission_response 0 0 0
        (map (fun e => mk_event_result (ei_event_id e) EventResultStatus.Accepted None)
           (es_events req))).

Lemma accept_all_acknowledges : acknowledges accept_all.
Proof.
  intros req. eexists. split; [reflexivity|]. simpl. split; [apply length_map|].
  apply Forall_forall. intros x (e & -> & _)%list_elem_of_fmap. by left.
Qed.

Lemma settled_only_if_acknowledged_witness :
  let a := sample_agent true in
  let answer := Err (Request "timeout"%string) in
  let d := pending_of sample_entry in
  present (sample_row 1) (Agent.queue a).1 /\
  (present (sample_row 1)
     (Agent.queue (settle_batch sample_stamp "http://c" (fun _ => secs 100) [d] answer a)).1 \/
   (exists response d' res, answer = Ok response /\
      (d', res) ∈ zip [d] (sr_results response) /\ row_id d' = 1 /\
      (er_status res = EventResultStatus.Accepted \/ er_status res = EventResultStatus.Duplicate)) \/
   (exists d', d' ∈ [d] /\ row_id d' = 1 /\ MAX_ATTEMPTS <= wrap_u32 (pd_attempt_count d' + 1))).
Proof.
  intros a answer d. assert (Hp : present (sample_row 1) (Agent.queue a).1).
  { exists (sample_row 1). split; [by constructor|by repeat split]. }
  split; [exact Hp|].
  exact (settled_only_if_acknowledged sample_stamp "http://c" (fun _ => secs 100) [d] answer a
           (sample_row 1) Hp eq_refl).
Defined.

Lemma delivery_drains_due_witness :
  let a := sample_agent true in
  exists oldest, oldest ≡ₚ [sample_entry] /\ StronglySorted by_age oldest /\
    let sent := take 100 oldest in
    let a' := deliver_due_batch (secs 100) sample_stamp "http://c" (fun _ => secs 100) accept_all a in
    (exists a0 : Agent.t, take_batch (secs 100) a = (Ok (map pending_of sent), a0)) /\
    es_events (submission_request (map pending_of sent)) =
      map (fun en => to_event_item (en_event en)) sent /\
    queue_repr (Agent.queue a').1 (List.filter (fun en => negb (is_sent sent en)) [sample_entry]).
Proof.
  intros a.
  apply (delivery_drains_due (secs 100) sample_stamp "http://c" (fun _ => secs 100) accept_all a
           [sample_entry]); [by split; [apply sample_repr|split; [constructor|]]|by vm_compute|].
  intros req. apply (accept_all_acknowledges req).
Defined.


(** [n] turns, half an hour apart, while the controller cannot be reached. *)
Fixpoint outage (n : nat) (a : Agent.t) : Agent.t :=
  match n with
  | O => a
  | S n' =>
      let t := secs (100 + 1800 * Z.of_nat n') in
      deliver_due_batch t sample_stamp "http://c" (fun _ => t)
        (fun _ => Err (Request "connection refused"%string)) (outage n' a)
  end.

(** An event is not kept until the controller is reachable again.  A
    failed connection counts as an attempt like a refusal does: after 47
    turns without a connection the event is still in the queue, and the 48th
    discards it although the controller never saw it. *)
Lemma outage_discards_event :
  map EventQueue.id (EventQueue.rows (Agent.queue (outage 47 (sample_agent false))).1) = [1] /\
  EventQueue.rows (Agent.queue (outage 48 (sample_agent false))).1 = [].
Proof. split; vm_compute; reflexivity. Qed.
End DeliverySample.
