(* ===== verification/Enforcement.v ===== *)
(** * Schedule enforcement ([enforcement_loop] and [enforce] of
    [agent/src/agent.rs])

    One turn of the loop is [decide] (from the top to the power request, or to
    the [select!]), [finish] (what follows the blocking power action) and
    [wake] (after the [select!]).  [step] interleaves them with everything the
    other loops do to the shared state ([aop]), with time passing and with any
    change of the system clock. *)
From S2P Require Import Prelude Codec Fs Schedule Messages Clock Protocol Db Queue Store Events.
From S2P Require Import Recorder Config Client Discovery Agent Loops.
#[local] Open Scope Z_scope.

(** What [platform::suspend] or [platform::shutdown] did, run as a blocking task. *)
Inductive act_result : Type :=
| ActOk
| ActErr (text : string)
| ActPanic.

Inductive phase : Type :=
| Top
| Acting (schedule : Schedule.t) (wait : Duration)
| Waiting (planned_wake : DateTime) (until : Instant)
| Stopped.

Record loop : Type := mk_loop {
  at_phase : phase;
  last_shutdown_request : option Instant;
}.

Section Enforcement.
Import Agent.
Context {TT : TimeText} {UT : UuidText} {SJ : Serde (gmap string json)} {SQ : SqlEngine}
  {SS : Serde Schedule.t} {SM : Serde MessageStore.t} {SF : Serde AgentFileConfig}.

(** [enforce] up to the power action; [None] when a shutdown was asked for
    less than [SHUTDOWN_COOLDOWN] ago. *)
Definition enforce_request (s : stamp) (schedule : Schedule.t) (instant : Instant)
    (last_shutdown_request : option Instant) (a : Agent.t)
  : option (option Instant * Agent.t) :=
  let action := event_name (Schedule.action schedule) in
  let requested :=
    enqueue (fun i c => power_action_requested i c action "schedule off window") s a in
  match Schedule.action schedule with
  | Sleep => Some (last_shutdown_request, requested)
  | Shutdown =>
      if match last_shutdown_request with
         | Some t => instant - t <? SHUTDOWN_COOLDOWN
         | None => false
         end
      then None
      else Some (Some instant, requested)
  end.

(** [enforce] after it. *)
Definition enforce_result (s : stamp) (schedule : Schedule.t) (r : act_result) (a : Agent.t)
  : Agent.t :=
  let action := event_name (Schedule.action schedule) in
  let a := match r with
           | ActOk => enqueue (fun i c => power_action_completed i c action) s a
           | ActErr text => enqueue (fun i c => power_action_failed i c action text) s a
           | ActPanic => a
           end in
  match Schedule.action schedule with Sleep => a | Shutdown => request_flush a end.

(** The start of the [select!]. *)
Definition park (wait : Duration) (utc_now : DateTime) (instant : Instant) (l : loop) : loop :=
  mk_loop (Waiting (utc_now + wait) (instant + wait)) (last_shutdown_request l).

(** The turn from its top, and the power action it requests. *)
Definition decide (s : stamp) (utc_now : DateTime) (instant : Instant) (l : loop) (a : Agent.t)
  : loop * Agent.t * option (PowerAction * Schedule.t) :=
  let now := Agent.now a utc_now in
  let '(schedule, held_for) := enforcement_view a SCHEDULE_SYNC_GRACE instant in
  let wait := match held_for with
              | Some hold => Z.min ENFORCEMENT_MAX_WAIT hold
              | None => ENFORCEMENT_MAX_WAIT
              end in
  match schedule with
  | None => (park wait utc_now instant l, a, None)
  | Some schedule =>
      match Schedule.active_window schedule now with
      | Some _ =>
          match enforce_request s schedule instant (last_shutdown_request l) a with
          | Some (last, a) =>
              (mk_loop (Acting schedule wait) last, a, Some (Schedule.action schedule, schedule))
          | None => (park wait utc_now instant l, a, None)
          end
      | None =>
          let wait := match Schedule.next_off_at schedule now with
                      | Some next => Z.min wait (Z.max 0 (next - now))
                      | None => wait
                      end in
          (park wait utc_now instant l, a, None)
      end
  end.

(** After the power action returned (after the resume, if it suspended). *)
Definition finish (s : stamp) (r : act_result) (utc_now : DateTime) (instant : Instant)
    (schedule : Schedule.t) (wait : Duration) (l : loop) (a : Agent.t)
  : loop * Agent.t * option Instant :=
  let a := enforce_result s schedule r a in
  match Schedule.action schedule with
  | Sleep => (park wait utc_now instant l, invalidate_schedule_sync instant a, Some instant)
  | Shutdown => (park wait utc_now instant l, a, None)
  end.

(** After the [select!]: woken too late means the machine slept. *)
Definition wake (planned_wake : DateTime) (utc_now : DateTime) (instant : Instant) (l : loop)
    (a : Agent.t) : loop * Agent.t * option Instant :=
  let l := mk_loop Top (last_shutdown_request l) in
  if SLEEP_DETECT_SLACK <? utc_now - planned_wake
  then (l, invalidate_schedule_sync instant a, Some instant)
  else (l, a, None).

(** ** What the rest of the agent does to the shared state *)
Inductive aop : Type :=
| OApplySchedule (f : Fs.fault) (incoming : option Schedule.t)
| OMarkSynced
| OApplyMessages (f : Fs.fault) (incoming : list AgentMessage.t) (utc_now : DateTime)
| OEnqueue (event : Uuid -> DateTime -> QueuedEvent) (s : stamp)
| OSetQueue (q : EventQueue.t * list bool)
| OSetConnected (b : bool)
| OFlush (b : bool)
| OBeginShutdown
| OSetClock (offset_ms : Z)
| OScheduleChanged
| OResyncTaken
| OSetDisk (fs : Fs.t)
| OSetSnapshot (s : SessionSnapshot).

Definition run_op (o : aop) (a : Agent.t) : Agent.t :=
  match o with
  | OApplySchedule f incoming => apply_schedule f incoming a
  | OMarkSynced => mark_schedule_synced a
  | OApplyMessages f incoming utc_now => apply_messages f incoming utc_now a
  | OEnqueue event s => enqueue event s a
  | OSetQueue q => set_queue q a
  | OSetConnected b => set_connected b a
  | OFlush b => set_flush b a
  | OBeginShutdown => begin_shutdown a
  | OSetClock o => set_clock (TrustedClock.set_offset_ms (clock a) o) a
  | OScheduleChanged => set_schedule_changed true a
  | OResyncTaken => set_resync false a
  | OSetDisk fs => set_disk fs a
  | OSetSnapshot s => set_snapshot s a
  end.
Definition run_ops (os : list aop) (a : Agent.t) : Agent.t := fold_left (fun a o => run_op o a) os a.

(** ** Executions *)
Record world : Type := mk_world {
  w_agent : Agent.t;
  w_loop : loop;
  w_instant : Instant;
  w_utc : DateTime;
}.

Inductive label : Type :=
| LTime
| LOp (o : aop)
| LAct (action : PowerAction) (schedule : Schedule.t) (instant : Instant) (now : DateTime)
| LPark
| LReset (instant : Instant)   (* the sync was invalidated *)
| LGo.

Definition reset_label (o : option Instant) : label :=
  match o with Some i => LReset i | None => LGo end.

Inductive step : world -> label -> world -> Prop :=
| step_time a l i u d u' :
    0 <= d -> step (mk_world a l i u) LTime (mk_world a l (i + d) u')
| step_op a l i u o :
    step (mk_world a l i u) (LOp o) (mk_world (run_op o a) l i u)
| step_act a l i u s l' a' act sch :
    at_phase l = Top -> decide s u i l a = (l', a', Some (act, sch)) ->
    step (mk_world a l i u) (LAct act sch i (Agent.now a u)) (mk_world a' l' i u)
| step_park a l i u s l' a' :
    at_phase l = Top -> decide s u i l a = (l', a', None) ->
    step (mk_world a l i u) LPark (mk_world a' l' i u)
| step_finish a l i u s r sch wait l' a' o :
    at_phase l = Acting sch wait -> finish s r u i sch wait l a = (l', a', o) ->
    step (mk_world a l i u) (reset_label o) (mk_world a' l' i u)
| step_timer a l i u planned until l' a' o :
    at_phase l = Waiting planned until -> until <= i -> wake planned u i l a = (l', a', o) ->
    step (mk_world a l i u) (reset_label o) (mk_world a' l' i u)
| step_notified a l i u planned until l' a' o :
    at_phase l = Waiting planned until -> schedule_changed a = true ->
    wake planned u i l (set_schedule_changed false a) = (l', a', o) ->
    step (mk_world a l i u) (reset_label o) (mk_world a' l' i u)
| step_stop a l i u planned until :
    at_phase l = Waiting planned until -> shutdown a = true ->
    step (mk_world a l i u) LGo (mk_world a (mk_loop Stopped (last_shutdown_request l)) i u).

Inductive exec : world -> list label -> world -> Prop :=
| exec_nil w : exec w [] w
| exec_snoc w tr w1 lb w2 : exec w tr w1 -> step w1 lb w2 -> exec w (tr ++ [lb]) w2.

(** The agent as [Agent::new] leaves it, the loop entered at [i]. *)
Definition initial (w : world) : Prop :=
  schedule_sync (w_agent w) = mk_sync false (w_instant w) /\ w_loop w = mk_loop Top None.
End Enforcement.

(** ** What a turn of each loop does is a sequence of these operations *)
Section LoopsAreOps.
Import Agent.
Context {TT : TimeText} {UT : UuidText} {SJ : Serde (gmap string json)} {SQ : SqlEngine}
  {SS : Serde Schedule.t} {SM : Serde MessageStore.t} {SF : Serde AgentFileConfig}.

Definition by_ops (a a' : Agent.t) : Prop := exists os, a' = run_ops os a.

Lemma by_ops_refl a : by_ops a a.
Proof. by exists []. Qed.
Lemma by_ops_trans a b c : by_ops a b -> by_ops b c -> by_ops a c.
Proof.
  intros [os ->] [os' ->]. exists (os ++ os'). unfold run_ops. by rewrite fold_left_app.
Qed.
Lemma by_ops_one o a : by_ops a (run_op o a).
Proof. by exists [o]. Qed.

Lemma enqueue_ops event s a : by_ops a (enqueue event s a).
Proof. apply (by_ops_one (OEnqueue event s)). Qed.
Lemma note_connected_ops url s a : by_ops a (note_connected url s a).
Proof.
  unfold note_connected. destruct (connected a); [apply (by_ops_one (OSetConnected true))|].
  eapply by_ops_trans; [apply (by_ops_one (OSetConnected true))|].
  eapply by_ops_trans; [apply enqueue_ops|]. apply (by_ops_one (OFlush true)).
Qed.
Lemma note_disconnected_ops reason s a : by_ops a (note_disconnected reason s a).
Proof.
  unfold note_disconnected. destruct (connected a); [|apply (by_ops_one (OSetConnected false))].
  eapply by_ops_trans; [apply (by_ops_one (OSetConnected false))|]. apply enqueue_ops.
Qed.
Lemma adopt_ops f s a : by_ops a (mark_schedule_synced (apply_schedule f s a)).
Proof.
  eapply by_ops_trans; [apply (by_ops_one (OApplySchedule f s))|apply (by_ops_one OMarkSynced)].
Qed.

Lemma register_ops attempts a : by_ops a (register attempts a).2.
Proof.
  revert a. induction attempts as [|[[f s] r] rest IH]; intros a; [apply by_ops_refl|]. simpl.
  destruct r as [r|e]; simpl.
  - eapply by_ops_trans; [apply enqueue_ops|].
    eapply by_ops_trans; [apply (by_ops_one (OSetConnected true))|].
    eapply by_ops_trans; [apply adopt_ops|]. apply (by_ops_one (OFlush true)).
  - eapply by_ops_trans; [apply enqueue_ops|]. apply IH.
Qed.

(** The networking loops touch the shared state through [aop] only. *)
Lemma loops_are_ops :
  (forall f s1 s2 url r attempts did a,
     by_ops a (heartbeat_turn f s1 s2 url r attempts did a).2) /\
  (forall f r a, by_ops a (schedule_poll_answer f r a).2) /\
  (forall f u r a, by_ops a (message_poll_answer f u r a).2) /\
  (forall m u i l a, by_ops a (ClockSync.sync m u i l a).2) /\
  (forall w u i l a, by_ops a (ClockSync.woken w u i l a).2).
Proof.
  split_and!.
  - intros f s1 s2 url r attempts did a. unfold heartbeat_turn, heartbeat_answer.
    destruct r as [r|e].
    + eapply by_ops_trans; [apply note_connected_ops|].
      eapply by_ops_trans; [apply adopt_ops|]. apply enqueue_ops.
    + destruct (is_device_not_found e); [|apply note_disconnected_ops].
      set (b := note_disconnected "device not found; re-registering" s1 a).
      apply (by_ops_trans a b); [apply note_disconnected_ops|].
      pose proof (register_ops attempts b) as H. by destruct (register attempts b) as [[id|] a'].
  - intros f [s|e] a; [apply adopt_ops|apply by_ops_refl].
  - intros f u [m|e] a; [apply (by_ops_one (OApplyMessages f m u))|apply by_ops_refl].
  - intros m u i l a. unfold ClockSync.sync. destruct (_ <=? _); [|apply by_ops_refl].
    destruct m as [o|]; [|apply (by_ops_one OScheduleChanged)].
    eapply by_ops_trans; [apply (by_ops_one (OSetClock o))|apply (by_ops_one OScheduleChanged)].
  - intros [] u i l a; [apply by_ops_refl|apply (by_ops_one OResyncTaken)|apply by_ops_refl].
Qed.
End LoopsAreOps.

(** ** Safety of power actions *)
Section EnforcementSafety.
Import Agent.
Context {TT : TimeText} {UT : UuidText} {SJ : Serde (gmap string json)} {SQ : SqlEngine}
  {SS : Serde Schedule.t} {SM : Serde MessageStore.t} {SF : Serde AgentFileConfig}.

(** The sync state a label leaves. *)
Definition sync_step (sy : ScheduleSync) (lb : label) : ScheduleSync :=
  match lb with
  | LReset i => mk_sync false i
  | LOp OMarkSynced => mk_sync true (since sy)
  | _ => sy
  end.

Lemma run_op_sync o a :
  schedule_sync (run_op o a) = sync_step (schedule_sync a) (LOp o).
Proof.
  destruct o; simpl; try done.
  - unfold apply_schedule. by destruct (bool_decide _).
  - unfold mark_schedule_synced. destruct (schedule_sync a) as [[] si] eqn:E; simpl; by rewrite ?E.
Qed.

(** All a turn does to the agent before the power action is to report it. *)
Lemma decide_agent s u i l a :
  (decide s u i l a).1.2 = a \/
  exists action, (decide s u i l a).1.2 =
    enqueue (fun i c => power_action_requested i c action "schedule off window") s a.
Proof.
  unfold decide. destruct (enforcement_view a SCHEDULE_SYNC_GRACE i) as [[sch|] h]; [|by left].
  destruct (Schedule.active_window sch _); [|by left].
  unfold enforce_request. destruct (Schedule.action sch); [by right; eexists|].
  destruct (match last_shutdown_request l with Some _ => _ | None => _ end);
    [by left|by right; eexists].
Qed.

Lemma decide_sync s u i l a : schedule_sync (decide s u i l a).1.2 = schedule_sync a.
Proof. by destruct (decide_agent s u i l a) as [-> | (action & ->)]. Qed.

Lemma enforce_result_sync s sch r a : schedule_sync (enforce_result s sch r a) = schedule_sync a.
Proof. unfold enforce_result. by destruct r, (Schedule.action sch). Qed.

Lemma step_sync w lb w' : step w lb w' ->
  schedule_sync (w_agent w') = sync_step (schedule_sync (w_agent w)) lb.
Proof.
  destruct 1 as [|a l i u o|a l i u s l' a' act sch _ H|a l i u s l' a' _ H
    |a l i u s r sch wait l' a' o _ H|a l i u pl un l' a' o _ _ H|a l i u pl un l' a' o _ _ H|]; simpl.
  - done.
  - apply run_op_sync.
  - pose proof (decide_sync s u i l a) as Hd. by rewrite H in Hd.
  - pose proof (decide_sync s u i l a) as Hd. by rewrite H in Hd.
  - unfold finish in H. destruct (Schedule.action sch); injection H as <- <- <-; simpl; [done|].
    apply enforce_result_sync.
  - unfold wake in H. destruct (_ <? _); injection H as <- <- <-; done.
  - unfold wake in H. destruct (_ <? _); injection H as <- <- <-; done.
  - done.
Qed.

Lemma exec_sync w0 tr w : exec w0 tr w ->
  schedule_sync (w_agent w) = fold_left sync_step tr (schedule_sync (w_agent w0)).
Proof.
  induction 1 as [|w tr w1 lb w2 _ IH Hs]; [done|].
  rewrite fold_left_app. simpl. rewrite <- IH. by apply step_sync.
Qed.

(** What an action requires of the agent at that moment. *)
Lemma decide_act s u i l a l' a' act sch :
  decide s u i l a = (l', a', Some (act, sch)) ->
  Agent.schedule a = Some sch /\ act = Schedule.action sch /\
  is_Some (Schedule.active_window sch (Agent.now a u)) /\
  ((confirmed (schedule_sync a) = true /\ TrustedClock.is_ready (clock a) = true) \/
   since (schedule_sync a) + SCHEDULE_SYNC_GRACE <= i) /\
  (act = Shutdown -> (forall t, last_shutdown_request l = Some t -> t + SHUTDOWN_COOLDOWN <= i) /\
                     last_shutdown_request l' = Some i) /\
  (act = Sleep -> last_shutdown_request l' = last_shutdown_request l) /\
  exists wait, at_phase l' = Acting sch wait.
Proof.
  unfold decide, enforcement_view, enforcement_ready.
  destruct (confirmed (schedule_sync a) && TrustedClock.is_ready (clock a) ||
            (SCHEDULE_SYNC_GRACE <=? i - since (schedule_sync a))) eqn:Er; [|done].
  destruct (Agent.schedule a) as [sch0|]; [|done].
  destruct (Schedule.active_window sch0 (Agent.now a u)) as [w|] eqn:Ew; [|done].
  unfold enforce_request. intros H.
  assert (Hready : (confirmed (schedule_sync a) = true /\ TrustedClock.is_ready (clock a) = true) \/
                   since (schedule_sync a) + SCHEDULE_SYNC_GRACE <= i).
  { apply orb_true_iff in Er as [Er|Er]; [left; by apply andb_true_iff in Er|right; lia]. }
  destruct (Schedule.action sch0) eqn:Ea.
  - injection H as <- <- <- <-. rewrite Ew. split_and!; try done. by eexists.
  - destruct (last_shutdown_request l) as [t|] eqn:El.
    + destruct (Z.ltb_spec (i - t) SHUTDOWN_COOLDOWN); [done|]. injection H as <- <- <- <-.
      rewrite Ew. split_and!; try done; [|by eexists].
      intros _. split; [|done]. intros t' [= <-]. lia.
    + injection H as <- <- <- <-. rewrite Ew. split_and!; try done. by eexists.
Qed.

Lemma decide_none s u i l a l' a' :
  decide s u i l a = (l', a', None) ->
  last_shutdown_request l' = last_shutdown_request l /\
  exists p un, at_phase l' = Waiting p un.
Proof.
  unfold decide. destruct (enforcement_view a SCHEDULE_SYNC_GRACE i) as [[sch|] h].
  - destruct (Schedule.active_window sch _).
    + destruct (enforce_request _ _ _ _ _) as [[] |]; [done|]. intros [= <- <-]. simpl; eauto.
    + intros [= <- <-]. simpl; eauto.
  - intros [= <- <-]. simpl; eauto.
Qed.

(** No power action without cause.  In any execution, however the loops
    interleave and whatever the user does to the system clock, a power
    action is requested only when the trusted time is inside an off window
    of the schedule the agent then holds, and is that schedule's action; and
    only after the controller has confirmed the schedule since the last
    reset (startup or resume) and the clock has been checked, or when 90 s
    of monotonic time have passed since that reset. *)
Lemma power_action_justified (w0 w w' : world) (tr : list label) (act : PowerAction)
    (sch : Schedule.t) (i : Instant) (now : DateTime) :
  initial w0 -> exec w0 tr w -> step w (LAct act sch i now) w' ->
  Agent.schedule (w_agent w) = Some sch /\ act = Schedule.action sch /\
  now = w_utc w + millis (TrustedClock.offset_ms (clock (w_agent w))) /\
  (exists win, win ∈ Schedule.windows sch /\ off_at win <= now < on_at win) /\
  let sy := fold_left sync_step tr (mk_sync false (w_instant w0)) in
  (confirmed sy = true /\ TrustedClock.is_ready (clock (w_agent w)) = true) \/
  since sy + secs 90 <= i.
Proof.
  intros [Hinit _] Hex Hst. pose proof (exec_sync _ _ _ Hex) as Hs. rewrite Hinit in Hs.
  remember (LAct act sch i now) as lb eqn:Elb. destruct Hst; try discriminate;
    try (by destruct o).
  injection Elb as -> -> <- <-. apply decide_act in H0 as (H1 & H2 & H3 & H4 & _). simpl in *.
  split; [done|]. split; [done|]. split; [done|]. split.
  - by apply active_window_is_some in H3.
  - by rewrite <- Hs.
Qed.

(** Every shutdown requested so far is remembered. *)
Lemma exec_shutdowns w0 tr w : initial w0 -> exec w0 tr w ->
  (forall sch i now, LAct Shutdown sch i now ∈ tr ->
     exists t, last_shutdown_request (w_loop w) = Some t /\ i <= t).
Proof.
  intros Hinit Hex. induction Hex as [w|w tr w1 lb w2 Hex IH Hst];
    intros sch i now Hin; [by apply not_elem_of_nil in Hin|].
  specialize (IH Hinit). apply elem_of_app in Hin as [Hin|Hin].
  - destruct (IH sch i now Hin) as (t & Ht & Hle).
    destruct Hst as [|a l i0 u o|a l i0 u s l' a' act sch0 _ H|a l i0 u s l' a' _ H
      |a l i0 u s r sch0 wait l' a' o _ H|a l i0 u pl un l' a' o _ _ H|a l i0 u pl un l' a' o _ _ H|];
      simpl in *; try (by exists t).
    + apply decide_act in H as (_ & _ & _ & _ & Hsd & Hsl & _). destruct act.
      * exists t. rewrite Hsl by done. done.
      * destruct (Hsd eq_refl) as [Hc Hl']. exists i0. split; [done|].
        specialize (Hc t Ht). unfold SHUTDOWN_COOLDOWN, secs, ns_per_sec in Hc. lia.
    + apply decide_none in H as [-> _]. by exists t.
    + unfold finish in H. destruct (Schedule.action sch0); injection H as <- <- <-; by exists t.
    + unfold wake in H. destruct (_ <? _); injection H as <- <- <-; by exists t.
    + unfold wake in H. destruct (_ <? _); injection H as <- <- <-; by exists t.
  - apply list_elem_of_singleton in Hin. subst lb. inversion Hst; subst; try (by destruct o); simpl.
    match goal with H : decide _ _ _ _ _ = _ |- _ =>
      apply decide_act in H as (_ & _ & _ & _ & Hsd & _) end.
    destruct (Hsd eq_refl) as [_ Hl']. by exists i.
Qed.

(** Shutdown requests are at least five minutes apart, in any
    execution. *)
Lemma shutdown_requests_spaced (w0 w w' : world) (tr : list label) (sch sch' : Schedule.t)
    (i i' : Instant) (now now' : DateTime) :
  initial w0 -> exec w0 tr w -> LAct Shutdown sch i now ∈ tr ->
  step w (LAct Shutdown sch' i' now') w' -> i + secs 300 <= i'.
Proof.
  intros Hinit Hex Hin Hst. destruct (exec_shutdowns w0 tr w Hinit Hex sch i now Hin) as (t & Ht & Hle).
  inversion Hst; subst; try (by destruct o).
  match goal with H : decide _ _ _ _ _ = _ |- _ =>
    apply decide_act in H as (_ & _ & _ & _ & Hsd & _) end.
  destruct (Hsd eq_refl) as [Hc _]. specialize (Hc t Ht). unfold SHUTDOWN_COOLDOWN in Hc. lia.
Qed.

Lemma exec_app w0 t1 t2 w : exec w0 (t1 ++ t2) w -> exists w1, exec w0 t1 w1 /\ exec w1 t2 w.
Proof.
  revert w. induction t2 as [|lb t2 IH] using rev_ind; intros w H.
  { rewrite app_nil_r in H. exists w. split; [done|constructor]. }
  rewrite app_assoc in H. inversion H as [|w00 tr w1 lb' w2 Hex Hst Heq Htr]; subst.
  { by destruct (t1 ++ t2). }
  apply app_inj_tail in Htr as [-> ->]. destruct (IH w1 Hex) as (wm & H1 & H2).
  exists wm. split; [done|]. by econstructor.
Qed.

Lemma exec_one w lb w' : exec w [lb] w' -> step w lb w'.
Proof.
  intros H. inversion H as [|w0 tr w1 lb' w2 Hex Hst Heq Htr]. subst.
  apply (app_inj_tail tr []) in Htr as [-> ->]. inversion Hex as [|w3 tr w4 lb'' w5 H1 H2 H3 Htr].
  - by subst.
  - by destruct tr.
Qed.

Definition is_confirm (lb : label) : bool :=
  match lb with LOp OMarkSynced => true | _ => false end.

(** From the suspend request on: still suspended, or reset and unconfirmed. *)
Definition after_sleep (m : Instant) (w : world) : Prop :=
  m <= w_instant w /\
  ((exists sch wait, at_phase (w_loop w) = Acting sch wait /\ Schedule.action sch = Sleep) \/
   (confirmed (schedule_sync (w_agent w)) = false /\ m <= since (schedule_sync (w_agent w)))).

Lemma after_sleep_step m w lb w' :
  after_sleep m w -> step w lb w' -> is_confirm lb = false -> after_sleep m w'.
Proof.
  intros [Hm Ha] Hst Hc. pose proof (step_sync _ _ _ Hst) as Hs.
  assert (Hkeep : forall sy, confirmed sy = false /\ m <= since sy ->
                  (forall i, lb = LReset i -> m <= i) ->
                  confirmed (sync_step sy lb) = false /\ m <= since (sync_step sy lb)).
  { intros sy [H1 H2] Hr. destruct lb as [|o| | |i|]; simpl; try done.
    - by destruct o.
    - split; [done|]. by apply Hr. }
  destruct Hst as [a l i u d u' Hd|a l i u o|a l i u s l' a' act sch Ht H|a l i u s l' a' Ht H
    |a l i u s r sch wait l' a' o Hp H|a l i u pl un l' a' o Hp _ H|a l i u pl un l' a' o Hp _ H
    |a l i u pl un Hp _]; simpl in *; (split; [simpl; lia|]).
  - destruct Ha as [Ha|Ha]; [by left|by right].
  - destruct Ha as [Ha|Ha]; [by left|right; simpl]. rewrite run_op_sync. by apply Hkeep.
  - destruct Ha as [(? & ? & Ha & _)|Ha]; [congruence|right; simpl]. by rewrite Hs.
  - destruct Ha as [(? & ? & Ha & _)|Ha]; [congruence|right; simpl]. by rewrite Hs.
  - right. simpl. rewrite Hs. unfold finish in H.
    destruct Ha as [(sch' & wait' & Ha & Hsl)|Ha].
    + rewrite Hp in Ha. injection Ha as -> ->. rewrite Hsl in H. by injection H as <- <- <-.
    + destruct (Schedule.action sch); injection H as <- <- <-; (apply Hkeep; [done|]);
        intros ? [=]; by subst.
  - destruct Ha as [(? & ? & Ha & _)|Ha]; [congruence|right; simpl]. rewrite Hs.
    unfold wake in H. destruct (_ <? _); injection H as <- <- <-; (apply Hkeep; [done|]);
      intros ? [=]; by subst.
  - destruct Ha as [(? & ? & Ha & _)|Ha]; [congruence|right; simpl]. rewrite Hs.
    unfold wake in H. destruct (_ <? _); injection H as <- <- <-; (apply Hkeep; [done|]);
      intros ? [=]; by subst.
  - destruct Ha as [(? & ? & Ha & _)|Ha]; [congruence|by right].
Qed.

Lemma after_sleep_exec m w tr w' :
  exec w tr w' -> after_sleep m w -> existsb is_confirm tr = false -> after_sleep m w'.
Proof.
  induction 1 as [|w tr w1 lb w2 Hex IH Hst]; intros Ha Hc; [done|].
  rewrite existsb_app in Hc. apply orb_false_iff in Hc as [Hc1 Hc2]. simpl in Hc2.
  rewrite orb_false_r in Hc2. eapply after_sleep_step; [by apply IH|exact Hst|done].
Qed.

(** A device woken inside a window is not put straight back to sleep.
    In any execution, after a suspend request the next power action comes
    only once the controller has confirmed the schedule again, or at least
    90 s of monotonic time later. *)
Lemma resume_waits_for_confirmation (w0 w w' : world) (t1 t2 : list label)
    (sch sch' : Schedule.t) (act : PowerAction) (i i' : Instant) (now now' : DateTime) :
  exec w0 (t1 ++ LAct Sleep sch i now :: t2) w -> step w (LAct act sch' i' now') w' ->
  existsb is_confirm t2 = true \/ i + secs 90 <= i'.
Proof.
  intros Hex Hst. destruct (existsb is_confirm t2) eqn:Ec; [by left|right].
  apply exec_app in Hex as (w1 & _ & Hex).
  apply (exec_app w1 [LAct Sleep sch i now] t2) in Hex as (w2 & H1 & H2).
  pose proof (exec_one _ _ _ H1) as Hs.
  assert (Ha : after_sleep i w2).
  { inversion Hs; subst; try (by destruct o).
    match goal with H : decide _ _ _ _ _ = _ |- _ =>
      apply decide_act in H as (_ & Hact & _ & _ & _ & _ & wait & Hph) end.
    split; [simpl; lia|]. left. exists sch, wait. done. }
  pose proof (after_sleep_exec _ _ _ _ H2 Ha Ec) as [Hi Hcase].
  inversion Hst; subst; try (by destruct o).
  match goal with H : decide _ _ _ _ _ = _ |- _ =>
    apply decide_act in H as (_ & _ & _ & Hready & _) end.
  simpl in Hcase, Hi. destruct Hcase as [(? & ? & Hph & _)|[Hf Hsi]]; [congruence|].
  destruct Hready as [[Hr _]|Hr]; [congruence|]. unfold SCHEDULE_SYNC_GRACE in Hr. lia.
Qed.

(** C17. Nothing is missed.  A turn that starts with an enforceable schedule
    and an active window requests its action at once, a second shutdown
    within five minutes apart; a turn that requests nothing changes nothing
    and waits at most 60 s, and either the cache is not yet enforceable and
    the wait ends no later than the 90 s grace period, or there is no
    schedule, or a shutdown was just requested, or no window of the schedule
    is active at any instant of the wait. *)
Theorem enforcement_turn_complete (s : stamp) (u : DateTime) (i : Instant) (l : loop)
    (a : Agent.t) :
  since (schedule_sync a) <= i ->
  let now := Agent.now a u in
  let ready := (confirmed (schedule_sync a) = true /\ TrustedClock.is_ready (clock a) = true) \/
               since (schedule_sync a) + secs 90 <= i in
  let recent := exists t, last_shutdown_request l = Some t /\ i < t + secs 300 in
  match decide s u i l a with
  | (_, _, Some (act, sch)) =>
      ready /\ Agent.schedule a = Some sch /\ act = Schedule.action sch
  | (l', a', None) =>
      a' = a /\ exists wait, at_phase l' = Waiting (u + wait) (i + wait) /\
      0 <= wait <= secs 60 /\
      ((~ ready /\ i + wait <= since (schedule_sync a) + secs 90) \/
       (ready /\ Agent.schedule a = None) \/
       (exists sch, ready /\ Agent.schedule a = Some sch /\
          ((Schedule.action sch = Shutdown /\ recent) \/
           (forall t, now <= t < now + wait \/ t = now -> Schedule.active_window sch t = None))))
  end.
Proof.
  intros Hsi now ready recent. unfold decide, enforcement_view, enforcement_ready.
  assert (Hready : confirmed (schedule_sync a) && TrustedClock.is_ready (clock a) ||
    (SCHEDULE_SYNC_GRACE <=? i - since (schedule_sync a)) = true <-> ready).
  { unfold ready, SCHEDULE_SYNC_GRACE. rewrite orb_true_iff, andb_true_iff, Z.leb_le.
    split; (intros [?|?]; [by left|right; lia]). }
  destruct (_ || _) eqn:Er.
  2:{ split; [done|]. eexists. split; [done|].
      assert (Hnr : ~ ready) by (by intros H; apply Hready in H).
      assert (Hg : i < since (schedule_sync a) + secs 90).
      { destruct (Z.lt_ge_cases i (since (schedule_sync a) + secs 90)); [done|].
        destruct Hnr. right. lia. }
      unfold ENFORCEMENT_MAX_WAIT, SCHEDULE_SYNC_GRACE, secs, ns_per_sec in *.
      split; [lia|]. left. split; [done|lia]. }
  assert (Hr : ready) by (by apply Hready).
  assert (Hmax : 0 <= ENFORCEMENT_MAX_WAIT <= secs 60) by (unfold ENFORCEMENT_MAX_WAIT, secs, ns_per_sec; lia).
  destruct (Agent.schedule a) as [sch|] eqn:Es.
  2:{ split; [done|]. eexists. split; [done|]. split; [done|]. auto. }
  destruct (Schedule.active_window sch now) as [w|] eqn:Ew.
  - unfold enforce_request. fold now. rewrite Ew. destruct (Schedule.action sch) eqn:Ea.
    { split_and!; done. }
    destruct (last_shutdown_request l) as [t|] eqn:El; [|by split_and!].
    destruct (Z.ltb_spec (i - t) SHUTDOWN_COOLDOWN) as [Hc|]; [|by split_and!].
    split; [done|]. eexists. split; [done|]. split; [done|]. right. right. exists sch.
    split; [done|]. split; [done|]. left. split; [done|]. exists t.
    split; [done|]. unfold SHUTDOWN_COOLDOWN in Hc. lia.
  - fold now. rewrite Ew. split; [done|]. eexists. split; [done|].
    destruct (Schedule.next_off_at sch now) as [n|] eqn:En.
    + split; [lia|]. right. right. exists sch. split; [done|]. split; [done|]. right.
      intros t [Ht| ->]; [|done]. apply (schedule_quiet_until_next_off sch now); [done|lia|].
      intros n' Hn'. rewrite En in Hn'. injection Hn' as <-. lia.
    + split; [lia|]. right. right. exists sch. split; [done|]. split; [done|]. right.
      intros t Ht. apply (schedule_quiet_until_next_off sch now); [done|lia|].
      intros n' Hn'. rewrite En in Hn'. discriminate.
Qed.
End EnforcementSafety.

(** ** Concrete executions *)
Section EnforcementSample.
Import Agent.
#[local] Existing Instances Bits.time_text Bits.uuid_text payload_serde stable_engine.
#[local] Instance sample_schedule_codec : Serde Schedule.t := Bits.serde_of_countable Schedule.t.
#[local] Instance sample_store_codec : Serde MessageStore.t :=
  Bits.serde_of_countable MessageStore.t.

Definition night (act : PowerAction) : Schedule.t :=
  Schedule.mk "r1" act "UTC" [mk_window (secs 50) (secs 5000)].
(** Cached schedule, never confirmed, no NTP. *)
Definition night_agent (act : PowerAction) : Agent.t :=
  Agent.mk (mk_config 1%N false "pc" (secs 30) (secs 10) None true 45821 (secs 5) false [])
    ("d", "agent", "toml")%string (EventQueue.init, []) false default_snapshot false false
    (Some (night act)) ("d", "schedule", "json")%string false MessageStore.default
    ("d", "messages", "json")%string (mk_sync false 0) (TrustedClock.new false) false ∅.
Definition night_world (act : PowerAction) : world :=
  mk_world (night_agent act) (mk_loop Top None) 0 (secs 100).
Definition sample_stamp (i : N) : stamp := mk_stamp i (secs 100) (secs 100).

(** The worlds of one run: tick, request, return, tick, wake. *)
Definition tick (d : Duration) (w : world) : world :=
  mk_world (w_agent w) (w_loop w) (w_instant w + d) (w_utc w + d).
Definition acted (i : N) (w : world) : world :=
  let r := decide (sample_stamp i) (w_utc w) (w_instant w) (w_loop w) (w_agent w) in
  mk_world r.1.2 r.1.1 (w_instant w) (w_utc w).
Definition finished (i : N) (sch : Schedule.t) (w : world) : world :=
  let r := finish (sample_stamp i) ActOk (w_utc w) (w_instant w) sch (secs 60) (w_loop w) (w_agent w) in
  mk_world r.1.2 r.1.1 (w_instant w) (w_utc w).
Definition woke (w : world) : world :=
  mk_world (w_agent w) (mk_loop Top (last_shutdown_request (w_loop w))) (w_instant w) (w_utc w).

Definition before_act (act : PowerAction) : world := tick (secs 95) (night_world act).

Lemma initial_night act : initial (night_world act).
Proof. done. Qed.
Lemma exec_before_act act : exec (night_world act) [LTime] (before_act act).
Proof. apply (exec_snoc _ [] (night_world act)); [constructor|]. by apply step_time. Qed.
Lemma act_step act :
  step (before_act act) (LAct act (night act) (secs 95) (secs 195)) (acted 1 (before_act act)).
Proof.
  refine (step_act (w_agent (before_act act)) (w_loop (before_act act)) (secs 95) (secs 195)
            (sample_stamp 1) _ _ act (night act) _ _); [done|].
  destruct act; vm_compute; reflexivity.
Qed.

Lemma power_action_justified_witness :
  Agent.schedule (w_agent (before_act Sleep)) = Some (night Sleep) /\
  (exists win, win ∈ Schedule.windows (night Sleep) /\ off_at win <= secs 195 < on_at win) /\
  let sy := fold_left sync_step [LTime] (mk_sync false 0) in
  (confirmed sy = true /\ TrustedClock.is_ready (clock (w_agent (before_act Sleep))) = true) \/
  since sy + secs 90 <= secs 95.
Proof.
  destruct (power_action_justified (night_world Sleep) (before_act Sleep)
              (acted 1 (before_act Sleep)) [LTime] Sleep (night Sleep) (secs 95) (secs 195)
              (initial_night Sleep) (exec_before_act Sleep) (act_step Sleep))
    as (H1 & _ & _ & H2 & H3).
  split; [exact H1|]. split; [exact H2|exact H3].
Defined.

(** Shutdown requested at 95 s; the machine stays up; asked again at 396 s. *)
Definition shut_tr : list label :=
  [LTime] ++ [LAct Shutdown (night Shutdown) (secs 95) (secs 195)] ++ [LGo] ++ [LTime] ++ [LGo].
Definition second_chance : world :=
  woke (tick (secs 301) (finished 2 (night Shutdown) (acted 1 (before_act Shutdown)))).
Definition later : world :=
  mk_world (w_agent second_chance) (w_loop second_chance) (secs 396) (secs 255).
(** The machine did not sleep: the system clock kept pace with the wait. *)
Lemma exec_shut : exec (night_world Shutdown) shut_tr later.
Proof.
  unfold shut_tr. rewrite !app_assoc.
  apply (exec_snoc _ _ (mk_world (w_agent second_chance)
    (w_loop (finished 2 (night Shutdown) (acted 1 (before_act Shutdown)))) (secs 396) (secs 255))).
  2:{ eapply (step_timer _ _ _ _ (secs 255) (secs 155) _ _ None); vm_compute; done. }
  apply (exec_snoc _ _ (finished 2 (night Shutdown) (acted 1 (before_act Shutdown)))).
  2:{ apply (step_time _ _ (secs 95) (secs 195) (secs 301) (secs 255)). done. }
  apply (exec_snoc _ _ (acted 1 (before_act Shutdown))).
  2:{ apply (step_finish _ _ _ _ (sample_stamp 2) ActOk (night Shutdown) (secs 60) _ _ None);
        vm_compute; reflexivity. }
  apply (exec_snoc _ _ (before_act Shutdown)); [apply exec_before_act|apply act_step].
Qed.

Lemma shutdown_requests_spaced_witness :
  exists w', step later
               (LAct Shutdown (night Shutdown) (secs 396) (secs 255)) w' /\
             secs 95 + secs 300 <= secs 396.
Proof.
  exists (acted 3 later).
  assert (Hst : step later
                  (LAct Shutdown (night Shutdown) (secs 396) (secs 255))
                  (acted 3 later)).
  { refine (step_act (w_agent second_chance) (w_loop second_chance) (secs 396) (secs 255)
              (sample_stamp 3) _ _ Shutdown (night Shutdown) _ _); [done|vm_compute; reflexivity]. }
  split; [exact Hst|].
  apply (shutdown_requests_spaced (night_world Shutdown) later (acted 3 later) shut_tr (night Shutdown) (night Shutdown)
           (secs 95) (secs 396) (secs 195) (secs 255) (initial_night Shutdown) exec_shut); [|exact Hst].
  right. left.
Defined.

(** Suspended at 95 s; resumed; nothing for the next 90 s unconfirmed. *)
Definition resumed : world := tick (secs 91) (finished 2 (night Sleep) (acted 1 (before_act Sleep))).
Definition awake : world :=
  mk_world (w_agent resumed) (mk_loop Top None) (secs 186) (secs 255).

Lemma resume_waits_for_confirmation_witness :
  exists w', step awake (LAct Sleep (night Sleep) (secs 186) (secs 255)) w' /\
  (existsb is_confirm [LReset (secs 95); LTime; LGo] = true \/ secs 95 + secs 90 <= secs 186).
Proof.
  exists (acted 3 awake).
  assert (Hst : step awake (LAct Sleep (night Sleep) (secs 186) (secs 255)) (acted 3 awake)).
  { refine (step_act (w_agent awake) (w_loop awake) (secs 186) (secs 255)
              (sample_stamp 3) _ _ Sleep (night Sleep) _ _); [done|vm_compute; reflexivity]. }
  split; [exact Hst|].
  apply (resume_waits_for_confirmation (night_world Sleep) awake (acted 3 awake)
           [LTime] [LReset (secs 95); LTime; LGo] (night Sleep) (night Sleep) Sleep (secs 95) (secs 186)
           (secs 195) (secs 255)); [|exact Hst].
  change ([LTime] ++ LAct Sleep (night Sleep) (secs 95) (secs 195) :: [LReset (secs 95); LTime; LGo])
    with (((([LTime] ++ [LAct Sleep (night Sleep) (secs 95) (secs 195)]) ++ [LReset (secs 95)]) ++ [LTime]) ++ [LGo]).
  apply (exec_snoc _ _ (mk_world (w_agent resumed) (w_loop resumed) (secs 186) (secs 255))).
  2:{ eapply (step_timer _ _ _ _ (secs 255) (secs 155) _ _ None); vm_compute; done. }
  apply (exec_snoc _ _ (finished 2 (night Sleep) (acted 1 (before_act Sleep)))).
  2:{ apply (step_time _ _ (secs 95) (secs 195) (secs 91) (secs 255)). done. }
  apply (exec_snoc _ _ (acted 1 (before_act Sleep))).
  2:{ apply (step_finish _ _ _ _ (sample_stamp 2) ActOk (night Sleep) (secs 60) _ _ (Some (secs 95)));
        vm_compute; reflexivity. }
  apply (exec_snoc _ _ (before_act Sleep)); [apply exec_before_act|apply act_step].
Defined.

Lemma enforcement_turn_complete_witness :
  let a := night_agent Sleep in
  since (schedule_sync a) <= secs 40 /\
  exists wait, at_phase (decide (sample_stamp 1) (secs 40) (secs 40) (mk_loop Top None) a).1.1 =
               Waiting (secs 40 + wait) (secs 40 + wait) /\ 0 <= wait <= secs 60.
Proof.
  intros a. assert (Hs : since (schedule_sync a) <= secs 40) by (vm_compute; discriminate).
  split; [exact Hs|].
  pose proof (enforcement_turn_complete (sample_stamp 1) (secs 40) (secs 40) (mk_loop Top None) a Hs) as H.
  destruct (decide (sample_stamp 1) (secs 40) (secs 40) (mk_loop Top None) a) as [[l' a'] [[act sch]|]] eqn:E.
  - exfalso. assert (Hn : (decide (sample_stamp 1) (secs 40) (secs 40) (mk_loop Top None) a).2 = None)
      by (vm_compute; reflexivity).
    rewrite E in Hn. discriminate Hn.
  - destruct H as (_ & wait & H1 & H2 & _). exists wait. split; [exact H1|exact H2].
Defined.
End EnforcementSample.
