(* ===== verification/Restart.v ===== *)
(** * What a restarted agent knows

    [Agent::new] reads the caches that [apply_schedule] and [apply_messages]
    wrote.  [caches_synced] says that the files say what the memory says; every
    operation of the running agent keeps it when the file operations work. *)
From S2P Require Import Prelude Codec Fs Schedule Messages Clock Protocol Db Queue Store Events.
From S2P Require Import Recorder Config Client Discovery Agent Loops Enforcement.
#[local] Open Scope Z_scope.

Section Restart.
Import Agent.
Context {TT : TimeText} {UT : UuidText} {SJ : Serde (gmap string json)} {SQ : SqlEngine}
  {SS : Serde Schedule.t} {SM : Serde MessageStore.t} {SF : Serde AgentFileConfig}.
Context {SSL : SerdeLaws Schedule.t} {SML : SerdeLaws MessageStore.t}.

(** The paths [Agent::new] derives. *)
Definition paths_ok (a : Agent.t) : Prop :=
  schedule_path a = with_file_name "schedule" "json" (agent_toml_path a) /\
  messages_path a = with_file_name "messages" "json" (agent_toml_path a).

Definition caches_synced (a : Agent.t) : Prop :=
  Schedule.load (disk a) (schedule_path a) = Agent.schedule a /\
  MessageStore.load (disk a) (messages_path a) = messages a.

(** The file operations of [o] work, and it leaves the two caches alone
    unless it is the operation that writes them. *)
Definition io_ok (a : Agent.t) (o : aop) : Prop :=
  match o with
  | OApplySchedule f _ | OApplyMessages f _ _ => f = None
  | OSetDisk fs => forall p, p = schedule_path a \/ p = messages_path a -> fs !! p = disk a !! p
  | _ => True
  end.

Lemma save_schedule_frame fs p s q :
  q <> p -> q <> with_extension "json.tmp" p ->
  (Schedule.save None fs p s).2 !! q = fs !! q.
Proof.
  intros Hq Ht. unfold Schedule.save. destruct s as [s|].
  - destruct (to_json s); [|done]. by apply Fs.write_via_tmp_frame.
  - simpl. destruct (fs !! p); simpl; [|done]. by apply lookup_delete_ne.
Qed.

Lemma save_schedule_load fs p s : Fs.not_tmp p ->
  Schedule.load (Schedule.save None fs p s).2 p = s.
Proof.
  intros Hp. unfold Schedule.load, Schedule.save, Fs.read_to_string. destruct s as [s|].
  - destruct (serde_round_trip s) as (text & -> & Hf).
    pose proof (Fs.write_via_tmp_atomic None p text fs Hp) as Ha.
    pose proof (Fs.write_via_tmp_ok p text fs) as Hok.
    destruct (Fs.run None (Fs.write_via_tmp p text) fs) as [r fs']. simpl in Hok |- *.
    destruct Ha as [Ha _]. by rewrite (Ha Hok).
  - simpl. destruct (fs !! p) eqn:E; simpl; by rewrite ?lookup_delete_eq, ?E.
Qed.

Lemma save_messages_load fs p m : Fs.not_tmp p ->
  MessageStore.load (MessageStore.save None fs p m).2 p = m.
Proof.
  intros Hp. unfold MessageStore.load, MessageStore.save, Fs.read_to_string.
  destruct (serde_round_trip m) as (text & -> & Hf).
  pose proof (Fs.write_via_tmp_atomic None p text fs Hp) as Ha.
  pose proof (Fs.write_via_tmp_ok p text fs) as Hok.
  destruct (Fs.run None (Fs.write_via_tmp p text) fs) as [r fs']. simpl in Hok |- *.
  destruct Ha as [Ha _]. by rewrite (Ha Hok), Hf.
Qed.

Lemma save_messages_frame fs p m q :
  q <> p -> q <> with_extension "json.tmp" p ->
  (MessageStore.save None fs p m).2 !! q = fs !! q.
Proof.
  intros Hq Ht. unfold MessageStore.save. destruct (to_json m); [|done].
  by apply Fs.write_via_tmp_frame.
Qed.

Lemma load_agree fs fs' p : fs' !! p = fs !! p ->
  Schedule.load fs' p = Schedule.load fs p /\ MessageStore.load fs' p = MessageStore.load fs p.
Proof. unfold Schedule.load, MessageStore.load, Fs.read_to_string. by intros ->. Qed.

Lemma run_op_paths o a : paths_ok a -> paths_ok (run_op o a) /\
  schedule_path (run_op o a) = schedule_path a /\ messages_path (run_op o a) = messages_path a.
Proof.
  intros Hp. destruct o; simpl; try done.
  - unfold apply_schedule. by destruct (bool_decide _).
  - unfold mark_schedule_synced. by destruct (confirmed _).
Qed.

Lemma run_op_synced o a : paths_ok a -> io_ok a o -> caches_synced a -> caches_synced (run_op o a).
Proof.
  intros [Hsp Hmp] Hio [Hs Hm]. unfold with_file_name in *.
  destruct (agent_toml_path a) as [[dir stem] ext].
  assert (Hns : Fs.not_tmp (schedule_path a)) by (rewrite Hsp; by intros [=]).
  assert (Hnm : Fs.not_tmp (messages_path a)) by (rewrite Hmp; by intros [=]).
  assert (Hne : messages_path a <> schedule_path a) by (rewrite Hsp, Hmp; by intros [=]).
  assert (Htm : messages_path a <> with_extension "json.tmp" (schedule_path a))
    by (rewrite Hsp, Hmp; by intros [=]).
  assert (Hts : schedule_path a <> with_extension "json.tmp" (messages_path a))
    by (rewrite Hsp, Hmp; by intros [=]).
  destruct o as [f incoming| |f incoming u| | | | | | | | |fs|]; simpl; try (by split).
  - simpl in Hio. subst f. unfold apply_schedule. destruct (bool_decide _); [by split|].
    split; simpl; [by apply save_schedule_load|]. rewrite <- Hm. apply load_agree.
    by apply save_schedule_frame.
  - unfold mark_schedule_synced. destruct (confirmed _); by split.
  - simpl in Hio. subst f. unfold apply_messages, MessageStore.apply.
    set (st := MessageStore.mk _ _). destruct (base.decide (st = messages a)) as [E|E].
    + rewrite bool_decide_eq_false_2 by (intros H; by apply H). split; simpl; [done|]. by rewrite E.
    + rewrite bool_decide_eq_true_2 by done. split; simpl; [|by apply save_messages_load].
      rewrite <- Hs. apply load_agree. apply save_messages_frame; [by apply not_eq_sym|done].
  - simpl in Hio. split; simpl.
    + rewrite <- Hs. apply load_agree, Hio. by left.
    + rewrite <- Hm. apply load_agree, Hio. by right.
Qed.

Lemma run_ops_synced os a : paths_ok a -> caches_synced a ->
  (forall o a', o ∈ os -> schedule_path a' = schedule_path a -> messages_path a' = messages_path a ->
     io_ok a' o) -> caches_synced (run_ops os a) /\ paths_ok (run_ops os a).
Proof.
  revert a. induction os as [|o os IH]; intros a Hp Hs Hio; [done|].
  change (run_ops (o :: os) a) with (run_ops os (run_op o a)).
  destruct (run_op_paths o a Hp) as (Hp' & H1 & H2). apply IH; [done| |].
  - apply run_op_synced; [done| |done]. by apply Hio; [left|..].
  - intros o' a' Ho' Hsp Hmp. apply Hio; [by right|congruence|congruence].
Qed.

End Restart.

Section RestartSample.
Import Agent.
#[local] Existing Instances Bits.time_text Bits.uuid_text payload_serde stable_engine.
#[local] Instance restart_schedule_codec : Serde Schedule.t := Bits.serde_of_countable Schedule.t.
#[local] Instance restart_schedule_laws : SerdeLaws Schedule.t :=
  Bits.serde_of_countable_laws Schedule.t.
#[local] Instance restart_store_codec : Serde MessageStore.t :=
  Bits.serde_of_countable MessageStore.t.
#[local] Instance restart_store_laws : SerdeLaws MessageStore.t :=
  Bits.serde_of_countable_laws MessageStore.t.

Definition blank_agent : Agent.t :=
  Agent.new (mk_config 1%N false "pc" (secs 30) (secs 10) None true 45821 (secs 5) false [])
    ("d", "agent", "toml")%string (EventQueue.init, []) default_snapshot ∅ 0.
Definition a_message : AgentMessage.t :=
  AgentMessage.mk 3 8%N None "hello" (secs 1) (secs 500).
Definition told : list aop :=
  [OApplySchedule None (Some (night Sleep)); OMarkSynced; OApplyMessages None [a_message] (secs 2)].

End RestartSample.
