(* ===== verification/Ipc.v ===== *)
(** * The notifier's pipe ([ipc/src/lib.rs], [agent/src/notify_pipe.rs])

    The wire types, [upcoming_actions], [handle_line] and the server.  [Uuid::new_v5] is the
    parameter [new_v5]; requests and responses go through [Serde]. *)
From stdpp Require Import relations.
From S2P Require Import Prelude Codec Schedule Messages.
#[local] Open Scope Z_scope.

Definition HORIZON_SECONDS : Z := 30 * 60.

Inductive Request : Type := GetPending | GetMessages.

Module Action.
Inductive t : Type := Shutdown | Restart | Sleep | Logoff | Lock | BreakStart.
#[export] Instance eq_dec : EqDecision t.
Proof. solve_decision. Defined.
(** The derived [Debug]. *)
Definition debug (a : t) : string :=
  match a with
  | Shutdown => "Shutdown" | Restart => "Restart" | Sleep => "Sleep"
  | Logoff => "Logoff" | Lock => "Lock" | BreakStart => "BreakStart"
  end.
End Action.
#[export] Existing Instance Action.eq_dec.

Module Reason.
Inductive t : Type := Schedule | DailyLimit | MandatoryBreak | RemoteCommand.
#[export] Instance eq_dec : EqDecision t.
Proof. solve_decision. Defined.
End Reason.
#[export] Existing Instance Reason.eq_dec.

Record PendingAction : Type := mk_action {
  pa_id : Uuid;
  pa_action : Action.t;
  pa_at_utc : DateTime;
  pa_reason : Reason.t;
}.
#[export] Instance PendingAction_eq_dec : EqDecision PendingAction.
Proof. solve_decision. Defined.

Record Message : Type := mk_message {
  m_id : Uuid;
  m_title : option string;
  m_body : string;
  m_sent_utc : DateTime;
  m_expires_utc : DateTime;
}.
#[export] Instance Message_eq_dec : EqDecision Message.
Proof. solve_decision. Defined.

Inductive Response : Type :=
| Pending (server_utc : DateTime) (actions : list PendingAction)
| Messages (server_utc : DateTime) (messages : list Message).

Section Pipe.
Context {TT : TimeText} {SR : Serde Request} {SP : Serde Response}.
(** [Uuid::new_v5] in the fixed namespace. *)
Context (new_v5 : string -> Uuid).

Definition pipe_action (a : PowerAction) : Action.t :=
  match a with Sleep => Action.Sleep | Shutdown => Action.Shutdown end.

(** [format!("{action:?}@{}", ..)] *)
Definition action_name (action : Action.t) (at_ : DateTime) : string :=
  Action.debug action +:+ "@" +:+ to_rfc3339 at_.

Definition upcoming_actions (schedule : option Schedule.t) (now : DateTime)
  : list PendingAction :=
  match schedule with
  | None => []
  | Some schedule =>
      let horizon := now + secs HORIZON_SECONDS in
      let action := pipe_action (Schedule.action schedule) in
      map (fun w => mk_action (new_v5 (action_name action (off_at w))) action (off_at w)
                      Reason.Schedule)
        (List.filter (fun w => (now <? off_at w) && (off_at w <=? horizon))
           (Schedule.windows schedule))
  end.

Definition to_message (m : AgentMessage.t) : Message :=
  mk_message (AgentMessage.id m) (AgentMessage.title m) (AgentMessage.body m)
    (AgentMessage.created_at m) (AgentMessage.expires_at m).

Definition respond (r : Request) (schedule : option Schedule.t) (messages : list AgentMessage.t)
    (now : DateTime) : Response :=
  match r with
  | GetPending => Pending now (upcoming_actions schedule now)
  | GetMessages =>
      Messages now (map to_message
        (List.filter (fun m => now <? AgentMessage.expires_at m) messages))
  end.

Definition handle_line (line : string) (schedule : option Schedule.t)
    (messages : list AgentMessage.t) (now : DateTime) : option string :=
  r ← from_json line; to_json (respond r schedule messages now).

(** The connection task: each readable line is answered, others skipped. *)
Fixpoint serve_lines (lines : list (string * option Schedule.t * list AgentMessage.t * DateTime))
  : list string :=
  match lines with
  | [] => []
  | (line, schedule, messages, now) :: rest =>
      match handle_line line schedule messages now with
      | Some out => out :: serve_lines rest
      | None => serve_lines rest
      end
  end.
(** ** The server ([serve] on Windows) *)

(** What a line is answered from: the schedule for notices, the live messages
    and the time, read when the line arrives. *)
Definition agent_view : Type := (option Schedule.t * list AgentMessage.t * DateTime)%type.

(** The task of one client: the lines read so far and the answers written. *)
Record pipe_client : Type := mk_pipe_client {
  pc_open : bool;
  pc_asked : list (string * agent_view);
  pc_written : list string;
}.

(** Where the accepting loop is.  An instance of the pipe waits for a client
    only in [PsListening]. *)
Inductive serve_phase : Type :=
| PsCreating                 (* the first instance *)
| PsListening                (* in [connect] *)
| PsPausing                  (* [connect] failed: a second's sleep *)
| PsAccepted                 (* before the next instance is created *)
| PsEnded.
Record pipe_server : Type := mk_pipe_server {
  ps_phase : serve_phase;
  ps_clients : list pipe_client;
}.
Definition serve_start : pipe_server := mk_pipe_server PsCreating [].

Inductive client_step : pipe_client -> pipe_client -> Prop :=
| pc_answered line v out asked written :
    handle_line line v.1.1 v.1.2 v.2 = Some out ->
    client_step (mk_pipe_client true asked written)
      (mk_pipe_client true (asked ++ [(line, v)]) (written ++ [out]))
| pc_skipped line v asked written : handle_line line v.1.1 v.1.2 v.2 = None ->
    client_step (mk_pipe_client true asked written)
      (mk_pipe_client true (asked ++ [(line, v)]) written)
| pc_write_failed line v out asked written : handle_line line v.1.1 v.1.2 v.2 = Some out ->
    client_step (mk_pipe_client true asked written) (mk_pipe_client false asked written)
| pc_gone asked written :      (* the end of its lines, or a read error *)
    client_step (mk_pipe_client true asked written) (mk_pipe_client false asked written).

Inductive serve_step : pipe_server -> pipe_server -> Prop :=
| ps_created cs : serve_step (mk_pipe_server PsCreating cs) (mk_pipe_server PsListening cs)
| ps_no_pipe cs : serve_step (mk_pipe_server PsCreating cs) (mk_pipe_server PsEnded cs)
| ps_connected cs : serve_step (mk_pipe_server PsListening cs) (mk_pipe_server PsAccepted cs)
| ps_connect_failed cs : serve_step (mk_pipe_server PsListening cs) (mk_pipe_server PsPausing cs)
| ps_resumed cs : serve_step (mk_pipe_server PsPausing cs) (mk_pipe_server PsAccepted cs)
| ps_next cs : serve_step (mk_pipe_server PsAccepted cs)
    (mk_pipe_server PsListening (cs ++ [mk_pipe_client true [] []]))
| ps_no_next cs :            (* the client just connected is dropped *)
    serve_step (mk_pipe_server PsAccepted cs) (mk_pipe_server PsEnded cs)
| ps_client ph cs k c c' : cs !! k = Some c -> client_step c c' ->
    serve_step (mk_pipe_server ph cs) (mk_pipe_server ph (<[k := c']> cs)).
End Pipe.

Section PipeProperties.
Context {TT : TimeText} {TL : TimeTextLaws}.
Context (new_v5 : string -> Uuid).

Lemma serve_lines_app `{!Serde Request, !Serde Response} l1 l2 :
  serve_lines new_v5 (l1 ++ l2) = serve_lines new_v5 l1 ++ serve_lines new_v5 l2.
Proof.
  induction l1 as [|[[[line sch] ms] now] l1 IH]; [done|]. simpl.
  destruct (handle_line _ _ _ _ _); [simpl; by rewrite IH|done].
Qed.

(** No client affects another: whatever the other clients and the accepting
    loop do, what was written to a client is the answers to its own lines, in
    order, each from the agent as it was when the line arrived. *)
Lemma clients_answered `{!Serde Request, !Serde Response} s :
  rtc (serve_step new_v5) serve_start s ->
  Forall (fun c => pc_written c =
    serve_lines new_v5 (map (fun '(line, v) => (line, v.1.1, v.1.2, v.2)) (pc_asked c))) (ps_clients s).
Proof.
  assert (forall s0, rtc (serve_step new_v5) s0 s ->
    Forall (fun c => pc_written c =
      serve_lines new_v5 (map (fun '(line, v) => (line, v.1.1, v.1.2, v.2)) (pc_asked c))) (ps_clients s0) ->
    Forall (fun c => pc_written c =
      serve_lines new_v5 (map (fun '(line, v) => (line, v.1.1, v.1.2, v.2)) (pc_asked c))) (ps_clients s))
    as Hind; [|intros H; apply (Hind _ H), Forall_nil_2].
  induction 1 as [|x y z Hs _ IH]; [done|]. intros Hx. apply IH. clear IH.
  destruct Hs as [| | | | |cs| |ph cs k c c' Hk Hc]; simpl in *; try done.
  - apply Forall_app. split; [done|]. by apply Forall_singleton.
  - apply Forall_insert; [done|]. eapply Forall_lookup_1 in Hk; [|done]. simpl in Hk.
    destruct Hc as [line v out asked written Ho|line v asked written Ho|line v out asked written Ho|];
      simpl in *; try done; rewrite map_app, serve_lines_app; simpl; rewrite Ho;
      [f_equal; exact Hk|by rewrite app_nil_r].
Qed.

Lemma action_name_inj a b t u : representable t -> representable u ->
  action_name (pipe_action a) t = action_name (pipe_action b) u -> a = b /\ t = u.
Proof.
  intros Ht Hu. unfold action_name. destruct a, b; simpl; intros H; try discriminate;
    (split; [done|]); apply to_rfc3339_inj; [done..| |done|done|]; by injection H.
Qed.

(** The notifier is told exactly what is coming.  Its pending actions are
    the windows that start within the next 30 minutes (one already running is
    not pending), with the schedule's action and the window's start.  An
    action keeps its id from poll to poll as long as its time stands, and an
    action whose time or kind has changed has another id, unless the two names
    the ids are made from collide. *)
Lemma upcoming_actions_exact (schedule : option Schedule.t) (now : DateTime) :
  (forall p, p ∈ upcoming_actions new_v5 schedule now <->
     exists s w, schedule = Some s /\ w ∈ Schedule.windows s /\
       now < off_at w <= now + secs 1800 /\
       pa_at_utc p = off_at w /\ pa_action p = pipe_action (Schedule.action s) /\
       pa_reason p = Reason.Schedule /\
       pa_id p = new_v5 (action_name (pa_action p) (pa_at_utc p))) /\
  (forall schedule' now' p q, p ∈ upcoming_actions new_v5 schedule now ->
     q ∈ upcoming_actions new_v5 schedule' now' ->
     representable (pa_at_utc p) -> representable (pa_at_utc q) ->
     let name_p := action_name (pa_action p) (pa_at_utc p) in
     let name_q := action_name (pa_action q) (pa_at_utc q) in
     (new_v5 name_p = new_v5 name_q -> name_p = name_q) ->
     (pa_id p = pa_id q <-> pa_action p = pa_action q /\ pa_at_utc p = pa_at_utc q)).
Proof.
  assert (Hin : forall sch n p, p ∈ upcoming_actions new_v5 sch n <->
     exists s w, sch = Some s /\ w ∈ Schedule.windows s /\
       n < off_at w <= n + secs 1800 /\
       pa_at_utc p = off_at w /\ pa_action p = pipe_action (Schedule.action s) /\
       pa_reason p = Reason.Schedule /\
       pa_id p = new_v5 (action_name (pa_action p) (pa_at_utc p))).
  { intros sch n p. unfold upcoming_actions. destruct sch as [s|].
    2:{ split; [by intros ?%not_elem_of_nil|by intros (? & ? & ? & _)]. }
    rewrite list_elem_of_fmap. setoid_rewrite elem_of_bfilter.
    change (secs HORIZON_SECONDS) with (secs 1800). split.
    - intros (w & -> & Hw & Hb). exists s, w. simpl. split_and!; try done; lia.
    - intros (s' & w & [= <-] & Hw & Hr & H1 & H2 & H3 & H4). exists w.
      split; [|split; [done|lia]]. destruct p as [i a t r]. simpl in *. by subst. }
  split; [apply Hin|]. intros sch' n' p q Hp Hq Rp Rq name_p name_q Hinj. unfold name_p, name_q in Hinj.
  apply Hin in Hp as (s & w & _ & _ & _ & _ & Ha & _ & ->).
  apply Hin in Hq as (s' & w' & _ & _ & _ & _ & Ha' & _ & ->). split.
  - rewrite Ha, Ha' in *. intros H%Hinj. apply action_name_inj in H as [-> H]; [|done..]. done.
  - by intros [-> ->].
Qed.
End PipeProperties.

(** The same window a minute later, and the same window moved. *)
Section PipeSample.
#[local] Existing Instances Bits.time_text Bits.time_text_laws.

Definition sample_ids (name : string) : Uuid := Npos (encode name).
Definition bedtime (off : Z) : option Schedule.t :=
  Some (Schedule.mk "r" Sleep "z" [mk_window (secs off) (secs 9000)]).

Lemma upcoming_actions_exact_witness :
  let poll off now := upcoming_actions sample_ids (bedtime off) (secs now) in
  exists p q, p ∈ poll 1000 10 /\ q ∈ poll 1600 70 /\ pa_id p <> pa_id q.
Proof.
  intros poll.
  destruct (upcoming_actions_exact sample_ids (bedtime 1000) (secs 10)) as [_ H].
  pose (act t := mk_action (sample_ids (action_name Action.Sleep (secs t))) Action.Sleep (secs t)
                   Reason.Schedule).
  assert (Hp : act 1000 ∈ poll 1000 10) by (by apply list_elem_of_singleton).
  assert (Hq : act 1600 ∈ poll 1600 70) by (by apply list_elem_of_singleton).
  exists (act 1000), (act 1600). split; [exact Hp|]. split; [exact Hq|]. intros Heq.
  assert (Ht : pa_at_utc (act 1000) = pa_at_utc (act 1600)); [|discriminate Ht].
  apply (H (bedtime 1600) (secs 70) (act 1000) (act 1600) Hp Hq); [by vm_compute|by vm_compute| |].
  - by intros [=].
  - exact Heq.
Defined.
End PipeSample.
