(* ===== verification/Access.v ===== *)
(** * Who may use the pipe ([server::create] of [agent/src/notify_pipe.rs])

    The security descriptor of the notifier's pipe, read as Windows reads it,
    and the life of the name: the accepting loop of [serve], which creates and
    drops instances, among other programs that try to.  The rights are those
    of a file object (winnt.h); a DACL of allowing entries grants what the
    entries of the caller's groups add up to. *)
From Stdlib Require Import Ascii.
From stdpp Require Import relations.
From S2P Require Import Prelude Codec Schedule Messages Ipc.
#[local] Open Scope Z_scope.

Definition SDDL : string := "D:(A;;0x12008b;;;AU)(A;;GA;;;SY)(A;;GA;;;BA)".
(** [transport::call] opens the pipe with this mask. *)
Definition CLIENT_ACCESS : Z := 0x12008b.

Definition FILE_READ_DATA : Z := 0x1.
Definition FILE_WRITE_DATA : Z := 0x2.
Definition FILE_CREATE_PIPE_INSTANCE : Z := 0x4.
Definition FILE_READ_EA : Z := 0x8.
Definition FILE_READ_ATTRIBUTES : Z := 0x80.
Definition DELETE : Z := 0x10000.
Definition READ_CONTROL : Z := 0x20000.
Definition WRITE_DAC : Z := 0x40000.
Definition WRITE_OWNER : Z := 0x80000.
Definition SYNCHRONIZE : Z := 0x100000.
Definition FILE_ALL_ACCESS : Z := 0x1f01ff.
Definition FILE_GENERIC_READ : Z := 0x120089.
Definition FILE_GENERIC_WRITE : Z := 0x120116.

Inductive sid : Type := AuthenticatedUsers | LocalSystem | Administrators.
#[export] Instance sid_eq_dec : EqDecision sid.
Proof. solve_decision. Defined.

Record ace : Type := mk_ace { ace_mask : Z; ace_sid : sid }.
#[export] Instance ace_eq_dec : EqDecision ace.
Proof. solve_decision. Defined.

(** ** Reading a descriptor: [D:] and entries [(A;;rights;;;sid)] *)
Fixpoint split (c : ascii) (s : string) : list string :=
  match s with
  | EmptyString => [EmptyString]
  | String a s' =>
      if Ascii.eqb a c then EmptyString :: split c s'
      else match split c s' with
           | [] => [String a EmptyString]
           | w :: ws => String a w :: ws
           end
  end.

Definition hex_digit (c : ascii) : option Z :=
  let n := Z.of_nat (nat_of_ascii c) in
  if (48 <=? n) && (n <=? 57) then Some (n - 48)
  else if (97 <=? n) && (n <=? 102) then Some (n - 87)
  else if (65 <=? n) && (n <=? 70) then Some (n - 55) else None.
Fixpoint read_hex (acc : Z) (s : string) : option Z :=
  match s with
  | EmptyString => Some acc
  | String c s' => d ← hex_digit c; read_hex (16 * acc + d) s'
  end.

(** Generic rights are those of a file object. *)
Definition read_rights (s : string) : option Z :=
  match s with
  | String "0" (String "x" s') => read_hex 0 s'
  | _ => if String.eqb s "GA" then Some FILE_ALL_ACCESS
         else if String.eqb s "GR" then Some FILE_GENERIC_READ
         else if String.eqb s "GW" then Some FILE_GENERIC_WRITE else None
  end.
Definition read_sid (s : string) : option sid :=
  if String.eqb s "AU" then Some AuthenticatedUsers
  else if String.eqb s "SY" then Some LocalSystem
  else if String.eqb s "BA" then Some Administrators else None.
Definition read_ace (s : string) : option ace :=
  match split ";" s with
  | [a; flags; rights; object; inherited; who] =>
      if String.eqb a "(A" && String.eqb flags "" && String.eqb object "" && String.eqb inherited "" then
        mask ← read_rights rights; who ← read_sid who; Some (mk_ace mask who)
      else None
  | _ => None
  end.
Fixpoint read_aces (l : list string) : option (list ace) :=
  match l with
  | [] => None
  | [last] => if String.eqb last "" then Some [] else None
  | s :: l' => e ← read_ace s; es ← read_aces l'; Some (e :: es)
  end.
(** [ConvertStringSecurityDescriptorToSecurityDescriptorW], of a DACL that allows. *)
Definition convert (s : string) : option (list ace) :=
  match s with
  | String "D" (String ":" s') => read_aces (split ")" s')
  | _ => None
  end.

(** ** Access *)
Record caller : Type := mk_caller { sids : list sid; remote : bool }.

(** What a caller is granted, and whether that covers what it asks for. *)
Definition granted (dacl : list ace) (who : list sid) : Z :=
  fold_left (fun m e => if bool_decide (ace_sid e ∈ who) then Z.lor m (ace_mask e) else m) dacl 0.
Definition access_check (dacl : list ace) (who : list sid) (desired : Z) : bool :=
  Z.ldiff desired (granted dacl who) =? 0.

(** The pipe of the name while an instance of it exists: the descriptor is
    that of the first instance. *)
Record pipe_object : Type := mk_pipe_object { po_dacl : list ace; po_reject_remote : bool }.

Definition opens (c : caller) (desired : Z) (p : pipe_object) : bool :=
  negb (remote c && po_reject_remote p) && access_check (po_dacl p) (sids c) desired.

(** [CreateNamedPipeW]: the pipe the new instance belongs to, or a refusal. *)
Definition create_pipe (c : caller) (first reject : bool) (dacl : list ace) (name : option pipe_object)
  : option pipe_object :=
  match name with
  | None => Some (mk_pipe_object dacl reject)
  | Some p =>
      if first then None
      else if access_check (po_dacl p) (sids c) FILE_CREATE_PIPE_INSTANCE then Some p else None
  end.

Definition service : caller := mk_caller [LocalSystem; Administrators; AuthenticatedUsers] false.

(** [create] of the server; [None]: the error it returns. *)
Definition create (first : bool) (name : option pipe_object) : option pipe_object :=
  dacl ← convert SDDL; (create_pipe service first true dacl name).

(** ** The name's life

    [nm_mine]: the instances the server holds (the listening one and those of
    its clients), [nm_others]: those of other programs. *)
Record name_state : Type := mk_name {
  nm_pipe : option pipe_object;
  nm_phase : serve_phase;
  nm_mine : nat;
  nm_others : nat;
}.
Definition unused : name_state := mk_name None PsCreating 0 0.

(** The object goes with its last instance. *)
Definition after_close (p : option pipe_object) (left_ : nat) : option pipe_object :=
  match left_ with O => None | _ => p end.

(** Not the system or an administrator. *)
Definition ordinary (c : caller) : Prop := (LocalSystem ∉ sids c) /\ (Administrators ∉ sids c).

Inductive name_step : name_state -> name_state -> Prop :=
| nm_first p p' m o : create true p = Some p' ->
    name_step (mk_name p PsCreating m o) (mk_name (Some p') PsListening (S m) o)
| nm_not_first p m o : name_step (mk_name p PsCreating m o) (mk_name p PsEnded m o)
| nm_connected p m o : name_step (mk_name p PsListening m o) (mk_name p PsAccepted m o)
| nm_connect_failed p m o : name_step (mk_name p PsListening m o) (mk_name p PsPausing m o)
| nm_resumed p m o : name_step (mk_name p PsPausing m o) (mk_name p PsAccepted m o)
| nm_next p p' m o : create false p = Some p' ->
    name_step (mk_name p PsAccepted m o) (mk_name (Some p') PsListening (S m) o)
(** The instance just connected is dropped with the loop. *)
| nm_no_next p m o :
    name_step (mk_name p PsAccepted (S m) o) (mk_name (after_close p (m + o)) PsEnded m o)
(** A client's task ends; the loop keeps an instance of its own. *)
| nm_client_gone p ph m o : (ph = PsEnded \/ (0 < m)%nat) ->
    name_step (mk_name p ph (S m) o) (mk_name (after_close p (m + o)) ph m o)
| nm_other_creates c first reject dacl p p' ph m o : ordinary c ->
    create_pipe c first reject dacl p = Some p' ->
    name_step (mk_name p ph m o) (mk_name (Some p') ph m (S o))
| nm_other_closes p ph m o :
    name_step (mk_name p ph m (S o)) (mk_name (after_close p (m + o)) ph m o).

(** ** What holds of it *)
Definition service_dacl : list ace :=
  [mk_ace 0x12008b AuthenticatedUsers; mk_ace FILE_ALL_ACCESS LocalSystem;
   mk_ace FILE_ALL_ACCESS Administrators].
Lemma converted : convert SDDL = Some service_dacl.
Proof. reflexivity. Qed.

Definition service_pipe : pipe_object := mk_pipe_object service_dacl true.

(** A name is used while somebody holds an instance; while the server does,
    the pipe is the server's and it holds all of them; the loop always does. *)
Definition name_ok (s : name_state) : Prop :=
  (nm_pipe s = None <-> (nm_mine s + nm_others s = 0)%nat) /\
  ((0 < nm_mine s)%nat -> nm_pipe s = Some service_pipe /\ nm_others s = 0%nat) /\
  match nm_phase s with
  | PsCreating => nm_mine s = 0%nat
  | PsListening | PsPausing | PsAccepted => (0 < nm_mine s)%nat
  | PsEnded => True
  end.

Lemma granted_ordinary c : ordinary c ->
  granted service_dacl (sids c) = if bool_decide (AuthenticatedUsers ∈ sids c) then 0x12008b else 0.
Proof.
  intros [H1 H2]. unfold granted, service_dacl. simpl.
  rewrite (bool_decide_eq_false_2 (LocalSystem ∈ sids c)), (bool_decide_eq_false_2 (Administrators ∈ sids c)) by done.
  by case_bool_decide.
Qed.

(** What an ordinary caller may not do on the service's pipe. *)
Lemma ordinary_refused c desired : ordinary c -> Z.ldiff desired 0x12008b <> 0 -> desired <> 0 ->
  access_check service_dacl (sids c) desired = false.
Proof.
  intros Hc H1 H2. unfold access_check. rewrite granted_ordinary by done. apply Z.eqb_neq.
  case_bool_decide; [done|]. by rewrite Z.ldiff_0_r.
Qed.

Lemma name_step_ok s s' : name_step s s' -> name_ok s -> name_ok s'.
Proof.
  assert (Hcl : forall p k, (after_close p k = None <-> k = 0%nat \/ p = None))
    by (intros p [|k]; simpl; naive_solver lia).
  unfold name_ok. destruct 1 as [p p' m o Hc| | | | |p p' m o Hc|p m o|p ph m o Hm
    |c first reject dacl p p' ph m o Hord Hc|p ph m o]; simpl; intros (H1 & H2 & H3).
  - unfold create in Hc. rewrite converted in Hc. subst m. destruct p as [q|]; [done|].
    injection Hc as <-. assert (o = 0%nat) as -> by (apply H1; done). split; [done|]. split; [done|lia].
  - split; [done|]. split; [done|done].
  - done.
  - done.
  - done.
  - destruct (H2 H3) as [-> ->]. unfold create in Hc. rewrite converted in Hc. simpl in Hc.
    injection Hc as <-. split; [split; [done|lia]|]. split; [done|lia].
  - destruct (H2 ltac:(lia)) as [-> ->]. rewrite Hcl. split; [naive_solver lia|].
    split; [|done]. intros Hm. split; [|done]. destruct m; [lia|done].
  - destruct (H2 ltac:(lia)) as [-> ->]. rewrite Hcl. split; [naive_solver lia|].
    split; [intros Hm'; split; [destruct m; [lia|done]|done]|].
    destruct Hm as [->|Hm]; [done|]. destruct ph; try done; lia.
  - destruct (Nat.eq_dec m 0%nat) as [->|Hm].
    + split; [split; [done|lia]|]. split; [lia|]. destruct ph; try done; lia.
    + exfalso. destruct (H2 ltac:(lia)) as [-> ->]. simpl in Hc. destruct first; [done|].
      by rewrite (ordinary_refused c) in Hc.
  - destruct (Nat.eq_dec m 0%nat) as [->|Hm]; [|destruct (H2 ltac:(lia)); lia].
    rewrite Hcl. split; [naive_solver lia|]. split; [lia|]. destruct ph; try done; lia.
Qed.



(** A taken name is not joined. *)
Example squatter_refused : create true (Some (mk_pipe_object [] false)) = None.
Proof. reflexivity. Qed.
