(* ===== verification/Notifier.v ===== *)
(** * The notifier ([notifier/src/])

    [Engine] and [MessageTracker] of [engine.rs], the wording of [text.rs], the
    state file of [state.rs], the toast markup of [ui.rs], and one turn of the
    main loop over what the pipe answers.  What appears on the screen is a list
    of [shown]. *)
From Stdlib Require Import Ascii.
From stdpp Require Import pretty.
From S2P Require Import Prelude Codec Fs Ipc.
#[local] Open Scope Z_scope.

(** ** [engine.rs] *)
Definition THRESHOLDS : list Z := [900; 300; 60; 30].
Definition COUNTDOWN_SECONDS : Z := 60.
Definition FAST_POLL_WITHIN_SECONDS : Z := 90.
Definition FAST_POLL : Duration := secs 2.
Definition SLOW_POLL : Duration := secs 10.

Record ToastDue : Type := mk_due { td_action : PendingAction; threshold : Z; remaining : Z }.

Record Tick : Type := mk_tick {
  toasts : list ToastDue;
  cancelled : list Uuid;
  countdown : list Uuid;
  next_poll : option Duration;
}.

(** The tightest threshold already crossed. *)
Definition crossed (remaining : Z) : option Z :=
  min_by Z.compare (List.filter (fun t => remaining <=? t) THRESHOLDS).

Definition sorted_ids (s : gset Uuid) : list Uuid := isort N.leb (elements s).

Module Engine.
Record t : Type := mk { fired : gset (Uuid * Z); known : gset Uuid }.

Definition default : t := mk ∅ ∅.

Record acc : Type := mk_acc {
  a_fired : gset (Uuid * Z);
  a_toasts : list ToastDue;
  a_countdown : list Uuid;
  a_soonest : option Z;
}.

(** One turn of the loop over the actions. *)
Definition visit (now : DateTime) (c : acc) (action : PendingAction) : acc :=
  let remaining := num_seconds (pa_at_utc action - now) in
  let soonest := match a_soonest c with
                 | Some s => Some (Z.min s remaining)
                 | None => Some remaining
                 end in
  let '(fired, toasts) :=
    match crossed remaining with
    | Some threshold =>
        if bool_decide ((pa_id action, threshold) ∈ a_fired c)
        then (a_fired c, a_toasts c)
        else ({[(pa_id action, threshold)]} ∪ a_fired c,
              a_toasts c ++ [mk_due action threshold remaining])
    | None => (a_fired c, a_toasts c)
    end in
  mk_acc fired toasts
    (if remaining <=? COUNTDOWN_SECONDS then a_countdown c ++ [pa_id action] else a_countdown c)
    soonest.

Definition update (e : t) (actions : list PendingAction) (now : DateTime) : t * Tick :=
  let live : gset Uuid := list_to_set (map pa_id actions) in
  let cancelled := sorted_ids (known e ∖ live) in
  let kept := filter (fun p : Uuid * Z => p.1 ∈ live) (fired e) in
  let c := fold_left (visit now) actions (mk_acc kept [] [] None) in
  let next_poll := match a_soonest c with
                   | Some s => if s <=? FAST_POLL_WITHIN_SECONDS then FAST_POLL else SLOW_POLL
                   | None => SLOW_POLL
                   end in
  (mk (a_fired c) live, mk_tick (a_toasts c) cancelled (a_countdown c) (Some next_poll)).

(** A sequence of polls. *)
Fixpoint run (e : t) (polls : list (list PendingAction * DateTime)) : t * list Tick :=
  match polls with
  | [] => (e, [])
  | (actions, now) :: rest =>
      let '(e1, tick) := update e actions now in
      let '(e2, ticks) := run e1 rest in (e2, tick :: ticks)
  end.
End Engine.

Module MessageTracker.
Record t : Type := mk { shown : gset Uuid }.

Definition with_shown (ids : list Uuid) : t := mk (list_to_set ids).
Definition shown_ids (m : t) : list Uuid := sorted_ids (shown m).

Definition take_new (m : t) (reported : list Message) (now : DateTime) : t * list Message :=
  let fresh := isort (fun a b => m_sent_utc a <=? m_sent_utc b)
                 (List.filter (fun r => (now <? m_expires_utc r) &&
                                        bool_decide (m_id r ∉ shown m)) reported) in
  let shown' := shown m ∪ list_to_set (map m_id fresh) in
  let reported_ids : gset Uuid := list_to_set (map m_id reported) in
  (mk (filter (fun i => i ∈ reported_ids) shown'), fresh).

Fixpoint run (m : t) (reports : list (list Message * DateTime)) : t * list (list Message) :=
  match reports with
  | [] => (m, [])
  | (reported, now) :: rest =>
      let '(m1, fresh) := take_new m reported now in
      let '(m2, more) := run m1 rest in (m2, fresh :: more)
  end.
End MessageTracker.

(** ** [text.rs] *)
Record ToastText : Type := mk_text { title : string; body : string; urgent : bool }.

Definition what (a : Action.t) : string :=
  match a with
  | Action.Shutdown => "shut down"
  | Action.Restart => "restart"
  | Action.Sleep => "go to sleep"
  | Action.Logoff => "sign you out"
  | Action.Lock => "lock"
  | Action.BreakStart => "start a break"
  end.

Definition why (r : Reason.t) : string :=
  match r with
  | Reason.Schedule => "Scheduled"
  | Reason.DailyLimit => "Daily limit reached"
  | Reason.MandatoryBreak => "Time for a break"
  | Reason.RemoteCommand => "Requested by an administrator"
  end.

Definition remaining_phrase (seconds : Z) : string :=
  let seconds := Z.max seconds 0 in
  if 120 <=? seconds then "in " +:+ pretty ((seconds + 30) / 60) +:+ " minutes"
  else if 60 <=? seconds then "in 1 minute"
  else if seconds <=? 1 then "in 1 second"
  else "in " +:+ pretty seconds +:+ " seconds".

Definition warning (due : ToastDue) (at_local : string) : ToastText :=
  mk_text
    ("This computer will " +:+ what (pa_action (td_action due)) +:+ " " +:+
     remaining_phrase (remaining due))
    (why (pa_reason (td_action due)) +:+ ": " +:+ what (pa_action (td_action due)) +:+ " at " +:+
     at_local +:+ ". Save your work.")
    (threshold due <=? 60).

Definition message (title : option string) (body : string) : ToastText :=
  mk_text (default "TimeLord"%string title) body false.

(** ** [ui.rs] *)

(** [str::replace] of one character. *)
Fixpoint replace (c : ascii) (by_ : string) (s : string) : string :=
  match s with
  | EmptyString => EmptyString
  | String a s' => if Ascii.eqb a c then by_ +:+ replace c by_ s' else String a (replace c by_ s')
  end.

Definition quote_char : ascii := Ascii.ascii_of_N 34.
Definition quote_str : string := String quote_char EmptyString.

Definition escape (text : string) : string :=
  replace "'" "&apos;" (replace quote_char "&quot;" (replace ">" "&gt;"
    (replace "<" "&lt;" (replace "&" "&amp;" text)))).

Definition attr (name value : string) : string :=
  name +:+ "=" +:+ quote_str +:+ value +:+ quote_str.

Definition toast_xml (text : ToastText) : string :=
  let '(scenario, actions) :=
    if urgent text then
      (" " +:+ attr "scenario" "reminder",
       "<actions><action " +:+ attr "content" "Dismiss" +:+ " " +:+ attr "arguments" "dismiss" +:+
       " " +:+ attr "activationType" "system" +:+ "/></actions>")
    else (EmptyString, EmptyString) in
  "<toast" +:+ scenario +:+ "><visual><binding " +:+ attr "template" "ToastGeneric" +:+ "><text>" +:+
  escape (title text) +:+ "</text><text>" +:+ escape (body text) +:+
  "</text></binding></visual>" +:+ actions +:+ "</toast>".

(** What the notifier does to the screen. *)
Inductive shown : Type :=
| ShowWarning (id : Uuid) (text : ToastText)
| Dismiss (id : Uuid)
| ShowMessage (id : Uuid) (text : ToastText).

(** ** [state.rs] and [main.rs] *)
Section Main.
Context {SI : Serde (list Uuid)}.

Definition load_shown (fs : Fs.t) (p : path) : list Uuid :=
  default [] (text ← Fs.read_to_string p fs; from_json text).

Definition save_shown (f : Fs.fault) (fs : Fs.t) (p : path) (ids : list Uuid)
  : result Fs.io_error unit * Fs.t :=
  match to_json ids with
  | Some text => Fs.run f (Fs.write_via_tmp p text) fs
  | None => (Err Fs.OtherIo, fs)
  end.

Record notifier : Type := mk_notifier {
  n_engine : Engine.t;
  n_tracker : MessageTracker.t;
  n_service_was_down : bool;
  n_disk : Fs.t;
}.

Definition start (fs : Fs.t) (p : path) : notifier :=
  mk_notifier Engine.default (MessageTracker.with_shown (load_shown fs p)) false fs.

Definition show_new_messages (f : Fs.fault) (p : path) (answer : result string Response)
    (n : notifier) : notifier * list shown :=
  match answer with
  | Ok (Messages server_utc messages) =>
      let before := MessageTracker.shown_ids (n_tracker n) in
      let '(tracker, fresh) := MessageTracker.take_new (n_tracker n) messages server_utc in
      let after := MessageTracker.shown_ids tracker in
      let disk := if bool_decide (after = before) then n_disk n
                  else (save_shown f (n_disk n) p after).2 in
      (mk_notifier (n_engine n) tracker (n_service_was_down n) disk,
       map (fun m => ShowMessage (m_id m) (message (m_title m) (m_body m))) fresh)
  | _ => (n, [])
  end.

(** One turn: [local] formats a time in the user's zone.  [utc1], [utc2] are
    the two readings of [Utc::now]. *)
Definition turn (local : DateTime -> string) (f : Fs.fault) (p : path)
    (messages_answer pending_answer : result string Response) (utc1 utc2 : DateTime)
    (n : notifier) : notifier * list shown * Duration :=
  let '(n, shown_messages) := show_new_messages f p messages_answer n in
  match pending_answer with
  | Ok (Pending server_utc actions) =>
      let skew := utc1 - server_utc in
      let now := utc2 - skew in
      let '(engine, tick) := Engine.update (n_engine n) actions now in
      (mk_notifier engine (n_tracker n) false (n_disk n),
       shown_messages ++ map Dismiss (cancelled tick) ++
       map (fun due => ShowWarning (pa_id (td_action due))
                         (warning due (local (pa_at_utc (td_action due))))) (toasts tick),
       default (secs 10) (next_poll tick))
  | Ok (Messages _ _) => (n, shown_messages, secs 10)
  | Err _ => (mk_notifier (n_engine n) (n_tracker n) true (n_disk n), shown_messages, secs 10)
  end.
End Main.

(** ** Warnings *)
Section EngineProperties.
Import Engine.

Lemma crossed_cases r :
  crossed r = if r <=? 30 then Some 30 else if r <=? 60 then Some 60
              else if r <=? 300 then Some 300 else if r <=? 900 then Some 900 else None.
Proof.
  unfold crossed, THRESHOLDS. simpl.
  destruct (Z.leb_spec r 30), (Z.leb_spec r 60), (Z.leb_spec r 300), (Z.leb_spec r 900);
    simpl; done || lia.
Qed.

Lemma crossed_mono r r' a b : r' <= r -> crossed r = Some a -> crossed r' = Some b -> b <= a.
Proof.
  rewrite !crossed_cases. intros Hr.
  destruct (Z.leb_spec r 30), (Z.leb_spec r 60), (Z.leb_spec r 300), (Z.leb_spec r 900),
    (Z.leb_spec r' 30), (Z.leb_spec r' 60), (Z.leb_spec r' 300), (Z.leb_spec r' 900);
    intros Ha Hb; simplify_eq; lia.
Qed.

(** The marks at which [x] was warned about. *)
Definition warned (x : Uuid) (l : list ToastDue) : list Z :=
  map threshold (List.filter (fun d => (pa_id (td_action d) =? x)%N) l).

Definition mark (x : Uuid) (c : acc) (r : Z) : list Z :=
  match crossed r with
  | Some b => if bool_decide ((x, b) ∈ a_fired c) then [] else [b]
  | None => []
  end.

Lemma visit_other now c act x : pa_id act <> x ->
  warned x (a_toasts (visit now c act)) = warned x (a_toasts c) /\
  forall t, (x, t) ∈ a_fired (visit now c act) <-> (x, t) ∈ a_fired c.
Proof.
  intros Hne. unfold visit. destruct (crossed _) as [b|]; [|done].
  destruct (bool_decide _); [done|]. simpl. split; [|set_solver].
  unfold warned. rewrite List.filter_app, map_app. simpl.
  rewrite (proj2 (N.eqb_neq _ _) Hne). apply app_nil_r.
Qed.

Lemma visit_same now c act x : pa_id act = x ->
  let r := num_seconds (pa_at_utc act - now) in
  warned x (a_toasts (visit now c act)) = warned x (a_toasts c) ++ mark x c r /\
  forall t, (x, t) ∈ a_fired (visit now c act) <-> (x, t) ∈ a_fired c \/ crossed r = Some t.
Proof.
  intros <- r. unfold visit, mark. fold r. destruct (crossed r) as [b|].
  2:{ simpl. rewrite app_nil_r. split; [done|]. naive_solver. }
  destruct (bool_decide _) eqn:E; simpl.
  - apply bool_decide_eq_true in E. rewrite app_nil_r. split; [done|].
    intros t. split; [by left|]. intros [?|[= <-]]; done.
  - split; [|set_solver]. unfold warned. rewrite List.filter_app, map_app. simpl.
    by rewrite N.eqb_refl.
Qed.

Lemma fold_other now x l : forall c, x ∉ map pa_id l ->
  warned x (a_toasts (fold_left (visit now) l c)) = warned x (a_toasts c) /\
  forall t, (x, t) ∈ a_fired (fold_left (visit now) l c) <-> (x, t) ∈ a_fired c.
Proof.
  induction l as [|act l IH]; intros c Hx; simpl; [done|].
  apply not_elem_of_cons in Hx as [Hne Hx]. destruct (IH (visit now c act) Hx) as [H1 H2].
  destruct (visit_other now c act x (not_eq_sym Hne)) as [H3 H4].
  rewrite H1, H3. split; [done|]. intros t. by rewrite H2, H4.
Qed.

Lemma update_warned e actions now x T :
  NoDup (map pa_id actions) -> (exists a, a ∈ actions /\ pa_id a = x /\ pa_at_utc a = T) ->
  let r := num_seconds (T - now) in
  let '(e', tick) := update e actions now in
  warned x (toasts tick) =
    match crossed r with
    | Some b => if bool_decide ((x, b) ∈ fired e) then [] else [b]
    | None => []
    end /\
  forall t, (x, t) ∈ fired e' <-> (x, t) ∈ fired e \/ crossed r = Some t.
Proof.
  intros Hnd (a & Ha & Hid & HT) r. apply list_elem_of_split in Ha as (l1 & l2 & ->).
  rewrite map_app in Hnd. apply NoDup_app in Hnd as (_ & Hdis & Hnd). simpl in Hnd, Hdis.
  apply NoDup_cons in Hnd as [Hn2 _]. rewrite Hid in Hn2, Hdis.
  assert (Hn1 : x ∉ map pa_id l1) by (intros H; apply (Hdis x H); by left).
  unfold update. set (live := list_to_set _). set (kept := filter _ (fired e)).
  assert (Hlive : x ∈ live).
  { unfold live. apply elem_of_list_to_set. rewrite map_app. apply elem_of_app. right.
    rewrite <- Hid. by left. }
  assert (Hkept : forall t, (x, t) ∈ kept <-> (x, t) ∈ fired e).
  { intros t. unfold kept. rewrite elem_of_filter. simpl. tauto. }
  rewrite fold_left_app. cbn [fold_left].
  set (c0 := mk_acc kept [] [] None). set (c1 := fold_left (visit now) l1 c0).
  destruct (fold_other now x l1 c0 Hn1) as [H1 H2]. fold c1 in H1, H2.
  destruct (visit_same now c1 a x Hid) as [H3 H4]. rewrite HT in H3, H4. fold r in H3, H4.
  destruct (fold_other now x l2 (visit now c1 a) Hn2) as [H5 H6].
  cbn [toasts fired]. split.
  - rewrite H5, H3, H1. unfold mark. simpl. destruct (crossed r) as [b|]; [|done].
    rewrite (bool_decide_ext _ _ (H2 b)). simpl. by rewrite (bool_decide_ext _ _ (Hkept b)).
  - intros t. rewrite H6, H4, H2. simpl. by rewrite Hkept.
Qed.

(** The marks not seen before, in order of appearance. *)
Fixpoint fresh_marks (seen : list Z) (bs : list (option Z)) : list Z :=
  match bs with
  | [] => []
  | Some b :: bs' =>
      if base.decide (b ∈ seen) then fresh_marks seen bs' else b :: fresh_marks (b :: seen) bs'
  | None :: bs' => fresh_marks seen bs'
  end.

Lemma elem_of_fresh t bs : forall seen,
  t ∈ fresh_marks seen bs <-> Some t ∈ bs /\ t ∉ seen.
Proof.
  induction bs as [|[b|] bs IH]; intros seen; simpl.
  - split; [by intros ?%not_elem_of_nil|by intros [?%not_elem_of_nil _]].
  - case_decide as Hb; [rewrite IH|rewrite elem_of_cons, IH]; rewrite !elem_of_cons.
    + split; [tauto|]. intros [[[= ->]|H] Hn]; [done|tauto].
    + destruct (base.decide (t = b)) as [->|]; [tauto|].
      split; [tauto|]. intros [[[= ->]|H] Hn]; tauto.
  - rewrite IH, elem_of_cons. split; [tauto|]. by intros [[?|?] ?].
Qed.

(** Marks that only tighten. *)
Definition tightens (o o' : option Z) : Prop :=
  forall a b, o = Some a -> o' = Some b -> b <= a.

Lemma fresh_sorted bs : forall seen,
  StronglySorted tightens bs -> StronglySorted Z.gt (fresh_marks seen bs).
Proof.
  induction bs as [|[b|] bs IH]; intros seen Hs; simpl; [constructor| |].
  - apply StronglySorted_inv in Hs as [Hs Hb]. case_decide; [by apply IH|].
    constructor; [by apply IH|]. apply Forall_forall. intros t [Ht Hn]%elem_of_fresh.
    rewrite Forall_forall in Hb. specialize (Hb _ Ht b t eq_refl eq_refl).
    apply not_elem_of_cons in Hn as [Hn _]. lia.
  - apply StronglySorted_inv in Hs as [Hs _]. by apply IH.
Qed.

Definition has_action (x : Uuid) (T : DateTime) (actions : list PendingAction) : Prop :=
  NoDup (map pa_id actions) /\ exists a, a ∈ actions /\ pa_id a = x /\ pa_at_utc a = T.

Lemma run_warned x T polls : forall e seen,
  Forall (fun p => has_action x T p.1) polls -> (forall t, (x, t) ∈ fired e <-> t ∈ seen) ->
  concat (map (fun tick => warned x (toasts tick)) (run e polls).2) =
  fresh_marks seen (map (fun p => crossed (num_seconds (T - p.2))) polls).
Proof.
  induction polls as [|[actions now] polls IH]; intros e seen Hp Hs; [done|].
  apply Forall_cons in Hp as [[Hnd Ha] Hp]. cbn [run map].
  pose proof (update_warned e actions now x T Hnd Ha) as Hu. cbv zeta in Hu.
  destruct (update e actions now) as [e1 tick]. destruct Hu as [Hw Hf].
  destruct (run e1 polls) as [e2 ticks] eqn:Er. cbn [snd map concat]. rewrite Hw. simpl.
  assert (Hr : forall seen', (forall t, (x, t) ∈ fired e1 <-> t ∈ seen') ->
    concat (map (fun tick => warned x (toasts tick)) ticks) =
    fresh_marks seen' (map (fun p => crossed (num_seconds (T - p.2))) polls)).
  { intros seen' Hs'. specialize (IH e1 seen' Hp Hs'). by rewrite Er in IH. }
  destruct (crossed (num_seconds (T - now))) as [b|].
  - destruct (base.decide (b ∈ seen)) as [Hb|Hb].
    + rewrite bool_decide_eq_true_2 by (by apply Hs). apply Hr. intros t. rewrite Hf, Hs.
      split; [intros [?|[= ->]]; done|tauto].
    + rewrite bool_decide_eq_false_2 by (by rewrite Hs). simpl. f_equal. apply Hr.
      intros t. rewrite Hf, Hs, elem_of_cons. split; [intros [?|[= ->]]; tauto|].
      intros [->|?]; tauto.
  - apply Hr. intros t. rewrite Hf, Hs. split; [by intros [?|?]|tauto].
Qed.

Lemma bands_sorted T nows : StronglySorted Z.le nows ->
  StronglySorted tightens (map (fun n => crossed (num_seconds (T - n))) nows).
Proof.
  induction 1 as [|n nows Hs IH Hn]; simpl; constructor; [done|].
  apply Forall_fmap, Forall_forall. intros n' Hn'. rewrite Forall_forall in Hn.
  specialize (Hn n' Hn'). intros a b Ha Hb. eapply crossed_mono; [|exact Ha|exact Hb].
  unfold num_seconds, ns_per_sec. apply Z.quot_le_mono; lia.
Qed.

(** Each warning is given once, and they tighten.  While an action stays
    pending at the same time, over any polls in order of time, the marks it
    is warned at come out in strictly decreasing order, and they are exactly
    the marks (15 min, 5 min, 1 min, 30 s) that were the tightest one crossed
    at some poll: none is repeated, none is replayed late, and the band the
    user is in is always announced. *)
Lemma warnings_tighten (x : Uuid) (T : DateTime) (polls : list (list PendingAction * DateTime)) :
  Forall (fun p => has_action x T p.1) polls -> StronglySorted Z.le (map snd polls) ->
  let marks := concat (map (fun tick => warned x (toasts tick)) (run Engine.default polls).2) in
  StronglySorted Z.gt marks /\
  forall t, t ∈ marks <->
    exists now, now ∈ map snd polls /\ crossed (num_seconds (T - now)) = Some t.
Proof.
  intros Hp Hs marks. unfold marks. rewrite (run_warned x T polls Engine.default [] Hp) by set_solver.
  assert (Hmap : map (fun p : list PendingAction * DateTime => crossed (num_seconds (T - p.2))) polls =
                 map (fun n => crossed (num_seconds (T - n))) (map snd polls))
    by (by rewrite map_map).
  rewrite Hmap. split; [by apply fresh_sorted, bands_sorted|].
  intros t. rewrite elem_of_fresh, list_elem_of_fmap. split.
  - intros [(n & Hn & Hin) _]. by exists n.
  - intros (n & Hin & Hn). split; [by exists n|]. apply not_elem_of_nil.
Qed.

Lemma warnings_tighten_witness :
  let a := mk_action 7%N Action.Sleep (secs 1000) Reason.Schedule in
  let polls := [([a], 0); ([a], secs 150); ([a], secs 160); ([a], secs 960); ([a], secs 999)] in
  concat (map (fun tick => warned 7%N (toasts tick)) (run Engine.default polls).2) = [900; 60; 30] /\
  StronglySorted Z.gt
    (concat (map (fun tick => warned 7%N (toasts tick)) (run Engine.default polls).2)).
Proof.
  intros a polls. split; [vm_compute; reflexivity|].
  apply (warnings_tighten 7%N (secs 1000) polls).
  - repeat (apply Forall_cons_2; [split; [apply NoDup_singleton|
      exists a; split; [left|split; reflexivity]]|]). apply Forall_nil_2.
  - simpl. repeat constructor; vm_compute; discriminate.
Defined.
End EngineProperties.

(** ** Dismissals and messages *)
Section TrackerProperties.

Lemma elem_of_sorted_ids x s : x ∈ sorted_ids s <-> x ∈ s.
Proof. unfold sorted_ids. rewrite isort_perm. apply elem_of_elements. Qed.

(** A warning is taken down exactly when its action is gone: whatever
    came before, the ids dismissed at a poll are, once each, those pending at
    the previous poll and not at this one. *)
Lemma cancelled_exact (e : Engine.t) (acts1 acts2 : list PendingAction) (now1 now2 : DateTime) :
  let e1 := (Engine.update e acts1 now1).1 in
  let tick := (Engine.update e1 acts2 now2).2 in
  NoDup (cancelled tick) /\
  forall x, x ∈ cancelled tick <-> x ∈ map pa_id acts1 /\ x ∉ map pa_id acts2.
Proof.
  simpl. split.
  - unfold sorted_ids. rewrite isort_perm. apply NoDup_elements.
  - intros x. rewrite elem_of_sorted_ids, elem_of_difference, !elem_of_list_to_set. done.
Qed.

Lemma with_shown_ids m : MessageTracker.with_shown (MessageTracker.shown_ids m) = m.
Proof.
  destruct m as [s]. unfold MessageTracker.with_shown, MessageTracker.shown_ids. f_equal.
  apply set_eq. intros x. by rewrite elem_of_list_to_set, elem_of_sorted_ids.
Qed.

Definition unexpired (x : Uuid) (p : list Message * DateTime) : Prop :=
  exists r, r ∈ p.1 /\ m_id r = x /\ p.2 < m_expires_utc r.

Lemma take_new_spec m reported now x :
  NoDup (map m_id reported) -> x ∈ map m_id reported ->
  let '(m1, fresh) := MessageTracker.take_new m reported now in
  NoDup (map m_id fresh) /\
  (x ∈ map m_id fresh <-> (x ∉ MessageTracker.shown m) /\ unexpired x (reported, now)) /\
  (x ∈ MessageTracker.shown m1 <-> x ∈ MessageTracker.shown m \/ x ∈ map m_id fresh).
Proof.
  intros Hnd Hx. unfold MessageTracker.take_new. set (keep := fun r : Message => (now <? m_expires_utc r) &&
    bool_decide (m_id r ∉ MessageTracker.shown m)).
  set (fresh := isort _ (List.filter keep reported)).
  assert (Hp : fresh ≡ₚ List.filter keep reported) by apply isort_perm.
  assert (Hin : x ∈ map m_id fresh <-> (x ∉ MessageTracker.shown m) /\ unexpired x (reported, now)).
  { rewrite (list_elem_of_fmap m_id). setoid_rewrite Hp. setoid_rewrite elem_of_bfilter.
    unfold keep, unexpired. setoid_rewrite andb_true_iff. setoid_rewrite bool_decide_eq_true.
    simpl. split.
    - intros (r & -> & Hr & He & Hs). split; [done|]. exists r. split; [done|]. split; [done|lia].
    - intros (Hs & r & Hr & <- & He). exists r. split; [done|]. split; [done|]. split; [lia|done]. }
  split; [|split; [done|]].
  - rewrite Hp. by apply NoDup_map_bfilter.
  - simpl. rewrite elem_of_filter, elem_of_union, !elem_of_list_to_set. tauto.
Qed.

Definition count (x : Uuid) (l : list Uuid) : nat := length (List.filter (N.eqb x) l).

Lemma count_app x l k : count x (l ++ k) = (count x l + count x k)%nat.
Proof. unfold count. by rewrite List.filter_app, length_app. Qed.
Lemma count_zero x l : count x l = 0%nat <-> x ∉ l.
Proof.
  unfold count. split.
  - intros H Hin. apply length_zero_iff_nil in H.
    assert (Hf : x ∈ List.filter (N.eqb x) l) by (apply elem_of_bfilter; by rewrite N.eqb_refl).
    rewrite H in Hf. by apply not_elem_of_nil in Hf.
  - intros Hn. rewrite length_zero_iff_nil. apply bfilter_none. intros y Hy.
    apply N.eqb_neq. congruence.
Qed.
Lemma count_NoDup x l : NoDup l -> (count x l <= 1)%nat.
Proof.
  induction 1 as [|y l Hy Hnd IH]; [unfold count; simpl; lia|].
  change (y :: l) with ([y] ++ l). rewrite count_app. unfold count at 1. simpl.
  destruct (N.eqb_spec x y) as [->|]; simpl; [|lia]. apply count_zero in Hy. lia.
Qed.

(** C29. Each administrator message is shown once.  While the service keeps
    reporting a message, over any reports, it is shown at most once, and
    exactly if it had not been shown before and some report still found it
    unexpired; and what a restarted notifier reads back from the saved ids is
    the tracker it saved, so a restart does not repeat it. *)
Theorem message_shown_once (x : Uuid) (m : MessageTracker.t)
    (reports : list (list Message * DateTime)) :
  Forall (fun p => NoDup (map m_id p.1) /\ x ∈ map m_id p.1) reports ->
  let displayed := map m_id (concat (MessageTracker.run m reports).2) in
  (count x displayed <= 1)%nat /\
  (x ∈ displayed <-> (x ∉ MessageTracker.shown m) /\ exists p, p ∈ reports /\ unexpired x p) /\
  MessageTracker.with_shown (MessageTracker.shown_ids (MessageTracker.run m reports).1) =
    (MessageTracker.run m reports).1.
Proof.
  intros Hr displayed. split; [|split; [|apply with_shown_ids]]; revert m displayed Hr;
    induction reports as [|[reported now] reports IH]; intros m displayed Hr; unfold displayed;
    cbn [MessageTracker.run].
  1: unfold count; simpl; lia.
  2:{ simpl. split; [by intros ?%not_elem_of_nil|by intros (_ & p & ?%not_elem_of_nil & _)]. }
  all: apply Forall_cons in Hr as [[Hnd Hx] Hr]; simpl in Hnd, Hx;
    pose proof (take_new_spec m reported now x Hnd Hx) as Ht;
    destruct (MessageTracker.take_new m reported now) as [m1 fresh]; destruct Ht as (Hf & Hin & Hs).
  - assert (Hin1 := fun H => proj2 (Hs : _ <-> _) (or_intror H)).
    specialize (IH m1 Hr). cbv zeta in IH.
    assert (Hnone : x ∈ MessageTracker.shown m1 ->
      count x (map m_id (concat (MessageTracker.run m1 reports).2)) = 0%nat).
    { clear -Hr. revert m1. induction reports as [|[rp nw] reports IH']; intros m1 Hm1; [done|].
      apply Forall_cons in Hr as [[Hnd Hx] Hr]. simpl in Hnd, Hx. cbn [MessageTracker.run].
      pose proof (take_new_spec m1 rp nw x Hnd Hx) as Ht.
      destruct (MessageTracker.take_new m1 rp nw) as [m2 fresh2]. destruct Ht as (_ & Hin & Hs).
      specialize (IH' Hr m2 (proj2 Hs (or_introl Hm1))).
      destruct (MessageTracker.run m2 reports). simpl in *. rewrite map_app, count_app, IH'.
      rewrite (proj2 (count_zero x (map m_id fresh2))); [done|]. rewrite Hin. tauto. }
    destruct (MessageTracker.run m1 reports) as [m2 more]. simpl in *. rewrite map_app, count_app.
    pose proof (count_NoDup x _ Hf). destruct (base.decide (x ∈ map m_id fresh)) as [Hd|Hd].
    + rewrite (Hnone (Hin1 Hd)). lia.
    + rewrite (proj2 (count_zero _ _) Hd). lia.
  - specialize (IH m1 Hr). cbv zeta in IH.
    destruct (MessageTracker.run m1 reports) as [m2 more]. simpl in *.
    rewrite map_app, elem_of_app, IH, Hs, Hin. setoid_rewrite elem_of_cons. split.
    + intros [[H1 H2]|[H1 (p & H2 & H3)]]; (split; [tauto|]); eauto.
    + intros (H1 & p & [->|Hp] & Hu); [by left|].
      destruct (base.decide (x ∈ map m_id fresh)) as [Hd|Hd]; [left; tauto|right].
      split; [rewrite Hin in Hd; tauto|eauto].
Qed.

Lemma message_shown_once_witness :
  let msg := mk_message 4%N None "Dinner" 0 (secs 500) in
  let reports := [([msg], secs 10); ([msg], secs 20)] in
  (count 4%N (map m_id (concat (MessageTracker.run (MessageTracker.with_shown []) reports).2)) <= 1)%nat /\
  4%N ∈ map m_id (concat (MessageTracker.run (MessageTracker.with_shown []) reports).2).
Proof.
  intros msg reports.
  destruct (message_shown_once 4%N (MessageTracker.with_shown []) reports) as (H1 & H2 & _).
  - repeat (apply Forall_cons_2; [split; [apply NoDup_singleton|left]|]). apply Forall_nil_2.
  - split; [exact H1|]. apply H2. split; [apply not_elem_of_empty|].
    exists ([msg], secs 10). split; [left|]. exists msg. split; [left|]. split; reflexivity.
Defined.
End TrackerProperties.

(** ** Toast markup *)
Section Markup.
Definition escape_char (c : ascii) : string :=
  if Ascii.eqb c "&" then "&amp;"
  else if Ascii.eqb c "<" then "&lt;"
  else if Ascii.eqb c ">" then "&gt;"
  else if Ascii.eqb c quote_char then "&quot;"
  else if Ascii.eqb c "'" then "&apos;"
  else String c EmptyString.

Fixpoint escape_all (s : string) : string :=
  match s with EmptyString => EmptyString | String c s' => escape_char c +:+ escape_all s' end.

Lemma replace_app c by_ s t : replace c by_ (s +:+ t) = replace c by_ s +:+ replace c by_ t.
Proof.
  induction s as [|a s IH]; simpl; [done|]. rewrite IH. destruct (Ascii.eqb a c); simpl; [|done].
  generalize (replace c by_ s), (replace c by_ t). clear. intros u v.
  induction by_ as [|b by_ IHb]; simpl; [done|]. exact (f_equal (String b) IHb).
Qed.

Lemma escape_one c : escape (String c EmptyString) = escape_char c.
Proof.
  unfold escape_char.
  destruct (Ascii.eqb_spec c "&") as [->|H1]; [reflexivity|].
  destruct (Ascii.eqb_spec c "<") as [->|H2]; [reflexivity|].
  destruct (Ascii.eqb_spec c ">") as [->|H3]; [reflexivity|].
  destruct (Ascii.eqb_spec c quote_char) as [->|H4]; [reflexivity|].
  destruct (Ascii.eqb_spec c "'") as [->|H5]; [reflexivity|].
  apply Ascii.eqb_neq in H1, H2, H3, H4, H5. unfold escape. cbn [replace].
  rewrite H1. cbn [replace]. rewrite H2. cbn [replace]. rewrite H3. cbn [replace].
  rewrite H4. cbn [replace]. by rewrite H5.
Qed.

Lemma escape_charwise s : escape s = escape_all s.
Proof.
  induction s as [|c s IH]; [done|].
  change (escape (String c s)) with (escape (String c EmptyString +:+ s)).
  transitivity (escape (String c EmptyString) +:+ escape s).
  - unfold escape. by rewrite !replace_app.
  - by rewrite escape_one, IH.
Qed.

Definition is_markup (c : ascii) : bool :=
  Ascii.eqb c "<" || Ascii.eqb c ">" || Ascii.eqb c quote_char || Ascii.eqb c "'".

Fixpoint no_markup (s : string) : bool :=
  match s with EmptyString => true | String c s' => negb (is_markup c) && no_markup s' end.

Lemma no_markup_app s t : no_markup (s +:+ t) = no_markup s && no_markup t.
Proof. induction s as [|c s IH]; simpl; [done|]. by rewrite IH, andb_assoc. Qed.

(** The first character of the rest decides between the entities. *)
Lemma escape_char_inj c d s t :
  (escape_char c +:+ s = escape_char d +:+ t)%string -> c = d /\ s = t.
Proof.
  unfold escape_char.
  destruct (Ascii.eqb_spec c "&") as [->|]; destruct (Ascii.eqb_spec d "&") as [->|];
  try (destruct (Ascii.eqb_spec c "<") as [->|]; [|destruct (Ascii.eqb_spec c ">") as [->|];
    [|destruct (Ascii.eqb_spec c quote_char) as [->|]; [|destruct (Ascii.eqb_spec c "'") as [->|]]]]);
  try (destruct (Ascii.eqb_spec d "<") as [->|]; [|destruct (Ascii.eqb_spec d ">") as [->|];
    [|destruct (Ascii.eqb_spec d quote_char) as [->|]; [|destruct (Ascii.eqb_spec d "'") as [->|]]]]);
  simpl; intros H; simplify_eq; done.
Qed.

(** Text cannot break out of its toast: the escaped form of any title or
    body contains no angle bracket and no quote, and different texts have
    different escaped forms, so nothing is lost. *)
Lemma escape_safe (s t : string) :
  no_markup (escape s) = true /\ (escape s = escape t <-> s = t).
Proof.
  split; [|split; [|by intros ->]].
  - rewrite escape_charwise. induction s as [|c s IH]; [done|]. cbn [escape_all].
    rewrite no_markup_app, IH, andb_true_r. unfold escape_char.
    destruct (Ascii.eqb_spec c "&"); [done|]. destruct (Ascii.eqb_spec c "<") as [|H1]; [done|].
    destruct (Ascii.eqb_spec c ">") as [|H2]; [done|].
    destruct (Ascii.eqb_spec c quote_char) as [|H3]; [done|].
    destruct (Ascii.eqb_spec c "'") as [|H4]; [done|]. simpl. unfold is_markup.
    by rewrite (proj2 (Ascii.eqb_neq _ _) H1), (proj2 (Ascii.eqb_neq _ _) H2),
      (proj2 (Ascii.eqb_neq _ _) H3), (proj2 (Ascii.eqb_neq _ _) H4).
  - rewrite !escape_charwise. revert t. induction s as [|c s IH]; intros [|d t] H.
    + done.
    + exfalso. simpl in H. unfold escape_char in H. repeat case_match; discriminate.
    + exfalso. simpl in H. unfold escape_char in H. repeat case_match; discriminate.
    + apply (escape_char_inj c d (escape_all s) (escape_all t)) in H as [-> H].
      by rewrite (IH t H).
Qed.
End Markup.
