(* ===== verification/Warnings.v ===== *)
(** * The agent and the notifier together ([notifier/src/transport.rs], [main.rs])

    One round trip over the pipe ([call]), and the notifier's loop against an
    agent: every turn asks for the pending actions and is answered by
    [handle_line] from the agent's schedule and trusted clock.  The theorem
    [warned_in_time] joins the two programs: whoever is at the machine is told
    at each mark before the agent acts. *)
From S2P Require Import Prelude Codec Fs Schedule Messages Clock Db Queue Recorder Config Agent Ipc.
From S2P Require Import Notifier.
#[local] Open Scope Z_scope.

(** ** One round trip: [transport::call] on Windows *)
Section Transport.
Context {SR : Serde Request} {SP : Serde Response}.

(** [exchange] writes the line to the pipe and reads one back. *)
Definition call (exchange : string -> result string string) (request : Request)
  : result string Response :=
  match to_json request with
  | None => Err "could not serialise"%string
  | Some text =>
      match exchange text with
      | Err e => Err e
      | Ok line =>
          match from_json line with
          | Some response => Ok response
          | None => Err "could not parse"%string
          end
      end
  end.

(** On other systems there is no pipe. *)
Definition call_elsewhere (request : Request) : result string Response :=
  Err "the notifier only runs on Windows"%string.
End Transport.

(** ** The loop of [main] *)
Section Watching.
Import Agent.
Context {TT : TimeText} {SR : Serde Request} {SP : Serde Response} {SI : Serde (list Uuid)}.
Context (new_v5 : string -> Uuid) (local : DateTime -> string) (state_path : path).

(** One turn: the agent and the clocks when it answers, the notifier's two
    readings of its own clock, and what the question for messages brings. *)
Record poll : Type := mk_poll {
  po_agent : Agent.t;
  po_instant : Instant;
  po_utc : DateTime;
  po_local1 : DateTime;
  po_local2 : DateTime;
  po_fault : Fs.fault;
  po_messages : result string Response;
}.

(** The agent's end of the pipe: a line that is not understood is not
    answered. *)
Definition answer_line (p : poll) (line : string) : result string string :=
  let a := po_agent p in
  match handle_line new_v5 line (schedule_for_notices a (po_instant p))
          (live_messages a (po_utc p)) (Agent.now a (po_utc p)) with
  | Some out => Ok out
  | None => Err "no answer"%string
  end.

Definition pending_answer (p : poll) : result string Response := call (answer_line p) GetPending.

(** What each turn shows, and how long it sleeps then. *)
Fixpoint watch (polls : list poll) (n : notifier) : list (poll * list shown * Duration) :=
  match polls with
  | [] => []
  | p :: rest =>
      let '(n', sh, wait) := turn local (po_fault p) state_path (po_messages p)
                               (pending_answer p) (po_local1 p) (po_local2 p) n in
      (p, sh, wait) :: watch rest n'
  end.

(** The time a turn judges by. *)
Definition seen_at (p : poll) : DateTime :=
  Agent.now (po_agent p) (po_utc p) + (po_local2 p - po_local1 p).

(** Each turn comes after the sleep of the one before, and not more than
    [latency] later. *)
Fixpoint paced (latency : Duration) (l : list (poll * list shown * Duration)) : Prop :=
  match l with
  | (p, _, wait) :: ((q, _, _) :: _) as rest =>
      seen_at p <= seen_at q <= seen_at p + wait + latency /\ paced latency rest
  | _ => True
  end.
End Watching.

(** ** Toasts *)
Section Toasts.
Import Engine.

(** A toast is about an action of the poll, at the mark its time has crossed. *)
Definition due_now (actions : list PendingAction) (now : DateTime) (d : ToastDue) : Prop :=
  td_action d ∈ actions /\ remaining d = num_seconds (pa_at_utc (td_action d) - now) /\
  crossed (remaining d) = Some (threshold d).

Lemma visits_due now actions l : l ⊆ actions -> forall c, Forall (due_now actions now) (a_toasts c) ->
  Forall (due_now actions now) (a_toasts (fold_left (visit now) l c)).
Proof.
  induction l as [|a l IH]; intros Hl c Hc; [done|].
  apply IH; [set_solver|]. unfold visit. destruct (crossed _) as [b|] eqn:Eb; [|done].
  destruct (bool_decide _); [done|]. simpl. apply Forall_app. split; [done|].
  apply Forall_singleton. split; [apply Hl; by left|by split].
Qed.

Lemma toasts_due e actions now : Forall (due_now actions now) (toasts (update e actions now).2).
Proof. by apply visits_due. Qed.

Lemma next_poll_short e actions now :
  next_poll (update e actions now).2 = Some FAST_POLL \/ next_poll (update e actions now).2 = Some SLOW_POLL.
Proof. unfold update. simpl. destruct (a_soonest _) as [s|]; [destruct (s <=? _)|]; auto. Qed.

(** A mark that was not fired before is announced when it is crossed. *)
Lemma toast_shown e actions now (a : PendingAction) b :
  NoDup (map pa_id actions) -> a ∈ actions ->
  crossed (num_seconds (pa_at_utc a - now)) = Some b -> (pa_id a, b) ∉ fired e ->
  mk_due a b (num_seconds (pa_at_utc a - now)) ∈ toasts (update e actions now).2.
Proof.
  intros Hnd Ha Hb Hf.
  pose proof (update_warned e actions now (pa_id a) (pa_at_utc a) Hnd) as Hu.
  cbv zeta in Hu. specialize (Hu (ex_intro _ a (conj Ha (conj eq_refl eq_refl)))).
  pose proof (toasts_due e actions now) as Ht.
  destruct (update e actions now) as [e' tick]. simpl in *. destruct Hu as [Hw _].
  rewrite Hb, bool_decide_eq_false_2 in Hw by done.
  assert (Hin : b ∈ warned (pa_id a) (toasts tick)) by (rewrite Hw; by left).
  unfold warned in Hin. apply list_elem_of_fmap in Hin as (d & Hth & Hd).
  apply elem_of_bfilter in Hd as [Hd Hid]. apply N.eqb_eq in Hid.
  rewrite Forall_forall in Ht. destruct (Ht d Hd) as (Hact & Hr & Hc).
  assert (td_action d = a) as Heq by (by apply (NoDup_map_inj pa_id actions)).
  destruct d as [act th rem]. simpl in *. subst. done.
Qed.
End Toasts.

(** ** In time *)
Section InTime.
Import Agent.
Context {TT : TimeText} {SR : Serde Request} {SP : Serde Response} {SI : Serde (list Uuid)}.
Context {LR : SerdeLaws Request} {LP : SerdeLaws Response}.
Context (new_v5 : string -> Uuid) (local : DateTime -> string) (state_path : path).

Abbreviation watch := (watch new_v5 local state_path) (only parsing).

(** A question for the pending actions is answered with them. *)
Lemma pending_answer_exact p :
  pending_answer new_v5 p =
    Ok (Pending (Agent.now (po_agent p) (po_utc p))
          (upcoming_actions new_v5 (schedule_for_notices (po_agent p) (po_instant p))
             (Agent.now (po_agent p) (po_utc p)))).
Proof.
  unfold pending_answer, call.
  destruct (serde_round_trip GetPending) as (text & -> & Hq).
  unfold answer_line, handle_line. rewrite Hq. simpl.
  match goal with |- context [to_json ?r] =>
    destruct (serde_round_trip r) as (line & -> & Hl) end. by rewrite Hl.
Qed.

Lemma show_new_messages_engine f answer n :
  n_engine (show_new_messages f state_path answer n).1 = n_engine n.
Proof.
  unfold show_new_messages. destruct answer as [[|u ms]|]; [done| |done].
  by destruct (MessageTracker.take_new _ _ _).
Qed.

(** The action a window stands for. *)
Definition action_of (act : PowerAction) (w : OffWindow) : PendingAction :=
  let a := pipe_action act in
  mk_action (new_v5 (action_name a (off_at w))) a (off_at w) Reason.Schedule.

(** At the turn the window is in the schedule the agent enforces and starts
    within the half hour the agent looks ahead; the ids of the actions told
    are distinct; the notifier's clock runs forward during the turn. *)
Definition announced (act : PowerAction) (w : OffWindow) (p : poll) : Prop :=
  let now := Agent.now (po_agent p) (po_utc p) in
  (exists s, schedule_for_notices (po_agent p) (po_instant p) = Some s /\
     Schedule.action s = act /\ w ∈ Schedule.windows s /\
     NoDup (map pa_id (upcoming_actions new_v5 (Some s) now))) /\
  now < off_at w <= now + secs 1800 /\ po_local1 p <= po_local2 p.

Definition left_at (w : OffWindow) (p : poll) : Z := num_seconds (off_at w - seen_at p).

(** One turn of the notifier, on the agent's clock. *)
Lemma turn_announced act w p n : announced act w p ->
  let '(n', sh, wait) := turn local (po_fault p) state_path (po_messages p)
                           (pending_answer new_v5 p) (po_local1 p) (po_local2 p) n in
  let x := pa_id (action_of act w) in
  wait <= secs 10 /\
  (forall t, (x, t) ∈ Engine.fired (n_engine n') <->
     (x, t) ∈ Engine.fired (n_engine n) \/ crossed (left_at w p) = Some t) /\
  (forall b, crossed (left_at w p) = Some b -> (x, b) ∉ Engine.fired (n_engine n) ->
     ShowWarning x (warning (mk_due (action_of act w) b (left_at w p)) (local (off_at w))) ∈ sh).
Proof.
  intros ((s & Hs & Hact & Hw & Hnd) & Hnow & _). rewrite pending_answer_exact, Hs.
  set (now := Agent.now _ _) in *. set (acts := upcoming_actions new_v5 (Some s) now) in *.
  assert (Ha : action_of act w ∈ acts).
  { unfold acts, upcoming_actions. subst act. apply list_elem_of_fmap. exists w. split; [done|].
    apply elem_of_bfilter. split; [done|]. change (secs HORIZON_SECONDS) with (secs 1800). lia. }
  unfold turn. pose proof (show_new_messages_engine (po_fault p) (po_messages p) n) as He.
  destruct (show_new_messages _ _ _ _) as [n1 sm]. simpl in He. cbv zeta.
  replace (po_local2 p - (po_local1 p - now)) with (seen_at p) by (unfold seen_at; fold now; lia).
  rewrite He. pose proof (update_warned (n_engine n) acts (seen_at p) (pa_id (action_of act w)) (off_at w)
    Hnd (ex_intro _ _ (conj Ha (conj eq_refl eq_refl)))) as Hu. cbv zeta in Hu.
  pose proof (toast_shown (n_engine n) acts (seen_at p) (action_of act w)) as Ht.
  pose proof (next_poll_short (n_engine n) acts (seen_at p)) as Hp.
  destruct (Engine.update _ _ _) as [e tick]. simpl in *. destruct Hu as [_ Hf].
  split; [by destruct Hp as [-> | ->]|]. split; [exact Hf|]. intros b Hb Hn.
  apply elem_of_app. right. apply elem_of_app. right. apply list_elem_of_fmap.
  by exists (mk_due (action_of act w) b (left_at w p)); split; [|apply Ht].
Qed.

Lemma crossed_ge r b : crossed r = Some b -> r <= b.
Proof.
  rewrite crossed_cases. destruct (Z.leb_spec r 30), (Z.leb_spec r 60), (Z.leb_spec r 300),
    (Z.leb_spec r 900); intros; simplify_eq; lia.
Qed.

(** From a turn before a mark to a turn after it, with steps of less than 26
    seconds: some turn falls into the mark's own band. *)
Lemma crossed_on_the_way r r' b : b ∈ THRESHOLDS -> b < r -> r' <= b -> r <= r' + 26 ->
  crossed r' = Some b.
Proof.
  intros Hb. rewrite crossed_cases. unfold THRESHOLDS in Hb.
  rewrite !elem_of_cons, elem_of_nil in Hb.
  destruct (Z.leb_spec r' 30), (Z.leb_spec r' 60), (Z.leb_spec r' 300), (Z.leb_spec r' 900);
    naive_solver lia.
Qed.
Lemma num_seconds_gt k x : k < num_seconds x -> secs k < x.
Proof.
  unfold num_seconds, secs. intros Hk. destruct (Z.lt_ge_cases (k * ns_per_sec) x); [done|].
  assert (Z.quot x ns_per_sec <= Z.quot (k * ns_per_sec) ns_per_sec) by (by apply Z.quot_le_mono).
  rewrite Z.quot_mul in * by done. lia.
Qed.

Lemma num_seconds_step (x y : Z) : secs 30 < x -> x <= y + secs 25 ->
  num_seconds x <= num_seconds y + 26.
Proof.
  unfold num_seconds, secs, ns_per_sec. intros Hx Hy. rewrite !Z.quot_div_nonneg by lia.
  pose proof (Z.mul_div_le x 1000000000). pose proof (Z.mul_succ_div_gt y 1000000000). lia.
Qed.

Lemma last_shift {A} (l : list A) : forall q p, List.last (q :: l) p = List.last l q.
Proof. induction l as [|a l IH]; intros q p; [done|]. by rewrite IH, <- (IH a p). Qed.

Lemma marks_announced act w polls : forall p n b,
  Forall (announced act w) (p :: polls) -> paced (secs 15) (watch (p :: polls) n) ->
  (forall t, (pa_id (action_of act w), t) ∈ Engine.fired (n_engine n) -> b < t) ->
  b ∈ THRESHOLDS -> b < left_at w p -> left_at w (List.last polls p) <= b ->
  exists q sh wait, (q, sh, wait) ∈ watch (p :: polls) n /\ b - 26 < left_at w q <= b /\
    ShowWarning (pa_id (action_of act w))
      (warning (mk_due (action_of act w) b (left_at w q)) (local (off_at w))) ∈ sh.
Proof.
  induction polls as [|q polls IH]; intros p n b Hp Hpace Hf Hb Hr Hl; [simpl in Hl; lia|].
  apply Forall_cons in Hp as [Hp Hq]. pose proof (turn_announced act w p n Hp) as Ht.
  cbn [Warnings.watch] in Hpace |- *. destruct (turn _ _ _ _ _ _ _ n) as [[n1 sh1] w1].
  cbv zeta in Ht. destruct Ht as (Hw1 & Hf1 & _).
  assert (Hfire : forall t, (pa_id (action_of act w), t) ∈ Engine.fired (n_engine n1) -> b < t).
  { intros t [Ht|Ht]%Hf1; [by apply Hf|]. apply crossed_ge in Ht. lia. }
  destruct (Z.le_gt_cases (left_at w q) b) as [Hqb|Hqb].
  - pose proof (turn_announced act w q n1) as Ht. apply Forall_cons in Hq as [Hq _].
    specialize (Ht Hq). cbn [Warnings.watch] in Hpace |- *.
    destruct (turn _ _ _ _ _ _ _ n1) as [[n2 sh2] w2]. cbv zeta in Ht. destruct Ht as (_ & _ & Hs).
    destruct Hpace as [Hpq _].
    assert (Hstep : left_at w p <= left_at w q + 26).
    { apply num_seconds_step.
      - assert (30 <= b).
        { unfold THRESHOLDS in Hb. rewrite !elem_of_cons, elem_of_nil in Hb. naive_solver lia. }
        apply num_seconds_gt. unfold left_at in Hr. lia.
      - unfold secs in *. lia. }
    exists q, sh2, w2. split; [right; by left|]. split; [lia|]. apply Hs.
    + by eapply crossed_on_the_way.
    + intros Hin. apply Hfire in Hin. lia.
  - assert (Hpace' : paced (secs 15) (watch (q :: polls) n1)).
    { cbn [Warnings.watch] in Hpace |- *. destruct (turn _ _ _ _ _ _ _ n1) as [[n2 sh2] w2].
      by destruct Hpace. }
    rewrite last_shift in Hl.
    destruct (IH q n1 b Hq Hpace' Hfire Hb Hqb Hl) as (q' & sh & wait & Hin & Hrest).
    exists q', sh, wait. split; [by right|done].
Qed.
(** C10. Whoever is at the machine is warned before the agent acts.  Let a
    notifier be started while a window is announced by the agent and more
    than 15 minutes away, and let it keep polling (each turn after the sleep
    the one before asked for, at most 15 s late) until 30 s or less are left.
    Then each of the four warnings (15 min, 5 min, 1 min, 30 s) is shown, with
    the action's own id and time, and less than 26 s after its mark; and the
    time left is judged on the agent's trusted clock, whatever the clock of
    the notifier shows. *)
Theorem warned_in_time (act : PowerAction) (w : OffWindow) (fs : Fs.t) (p : poll)
    (polls : list poll) (mark : Z) :
  Forall (announced act w) (p :: polls) ->
  paced (secs 15) (watch (p :: polls) (start fs state_path)) ->
  900 < left_at w p -> left_at w (List.last polls p) <= 30 -> mark ∈ THRESHOLDS ->
  exists q sh wait, (q, sh, wait) ∈ watch (p :: polls) (start fs state_path) /\
    mark - 26 < left_at w q <= mark /\
    ShowWarning (pa_id (action_of act w))
      (warning (mk_due (action_of act w) mark (left_at w q)) (local (off_at w))) ∈ sh.
Proof.
  intros Hp Hpace Hfirst Hlast Hm. assert (30 <= mark <= 900).
  { unfold THRESHOLDS in Hm. rewrite !elem_of_cons, elem_of_nil in Hm. naive_solver lia. }
  apply marks_announced; [done|done| |done|lia|lia]. intros t []%elem_of_empty.
Qed.
End InTime.

(** ** A notifier that polls every 12 seconds *)
#[export] Instance Request_eq_dec : EqDecision Request.
Proof. solve_decision. Defined.
#[export] Instance Response_eq_dec : EqDecision Response.
Proof. solve_decision. Defined.
#[export] Instance Request_countable : Countable Request.
Proof.
  refine (inj_countable' (fun r => match r with GetPending => true | GetMessages => false end)
    (fun b : bool => if b then GetPending else GetMessages) _). by intros [].
Defined.
#[export] Instance Action_countable : Countable Action.t.
Proof.
  refine (inj_countable'
    (fun a => match a with Action.Shutdown => 0 | Action.Restart => 1 | Action.Sleep => 2
              | Action.Logoff => 3 | Action.Lock => 4 | Action.BreakStart => 5 end)%N
    (fun n => match n with 0 => Action.Shutdown | 1 => Action.Restart | 2 => Action.Sleep
              | 3 => Action.Logoff | 4 => Action.Lock | _ => Action.BreakStart end)%N _).
  by intros [].
Defined.
#[export] Instance Reason_countable : Countable Reason.t.
Proof.
  refine (inj_countable'
    (fun r => match r with Reason.Schedule => 0 | Reason.DailyLimit => 1
              | Reason.MandatoryBreak => 2 | Reason.RemoteCommand => 3 end)%N
    (fun n => match n with 0 => Reason.Schedule | 1 => Reason.DailyLimit
              | 2 => Reason.MandatoryBreak | _ => Reason.RemoteCommand end)%N _).
  by intros [].
Defined.
#[export] Instance PendingAction_countable : Countable PendingAction.
Proof.
  refine (inj_countable' (fun p => (pa_id p, pa_action p, pa_at_utc p, pa_reason p))
    (fun '(i, a, t, r) => mk_action i a t r) _). by intros [].
Defined.
#[export] Instance Message_countable : Countable Message.
Proof.
  refine (inj_countable' (fun m => (m_id m, m_title m, m_body m, m_sent_utc m, m_expires_utc m))
    (fun '(i, t, b, s, e) => mk_message i t b s e) _). by intros [].
Defined.
#[export] Instance Response_countable : Countable Response.
Proof.
  refine (inj_countable'
    (fun r => match r with Pending u l => inl (u, l) | Messages u l => inr (u, l) end)
    (fun x => match x with inl (u, l) => Pending u l | inr (u, l) => Messages u l end) _).
  by intros [].
Defined.

Section WarningsSample.
Import Agent.
#[local] Existing Instances Bits.time_text.
#[local] Instance poll_request : Serde Request := Bits.serde_of_countable Request.
#[local] Instance poll_response : Serde Response := Bits.serde_of_countable Response.
#[local] Instance poll_ids : Serde (list Uuid) := Bits.serde_of_countable (list Uuid).
#[local] Instance poll_request_laws : SerdeLaws Request := Bits.serde_of_countable_laws Request.
#[local] Instance poll_response_laws : SerdeLaws Response := Bits.serde_of_countable_laws Response.

(** The agent with one window, 2000 s ahead, confirmed; the notifier's clock
    is an hour ahead of it. *)
Definition ten_to_bed : Agent.t :=
  set_schedule (bedtime 2000) ∅ (mk
    (mk_config 1%N false "pc" (secs 30) (secs 10) None true 45821 (secs 5) false [])
    ("d", "agent", "toml")%string (EventQueue.init, []) false default_snapshot false false None
    ("d", "schedule", "json")%string false MessageStore.default ("d", "messages", "json")%string
    (mk_sync true 0) (TrustedClock.new false) false ∅).
Definition nth_poll (k : Z) : poll :=
  mk_poll ten_to_bed 0 (secs (1000 + 12 * k)) (secs (4600 + 12 * k)) (secs (4600 + 12 * k)) None
    (Err "unavailable"%string).
Definition some_polls : list poll := map nth_poll (seqZ 1 81).
Definition bed_path : path := ("d", "shown", "json")%string.

(** [paced], evaluated. *)
Fixpoint pacedb (latency : Duration) (l : list (poll * list shown * Duration)) : bool :=
  match l with
  | (p, _, wait) :: ((q, _, _) :: _) as rest =>
      (seen_at p <=? seen_at q) && (seen_at q <=? seen_at p + wait + latency) && pacedb latency rest
  | _ => true
  end.
Lemma pacedb_spec latency l : pacedb latency l = true -> paced latency l.
Proof.
  induction l as [|[[p sh] w] l IH]; [done|]. simpl. destruct l as [|[[q sh'] w'] l]; [done|].
  rewrite !andb_true_iff. intros [[H1 H2] H3]. split; [lia|by apply IH].
Qed.

Lemma warned_in_time_witness :
  let win := mk_window (secs 2000) (secs 9000) in
  let told := watch sample_ids (fun _ => "soon"%string) bed_path (nth_poll 0 :: some_polls)
                (start ∅ bed_path) in
  exists q sh wait text, (q, sh, wait) ∈ told /\ 274 < left_at win q <= 300 /\
    ShowWarning (pa_id (action_of sample_ids Sleep win)) text ∈ sh.
Proof.
  intros win told.
  destruct (warned_in_time sample_ids (fun _ => "soon"%string) bed_path Sleep win ∅ (nth_poll 0)
    some_polls 300) as (q & sh & wait & H1 & H2 & H3).
  - change (nth_poll 0 :: some_polls) with (map nth_poll (seqZ 0 82)).
    apply Forall_fmap, Forall_forall. intros k Hk%elem_of_seqZ.
    assert (Hnow : Agent.now (po_agent (nth_poll k)) (po_utc (nth_poll k)) = secs (1000 + 12 * k))
      by (unfold Agent.now, TrustedClock.now; simpl; unfold millis; lia).
    split; [|split; [rewrite Hnow; unfold secs, ns_per_sec; simpl; unfold secs, ns_per_sec; lia|
      apply Z.le_refl]].
    exists (Schedule.mk "r" Sleep "z" [win]). split; [reflexivity|]. split; [reflexivity|].
    split; [by left|]. unfold upcoming_actions. simpl.
    destruct (_ && _); [apply NoDup_singleton|apply NoDup_nil_2].
  - apply pacedb_spec. vm_compute. reflexivity.
  - vm_compute. reflexivity.
  - vm_compute. discriminate.
  - right; left.
  - exists q, sh, wait, (warning (mk_due (action_of sample_ids Sleep win) 300 (left_at win q)) "soon").
    split; [exact H1|]. split; [lia|exact H3].
Defined.
End WarningsSample.
