(* ===== verification/Wire.v ===== *)
(** * The program's types as JSON ([protocol.rs], [schedule.rs],
    [messages.rs], [discovery.rs], [ipc/src/lib.rs], [state.rs])

    Every type that goes to the controller, over the pipe or into a cache
    file, with the names and attributes of its declaration.  A type that is
    only written has an [enc_..] function, one that is only read a [dec_..]
    function, the others are [wire]s.  The second part joins them with the
    text of JSON values and with the lines of the pipe. *)
From Stdlib Require Import Ascii.
From S2P Require Import Prelude Codec Json Schedule Messages Protocol Derive Discovery Ipc Warnings.
#[local] Open Scope Z_scope.

Section Types.
Context {UT : UuidText} {TJ : TimeJson} {DO : DataOrder}.

(** ** [protocol.rs] *)
Definition screaming {A} (ident : A -> string) (a : A) : string := screaming_snake_case (ident a).
Definition w_event_type : wire EventType.t := w_names (screaming EventType.ident) EventType.all.
Definition w_event_severity : wire EventSeverity.t :=
  w_names (screaming EventSeverity.ident) EventSeverity.all.
Definition w_event_source : wire EventSource.t := w_names (screaming EventSource.ident) EventSource.all.
Definition dec_event_result_status : value -> option EventResultStatus.t :=
  de_name (screaming EventResultStatus.ident) EventResultStatus.all.

Definition enc_network_interface_info (i : NetworkInterfaceInfo) : value :=
  VObject [field w_string "name" (ni_name i); field (w_option w_string) "mac_address" (ni_mac_address i);
           field (w_vec w_string) "addresses" (ni_addresses i)].
Definition enc_register_request (r : RegisterRequest) : value :=
  VObject [field w_uuid "device_id" (rq_device_id r); field w_string "device_name" (rq_device_name r);
           field w_string "hostname" (rq_hostname r); field w_string "agent_version" (rq_agent_version r);
           field w_string "operating_system" (rq_operating_system r);
           field w_string "operating_system_version" (rq_operating_system_version r);
           field w_string "architecture" (rq_architecture r);
           field (w_vec w_string) "local_ip_addresses" (rq_local_ip_addresses r);
           (camel_case "network_interfaces",
            VArray (map enc_network_interface_info (rq_network_interfaces r)))].
Definition enc_heartbeat_request (r : HeartbeatRequest) : value :=
  VObject [field w_uuid "event_id" (hq_event_id r); field w_time "occurred_at" (hq_occurred_at r);
           field w_string "agent_version" (hq_agent_version r);
           field w_u64 "uptime_seconds" (hq_uptime_seconds r);
           field w_string "service_state" (hq_service_state r);
           field (w_option w_string) "current_user" (hq_current_user r);
           field w_string "session_state" (hq_session_state r);
           field (w_option w_u64) "idle_seconds" (hq_idle_seconds r);
           field (w_option w_string) "controller_url" (hq_controller_url r)].
Definition enc_event_item (e : EventItem) : value :=
  VObject [field w_uuid "event_id" (ei_event_id e); field w_event_type "event_type" (ei_event_type e);
           field w_time "occurred_at" (ei_occurred_at e); field w_event_severity "severity" (ei_severity e);
           field w_event_source "source" (ei_source e);
           field (w_option w_uuid) "session_id" (ei_session_id e);
           field (w_option w_string) "username" (ei_username e); field w_data "data" (ei_data e)].
Definition enc_event_submission_request (r : EventSubmissionRequest) : value :=
  VObject [(camel_case "events", VArray (map enc_event_item (es_events r)))].

(** ** [schedule.rs] *)
Definition w_power_action : wire PowerAction :=
  w_names (screaming (fun a => match a with Sleep => "Sleep" | Shutdown => "Shutdown" end)) [Sleep; Shutdown].

Definition w_off_window : wire OffWindow := {|
  valid w := valid w_time (off_at w) /\ valid w_time (on_at w);
  enc w := VObject [field w_time "off_at" (off_at w); field w_time "on_at" (on_at w)];
  dec := de_struct ["off_at"; "on_at"]%string (fun s =>
    off ← need w_time "off_at" s; on ← need w_time "on_at" s; Some (mk_window off on));
|}.

Definition w_schedule : wire Schedule.t := {|
  valid s := Forall (valid w_off_window) (Schedule.windows s);
  enc s := VObject [field w_string "revision" (Schedule.revision s);
                    field w_power_action "action" (Schedule.action s);
                    field w_string "timezone" (Schedule.timezone s);
                    field (w_vec w_off_window) "windows" (Schedule.windows s)];
  dec := de_struct ["revision"; "action"; "timezone"; "windows"]%string (fun s =>
    revision ← need w_string "revision" s; action ← need w_power_action "action" s;
    timezone ← need w_string "timezone" s; windows ← need (w_vec w_off_window) "windows" s;
    Some (Schedule.mk revision action timezone windows));
|}.

(** ** Answers of the controller *)
Definition dec_register_response : value -> option RegisterResponse :=
  de_struct ["device_id"; "controller_id"; "registered_at"; "heartbeat_interval_seconds"; "accepted";
             "schedule"]%string (fun s =>
    device_id ← need w_uuid "device_id" s; controller_id ← need w_uuid "controller_id" s;
    registered_at ← need w_time "registered_at" s;
    interval ← need w_u32 "heartbeat_interval_seconds" s; accepted ← need w_bool "accepted" s;
    schedule ← need_default (w_option w_schedule) None "schedule" s;
    Some (mk_register_response device_id controller_id registered_at interval accepted schedule)).
Definition dec_heartbeat_response : value -> option HeartbeatResponse :=
  de_struct ["accepted"; "server_time"; "heartbeat_interval_seconds"; "schedule"]%string (fun s =>
    accepted ← need w_bool "accepted" s; server_time ← need w_time "server_time" s;
    interval ← need w_u32 "heartbeat_interval_seconds" s;
    schedule ← need_default (w_option w_schedule) None "schedule" s;
    Some (mk_heartbeat_response accepted server_time interval schedule)).
Definition dec_event_result : value -> option EventResult :=
  de_struct ["event_id"; "status"; "reason"]%string (fun s =>
    event_id ← need w_uuid "event_id" s; status ← (v ← get s (camel_case "status"); dec_event_result_status v);
    reason ← need_option w_string "reason" s; Some (mk_event_result event_id status reason)).
Definition dec_event_submission_response : value -> option EventSubmissionResponse :=
  de_struct ["accepted"; "duplicates"; "rejected"; "results"]%string (fun s =>
    accepted ← need w_u32 "accepted" s; duplicates ← need w_u32 "duplicates" s;
    rejected ← need w_u32 "rejected" s;
    results ← (v ← get s (camel_case "results");
               match v with VArray vs => mapM dec_event_result vs | _ => None end);
    Some (mk_submission_response accepted duplicates rejected results)).
Definition dec_system_info_response : value -> option SystemInfoResponse :=
  de_struct ["controller_id"; "controller_name"; "protocol_version"; "controller_version";
             "server_time"]%string (fun s =>
    controller_id ← need w_uuid "controller_id" s; controller_name ← need w_string "controller_name" s;
    protocol_version ← need w_u32 "protocol_version" s;
    controller_version ← need w_string "controller_version" s; server_time ← need w_time "server_time" s;
    Some (mk_system_info controller_id controller_name protocol_version controller_version server_time)).

(** ** Messages: [AgentMessage] and [messages.rs] *)
Definition w_agent_message : wire AgentMessage.t := {|
  valid m := valid w_i64 (AgentMessage.seq m) /\ valid w_uuid (AgentMessage.id m) /\
             valid w_time (AgentMessage.created_at m) /\ valid w_time (AgentMessage.expires_at m);
  enc m := VObject [field w_i64 "seq" (AgentMessage.seq m); field w_uuid "id" (AgentMessage.id m);
                    field (w_option w_string) "title" (AgentMessage.title m);
                    field w_string "body" (AgentMessage.body m);
                    field w_time "created_at" (AgentMessage.created_at m);
                    field w_time "expires_at" (AgentMessage.expires_at m)];
  dec := de_struct ["seq"; "id"; "title"; "body"; "created_at"; "expires_at"]%string (fun s =>
    seq ← need w_i64 "seq" s; id ← need w_uuid "id" s; title ← need_option w_string "title" s;
    body ← need w_string "body" s; created_at ← need w_time "created_at" s;
    expires_at ← need w_time "expires_at" s; Some (AgentMessage.mk seq id title body created_at expires_at));
|}.

Definition w_message_store : wire MessageStore.t := {|
  valid s := valid w_i64 (MessageStore.last_seq s) /\ Forall (valid w_agent_message) (MessageStore.messages s);
  enc s := VObject [field w_i64 "last_seq" (MessageStore.last_seq s);
                    field (w_vec w_agent_message) "messages" (MessageStore.messages s)];
  dec := de_struct ["last_seq"; "messages"]%string (fun s =>
    last_seq ← need w_i64 "last_seq" s; messages ← need (w_vec w_agent_message) "messages" s;
    Some (MessageStore.mk last_seq messages));
|}.

(** ** [discovery.rs] *)
Definition enc_discover_request (m : DiscoverRequestMessage) : value :=
  VObject [field w_string "protocol" (dm_protocol m); field w_u32 "protocol_version" (dm_protocol_version m);
           field w_string "message_type" (dm_message_type m); field w_uuid "request_id" (dm_request_id m);
           field w_string "agent_version" (dm_agent_version m); field w_uuid "device_id" (dm_device_id m);
           field w_string "hostname" (dm_hostname m)].
Definition dec_controller_available : value -> option ControllerAvailableMessage :=
  de_struct ["protocol"; "protocol_version"; "message_type"; "request_id"; "controller_id";
             "controller_name"; "controller_url"; "priority"]%string (fun s =>
    protocol ← need w_string "protocol" s; protocol_version ← need w_u32 "protocol_version" s;
    message_type ← need w_string "message_type" s; request_id ← need w_uuid "request_id" s;
    controller_id ← need w_uuid "controller_id" s; controller_name ← need w_string "controller_name" s;
    controller_url ← need w_string "controller_url" s; priority ← need w_i32 "priority" s;
    Some (mk_available protocol protocol_version message_type request_id controller_id controller_name
            controller_url priority)).

(** ** [ipc/src/lib.rs] *)
Definition w_action : wire Action.t :=
  w_names Action.debug [Action.Shutdown; Action.Restart; Action.Sleep; Action.Logoff; Action.Lock;
                        Action.BreakStart].
Definition w_reason : wire Reason.t :=
  w_names (fun r => match r with
                    | Reason.Schedule => "Schedule" | Reason.DailyLimit => "DailyLimit"
                    | Reason.MandatoryBreak => "MandatoryBreak" | Reason.RemoteCommand => "RemoteCommand"
                    end%string)
    [Reason.Schedule; Reason.DailyLimit; Reason.MandatoryBreak; Reason.RemoteCommand].

Definition w_pending_action : wire PendingAction := {|
  valid p := valid w_uuid (pa_id p) /\ valid w_time (pa_at_utc p);
  enc p := VObject [field w_uuid "id" (pa_id p); field w_action "action" (pa_action p);
                    field w_time "at_utc" (pa_at_utc p); field w_reason "reason" (pa_reason p)];
  dec := de_struct ["id"; "action"; "at_utc"; "reason"]%string (fun s =>
    id ← need w_uuid "id" s; action ← need w_action "action" s; at_utc ← need w_time "at_utc" s;
    reason ← need w_reason "reason" s; Some (mk_action id action at_utc reason));
|}.
Definition w_message : wire Message := {|
  valid m := valid w_uuid (m_id m) /\ valid w_time (m_sent_utc m) /\ valid w_time (m_expires_utc m);
  enc m := VObject [field w_uuid "id" (m_id m); field (w_option w_string) "title" (m_title m);
                    field w_string "body" (m_body m); field w_time "sent_utc" (m_sent_utc m);
                    field w_time "expires_utc" (m_expires_utc m)];
  dec := de_struct ["id"; "title"; "body"; "sent_utc"; "expires_utc"]%string (fun s =>
    id ← need w_uuid "id" s; title ← need_option w_string "title" s; body ← need w_string "body" s;
    sent_utc ← need w_time "sent_utc" s; expires_utc ← need w_time "expires_utc" s;
    Some (mk_message id title body sent_utc expires_utc));
|}.

Definition w_request : wire Request := {|
  valid _ := True;
  enc r := VObject [("type", VString match r with GetPending => "GetPending" | GetMessages => "GetMessages" end)]%string;
  dec := de_tagged "type" (fun t =>
    if String.eqb t "GetPending" then de_unit_variant GetPending
    else if String.eqb t "GetMessages" then de_unit_variant GetMessages else fun _ => None);
|}.
Definition w_response : wire Response := {|
  valid r := match r with
             | Pending at_ actions => valid w_time at_ /\ Forall (valid w_pending_action) actions
             | Messages at_ messages => valid w_time at_ /\ Forall (valid w_message) messages
             end;
  enc r := match r with
           | Pending at_ actions =>
               VObject [("type"%string, VString "Pending"); field w_time "server_utc" at_;
                        field (w_vec w_pending_action) "actions" actions]
           | Messages at_ messages =>
               VObject [("type"%string, VString "Messages"); field w_time "server_utc" at_;
                        field (w_vec w_message) "messages" messages]
           end;
  dec := de_tagged "type" (fun t =>
    if String.eqb t "Pending" then
      de_struct ["server_utc"; "actions"]%string (fun s =>
        at_ ← need w_time "server_utc" s; actions ← need (w_vec w_pending_action) "actions" s;
        Some (Pending at_ actions))
    else if String.eqb t "Messages" then
      de_struct ["server_utc"; "messages"]%string (fun s =>
        at_ ← need w_time "server_utc" s; messages ← need (w_vec w_message) "messages" s;
        Some (Messages at_ messages))
    else fun _ => None);
|}.

(** ** [state.rs] *)
Definition w_shown : wire (list Uuid) := w_vec w_uuid.
End Types.

(** ** Types written and read by the program: what is written is read back *)
Section Lawful.
Context {UT : UuidText} {UL : UuidTextLaws} {TJ : TimeJson} {TJL : TimeJsonLaws}.

#[export] Instance event_type_lawful : Lawful w_event_type.
Proof. apply names_lawful. by intros []. Qed.
#[export] Instance event_severity_lawful : Lawful w_event_severity.
Proof. apply names_lawful. by intros []. Qed.
#[export] Instance event_source_lawful : Lawful w_event_source.
Proof. apply names_lawful. by intros []. Qed.
#[export] Instance power_action_lawful : Lawful w_power_action.
Proof. apply names_lawful. by intros []. Qed.
#[export] Instance action_lawful : Lawful w_action.
Proof. apply names_lawful. by intros []. Qed.
#[export] Instance reason_lawful : Lawful w_reason.
Proof. apply names_lawful. by intros []. Qed.

#[export] Instance off_window_lawful : Lawful w_off_window.
Proof.
  split; [plain_fields|]. intros [off on] [H1 H2]. cbn [w_off_window enc dec off_at on_at]. read_fields.
Qed.
#[export] Instance schedule_lawful : Lawful w_schedule.
Proof.
  split; [plain_fields|]. intros [revision action timezone windows] H. simpl in H.
  cbn [w_schedule enc dec Schedule.revision Schedule.action Schedule.timezone Schedule.windows]. read_fields.
Qed.
#[export] Instance agent_message_lawful : Lawful w_agent_message.
Proof.
  split; [plain_fields|]. intros [seq id title body created_at expires_at] (H1 & H2 & H3 & H4).
  cbn [w_agent_message enc dec AgentMessage.seq AgentMessage.id AgentMessage.title AgentMessage.body
       AgentMessage.created_at AgentMessage.expires_at] in *. read_fields.
Qed.
#[export] Instance message_store_lawful : Lawful w_message_store.
Proof.
  split; [plain_fields|]. intros [last_seq messages] [H1 H2].
  cbn [w_message_store enc dec MessageStore.last_seq MessageStore.messages] in *. read_fields.
Qed.
#[export] Instance pending_action_lawful : Lawful w_pending_action.
Proof.
  split; [plain_fields|]. intros [id action at_utc reason] [H1 H2].
  cbn [w_pending_action enc dec pa_id pa_action pa_at_utc pa_reason] in *. read_fields.
Qed.
#[export] Instance message_lawful : Lawful w_message.
Proof.
  split; [plain_fields|]. intros [id title body sent_utc expires_utc] (H1 & H2 & H3).
  cbn [w_message enc dec m_id m_title m_body m_sent_utc m_expires_utc] in *. read_fields.
Qed.
#[export] Instance request_lawful : Lawful w_request.
Proof. split; by intros []. Qed.
#[export] Instance response_lawful : Lawful w_response.
Proof.
  split.
  - intros [at_ l|at_ l]; (apply plain_cons; [done|]); plain_fields.
  - intros [at_ l|at_ l] [H1 H2];
      [change (de_struct ["server_utc"; "actions"]%string
         (fun s => at_ ← need w_time "server_utc" s; actions ← need (w_vec w_pending_action) "actions" s;
                   Some (Pending at_ actions))
         (VObject [field w_time "server_utc" at_; field (w_vec w_pending_action) "actions" l]) =
         Some (Pending at_ l))
      |change (de_struct ["server_utc"; "messages"]%string
         (fun s => at_ ← need w_time "server_utc" s; messages ← need (w_vec w_message) "messages" s;
                   Some (Messages at_ messages))
         (VObject [field w_time "server_utc" at_; field (w_vec w_message) "messages" l]) =
         Some (Messages at_ l))]; read_fields.
Qed.
End Lawful.

(** ** Text *)

(** [serde_json::to_string] and [from_str]; the caches use [to_vec_pretty]. *)
Definition serde_of `{!JsonText} {A} (w : wire A) : Serde A := {|
  to_json a := Some (json_print (enc w a));
  from_json s := v ← json_parse s; dec w v;
|}.
Definition serde_pretty `{!JsonText} {A} (w : wire A) : Serde A := {|
  to_json a := Some (json_pretty (enc w a));
  from_json s := v ← json_parse s; dec w v;
|}.
Definition serialize_only `{!JsonText} {A} (enc : A -> value) : Serde A :=
  {| to_json a := Some (json_print (enc a)); from_json _ := None |}.
Definition deserialize_only `{!JsonText} {A} (dec : value -> option A) : Serde A :=
  {| to_json _ := None; from_json s := v ← json_parse s; dec v |}.

Section Text.
Context {JT : JsonText} {JTL : JsonTextLaws}.

Lemma text_round_trip {A} (w : wire A) `{!Lawful w} a : valid w a ->
  (v ← json_parse (json_print (enc w a)); dec w v) = Some a.
Proof. intros Ha. rewrite json_round_trip by apply enc_plain. by apply dec_enc. Qed.
Lemma pretty_round_trip {A} (w : wire A) `{!Lawful w} a : valid w a ->
  (v ← json_parse (json_pretty (enc w a)); dec w v) = Some a.
Proof. intros Ha. rewrite json_pretty_round_trip by apply enc_plain. by apply dec_enc. Qed.

(** The laws the components ask of the codecs, where every value of the type
    can be written. *)
Lemma serde_laws {A} (w : wire A) `{!Lawful w} : (forall a, valid w a) -> @SerdeLaws A (serde_of w).
Proof. intros Ha. split. intros a. eexists. split; [done|]. by apply text_round_trip. Qed.
Lemma serde_pretty_laws {A} (w : wire A) `{!Lawful w} :
  (forall a, valid w a) -> @SerdeLaws A (serde_pretty w).
Proof. intros Ha. split. intros a. eexists. split; [done|]. by apply pretty_round_trip. Qed.
End Text.

(** ** The lines of the pipe *)

(** [read_line] after [read_line]: with the line's end, which the last one
    need not have. *)
Fixpoint raw_lines (s : string) : list string :=
  match s with
  | EmptyString => []
  | String c s' =>
      if Ascii.eqb c "010" then newline :: raw_lines s'
      else match raw_lines s' with
           | [] => [String c EmptyString]
           | l :: ls => String c l :: ls
           end
  end.
Definition read_line (s : string) : string := hd EmptyString (raw_lines s).
Fixpoint chomp (l : string) : string :=
  match l with
  | EmptyString => EmptyString
  | String c l' =>
      if String.eqb l newline || String.eqb l (String "013" newline) then EmptyString
      else String c (chomp l')
  end.
(** [BufReader::lines]. *)
Definition lines (s : string) : list string := map chomp (raw_lines s).

Definition written (ls : list string) : string := foldr (fun l s => l +:+ newline +:+ s) EmptyString ls.

Lemma raw_lines_cons l rest : one_line l = true ->
  raw_lines (l +:+ newline +:+ rest) = (l +:+ newline) :: raw_lines rest.
Proof.
  induction l as [|c l IH]; intros Hl; [done|]. simpl in *. apply andb_true_iff in Hl as [Hc Hl].
  unfold breaks_line in Hc. destruct (Ascii.eqb c "010"); [done|]. by rewrite (IH Hl).
Qed.
Lemma chomp_line l : one_line l = true -> chomp (l +:+ newline) = l.
Proof.
  induction l as [|c l IH]; intros Hl; [done|]. simpl in Hl. apply andb_true_iff in Hl as [Hc Hl].
  unfold breaks_line in Hc. 
  change (chomp (String c l +:+ newline)) with
    (if String.eqb (String c (l +:+ newline)) newline || String.eqb (String c (l +:+ newline)) (String "013" newline)
     then EmptyString else String c (chomp (l +:+ newline))).
  assert (H1 : String.eqb (String c (l +:+ newline)) newline = false)
    by (apply String.eqb_neq; intros [= -> _]; done).
  assert (H2 : String.eqb (String c (l +:+ newline)) (String "013" newline) = false)
    by (apply String.eqb_neq; intros [= -> _]; done).
  by rewrite H1, H2, IH.
Qed.
Lemma lines_written ls : Forall (fun l => one_line l = true) ls -> lines (written ls) = ls.
Proof.
  unfold lines. induction 1 as [|l ls Hl Hls IH]; [done|]. cbn [written foldr]. fold (written ls).
  rewrite raw_lines_cons by done. simpl. by rewrite chomp_line, IH.
Qed.

Section Pipe.
Context {TT : TimeText} {UT : UuidText} {UL : UuidTextLaws} {TJ : TimeJson} {TJL : TimeJsonLaws}.
Context {JT : JsonText} {JTL : JsonTextLaws}.
Context (new_v5 : string -> Uuid).

#[local] Instance request_text : Serde Request := serde_of w_request.
#[local] Instance response_text : Serde Response := serde_of w_response.

(** One client of [serve]: what it has written, the view each of its lines is
    answered from, and what is written back. *)
Definition serve_text (received : string) (views : list agent_view) : string :=
  written (serve_lines new_v5
    (zip_with (fun line v => (line, v.1.1, v.1.2, v.2)) (lines received) views)).

Definition view_valid (v : agent_view) : Prop :=
  valid (w_option w_schedule) v.1.1 /\ valid (w_vec w_agent_message) v.1.2 /\ valid w_time v.2.

Lemma respond_valid r (v : agent_view) : (forall name, uuid_valid (new_v5 name)) -> view_valid v ->
  valid w_response (respond new_v5 r v.1.1 v.1.2 v.2).
Proof.
  destruct v as [[s m] now]. intros Hid (Hs & Hm & Hnow). cbn [fst snd] in *.
  destruct r; (split; [exact Hnow|]).
  - destruct s as [s|]; [|by constructor]. apply Forall_map, Forall_forall.
    intros w [Hw _]%elem_of_bfilter. simpl in Hs. rewrite Forall_forall in Hs.
    split; [apply Hid|]. by destruct (Hs w Hw).
  - apply Forall_map, Forall_forall. intros x [Hx _]%elem_of_bfilter. simpl in Hm.
    rewrite Forall_forall in Hm. by destruct (Hm x Hx) as (_ & H1 & H2 & H3).
Qed.

Lemma request_answered r (v : agent_view) :
  handle_line new_v5 (json_print (enc w_request r)) v.1.1 v.1.2 v.2 =
  Some (json_print (enc w_response (respond new_v5 r v.1.1 v.1.2 v.2))).
Proof.
  assert (H : from_json (json_print (enc w_request r)) = Some r) by (by apply (text_round_trip w_request)).
  unfold handle_line. by rewrite H.
Qed.

(** [transport::call] over bytes: [exchange] is what the other end writes for
    what was written. *)
Definition call_text (exchange : string -> string) (request : Request) : result string Response :=
  match to_json request with
  | None => Err "could not serialise"%string
  | Some text =>
      match from_json (read_line (exchange (text +:+ newline))) with
      | Some response => Ok response
      | None => Err "could not parse"%string
      end
  end.

Definition questions (qs : list (Request * agent_view)) : list string :=
  map (fun q => json_print (enc w_request q.1)) qs.
Definition answers (qs : list (Request * agent_view)) : list string :=
  map (fun q => json_print (enc w_response (respond new_v5 q.1 q.2.1.1 q.2.1.2 q.2.2))) qs.

Lemma print_one_line {A} (f : A -> value) l : Forall (fun s => one_line s = true) (map (fun a => json_print (f a)) l).
Proof. apply Forall_map, Forall_true. intros a. apply json_one_line. Qed.

Lemma conversation_text qs :
  serve_text (written (questions qs)) (map snd qs) = written (answers qs).
Proof.
  unfold serve_text. rewrite lines_written by apply (print_one_line (fun q => enc w_request q.1)).
  f_equal. induction qs as [|[r v] qs IH]; [done|]. cbn [questions answers map zip_with serve_lines fst snd].
  rewrite request_answered. f_equal. exact IH.
Qed.

Lemma read_line_written l ls : one_line l = true -> read_line (written (l :: ls)) = l +:+ newline.
Proof. intros Hl. unfold read_line. cbn [written foldr]. by rewrite raw_lines_cons. Qed.

(** C32. The two programs understand each other's bytes.  Whatever questions a
    notifier writes in one connection, each from its own view of schedule,
    messages and clock: the agent's lines, split and parsed as the notifier
    splits and parses, are exactly the answers to the questions, one line for
    each, in their order; and a single round trip ([call]) returns the answer.
    Titles and texts of messages may hold any characters, line ends and quotes
    included. *)
Theorem pipe_conversation (qs : list (Request * agent_view)) :
  (forall name, uuid_valid (new_v5 name)) -> Forall (fun q => view_valid q.2) qs ->
  let answer q := respond new_v5 q.1 q.2.1.1 q.2.1.2 q.2.2 in
  map from_json (lines (serve_text (written (questions qs)) (map snd qs))) =
    map (fun q => Some (answer q)) qs /\
  Forall (fun q => call_text (fun sent => serve_text sent [q.2]) q.1 = Ok (answer q)) qs.
Proof.
  intros Hid Hv answer. split.
  - rewrite conversation_text, lines_written
      by apply (print_one_line (fun q => enc w_response (respond new_v5 q.1 q.2.1.1 q.2.1.2 q.2.2))).
    unfold answers. rewrite map_map. apply map_ext_in. intros q Hq%list_elem_of_In.
    rewrite Forall_forall in Hv. apply (text_round_trip w_response), respond_valid; [done|]. by apply Hv.
  - eapply Forall_impl; [exact Hv|]. intros q Hq. unfold call_text. cbn [to_json request_text serde_of].
    pose proof (conversation_text [q]) as Ht. cbn [written questions map foldr] in Ht.
    change (String.app newline EmptyString) with newline in Ht. rewrite Ht.
    unfold answers. cbn [map]. rewrite read_line_written by apply json_one_line.
    cbn [from_json response_text serde_of]. rewrite json_line_round_trip by apply enc_plain. cbn [mbind option_bind].
    by rewrite dec_enc by (by apply respond_valid).
Qed.
End Pipe.

(** ** Concrete codecs: [Rfc] with fixed-width times and ids *)
Definition sample_time_json : TimeJson :=
  let _ := Bits.time_text in {| time_valid := representable; time_text := to_rfc3339; time_read := parse_from_rfc3339 |}.
Definition sample_time_json_laws : @TimeJsonLaws sample_time_json.
Proof. split. intros t Ht. by apply (@rfc3339_round_trip _ Bits.time_text_laws). Qed.

#[local] Existing Instances Bits.uuid_text Bits.uuid_text_laws Bits.time_text sample_time_json
  sample_time_json_laws Rfc.text Rfc.text_laws.
#[local] Existing Instances request_text response_text.

Definition sample_questions : list (Request * agent_view) :=
  let s := Schedule.mk "r1" Sleep "Europe/Dublin" [mk_window (secs 600) (secs 1200)] in
  let m := AgentMessage.mk 1 7%N (Some (String "034" "Hi")) (String "010" "Dinner") (secs 10) (secs 900) in
  [(GetPending, (Some s, [], secs 100)); (GetMessages, (None, [m], secs 100))].

(** A warning and a message with a quote and a line end. *)
Lemma pipe_conversation_witness :
  Forall (fun q => view_valid q.2) sample_questions /\
  map from_json (lines (serve_text (fun _ => 5%N) (written (questions sample_questions))
                          (map snd sample_questions))) =
  [Some (Pending (secs 100) [mk_action 5 Action.Sleep (secs 600) Reason.Schedule]);
   Some (Messages (secs 100) [mk_message 7 (Some (String "034" "Hi")) (String "010" "Dinner") (secs 10) (secs 900)])].
Proof.
  assert (Ht : forall t, 0 <= t < 2 ^ 64 -> valid w_time t) by (intros t Ht; exact Ht).
  assert (Hv : Forall (fun q => view_valid q.2) sample_questions).
  { apply Forall_cons_2; [|apply Forall_cons_2; [|apply Forall_nil_2]]; (split; [|split; [|by apply Ht]]).
    - apply Forall_singleton. split; by apply Ht.
    - apply Forall_nil_2.
    - exact I.
    - apply Forall_singleton. split; [done|]. split; [done|]. split; by apply Ht. }
  split; [exact Hv|].
  assert (Hid : forall name : string, uuid_valid 5%N) by (intros _; exact eq_refl).
  destruct (pipe_conversation (fun _ => 5%N) sample_questions Hid Hv) as [H _]. exact H.
Defined.
