(* ===== verification/Toast.v ===== *)
(** * What the user sees ([notifier/src/ui.rs])

    The display of the notifier on Windows.  The first part reads a toast's
    markup back the way an XML processor and the toast schema do, and shows
    that [toast_xml] says what it is meant to say.  The second is the action
    centre: [try_show], [dismiss] and the turns of the main loop over it.  The
    third is [init]: the mutex that keeps a second notifier of the same user
    session from running, and the registration of the toast identity. *)
From Stdlib Require Import Ascii.
From stdpp Require Import pretty relations.
From S2P Require Import Prelude Codec Fs Ipc Notifier Warnings.
#[local] Open Scope Z_scope.

(** ** Reading markup

    The part of XML 1.0 that toasts use: tags with quoted attribute values
    (kept as they are written), text with the five predefined entities, the
    characters a document may contain, line ends normalised before anything
    else (sections 2.2, 2.4, 2.11, 4.6). *)
Definition snoc (s : string) (c : ascii) : string := s +:+ String c EmptyString.

Definition LF : ascii := ascii_of_N 10.
Definition CR : ascii := ascii_of_N 13.

Fixpoint newlines (s : string) : string :=
  match s with
  | EmptyString => EmptyString
  | String c s' =>
      if Ascii.eqb c CR then
        match s' with
        | String d _ => if Ascii.eqb d LF then newlines s' else String LF (newlines s')
        | EmptyString => String LF EmptyString
        end
      else String c (newlines s')
  end.

Definition xml_char (c : ascii) : bool :=
  (32 <=? N_of_ascii c)%N || Ascii.eqb c (ascii_of_N 9) || Ascii.eqb c LF || Ascii.eqb c CR.

Fixpoint xml_text (s : string) : bool :=
  match s with EmptyString => true | String c s' => xml_char c && xml_text s' end.

Definition entity (name : string) : option ascii :=
  if String.eqb name "amp" then Some "&"%char
  else if String.eqb name "lt" then Some "<"%char
  else if String.eqb name "gt" then Some ">"%char
  else if String.eqb name "quot" then Some quote_char
  else if String.eqb name "apos" then Some "'"%char
  else None.

Inductive token : Type := TTag (tag : string) | TText (text : string).
#[export] Instance token_eq_dec : EqDecision token.
Proof. solve_decision. Defined.

(** Where the reader is, with what it has read of the current item. *)
Inductive mode : Type :=
| InText (acc : string)
| InEntity (acc name : string)
| InTag (acc : string)
| InValue (acc : string).

Definition flush (acc : string) (rest : option (list token)) : option (list token) :=
  match acc with EmptyString => rest | _ => cons (TText acc) <$> rest end.

Fixpoint scan (m : mode) (s : string) : option (list token) :=
  match s with
  | EmptyString => match m with InText acc => flush acc (Some []) | _ => None end
  | String c s' =>
      match m with
      | InText acc =>
          if Ascii.eqb c "<" then flush acc (scan (InTag EmptyString) s')
          else if Ascii.eqb c "&" then scan (InEntity acc EmptyString) s'
          else if xml_char c then scan (InText (snoc acc c)) s' else None
      | InEntity acc name =>
          if Ascii.eqb c ";" then
            match entity name with Some d => scan (InText (snoc acc d)) s' | None => None end
          else scan (InEntity acc (snoc name c)) s'
      | InTag acc =>
          if Ascii.eqb c ">" then cons (TTag acc) <$> scan (InText EmptyString) s'
          else if Ascii.eqb c quote_char then scan (InValue (snoc acc c)) s'
          else if Ascii.eqb c "<" then None
          else scan (InTag (snoc acc c)) s'
      | InValue acc =>
          if Ascii.eqb c quote_char then scan (InTag (snoc acc c)) s'
          else if Ascii.eqb c "<" then None
          else scan (InValue (snoc acc c)) s'
      end
  end.

(** A generic toast: two lines of text, kept on screen if the scenario is
    [reminder] and there is a button. *)
Definition expect (t : token) (l : list token) : option (list token) :=
  match l with x :: l' => if decide (x = t) then Some l' else None | [] => None end.

Definition text_element (l : list token) : option (string * list token) :=
  l ← expect (TTag "text") l;
  match l with
  | TText s :: l' => (fun l => (s, l)) <$> expect (TTag "/text") l'
  | _ => (fun l => (EmptyString, l)) <$> expect (TTag "/text") l
  end.

Definition reminder_tag : string := "toast " +:+ attr "scenario" "reminder".
Definition binding_tag : string := "binding " +:+ attr "template" "ToastGeneric".
Definition dismiss_tag : string :=
  "action " +:+ attr "content" "Dismiss" +:+ " " +:+ attr "arguments" "dismiss" +:+ " " +:+
  attr "activationType" "system" +:+ "/".

Definition scenario (l : list token) : option (bool * list token) :=
  match expect (TTag "toast") l with
  | Some l => Some (false, l)
  | None => (fun l => (true, l)) <$> expect (TTag reminder_tag) l
  end.

Definition button (l : list token) : option (bool * list token) :=
  match expect (TTag "actions") l with
  | Some l => l ← expect (TTag dismiss_tag) l; (fun l => (true, l)) <$> expect (TTag "/actions") l
  | None => Some (false, l)
  end.

Definition document (l : list token) : option ToastText :=
  '(reminder, l) ← scenario l;
  l ← expect (TTag "visual") l;
  l ← expect (TTag binding_tag) l;
  '(title, l) ← text_element l;
  '(body, l) ← text_element l;
  l ← expect (TTag "/binding") l;
  l ← expect (TTag "/visual") l;
  '(dismissable, l) ← button l;
  l ← expect (TTag "/toast") l;
  match l with [] => Some (mk_text title body (reminder && dismissable)) | _ => None end.

Definition read_toast (xml : string) : option ToastText :=
  l ← scan (InText EmptyString) (newlines xml); document l.

(** ** The markup says what the text is *)
Section Markup.

Lemma string_nil_app (s : string) : EmptyString +:+ s = s.
Proof. done. Qed.
Lemma snoc_app s c t : snoc s c +:+ t = s +:+ String c t.
Proof. unfold snoc. by rewrite string_app_assoc. Qed.

(** One escaped character is read back as the character, if it may occur. *)
Lemma scan_char c s acc :
  scan (InText acc) (escape_char c +:+ s) = if xml_char c then scan (InText (snoc acc c)) s else None.
Proof.
  unfold escape_char.
  destruct (Ascii.eqb_spec c "&") as [->|H1]; [done|].
  destruct (Ascii.eqb_spec c "<") as [->|H2]; [done|].
  destruct (Ascii.eqb_spec c ">") as [->|H3]; [done|].
  destruct (Ascii.eqb_spec c quote_char) as [->|H4]; [done|].
  destruct (Ascii.eqb_spec c "'") as [->|H5]; [done|].
  simpl. by rewrite (proj2 (Ascii.eqb_neq _ _) H1), (proj2 (Ascii.eqb_neq _ _) H2).
Qed.

Lemma scan_escaped s lit r acc :
  scan (InText acc) (escape s +:+ String "<" lit +:+ r) =
    if xml_text s then flush (acc +:+ s) (scan (InTag EmptyString) (lit +:+ r)) else None.
Proof.
  change (String "<" lit +:+ r) with (String "<" (lit +:+ r)). generalize (lit +:+ r). clear lit r.
  rewrite escape_charwise. revert acc. induction s as [|c s IH]; intros acc r.
  - simpl. by rewrite string_app_nil.
  - cbn [escape_all xml_text]. rewrite string_app_assoc, scan_char, IH, snoc_app.
    by destruct (xml_char c).
Qed.

(** Line ends: nothing the markup adds touches them. *)
Lemma newlines_cons c s : c <> CR -> newlines (String c s) = String c (newlines s).
Proof. intros H. simpl. by rewrite (proj2 (Ascii.eqb_neq _ _) H). Qed.

Lemma newlines_cr b s : newlines (String CR (String b s)) =
  if Ascii.eqb b LF then newlines (String b s) else String LF (newlines (String b s)).
Proof. done. Qed.

Lemma newlines_app s c t : c <> LF -> newlines (s +:+ String c t) = newlines s +:+ newlines (String c t).
Proof.
  intros Hc. induction s as [|a s IH]; [done|].
  change (newlines (String a (s +:+ String c t)) = newlines (String a s) +:+ newlines (String c t)).
  destruct (Ascii.eqb_spec a CR) as [->|Ha].
  - destruct s as [|b s].
    + simpl. by rewrite (proj2 (Ascii.eqb_neq _ _) Hc).
    + rewrite (newlines_cr b s). change (String b s +:+ String c t) with (String b (s +:+ String c t)) in *.
      rewrite newlines_cr, IH. by destruct (Ascii.eqb b LF).
  - rewrite !newlines_cons by done. by rewrite IH.
Qed.

Fixpoint no_cr (s : string) : bool :=
  match s with EmptyString => true | String c s' => negb (Ascii.eqb c CR) && no_cr s' end.
Lemma newlines_lit s t : no_cr s = true -> newlines (s +:+ t) = s +:+ newlines t.
Proof.
  induction s as [|c s IH]; [done|]. simpl. intros [Hc Hs]%andb_true_iff.
  apply negb_true_iff in Hc. rewrite Hc. exact (f_equal (String c) (IH Hs)).
Qed.

Lemma escape_char_text c : c <> CR -> no_cr (escape_char c) = true.
Proof.
  intros H. unfold escape_char. repeat case_match; try done. simpl.
  by rewrite (proj2 (Ascii.eqb_neq _ _) H).
Qed.
Lemma escape_char_head c : c <> LF -> exists d s, escape_char c = String d s /\ d <> LF.
Proof.
  intros H. unfold escape_char. repeat case_match; (eexists _, _; split; [reflexivity|]); done.
Qed.

Lemma newlines_escape s : newlines (escape s) = escape (newlines s).
Proof.
  rewrite !escape_charwise. induction s as [|c s IH]; [done|].
  destruct (Ascii.eqb_spec c CR) as [->|Hc].
  - destruct s as [|b s]; [done|]. destruct (Ascii.eqb_spec b LF) as [->|Hb].
    + change (newlines (String CR (String LF s))) with (newlines (String LF s)).
      rewrite <- IH. done.
    + destruct (escape_char_head b Hb) as (d & u & E & Hd).
      transitivity (String LF (newlines (escape_all (String b s)))).
      * cbn [escape_all]. rewrite E. simpl. by rewrite (proj2 (Ascii.eqb_neq _ _) Hd).
      * rewrite IH. simpl. by rewrite (proj2 (Ascii.eqb_neq _ _) Hb).
  - cbn [escape_all]. rewrite newlines_lit by (by apply escape_char_text).
    rewrite newlines_cons by done. cbn [escape_all]. by rewrite IH.
Qed.

Lemma newlines_xml_text s : xml_text (newlines s) = xml_text s.
Proof.
  induction s as [|c s IH]; [done|]. destruct (Ascii.eqb_spec c CR) as [->|Hc].
  - destruct s as [|b s]; [done|]. rewrite newlines_cr.
    transitivity (xml_text (newlines (String b s))); [by destruct (Ascii.eqb b LF)|by rewrite IH].
  - rewrite newlines_cons by done. simpl. by rewrite IH.
Qed.
(** The text as an XML processor passes it on. *)
Definition normalised (t : ToastText) : ToastText :=
  mk_text (newlines (title t)) (newlines (body t)) (urgent t).

Lemma newlines_escaped s lit t : no_cr lit = true ->
  newlines (escape s +:+ (String "<" lit +:+ t)) = escape (newlines s) +:+ (String "<" lit +:+ newlines t).
Proof.
  intros H. change (String "<" lit +:+ t) with (String "<" (lit +:+ t)).
  rewrite newlines_app by done. rewrite newlines_escape.
  change (String "<" (lit +:+ t)) with (String "<" lit +:+ t). by rewrite newlines_lit.
Qed.

Lemma newlines_toast t : newlines (toast_xml t) = toast_xml (normalised t).
Proof.
  destruct t as [ti bo u]. unfold toast_xml, normalised. cbn [title body urgent].
  destruct u; cbv zeta beta iota; rewrite !newlines_lit by reflexivity;
    rewrite !newlines_escaped by reflexivity; rewrite !newlines_lit by reflexivity; done.
Qed.

#[local] Arguments escape : simpl never.
(** The tokens of a toast, from the first line of text on. *)
Lemma scan_toast t :
  scan (InText EmptyString) (toast_xml t) =
    if xml_text (title t) && xml_text (body t) then
      Some ((if urgent t then [TTag reminder_tag] else [TTag "toast"]) ++
        [TTag "visual"; TTag binding_tag; TTag "text"] ++
        (match title t with EmptyString => [] | s => [TText s] end) ++
        [TTag "/text"; TTag "text"] ++
        (match body t with EmptyString => [] | s => [TText s] end) ++
        [TTag "/text"; TTag "/binding"; TTag "/visual"] ++
        (if urgent t then [TTag "actions"; TTag dismiss_tag; TTag "/actions"] else []) ++
        [TTag "/toast"])
    else None.
Proof.
  destruct t as [ti bo u]. unfold toast_xml. cbn [title body urgent].
  destruct u; simpl; rewrite (string_nil_app (escape ti +:+ _)), scan_escaped;
    (destruct (xml_text ti); [|done]); simpl; rewrite (string_nil_app (escape bo +:+ _)), scan_escaped;
    (destruct (xml_text bo); [|by destruct ti]); by destruct ti, bo.
Qed.

Lemma read_toast_xml (t : ToastText) :
  read_toast (toast_xml t) =
    if xml_text (title t) && xml_text (body t) then Some (normalised t) else None.
Proof.
  unfold read_toast. rewrite newlines_toast, scan_toast. unfold normalised. cbn [title body urgent].
  rewrite !newlines_xml_text. destruct (_ && _); [|done].
  by destruct (urgent t), (newlines (title t)), (newlines (body t)).
Qed.

End Markup.

(** Elsewhere than on Windows a toast is a line of text. *)
Module Console.
Definition init : bool := true.
Definition show (tag : string) (text : ToastText) : string :=
  "[toast " +:+ tag +:+ (if urgent text then " URGENT" else EmptyString) +:+ "] " +:+
  title text +:+ " - " +:+ body text.
Definition dismiss (tag : string) : string := "[dismiss " +:+ tag +:+ "]".
End Console.

(** ** The action centre

    What is on the screen: the markup of each toast under its group and tag.
    Showing a toast replaces the one with the same tag and group. *)
Abbreviation center := (gmap (string * string) string) (only parsing).

Definition AUMID : string := "TimeLord.Notifier".

(** The calls [try_show] and [dismiss] make. *)
Inductive toast_call : Type :=
| NewDocument | LoadXml | CreateToast | SetTag | SetGroup | CreateNotifier | Show
| History | RemoveTag.
#[export] Instance toast_call_eq_dec : EqDecision toast_call.
Proof. solve_decision. Defined.

Section Display.
Context {UT : UuidText}.
(** Which documents [LoadXml] takes. *)
Context (loads : string -> bool).

(** [failing]: the call that fails this time. *)
Definition winrt (failing : option toast_call) (c : toast_call) : result toast_call unit :=
  if decide (failing = Some c) then Err c else Ok tt.

Definition try_show (failing : option toast_call) (tag group : string) (text : ToastText) (c : center)
  : result toast_call unit * center :=
  let prepared :=
    _ ← winrt failing NewDocument;
    _ ← (if loads (toast_xml text) then winrt failing LoadXml else Err LoadXml);
    _ ← winrt failing CreateToast;
    _ ← winrt failing SetTag;
    _ ← winrt failing SetGroup;
    _ ← winrt failing CreateNotifier;
    winrt failing Show in
  match prepared with
  | Ok _ => (Ok tt, <[(group, tag) := toast_xml text]> c)
  | Err e => (Err e, c)
  end.

(** The second component: what went wrong, for the log. *)
Definition show (failing : option toast_call) (tag group : string) (text : ToastText) (c : center)
  : center * option toast_call :=
  match try_show failing tag group text c with
  | (Ok _, c') => (c', None)
  | (Err e, c') => (c', Some e)
  end.

Definition dismiss (failing : option toast_call) (tag group : string) (c : center)
  : center * option toast_call :=
  match (_ ← winrt failing History; winrt failing RemoveTag) with
  | Ok _ => (delete (group, tag) c, None)
  | Err e => (c, Some e)
  end.

Definition ACTIONS : string := "timelord-actions".
Definition MESSAGES : string := "timelord-messages".

Definition show_warning (failing : option toast_call) (id : Uuid) (text : ToastText) (c : center)
  : center * option toast_call := show failing (uuid_to_string id) ACTIONS text c.
Definition dismiss_warning (failing : option toast_call) (id : Uuid) (c : center)
  : center * option toast_call := dismiss failing (uuid_to_string id) ACTIONS c.
Definition show_message (failing : option toast_call) (id : Uuid) (text : ToastText) (c : center)
  : center * option toast_call := show failing (uuid_to_string id) MESSAGES text c.

(** What a turn of the main loop puts on the screen, each call with its own
    outcome. *)
Definition display_one (f : option toast_call) (s : shown) (c : center) : center :=
  match s with
  | ShowWarning id text => (show_warning f id text c).1
  | Dismiss id => (dismiss_warning f id c).1
  | ShowMessage id text => (show_message f id text c).1
  end.
Definition display (fs : list (option toast_call)) (l : list shown) (c : center) : center :=
  fold_left (fun c '(f, s) => display_one f s c) (zip_with pair fs l) c.

(** With a display that works. *)
Definition display_all (l : list shown) (c : center) : center :=
  fold_left (fun c s => display_one None s c) l c.

Lemma display_works l c : display (replicate (length l) None) l c = display_all l c.
Proof. revert c. induction l as [|s l IH]; intros c; [done|]. apply IH. Qed.

(** *** What is on the screen about one action *)
Context {UL : UuidTextLaws} (local : DateTime -> string).

Definition on_screen (x : Uuid) (c : center) : option string := c !! (ACTIONS, uuid_to_string x).

Lemma display_all_app l k c : display_all (l ++ k) c = display_all k (display_all l c).
Proof. apply fold_left_app. Qed.

Lemma messages_apart x (ms : list Message) (f : Message -> ToastText) c :
  on_screen x (display_all (map (fun m => ShowMessage (m_id m) (f m)) ms) c) = on_screen x c.
Proof.
  revert c. induction ms as [|m ms IH]; intros c; [done|]. simpl. rewrite IH.
  unfold on_screen, show_message, show, try_show. simpl.
  destruct (loads _); simpl; [by rewrite lookup_insert_ne|done].
Qed.

Lemma dismissed x ids c : uuid_valid x -> Forall uuid_valid ids ->
  on_screen x (display_all (map Dismiss ids) c) = if bool_decide (x ∈ ids) then None else on_screen x c.
Proof.
  intros Hx. revert c. induction ids as [|i ids IH]; intros c Hv; [done|].
  apply Forall_cons in Hv as [Hi Hv]. simpl. rewrite IH by done.
  unfold on_screen, dismiss_warning, dismiss. simpl.
  case_bool_decide as H1; case_bool_decide as H2; try done.
  - destruct H2. by right.
  - apply elem_of_cons in H2 as [->|?]; [by rewrite lookup_delete_eq|done].
  - rewrite lookup_delete_ne; [done|]. intros [= E%uuid_to_string_inj]; [|done..]. subst.
    destruct H2. by left.
Qed.

Definition warned_text (d : ToastDue) : ToastText := warning d (local (pa_at_utc (td_action d))).
Definition show_due (d : ToastDue) : shown := ShowWarning (pa_id (td_action d)) (warned_text d).
Definition about (x : Uuid) (l : list ToastDue) : list ToastDue :=
  List.filter (fun d => (pa_id (td_action d) =? x)%N) l.

Lemma shown_last x l c : uuid_valid x -> Forall (fun d => uuid_valid (pa_id (td_action d))) l ->
  Forall (fun d => loads (toast_xml (warned_text d)) = true) l ->
  on_screen x (display_all (map show_due l) c) =
    match last (about x l) with
    | Some d => Some (toast_xml (warned_text d))
    | None => on_screen x c
    end.
Proof.
  intros Hx. revert c. induction l as [|d l IH] using rev_ind; intros c Hv Hl; [done|].
  apply Forall_app in Hv as [Hv Hd]. apply Forall_app in Hl as [Hl Hld].
  apply Forall_cons_1 in Hd as [Hd _]. apply Forall_cons_1 in Hld as [Hld _]. unfold about. rewrite map_app, display_all_app, List.filter_app.
  fold (about x l). simpl. unfold show_due, show_warning, show, try_show. simpl. rewrite Hld. simpl.
  destruct (N.eqb_spec (pa_id (td_action d)) x) as [<-|Hne].
  - unfold on_screen at 1. by rewrite lookup_insert_eq, last_snoc.
  - unfold on_screen at 1. rewrite lookup_insert_ne, app_nil_r; [by apply IH|].
    intros [= E%uuid_to_string_inj]; done.
Qed.

(** *** A poll's effect on one action's warning *)
Import Engine.

(** The warnings put up are texts of their own. *)
Lemma xml_text_app s u : xml_text (s +:+ u) = xml_text s && xml_text u.
Proof. induction s as [|c s IH]; [done|]. simpl. rewrite <- andb_assoc. f_equal. exact IH. Qed.
Lemma xml_text_pretty_go n : forall s, xml_text s = true -> xml_text (pretty_N_go n s) = true.
Proof.
  induction (N.lt_wf_0 n) as [n _ IH]; intros s Hs. destruct (decide (0 < n)%N) as [Hn|Hn].
  - rewrite pretty_N_go_step by done. apply IH; [by apply N.div_lt|]. simpl. rewrite Hs, andb_true_r.
    unfold pretty_N_char. by repeat case_match.
  - assert (n = 0%N) as -> by lia. by rewrite pretty_N_go_0.
Qed.
Lemma xml_text_pretty (z : Z) : xml_text (pretty z) = true.
Proof.
  assert (Hn : forall n : N, xml_text (pretty n) = true).
  { intros n. unfold pretty, pretty_N. case_decide; [done|]. by apply xml_text_pretty_go. }
  destruct z as [|q|q]; [done|apply (Hn (N.pos q))|]. change (xml_text ("-" +:+ pretty (N.pos q)) = true).
  by rewrite xml_text_app, Hn.
Qed.

Context (Hloads : forall t, xml_text (title t) && xml_text (body t) = true -> loads (toast_xml t) = true).
Context (Hlocal : forall t, xml_text (local t) = true).

Lemma warning_loads d : loads (toast_xml (warned_text d)) = true.
Proof using Hloads Hlocal.
  apply Hloads. unfold warned_text, warning. cbn [title body].
  rewrite !xml_text_app, Hlocal. unfold remaining_phrase.
  destruct (pa_action (td_action d)), (pa_reason (td_action d)); simpl;
    repeat case_match; rewrite ?xml_text_app, ?xml_text_pretty; done.
Qed.

Lemma fired_pending e acts now x t : (x, t) ∈ fired (update e acts now).1 -> x ∈ map pa_id acts.
Proof.
  destruct (decide (x ∈ map pa_id acts)) as [|Hn]; [done|]. unfold update. simpl.
  rewrite (proj2 (fold_other now x acts _ Hn)). simpl. rewrite elem_of_filter, elem_of_list_to_set.
  by intros [? _].
Qed.

Lemma cancelled_spec e acts now x :
  x ∈ cancelled (update e acts now).2 <-> x ∈ known e /\ x ∉ map pa_id acts.
Proof. simpl. by rewrite elem_of_sorted_ids, elem_of_difference, elem_of_list_to_set. Qed.

(** What an answered poll puts on the screen. *)
Definition poll_effects (tick : Tick) : list shown :=
  map Dismiss (cancelled tick) ++ map show_due (toasts tick).

Lemma poll_on_screen e acts now x c : uuid_valid x ->
  Forall uuid_valid (map pa_id acts) -> (forall i, i ∈ known e -> uuid_valid i) ->
  on_screen x (display_all (poll_effects (update e acts now).2) c) =
    match last (about x (toasts (update e acts now).2)) with
    | Some d => Some (toast_xml (warned_text d))
    | None => if bool_decide (x ∈ known e /\ x ∉ map pa_id acts) then None else on_screen x c
    end.
Proof using Hloads Hlocal UL.
  intros Hx Ha Hk. unfold poll_effects. rewrite display_all_app, shown_last.
  - destruct (last _); [done|]. rewrite dismissed; [|done|].
    + by rewrite (bool_decide_ext _ _ (cancelled_spec e acts now x)).
    + apply Forall_forall. intros i [Hi _]%cancelled_spec. by apply Hk.
  - done.
  - eapply Forall_impl; [apply toasts_due|]. intros d (Hd & _).
    rewrite Forall_forall in Ha. apply Ha. by apply list_elem_of_fmap_2.
  - apply Forall_true. intros d. apply warning_loads.
Qed.

(** The mark a pending action has crossed. *)
Definition pending_mark (x : Uuid) (T : DateTime) (acts : list PendingAction) (now : DateTime) : option Z :=
  if bool_decide (x ∈ map pa_id acts) then crossed (num_seconds (T - now)) else None.

(** [s] is the warning given at the mark [b] at one of the polls. *)
Definition shows (x : Uuid) (T : DateTime) (polls : list (list PendingAction * DateTime)) (b : Z)
    (s : option string) : Prop :=
  exists p a, p ∈ polls /\ a ∈ p.1 /\ pa_id a = x /\ crossed (num_seconds (T - p.2)) = Some b /\
    s = Some (toast_xml (warning (mk_due a b (num_seconds (T - p.2))) (local T))).

(** Ids of a poll are distinct and texts, and [x] always stands at [T]. *)
Definition poll_ok (x : Uuid) (T : DateTime) (p : list PendingAction * DateTime) : Prop :=
  NoDup (map pa_id p.1) /\ Forall uuid_valid (map pa_id p.1) /\
  forall a, a ∈ p.1 -> pa_id a = x -> pa_at_utc a = T.

Definition screen_ok (x : Uuid) (T : DateTime) (polls : list (list PendingAction * DateTime))
    (acts : list PendingAction) (now : DateTime) (e : Engine.t) (c : center) : Prop :=
  (forall i, i ∈ known e -> uuid_valid i) /\ (x ∈ known e <-> x ∈ map pa_id acts) /\
  match pending_mark x T acts now with
  | None => on_screen x c = None /\ forall t, (x, t) ∉ fired e
  | Some b => shows x T polls b (on_screen x c) /\ forall t, (x, t) ∈ fired e -> b <= t
  end.

Lemma crossed_down r r' b : r' <= r -> crossed r = Some b -> exists b', crossed r' = Some b' /\ b' <= b.
Proof.
  rewrite !crossed_cases. intros Hr.
  destruct (Z.leb_spec r 30), (Z.leb_spec r 60), (Z.leb_spec r 300), (Z.leb_spec r 900),
    (Z.leb_spec r' 30), (Z.leb_spec r' 60), (Z.leb_spec r' 300), (Z.leb_spec r' 900);
    intros Hb; simplify_eq; (eexists; split; [reflexivity|lia]) || lia.
Qed.

Lemma about_none x l : warned x l = [] -> about x l = [].
Proof. unfold warned, about. by intros ?%map_eq_nil. Qed.
Lemma about_one x l b : warned x l = [b] -> exists d, about x l = [d] /\ d ∈ l /\ pa_id (td_action d) = x /\ threshold d = b.
Proof.
  unfold warned. fold (about x l). destruct (about x l) as [|d [|d' k]] eqn:E; [done| |done].
  intros [= <-]. exists d. split; [done|]. assert (Hd : d ∈ about x l) by (rewrite E; by left).
  apply elem_of_bfilter in Hd as [Hd Hi]. by apply N.eqb_eq in Hi.
Qed.

Lemma shows_more x T polls p b s : shows x T polls b s -> shows x T (polls ++ [p]) b s.
Proof. intros (q & a & Hq & H). exists q, a. split; [|done]. apply elem_of_app. by left. Qed.

Lemma poll_screen_ok x T polls acts now e c acts' now' : uuid_valid x ->
  screen_ok x T polls acts now e c -> poll_ok x T (acts', now') -> now <= now' ->
  screen_ok x T (polls ++ [(acts', now')]) acts' now' (update e acts' now').1
    (display_all (poll_effects (update e acts' now').2) c).
Proof using Hloads Hlocal UL.
  intros Hx (Hk & Hkx & Hm) (Hnd & Hv & HT) Hle. simpl in Hnd, Hv, HT.
  pose proof (poll_on_screen e acts' now' x c Hx Hv Hk) as Hs.
  pose proof (fired_pending e acts' now' x) as Hf. pose proof (toasts_due e acts' now') as Hd.
  assert (Hk' : forall i, i ∈ known (update e acts' now').1 <-> i ∈ map pa_id acts').
  { intros i. simpl. by rewrite elem_of_list_to_set. }
  split; [|split; [by apply Hk'|]].
  { intros i Hi%Hk'. rewrite Forall_forall in Hv. by apply Hv. }
  rewrite Hs. clear Hs. unfold pending_mark at 1. destruct (decide (x ∈ map pa_id acts')) as [Hin|Hin].
  2:{ rewrite (bool_decide_false (x ∈ _)) by done. replace (about x _) with (@nil ToastDue).
      2:{ symmetry. apply bfilter_none. intros d Hdt. apply N.eqb_neq. intros E. apply Hin.
          rewrite Forall_forall in Hd. destruct (Hd _ Hdt) as (Ha & _). rewrite <- E.
          by apply list_elem_of_fmap_2. }
      simpl. split; [|by intros t ?%Hf]. case_bool_decide as Hkn; [done|].
      unfold pending_mark in Hm. rewrite bool_decide_false in Hm; [apply Hm|]. tauto. }
  rewrite (bool_decide_true (x ∈ _)) by done. rewrite (bool_decide_false (_ /\ _)) by tauto.
  assert (Hex : exists a, a ∈ acts' /\ pa_id a = x /\ pa_at_utc a = T).
  { apply list_elem_of_fmap in Hin as (a & -> & Ha). exists a. auto. }
  pose proof (update_warned e acts' now' x T Hnd Hex) as Hu. cbv zeta in Hu.
  destruct (update e acts' now') as [e' tick]. cbn [fst snd] in *. destruct Hu as [Hw Hfi].
  set (r' := num_seconds (T - now')) in *.
  assert (Hprev : forall b, pending_mark x T acts now = Some b ->
    exists b', crossed r' = Some b' /\ b' <= b).
  { intros b. unfold pending_mark. destruct (bool_decide _); [|done]. apply crossed_down.
    unfold r', num_seconds, ns_per_sec. apply Z.quot_le_mono; lia. }
  destruct (crossed r') as [b'|] eqn:Eb.
  2:{ rewrite (about_none _ _ Hw). simpl. destruct (pending_mark x T acts now) as [b|].
      - by destruct (Hprev b eq_refl) as (? & ? & _).
      - destruct Hm as [Hc Hn]. split; [done|]. intros t [Ht|Ht]%Hfi; [by apply (Hn t)|done]. }
  assert (Hlow : forall t, (x, t) ∈ fired e -> b' <= t).
  { destruct (pending_mark x T acts now) as [b|]; [|intros t Ht; destruct Hm as [_ Hn]; by destruct (Hn t)].
    destruct (Hprev b eq_refl) as (? & [= <-] & Hbb). intros t Ht. destruct Hm as [_ Hb]. specialize (Hb t Ht). lia. }
  split; [|intros t [Ht|[= <-]]%Hfi; [by apply Hlow|lia]]. case_bool_decide as Hfr.
  - rewrite (about_none _ _ Hw). simpl. destruct (pending_mark x T acts now) as [b|].
    2:{ destruct Hm as [_ Hn]. by destruct (Hn b'). }
    destruct (Hprev b eq_refl) as (? & [= <-] & Hbb). destruct Hm as [Hsh Hb].
    specialize (Hb _ Hfr). replace b' with b by lia. by apply shows_more.
  - apply about_one in Hw as (d & -> & Hdt & Hid & Hth). simpl.
    rewrite Forall_forall in Hd. destruct (Hd d Hdt) as (Ha & Hrem & Hcr). cbn [fst snd] in *.
    specialize (HT _ Ha Hid). rewrite HT in Hrem. destruct d as [a th rem]. simpl in *. subst.
    exists (acts', now'), a. split; [apply elem_of_app; right; by left|]. split; [done|].
    split; [done|]. split; [done|]. unfold warned_text. done.
Qed.
(** *** The notifier's turns *)
Context {SI : Serde (list Uuid)} (state_path : path).

Record turn_input : Type := mk_turn_input {
  ti_fault : Fs.fault;
  ti_messages : result string Response;
  ti_pending : result string Response;
  ti_utc1 : DateTime;
  ti_utc2 : DateTime;
}.

Definition do_turn (x : turn_input) (s : notifier * center) : notifier * center :=
  let '(n, shown, _) := turn local (ti_fault x) state_path (ti_messages x) (ti_pending x)
                          (ti_utc1 x) (ti_utc2 x) s.1 in
  (n, display_all shown s.2).

Definition do_turns (l : list turn_input) (s : notifier * center) : notifier * center :=
  fold_left (fun s x => do_turn x s) l s.

(** The actions a turn was told, and the time it judged them by. *)
Definition told (x : turn_input) : option (list PendingAction * DateTime) :=
  match ti_pending x with
  | Ok (Pending server_utc actions) => Some (actions, ti_utc2 x - (ti_utc1 x - server_utc))
  | _ => None
  end.


Lemma new_messages_apart x f answer n c :
  on_screen x (display_all (show_new_messages f state_path answer n).2 c) = on_screen x c.
Proof.
  unfold show_new_messages. destruct answer as [[|u ms]|]; [done| |done].
  destruct (MessageTracker.take_new _ _ _) as [tr fresh]. apply messages_apart.
Qed.

(** An answered turn shows its messages and then the poll's warnings. *)
Lemma do_turn_told x tin n c acts now : told tin = Some (acts, now) ->
  exists c1, on_screen x c1 = on_screen x c /\
    (do_turn tin (n, c)).2 = display_all (poll_effects (update (n_engine n) acts now).2) c1 /\
    n_engine (do_turn tin (n, c)).1 = (update (n_engine n) acts now).1.
Proof.
  unfold told, do_turn, turn. destruct (ti_pending tin) as [[u l|]|]; [|done..]. intros [= <- <-].
  pose proof (show_new_messages_engine state_path (ti_fault tin) (ti_messages tin) n) as He.
  pose proof (new_messages_apart x (ti_fault tin) (ti_messages tin) n c) as Hm.
  destruct (show_new_messages _ _ _ _) as [n1 ms]. simpl in *. rewrite He.
  rewrite display_all_app. by eexists.
Qed.

Lemma do_turn_untold x tin n c : told tin = None ->
  on_screen x (do_turn tin (n, c)).2 = on_screen x c /\ n_engine (do_turn tin (n, c)).1 = n_engine n.
Proof.
  unfold told, do_turn, turn.
  pose proof (show_new_messages_engine state_path (ti_fault tin) (ti_messages tin) n) as He.
  pose proof (new_messages_apart x (ti_fault tin) (ti_messages tin) n c) as Hm.
  destruct (show_new_messages _ _ _ _) as [n1 ms]. simpl in *.
  by destruct (ti_pending tin) as [[u l|]|].
Qed.

Lemma turns_screen_ok x T l : uuid_valid x -> Forall (poll_ok x T) (omap told l) ->
  forall polls acts now n c, screen_ok x T polls acts now (n_engine n) c ->
  StronglySorted Z.le (now :: map snd (omap told l)) ->
  let q := from_option id (acts, now) (last (omap told l)) in
  let s' := do_turns l (n, c) in
  screen_ok x T (polls ++ omap told l) q.1 q.2 (n_engine s'.1) s'.2.
Proof using Hloads Hlocal UL.
  intros Hx. induction l as [|tin l IH]; intros Hp polls acts now n c Hok Hs.
  { simpl. by rewrite app_nil_r. }
  simpl. destruct (told tin) as [[acts' now']|] eqn:Et; simpl in Hp, Hs; rewrite Et in Hp, Hs.
  - apply Forall_cons in Hp as [Hp1 Hp]. simpl in Hs.
    pose proof (StronglySorted_inv Hs) as [Hs' Hle]. apply Forall_cons in Hle as [Hle _].
    destruct (do_turn_told x tin n c acts' now' Et) as (c1 & Hc1 & Hsc & He).
    assert (Hok1 : screen_ok x T polls acts now (n_engine n) c1).
    { destruct Hok as (H1 & H2 & H3). split; [done|]. split; [done|]. by rewrite Hc1. }
    pose proof (poll_screen_ok x T polls acts now _ c1 acts' now' Hx Hok1 Hp1 Hle) as Hok2.
    rewrite <- Hsc, <- He in Hok2. destruct (do_turn tin (n, c)) as [n2 c2]. simpl in Hok2.
    specialize (IH Hp _ _ _ _ _ Hok2 Hs'). rewrite <- app_assoc in IH. simpl in IH.
    rewrite last_cons. revert IH. change (list_omap _ _ told l) with (omap told l).
    by destruct (last (omap told l)).
  - destruct (do_turn_untold x tin n c Et) as [Hc He].
    assert (Hok1 : screen_ok x T polls acts now (n_engine (do_turn tin (n, c)).1) (do_turn tin (n, c)).2).
    { rewrite He. destruct Hok as (H1 & H2 & H3). split; [done|]. split; [done|]. by rewrite Hc. }
    destruct (do_turn tin (n, c)) as [n2 c2]. by apply IH.
Qed.

End Display.

(** A working display, and an action ten minutes away that comes within a
    minute, is looked away from, and is cancelled. *)
Section ToastSample.
#[local] Existing Instances Bits.uuid_text Bits.uuid_text_laws.
#[local] Instance sample_shown_ids : Serde (list Uuid) := Bits.serde_of_countable (list Uuid).

Definition parses (xml : string) : bool := bool_decide (is_Some (read_toast xml)).
Lemma parses_loads t : xml_text (title t) && xml_text (body t) = true -> parses (toast_xml t) = true.
Proof. intros H. unfold parses. apply bool_decide_true. by rewrite read_toast_xml, H. Qed.

Definition clock_face (t : DateTime) : string := "22:30".
Definition evening : PendingAction := mk_action 7%N Action.Sleep (secs 1000) Reason.Schedule.
Definition answered (at_ : Z) (acts : list PendingAction) : turn_input :=
  mk_turn_input None (Err "no messages"%string) (Ok (Pending (secs at_) acts)) (secs at_) (secs at_).
Definition unanswered (at_ : Z) : turn_input :=
  mk_turn_input None (Err "no messages"%string) (Err "no pipe"%string) (secs at_) (secs at_).
Definition evening_turns : list turn_input :=
  [answered 400 [evening]; unanswered 500; answered 950 [evening]; answered 960 [evening]].
Definition shown_path : path := ("d", "shown", "json")%string.

End ToastSample.

(** ** One notifier per user session: [init]

    The kernel keeps the named mutex of a logon session as long as some process
    has a handle to it; the notifier's own handle lives as long as the process
    ([handles]).  [looping] are the processes that run the main loop. *)
Record logon_session : Type := mk_session {
  handles : gset N;
  looping : gset N;
  identity : option (list Z);   (* the [DisplayName] registered for the toasts *)
}.

(** [CreateMutexW] and [GetLastError]: whether the mutex was there before. *)
Definition create_mutex (works : bool) (pid : N) (s : logon_session) : result unit bool * logon_session :=
  if works
  then (Ok (bool_decide (handles s <> ∅)), mk_session ({[pid]} ∪ handles s) (looping s) (identity s))
  else (Err tt, s).

(** [encode_utf16] and [to_le_bytes], for ASCII. *)
Fixpoint utf16_le (s : string) : list Z :=
  match s with EmptyString => [] | String c s' => Z.of_N (N_of_ascii c) :: 0 :: utf16_le s' end.

Definition register_aumid (create set_value : bool) (s : logon_session) : result unit unit * logon_session :=
  if create then
    if set_value
    then (Ok tt, mk_session (handles s) (looping s) (Some (utf16_le "TimeLord" ++ [0; 0])))
    else (Err tt, s)
  else (Err tt, s).

(** A failed registration is only logged. *)
Definition init (works create set_value : bool) (pid : N) (s : logon_session) : bool * logon_session :=
  let '(mutex, s) := create_mutex works pid s in
  let first := match mutex with Ok existed => negb existed | Err _ => true end in
  (first, if first then (register_aumid create set_value s).2 else s).

Definition enter_loop (pid : N) (s : logon_session) : logon_session :=
  mk_session (handles s) ({[pid]} ∪ looping s) (identity s).
(** The process ends: the kernel closes its handles. *)
Definition exit_process (pid : N) (s : logon_session) : logon_session :=
  mk_session (handles s ∖ {[pid]}) (looping s ∖ {[pid]}) (identity s).

(** Starts and ends of notifiers ([main] returns at once when [init] is
    [false]).  [works]: what [CreateMutexW] does. *)
Inductive session_step (works : bool) : logon_session -> logon_session -> Prop :=
| ss_started pid create set_value s s' : pid ∉ handles s -> pid ∉ looping s ->
    init works create set_value pid s = (true, s') -> session_step works s (enter_loop pid s')
| ss_refused pid create set_value s s' : pid ∉ handles s -> pid ∉ looping s ->
    init works create set_value pid s = (false, s') -> session_step works s s'
| ss_exit pid s : session_step works s (exit_process pid s).

Definition logged_on : logon_session := mk_session ∅ ∅ None.

(** Where creating the mutex fails, the notifier runs all the same. *)
Lemma mutex_failure_opens create set_value pid s : (init false create set_value pid s).1 = true.
Proof. done. Qed.

Lemma init_spec create set_value pid s :
  let '(first, s') := init true create set_value pid s in
  (first = true <-> handles s = ∅) /\ handles s' = {[pid]} ∪ handles s /\ looping s' = looping s.
Proof.
  unfold init, create_mutex. simpl. rewrite negb_true_iff, bool_decide_eq_false.
  split; [split; [apply dec_stable|naive_solver]|]. destruct (negb _); [|done].
  unfold register_aumid. by destruct create, set_value.
Qed.

(** There is never a second notifier in a user session, which would
    double every warning.  Over any starts and ends of notifiers, as long as
    the kernel gives them the mutex, at most one of them runs the main loop;
    and a notifier is turned away only while another process holds the mutex. *)
Lemma one_notifier_per_session (s : logon_session) :
  rtc (session_step true) logged_on s ->
  (forall p q, p ∈ looping s -> q ∈ looping s -> p = q) /\
  (forall create set_value pid, (init true create set_value pid s).1 = false -> handles s <> ∅).
Proof.
  intros H. split.
  2:{ intros create set_value pid. pose proof (init_spec create set_value pid s) as Hi.
      destruct (init _ _ _ _ _) as [first s']. simpl. intros ->. destruct Hi as [Hi _].
      intros E. by apply Hi in E. }
  assert (Hinv : looping s ⊆ handles s /\ forall p q, p ∈ looping s -> q ∈ looping s -> p = q);
    [|apply Hinv].
  assert (Hgen : forall s0, rtc (session_step true) s0 s ->
    looping s0 ⊆ handles s0 /\ (forall p q, p ∈ looping s0 -> q ∈ looping s0 -> p = q) ->
    looping s ⊆ handles s /\ (forall p q, p ∈ looping s -> q ∈ looping s -> p = q)).
  { clear H. induction 1 as [|x y z Hs _ IH]; [done|]. intros [Hsub Hone]. apply IH. clear IH.
    destruct Hs as [pid c v x x' _ _ Hi|pid c v x x' _ _ Hi|pid x];
      [pose proof (init_spec c v pid x) as Hx; rewrite Hi in Hx; destruct Hx as (Hf & Hh & Hl)..|].
    - assert (He : handles x = ∅) by (by apply Hf). rewrite He in Hsub. simpl. rewrite Hh, Hl, He. split; set_solver.
    - rewrite Hh, Hl. split; [set_solver|done].
    - simpl. split; set_solver. }
  by apply (Hgen logged_on).
Qed.

Lemma one_notifier_per_session_witness :
  exists s, 4%N ∈ looping s /\ ~ (5%N ∈ looping s) /\ (init true true true 5 s).1 = false.
Proof.
  set (s1 := enter_loop 4 (init true true true 4 logged_on).2).
  set (s2 := (init true true true 5 s1).2).
  assert (H : rtc (session_step true) logged_on s2).
  { apply (rtc_l _ _ s1); [|apply rtc_once].
    - by apply (ss_started true 4 true true logged_on (init true true true 4 logged_on).2).
    - apply (ss_refused true 5 true true s1 s2); [..|reflexivity]; by vm_compute. }
  exists s2. destruct (one_notifier_per_session s2 H) as [Hone _].
  assert (H4 : 4%N ∈ looping s2) by (vm_compute; reflexivity).
  split; [exact H4|]. split; [|vm_compute; reflexivity].
  intros H5. pose proof (Hone 4%N 5%N H4 H5) as E. discriminate E.
Defined.
