(* ===== verification/Logfile.v ===== *)
(** * The notifier's log ([notifier/src/logfile.rs])

    [append] with its rotation, over the model file system; what the operating
    system does to one call is an [io].  Text is bytes. *)
From Stdlib Require Import String.
From S2P Require Import Prelude Fs Agent.
#[local] Open Scope Z_scope.

Definition MAX_BYTES : Z := 256 * 1024.

(** The outcomes of one call's system calls; [io_cut]: the write stopped after
    that many bytes. *)
Record io : Type := mk_io {
  io_dir : bool;          (* [create_dir_all] *)
  io_metadata : bool;     (* [metadata], where there is a file *)
  io_rename : bool;
  io_open : bool;
  io_cut : option nat;
}.

(** [state::default_path] and [logfile::path], from the environment. *)
Definition default_path (var : string -> option string) (temp_dir : string) : path :=
  let base := match var "LOCALAPPDATA"%string with
              | Some b => b
              | None => match var "XDG_STATE_HOME"%string with Some b => b | None => temp_dir end
              end in
  (base +:+ "/TimeLord", "notifier-shown", "json")%string.
Definition log_path (var : string -> option string) (temp_dir : string) : path :=
  Agent.with_file_name "notifier" "log" (default_path var temp_dir).

Definition size (fs : Fs.t) (p : path) : Z := Z.of_nat (String.length (default EmptyString (fs !! p))).

(** The line [writeln!] writes: the time, the message and a newline. *)
Definition line (stamp message : string) : string :=
  stamp +:+ " " +:+ message +:+ String (Ascii.ascii_of_nat 10) EmptyString.

Definition append (x : io) (p : path) (stamp message : string) (max_bytes : Z) (fs : Fs.t)
  : result Fs.io_error unit * Fs.t :=
  if io_dir x then
    let fs := if io_metadata x && bool_decide (is_Some (fs !! p)) && (max_bytes <? size fs p)
              then if io_rename x then (Fs.step (Fs.Rename p (with_extension "log.old" p)) fs).2 else fs
              else fs in
    if io_open x then
      let old := default EmptyString (fs !! p) in
      match io_cut x with
      | None => (Ok tt, <[p := old +:+ line stamp message]> fs)
      | Some n => (Err Fs.OtherIo, <[p := old +:+ substring 0 n (line stamp message)]> fs)
      end
    else (Err Fs.OtherIo, fs)
  else (Err Fs.OtherIo, fs).

(** The result is ignored. *)
Definition log (x : io) (p : path) (stamp message : string) (fs : Fs.t) : Fs.t :=
  (append x p stamp message MAX_BYTES fs).2.

(** What a call adds to the file. *)
Definition written (x : io) (stamp message : string) : string :=
  if io_dir x && io_open x then
    match io_cut x with
    | None => line stamp message
    | Some n => substring 0 n (line stamp message)
    end
  else EmptyString.

Definition log_all (p : path) (calls : list (io * string * string)) (fs : Fs.t) : Fs.t :=
  fold_left (fun fs '(x, stamp, message) => log x p stamp message fs) calls fs.

(** ** The log is bounded and ends with what was logged last *)
Section LogProperties.
Context (p : path) (Hp : p <> with_extension "log.old" p).

(** The two files, one after the other. *)
Definition kept (fs : Fs.t) : string :=
  default EmptyString (fs !! with_extension "log.old" p) +:+ default EmptyString (fs !! p).

(** Rotation works: the size is known and the rename goes through. *)
Definition rotates (x : io) : Prop := io_metadata x = true /\ io_rename x = true.

(** [old] and the current file hold the end of [all]; something is missing
    only if [old] alone holds more than the bound. *)
Definition tail_kept (all : string) (fs : Fs.t) : Prop :=
  exists dropped, all = dropped +:+ kept fs /\
    (dropped = EmptyString \/ MAX_BYTES < size fs (with_extension "log.old" p)).

Lemma substring_length n s : (String.length (substring 0 n s) <= String.length s)%nat.
Proof. revert n. induction s as [|c s IH]; intros [|n]; simpl; [lia..|]. specialize (IH n). lia. Qed.

Lemma written_length x stamp message :
  Z.of_nat (String.length (written x stamp message)) <=
  Z.of_nat (String.length (line stamp message)).
Proof.
  unfold written. destruct (io_dir x && io_open x); [|simpl; lia].
  destruct (io_cut x) as [n|]; [|lia]. pose proof (substring_length n (line stamp message)). lia.
Qed.

Lemma add_written_keeps text fs all : tail_kept all fs ->
  tail_kept (all +:+ text) (<[p := default EmptyString (fs !! p) +:+ text]> fs).
Proof.
  intros (d & -> & Hd). exists d. unfold kept, size in *.
  rewrite lookup_insert_eq, lookup_insert_ne by done. simpl. by rewrite !string_app_assoc.
Qed.

(** The file system after the rotation that a call begins with. *)
Definition rotated (fs : Fs.t) : Fs.t :=
  if bool_decide (is_Some (fs !! p)) && (MAX_BYTES <? size fs p)
  then (Fs.step (Fs.Rename p (with_extension "log.old" p)) fs).2 else fs.

Lemma rotated_keeps fs all : tail_kept all fs ->
  tail_kept all (rotated fs) /\ size (rotated fs) p <= MAX_BYTES /\
  size (rotated fs) (with_extension "log.old" p) <=
    Z.max (size fs (with_extension "log.old" p)) (size fs p).
Proof.
  intros H. unfold rotated. destruct (fs !! p) as [c|] eqn:E; simpl.
  2:{ split; [done|]. unfold size at 1. rewrite E. simpl. unfold MAX_BYTES. lia. }
  destruct (Z.ltb_spec MAX_BYTES (size fs p)) as [Hlt|Hle]; [|split; [done|lia]].
  rewrite E. simpl. unfold tail_kept, kept, size in *.
  rewrite (lookup_insert_ne _ _ p), lookup_delete_eq, lookup_insert_eq by done. simpl.
  rewrite E in *. simpl in *. split; [|unfold MAX_BYTES; lia].
  destruct H as (d & -> & _).
  exists (d +:+ default EmptyString (fs !! with_extension "log.old" p)).
  rewrite string_app_nil, !string_app_assoc. split; [done|]. right. exact Hlt.
Qed.

Lemma log_rotates x stamp message fs : rotates x -> io_dir x = true ->
  log x p stamp message fs =
    if io_open x then <[p := default EmptyString (rotated fs !! p) +:+ written x stamp message]> (rotated fs)
    else rotated fs.
Proof.
  intros [Hm Hr] Hd. unfold log, append, written, rotated. rewrite Hd, Hm, Hr. simpl.
  destruct (io_open x); [|done]. by destruct (io_cut x).
Qed.

Lemma log_keeps x stamp message fs all : rotates x -> tail_kept all fs ->
  let fs' := log x p stamp message fs in
  let len := Z.of_nat (String.length (line stamp message)) in
  tail_kept (all +:+ written x stamp message) fs' /\
  size fs' (with_extension "log.old" p) <=
    Z.max (size fs (with_extension "log.old" p)) (size fs p) /\
  size fs' p <= Z.max (size fs p) (MAX_BYTES + len).
Proof.
  intros Hx H. cbv zeta. destruct (io_dir x) eqn:Hd.
  2:{ unfold log, append, written. rewrite Hd. simpl. rewrite string_app_nil. split; [done|lia]. }
  rewrite (log_rotates _ _ _ _ Hx Hd). destruct (rotated_keeps fs all H) as (Ht & Hs & Ho).
  pose proof (written_length x stamp message) as Hw. destruct (io_open x) eqn:Eo.
  2:{ unfold written at 1. rewrite Hd, Eo. simpl. rewrite string_app_nil. split; [done|lia]. }
  split; [by apply add_written_keeps|]. unfold size in *.
  rewrite lookup_insert_eq, lookup_insert_ne by done. simpl. rewrite string_length_app. lia.
Qed.

(** The log is bounded and keeps its end.  As long as the rotation's own
    calls work, whatever happens to the writes, after any calls of [log] that
    write lines of at most [len] bytes neither of the two files has more than
    256 KiB and one such line; and the old file followed by the current one
    is the end of everything that was written, with something missing only if
    more than 256 KiB is there. *)
Lemma log_keeps_tail (calls : list (io * string * string)) (fs : Fs.t) (len : Z) :
  Forall (fun c => rotates c.1.1 /\ Z.of_nat (String.length (line c.1.2 c.2)) <= len) calls ->
  size fs p <= MAX_BYTES + len -> size fs (with_extension "log.old" p) <= MAX_BYTES + len ->
  let fs' := log_all p calls fs in
  size fs' p <= MAX_BYTES + len /\ size fs' (with_extension "log.old" p) <= MAX_BYTES + len /\
  exists dropped,
    kept fs +:+ String.concat EmptyString (map (fun c => written c.1.1 c.1.2 c.2) calls) =
      dropped +:+ kept fs' /\
    (dropped = EmptyString \/ MAX_BYTES < size fs' (with_extension "log.old" p)).
Proof.
  intros Hc H1 H2.
  assert (Hind : forall cs fs all, Forall (fun c => rotates c.1.1 /\
      Z.of_nat (String.length (line c.1.2 c.2)) <= len) cs ->
    size fs p <= MAX_BYTES + len -> size fs (with_extension "log.old" p) <= MAX_BYTES + len ->
    tail_kept all fs ->
    size (log_all p cs fs) p <= MAX_BYTES + len /\
    size (log_all p cs fs) (with_extension "log.old" p) <= MAX_BYTES + len /\
    tail_kept (all +:+ String.concat EmptyString (map (fun c => written c.1.1 c.1.2 c.2) cs))
      (log_all p cs fs)).
  { clear -Hp. induction cs as [|[[x stamp] message] cs IH]; intros fs all Hf Hs1 Hs2 Ht.
    { simpl. by rewrite string_app_nil. }
    apply Forall_cons in Hf as [[Hx Hl] Hf]. simpl in Hx, Hl.
    destruct (log_keeps x stamp message fs all Hx Ht) as (Ht' & Ho & Hc).
    destruct (IH (log x p stamp message fs) (all +:+ written x stamp message) Hf) as (I1 & I2 & I3);
      [lia|lia|done|].
    split; [done|]. split; [done|].
    assert (Hcat : forall l t, String.concat EmptyString (t :: l) = t +:+ String.concat EmptyString l)
      by (intros [|u l] t; simpl; [by rewrite string_app_nil|done]).
    simpl map. rewrite Hcat, <- string_app_assoc. exact I3. }
  apply (Hind calls fs (kept fs) Hc H1 H2). exists EmptyString. split; [done|by left].
Qed.
End LogProperties.

(** The repository's own test, with a file already too big. *)
Section LogSample.
Definition sample_log : path := log_path (fun _ => None) "tmp".
Definition fine : io := mk_io true true true true None.
Definition two_calls : list (io * string * string) :=
  [(fine, "10:00", "first"); (fine, "10:01", "second")]%string.

Lemma log_keeps_tail_witness :
  size (log_all sample_log two_calls ∅) sample_log <= MAX_BYTES + 20.
Proof.
  assert (Hp : sample_log <> with_extension "log.old" sample_log) by (vm_compute; discriminate).
  destruct (log_keeps_tail sample_log Hp two_calls ∅ 20) as (H & _ & _); [..|exact H].
  - repeat (apply Forall_cons_2; [split; [by split|vm_compute; discriminate]|]). apply Forall_nil_2.
  - vm_compute. discriminate.
  - vm_compute. discriminate.
Defined.
End LogSample.
