(* ===== verification/Platform.v ===== *)
(** * Platform backends ([agent/src/platform/], [agent/src/service_win.rs])

    The translation of Windows messages into notifications ([wndproc]), the
    seeding of sessions found at startup, the development command loop and the
    service control handler with the message pump it stops.  What the Win32
    calls return is an argument. *)
From Stdlib Require Import Ascii.
From S2P Require Import Prelude Codec Tracker Protocol Db Queue Store Events Recorder Config.
#[local] Open Scope Z_scope.

(** The constants of the [windows] crate. *)
Class Win32 : Type := {
  WTS_CONSOLE_CONNECT : Z;
  WTS_CONSOLE_DISCONNECT : Z;
  WTS_REMOTE_CONNECT : Z;
  WTS_REMOTE_DISCONNECT : Z;
  WTS_SESSION_LOGON : Z;
  WTS_SESSION_LOGOFF : Z;
  WTS_SESSION_LOCK : Z;
  WTS_SESSION_UNLOCK : Z;
  PBT_APMSUSPEND : Z;
  PBT_APMRESUMESUSPEND : Z;
  PBT_APMRESUMEAUTOMATIC : Z;
  WTS_SESSIONSTATE_LOCK : Z;
  WTS_SESSIONSTATE_UNLOCK : Z;
}.

Definition wts_reason_to_event `{!Win32} (reason : Z) (session_id : SessionId) : option SessionEvent :=
  if reason =? WTS_SESSION_LOGON then Some (Logon session_id)
  else if reason =? WTS_SESSION_LOGOFF then Some (Logoff session_id)
  else if reason =? WTS_SESSION_LOCK then Some (Lock session_id)
  else if reason =? WTS_SESSION_UNLOCK then Some (Unlock session_id)
  else if reason =? WTS_CONSOLE_CONNECT then Some (ConsoleConnect session_id)
  else if reason =? WTS_CONSOLE_DISCONNECT then Some (ConsoleDisconnect session_id)
  else if reason =? WTS_REMOTE_CONNECT then Some (RemoteConnect session_id)
  else if reason =? WTS_REMOTE_DISCONNECT then Some (RemoteDisconnect session_id)
  else None.

(** [suspend] and [shutdown] of [platform/windows.rs]: the error text is that
    of the [anyhow] error. *)
Module Power.
(** [result]: of [SetSuspendState]; [last_error]: [Error::from_win32]. *)
Definition suspend (result : Z) (last_error : string) : Prelude.result string unit :=
  if negb (result =? 0) then Ok tt else Err ("SetSuspendState failed: " +:+ last_error).

Definition SHUTDOWN_ARGS : list string :=
  ["/s"; "/t"; "30"; "/c"; "TimeLord: scheduled off time"]%string.
(** [output]: that of [shutdown.exe], if it could be run: success, stderr. *)
Definition shutdown (output : option (bool * string)) : Prelude.result string unit :=
  match output with
  | None => Err "running shutdown.exe"%string
  | Some (success, stderr) =>
      if success : bool then Ok tt else Err ("shutdown.exe failed: " +:+ trim stderr)
  end.

(** The development backend only pretends. *)
Definition dev_suspend : Prelude.result string unit := Ok tt.
Definition dev_shutdown : Prelude.result string unit := Ok tt.
End Power.

(** The messages the window procedure knows. *)
Inductive message : Type :=
| WmWtsSessionChange (wparam : Z) (lparam : N)
| WmPowerBroadcast (wparam : Z)
| WmDestroy
| WmOther.

(** The [WTSINFOEXW] level and flags; [None] if the query failed. *)
Definition session_locked `{!Win32} (info : option (Z * Z)) : option bool :=
  match info with
  | Some (level, flags) =>
      if level =? 1 then
        if flags =? WTS_SESSIONSTATE_LOCK then Some true
        else if flags =? WTS_SESSIONSTATE_UNLOCK then Some false else None
      else None
  | None => None
  end.

Definition session_username (queried : option string) : option string :=
  option_filter (fun s => negb (is_empty s)) queried.

Inductive WtsState : Type := WTSActive | WTSConnected | WTSOther.

(** One entry of [WTSEnumerateSessionsW] with what the queries about it return. *)
Record wts_entry : Type := mk_entry_w {
  we_session_id : SessionId;
  we_state : WtsState;
  we_username : option string;
  we_info : option (Z * Z);
}.

(** ** The set-up of [run]

    An error is the chain of an [anyhow] error, outermost first. *)
Inductive setup_call : Type :=
| CallGetModuleHandle | CallRegisterClass | CallCreateWindow
| CallRegisterSessions | CallRegisterPower.
#[export] Instance setup_call_eq_dec : EqDecision setup_call.
Proof. solve_decision. Defined.

Definition win32_call (failing : option (setup_call * string)) (c : setup_call)
  : result (list string) unit :=
  match failing with
  | Some (c', e) => if decide (c' = c) then Err [e] else Ok tt
  | None => Ok tt
  end.
(** [.context(..)] *)
Definition context {A} (what : string) (r : result (list string) A) : result (list string) A :=
  match r with Ok a => Ok a | Err chain => Err (what :: chain) end.

Definition create_message_window (failing : option (setup_call * string)) : result (list string) unit :=
  _ ← context "GetModuleHandleW" (win32_call failing CallGetModuleHandle);
  _ ← match win32_call failing CallRegisterClass with
      | Ok _ => Ok tt
      | Err _ => Err ["RegisterClassExW failed"%string]
      end;
  context "CreateWindowExW failed" (win32_call failing CallCreateWindow).

Definition set_up (failing : option (setup_call * string)) : result (list string) unit :=
  _ ← context "creating notification window" (create_message_window failing);
  _ ← match win32_call failing CallRegisterSessions with
      | Ok _ => Ok tt
      | Err e => Err ["WTSRegisterSessionNotification failed: Err(" +:+ String.concat "" e +:+ ")"]
      end;
  context "RegisterSuspendResumeNotification failed" (win32_call failing CallRegisterPower).

Section Platform.
Import UsageRecorder.
Context {TT : TimeText} {UT : UuidText} {SJ : Serde (gmap string json)} {SQ : SqlEngine}
  {HO : HashOrder} {WC : Win32}.

(** [dispatch]: an error is only logged. *)
Definition dispatch (inp : inputs) (utc_now : DateTime) (event : SessionEvent)
    (username : option string) (r : UsageRecorder.t) : UsageRecorder.t :=
  (handle inp event username utc_now r).2.

(** The recorder after one window message, and whether the loop must end. *)
Definition wndproc (inp : inputs) (utc_now : DateTime) (m : message)
    (queried_username : option string) (r : UsageRecorder.t) : UsageRecorder.t * bool :=
  match m with
  | WmWtsSessionChange wparam lparam =>
      match wts_reason_to_event wparam lparam with
      | Some event => (dispatch inp utc_now event (session_username queried_username) r, false)
      | None => (r, false)
      end
  | WmPowerBroadcast wparam =>
      let event :=
        if wparam =? PBT_APMSUSPEND then Some Suspend
        else if (wparam =? PBT_APMRESUMEAUTOMATIC) || (wparam =? PBT_APMRESUMESUSPEND)
             then Some Resume else None in
      match event with
      | Some event => (dispatch inp utc_now event None r, false)
      | None => (r, false)
      end
  | WmDestroy => (r, true)
  | WmOther => (r, false)
  end.

(** One entry of [seed_active_sessions]; two calls of [handle]. *)
Definition seed_entry (inp1 inp2 : inputs) (now1 now2 : DateTime) (e : wts_entry)
    (r : UsageRecorder.t) : UsageRecorder.t :=
  match we_state e with
  | WTSActive | WTSConnected =>
      match session_username (we_username e) with
      | Some username =>
          let r := dispatch inp1 now1 (Logon (we_session_id e)) (Some username) r in
          if bool_decide (session_locked (we_info e) = Some true)
          then dispatch inp2 now2 (Lock (we_session_id e)) None r
          else r
      | None => r
      end
  | WTSOther => r
  end.

Definition seed_active_sessions
    (entries : option (list (inputs * inputs * DateTime * DateTime * wts_entry)))
    (r : UsageRecorder.t) : UsageRecorder.t :=
  match entries with
  | None => r
  | Some l => fold_left (fun r '(i1, i2, n1, n2, e) => seed_entry i1 i2 n1 n2 e r) l r
  end.

(** [run] on Windows.  [failing]: the call of the set-up that fails.
    [messages] are those dispatched before [GetMessageW] returns the quit
    message; an error of the final [shutdown] is only logged. *)
Definition windows_run (failing : option (setup_call * string))
    (entries : option (list (inputs * inputs * DateTime * DateTime * wts_entry)))
    (messages : list (inputs * DateTime * message * option string)) (end_now : DateTime)
    (r : UsageRecorder.t) : result (list string) unit * UsageRecorder.t :=
  match set_up failing with
  | Err chain => (Err chain, r)
  | Ok _ =>
      let r := seed_active_sessions entries r in
      let r := fold_left (fun r '(inp, now, m, username) => (wndproc inp now m username r).1)
                 messages r in
      (Ok tt, (shutdown end_now r).2)
  end.

(** ** The development backend *)
Definition SESSION_ID : SessionId := 1%N.

Inductive command : Type :=
| CSkip                  (* empty, help, status or unknown *)
| CQuit
| CEvent (e : SessionEvent) (username : option string).

(** The words of the line, split at white space. *)
Definition parse_command (words : list string) : command :=
  match words with
  | [] => CSkip
  | w :: rest =>
      if String.eqb w "help" then CSkip
      else if String.eqb w "quit" || String.eqb w "exit" then CQuit
      else if String.eqb w "logon"
        then CEvent (Logon SESSION_ID) (Some (default "dev-user"%string (head rest)))
      else if String.eqb w "logoff" then CEvent (Logoff SESSION_ID) None
      else if String.eqb w "lock" then CEvent (Lock SESSION_ID) None
      else if String.eqb w "unlock" then CEvent (Unlock SESSION_ID) None
      else if String.eqb w "console-connect" then CEvent (ConsoleConnect SESSION_ID) None
      else if String.eqb w "console-disconnect" then CEvent (ConsoleDisconnect SESSION_ID) None
      else if String.eqb w "remote-connect" then CEvent (RemoteConnect SESSION_ID) None
      else if String.eqb w "remote-disconnect" then CEvent (RemoteDisconnect SESSION_ID) None
      else if String.eqb w "suspend" then CEvent Suspend None
      else if String.eqb w "resume" then CEvent Resume None
      else CSkip
  end.

(** The loop to the end of the input, then [shutdown]. *)
Fixpoint dev_run (lines : list (inputs * DateTime * list string)) (end_now : DateTime)
    (r : UsageRecorder.t) : result StoreError unit * UsageRecorder.t :=
  match lines with
  | [] => shutdown end_now r
  | (inp, now, words) :: rest =>
      match parse_command words with
      | CSkip => dev_run rest end_now r
      | CQuit => shutdown end_now r
      | CEvent e u =>
          let '(res, r') := handle inp e u now r in
          match res with Ok _ => dev_run rest end_now r' | Err err => (Err err, r') end
      end
  end.
End Platform.

(** ** The service control handler and the pump *)
Inductive ServiceControl : Type := CtlShutdown | CtlStop | CtlInterrogate | CtlOther.

Record pump : Type := mk_pump {
  pump_thread : option N;         (* [PUMP_THREAD_ID] *)
  quit_posted : bool;             (* a [WM_QUIT] waits in its queue *)
  shutdown_requested : bool;
}.
Definition pump_init : pump := mk_pump None false false.

Definition mark_shutdown_requested (p : pump) : pump := mk_pump (pump_thread p) (quit_posted p) true.

(** Posts to the thread that runs the pump, if one does yet. *)
Definition request_stop (p : pump) : pump :=
  match pump_thread p with
  | Some tid => mk_pump (Some tid) true (shutdown_requested p)
  | None => p
  end.

(** [run] records its thread; a [OnceLock] is set once. *)
Definition pump_started (tid : N) (p : pump) : pump :=
  mk_pump (match pump_thread p with Some t => Some t | None => Some tid end) (quit_posted p)
    (shutdown_requested p).

(** [true]: answered [NoError]; [false]: [NotImplemented]. *)
Definition control (c : ServiceControl) (p : pump) : pump * bool :=
  match c with
  | CtlShutdown => (request_stop (mark_shutdown_requested p), true)
  | CtlStop => (request_stop p, true)
  | CtlInterrogate => (p, true)
  | CtlOther => (p, false)
  end.

(** The set-up succeeds exactly if no call fails, and whatever fails in it,
    the recorder is left as it was: nothing was seeded and nothing closed. *)
Lemma set_up_ok failing : set_up failing = Ok tt <-> failing = None.
Proof. by destruct failing as [[[] e]|]. Qed.

(** ** Sessions found at startup *)
Section SeedProperties.
Import UsageRecorder.
Context {TT : TimeText} {UT : UuidText} {SJ : Serde (gmap string json)} {SQ : SqlEngine}
  {HO : HashOrder} {WC : Win32}.
Context {TL : TimeTextLaws} {UL : UuidTextLaws} {HL : HashOrderLaws}.

(** A session found at startup is treated as a fresh logon.  Unless
    Windows positively reports it locked, seeding it into a new recorder
    opens a usage session, shows ACTIVE for its user and queues a USER_LOGON
    followed by an ACTIVE event, whether Windows says it is unlocked or does
    not know. *)
Lemma seed_unknown_lock_is_active (inp1 inp2 : inputs) (now1 now2 : DateTime) (e : wts_entry)
    (user : string) (q : EventQueue.t * list bool) :
  we_state e = WTSActive \/ we_state e = WTSConnected ->
  we_username e = Some user -> user <> EmptyString ->
  session_locked (we_info e) <> Some true ->
  let r := seed_entry inp1 inp2 now1 now2 e (start [] (Some q)) in
  is_active r = true /\ snapshot r = mk_snapshot (Some user) "ACTIVE" /\
  exists logon active, event_queue r = Some (enqueue_all [logon; active] now1 q) /\
    event_type logon = EventType.UserLogon /\ event_type active = EventType.Active /\
    Queue.username logon = Some user.
Proof.
  intros Hst Hu Hne Hl r. unfold r, seed_entry.
  assert (Hr : forall x y : UsageRecorder.t, match we_state e with
                 WTSActive | WTSConnected => x | WTSOther => y end = x)
    by (by destruct Hst as [-> | ->]).
  rewrite Hr. unfold session_username. rewrite Hu. simpl. destruct user as [|c user]; [done|]. simpl.
  rewrite bool_decide_eq_false_2 by done. unfold dispatch, handle, handle_at. simpl.
  unfold UsageTracker.is_logged_on. simpl.
  rewrite bool_decide_eq_false_2 by (rewrite lookup_empty; by intros []).
  set (name := String c user). unfold UsageTracker.recompute.
  rewrite (proj2 (TrackerFacts.any_visible_spec _))
    by (split; [done|]; exists (we_session_id e); apply lookup_insert_eq). simpl.
  unfold Store.start_session, Store.insert_row, db_bind. simpl.
  unfold stmt. simpl. unfold is_active. simpl. split; [done|].
  assert (Hf : first_value (<[we_session_id e:=name]> ∅) = Some name).
  { destruct (first_value (<[we_session_id e:=name]> ∅)) as [v|] eqn:E.
    - apply first_value_some in E as (k & Hk). rewrite lookup_insert_Some in Hk.
      destruct Hk as [[_ ->]|[_ Hk]]; [done|]. by rewrite lookup_empty in Hk.
    - apply first_value_none in E. exfalso.
      assert (Hc : (<[we_session_id e:=name]> (∅ : gmap SessionId string)) !! we_session_id e = None)
        by (by rewrite E, lookup_empty).
      by rewrite lookup_insert_eq in Hc. }
  unfold snapshot_state. simpl. rewrite Hf. split; [done|].
  rewrite lookup_insert_eq. eexists _, _. split; [reflexivity|]. by repeat split.
Qed.
End SeedProperties.

(** An active console session whose lock state Windows does not know. *)
Section PlatformSample.
Import UsageRecorder.
#[local] Existing Instances Bits.time_text Bits.uuid_text payload_serde stable_engine tree_order.
#[local] Existing Instances Bits.time_text_laws Bits.uuid_text_laws tree_order_laws.

#[local] Instance sample_win32 : Win32 := {|
  WTS_CONSOLE_CONNECT := 1; WTS_CONSOLE_DISCONNECT := 2; WTS_REMOTE_CONNECT := 3;
  WTS_REMOTE_DISCONNECT := 4; WTS_SESSION_LOGON := 5; WTS_SESSION_LOGOFF := 6;
  WTS_SESSION_LOCK := 7; WTS_SESSION_UNLOCK := 8; PBT_APMSUSPEND := 4;
  PBT_APMRESUMESUSPEND := 7; PBT_APMRESUMEAUTOMATIC := 18; WTS_SESSIONSTATE_LOCK := 0;
  WTS_SESSIONSTATE_UNLOCK := 1 |}.

Lemma seed_unknown_lock_is_active_witness :
  let inp := mk_inputs 1%N 2%N 3%N 7 in
  let e := mk_entry_w 5%N WTSActive (Some "alice"%string) None in
  let r := seed_entry inp inp 7 8 e (start [] (Some (EventQueue.init, []))) in
  is_active r = true /\ snapshot r = mk_snapshot (Some "alice"%string) "ACTIVE".
Proof.
  intros inp e.
  destruct (seed_unknown_lock_is_active inp inp 7 8 e "alice" (EventQueue.init, []))
    as (H1 & H2 & _); [by left|reflexivity|done|done|by split].
Defined.
End PlatformSample.
