(* ===== verification/Service.v ===== *)
(** * The Windows service ([agent/src/service_win.rs])

    [run_service] as a transition system: the statuses it reports to the
    service manager, the controls it is sent and the pump they stop, around
    [run_blocking].  [install], [uninstall], [is_installed] and [query_status]
    as programs over the service manager, which is the parameter [Scm]; what
    Microsoft documents about deleting a service is [ScmLaws]. *)
From stdpp Require Import relations.
From S2P Require Import Prelude Platform.
#[local] Open Scope Z_scope.

(** ** The vocabulary of the service manager *)
Inductive ServiceState : Type :=
| Stopped | StartPending | StopPending | Running | ContinuePending | PausePending | Paused.
#[export] Instance ServiceState_eq_dec : EqDecision ServiceState.
Proof. solve_decision. Defined.

(** The derived [Debug]. *)
Definition state_debug (s : ServiceState) : string :=
  match s with
  | Stopped => "Stopped" | StartPending => "StartPending" | StopPending => "StopPending"
  | Running => "Running" | ContinuePending => "ContinuePending"
  | PausePending => "PausePending" | Paused => "Paused"
  end.

Inductive ServiceAccess : Type := QUERY_STATUS | START | STOP | DELETE | CHANGE_CONFIG.
Inductive ManagerAccess : Type := CONNECT | CREATE_SERVICE.
Inductive ServiceType : Type := OWN_PROCESS | SHARE_PROCESS.
Inductive ServiceStartType : Type := AutoStart | OnDemand | Disabled.
Inductive ServiceErrorControl : Type := Normal | Ignore | Severe | Critical.
Inductive ServiceControlAccept : Type := ACCEPT_STOP | ACCEPT_SHUTDOWN.

Definition SERVICE_NAME : string := "TimeLordAgent".
Definition SERVICE_DISPLAY_NAME : string := "TimeLord Agent".
Definition SERVICE_DESCRIPTION : string := "Tracks and reports TimeLord device usage.".
Definition SERVICE_TYPE : ServiceType := OWN_PROCESS.

Record ServiceInfo : Type := mk_service_info {
  si_name : string;
  si_display_name : string;
  si_service_type : ServiceType;
  si_start_type : ServiceStartType;
  si_error_control : ServiceErrorControl;
  si_executable_path : string;
  si_launch_arguments : list string;
  si_dependencies : list string;
  si_account_name : option string;
  si_account_password : option string;
}.

Record ServiceStatus : Type := mk_status {
  ss_service_type : ServiceType;
  ss_current_state : ServiceState;
  ss_controls_accepted : list ServiceControlAccept;
  ss_exit_code : Z;
  ss_checkpoint : Z;
  ss_wait_hint : Duration;
  ss_process_id : option Z;
}.

(** [windows_service::Error]: a Win32 call with its error code, or another. *)
Inductive ServiceError : Type :=
| Winapi (code : option Z)
| OtherError (text : string).

Definition ERROR_SERVICE_DOES_NOT_EXIST : Z := 1060.
Definition ERROR_SERVICE_MARKED_FOR_DELETE : Z := 1072.

(** ** The service manager: every call may fail, and [sleep] lets time pass. *)
Class Scm (S : Type) : Type := {
  local_computer : ManagerAccess -> S -> result ServiceError unit * S;
  open_service : string -> list ServiceAccess -> S -> result ServiceError unit * S;
  create_service : ServiceInfo -> list ServiceAccess -> S -> result ServiceError unit * S;
  scm_query_status : S -> result ServiceError ServiceState * S;
  stop_service : S -> result ServiceError unit * S;
  delete_service : S -> result ServiceError unit * S;
  set_description : string -> S -> result ServiceError unit * S;
  start_service : list string -> S -> result ServiceError unit * S;
  close_service : S -> S;
  current_exe : S -> result ServiceError string * S;
  sleep : Duration -> S -> S;
}.

(** A program over the manager; [?] is the bind. *)
Definition scm (S A : Type) : Type := S -> result ServiceError A * S.
Definition scm_ret {S A} (a : A) : scm S A := fun s => (Ok a, s).
Definition scm_bind {S A B} (m : scm S A) (f : A -> scm S B) : scm S B := fun s =>
  let '(r, s') := m s in match r with Ok a => f a s' | Err e => (Err e, s') end.
(** A service handle in scope: it is closed on every path. *)
Definition with_service {S A} `{!Scm S} (m : scm S A) : scm S A := fun s =>
  let '(r, s') := m s in (r, close_service s').

Declare Scope scm_scope.
Notation "x <~ m ;; k" := (scm_bind m (fun x => k))
  (at level 100, m at next level, right associativity) : scm_scope.
Notation "m ;~ k" := (scm_bind m (fun _ => k)) (at level 100, right associativity) : scm_scope.
#[local] Open Scope scm_scope.

Section Installation.
Context {S : Type} {M : Scm S}.

(** [local_computer] once per function: dropping that handle changes nothing. *)
Definition is_installed : scm S bool :=
  local_computer CONNECT ;~ fun s =>
  match open_service SERVICE_NAME [QUERY_STATUS] s with
  | (Ok _, s') => (Ok true, close_service s')
  | (Err (Winapi (Some code)), s') =>
      if code =? ERROR_SERVICE_DOES_NOT_EXIST then (Ok false, s')
      else (Err (Winapi (Some code)), s')
  | (Err e, s') => (Err e, s')
  end.

Definition uninstall : scm S unit :=
  local_computer CONNECT ;~
  open_service SERVICE_NAME [STOP; DELETE; QUERY_STATUS] ;~
  with_service (
    state <~ scm_query_status;;
    (if decide (state = Stopped) then scm_ret tt
     else stop_service ;~ fun s => (Ok tt, sleep (millis 500) s)) ;~
    delete_service).

Definition service_info (exe_path : string) : ServiceInfo :=
  mk_service_info SERVICE_NAME SERVICE_DISPLAY_NAME SERVICE_TYPE AutoStart Normal exe_path [] []
    None None.

Definition install : scm S unit :=
  installed <~ is_installed;;
  (if installed : bool then uninstall else scm_ret tt) ;~
  local_computer CREATE_SERVICE ;~
  exe_path <~ current_exe;;
  create_service (service_info exe_path) [CHANGE_CONFIG; START] ;~
  with_service (set_description SERVICE_DESCRIPTION ;~ start_service []).

Definition query_status : scm S string :=
  local_computer CONNECT ;~ fun s =>
  match open_service SERVICE_NAME [QUERY_STATUS] s with
  | (Ok _, s') => with_service (state <~ scm_query_status;; scm_ret (state_debug state)) s'
  | (Err (Winapi (Some code)), s') =>
      if code =? ERROR_SERVICE_DOES_NOT_EXIST then (Ok "not installed"%string, s')
      else (Err (Winapi (Some code)), s')
  | (Err e, s') => (Err e, s')
  end.
End Installation.

(** ** What is documented of the service manager *)

(** The record it keeps of the service of this name. *)
Record entry : Type := mk_service_entry {
  en_state : ServiceState;
  en_marked : bool;             (* marked for deletion *)
  en_info : ServiceInfo;
}.
Definition set_marked (e : entry) : entry := mk_service_entry (en_state e) true (en_info e).

(** [registered] is what the calls are documented to do to the record, for
    a caller with administrator rights: opening a service that does not exist
    fails with 1060; a deleted one keeps its record, marked, until it has
    stopped and the last handle is closed; creating a service whose record is
    still there fails with 1072 if it is marked. *)
Class ScmLaws (S : Type) `{!Scm S} : Type := {
  registered : S -> option entry;
  local_computer_ok : forall acc s, exists s',
    local_computer acc s = (Ok tt, s') /\ registered s' = registered s;
  current_exe_ok : forall s, exists exe s',
    current_exe s = (Ok exe, s') /\ registered s' = registered s;
  open_absent : forall acc s, registered s = None -> exists s',
    open_service SERVICE_NAME acc s = (Err (Winapi (Some ERROR_SERVICE_DOES_NOT_EXIST)), s') /\
    registered s' = None;
  open_present : forall acc s e, registered s = Some e -> exists s',
    open_service SERVICE_NAME acc s = (Ok tt, s') /\ registered s' = Some e;
  query_present : forall s e, registered s = Some e -> exists s',
    scm_query_status s = (Ok (en_state e), s') /\ registered s' = Some e;
  stop_present : forall s e, registered s = Some e -> en_state e <> Stopped -> exists s' e',
    stop_service s = (Ok tt, s') /\ registered s' = Some e' /\ en_marked e' = en_marked e;
  delete_present : forall s e, registered s = Some e -> en_marked e = false -> exists s',
    delete_service s = (Ok tt, s') /\ registered s' = Some (set_marked e);
  close_present : forall s e, registered s = Some e ->
    registered (close_service s) =
      if decide (en_marked e = true /\ en_state e = Stopped) then None else Some e;
  create_absent : forall info acc s, registered s = None -> si_name info = SERVICE_NAME -> exists s',
    create_service info acc s = (Ok tt, s') /\
    registered s' = Some (mk_service_entry Stopped false info);
  create_marked : forall info acc s e, registered s = Some e -> en_marked e = true ->
    si_name info = SERVICE_NAME -> exists s',
    create_service info acc s = (Err (Winapi (Some ERROR_SERVICE_MARKED_FOR_DELETE)), s') /\
    registered s' = Some e;
  describe_present : forall text s e, registered s = Some e -> exists s',
    set_description text s = (Ok tt, s') /\ registered s' = Some e;
  start_present : forall args s e, registered s = Some e -> en_state e = Stopped -> exists s' e',
    start_service args s = (Ok tt, s') /\ registered s' = Some e' /\ en_state e' <> Stopped /\
    en_marked e' = en_marked e /\ en_info e' = en_info e;
}.

(** How a service reacts to being asked to stop. *)
Definition stops_in_time {S} `{!Scm S} {L : ScmLaws S} (s : S) : Prop :=
  exists e, registered (sleep (millis 500) (stop_service s).2) = Some e /\
    en_state e = Stopped /\ en_marked e = false.
Definition still_stopping {S} `{!Scm S} {L : ScmLaws S} (s : S) : Prop :=
  exists e, registered (sleep (millis 500) (stop_service s).2) = Some e /\
    en_state e <> Stopped /\ en_marked e = false.

(** The state in which [uninstall] asks the service to stop. *)
Definition when_asked {S} `{!Scm S} (s : S) : S :=
  (scm_query_status (open_service SERVICE_NAME [STOP; DELETE; QUERY_STATUS]
     (local_computer CONNECT s).2).2).2.

Section InstallProperties.
Context {S : Type} {M : Scm S} {L : ScmLaws S}.

Lemma is_installed_spec s : exists s',
  is_installed s = (Ok (bool_decide (is_Some (registered s))), s') /\
  (forall e, registered s = Some e -> en_marked e = false -> registered s' = Some e) /\
  (registered s = None -> registered s' = None).
Proof.
  unfold is_installed, scm_bind. destruct (local_computer_ok CONNECT s) as (s1 & -> & H1).
  destruct (registered s) as [e|] eqn:E.
  - destruct (open_present [QUERY_STATUS] s1 e H1) as (s2 & -> & H2). eexists. split; [done|].
    split; [|done]. intros e' [= <-] Hm. rewrite (close_present _ _ H2).
    rewrite decide_False; [done|]. rewrite Hm. by intros [? _].
  - destruct (open_absent [QUERY_STATUS] s1 H1) as (s2 & -> & H2).
    eexists. by split.
Qed.

(** Removal up to the point where the service has to be gone. *)
Lemma uninstall_running s e : registered s = Some e -> en_marked e = false -> en_state e <> Stopped ->
  forall e2, registered (sleep (millis 500) (stop_service (when_asked s)).2) = Some e2 ->
  en_marked e2 = false ->
  exists s', uninstall s = (Ok tt, s') /\
    registered s' = if decide (en_state e2 = Stopped) then None else Some (set_marked e2).
Proof.
  intros E Hm Hs. unfold uninstall, scm_bind, with_service, when_asked.
  destruct (local_computer_ok CONNECT s) as (s1 & -> & H1). rewrite E in H1. simpl.
  destruct (open_present [STOP; DELETE; QUERY_STATUS] s1 e H1) as (s2 & -> & H2). simpl.
  destruct (query_present s2 e H2) as (s3 & -> & H3). simpl.
  intros e2 H4 Hm2. rewrite decide_False by done.
  destruct (stop_present s3 e H3 Hs) as (s4 & e4 & E4 & _). rewrite E4 in *. simpl in *.
  destruct (delete_present _ e2 H4 Hm2) as (s5 & -> & H5). eexists. split; [done|].
  rewrite (close_present _ _ H5). simpl.
  destruct (decide (en_state e2 = Stopped)) as [Hst|Hst];
    [by rewrite decide_True|rewrite decide_False by naive_solver; done].
Qed.

Lemma uninstall_stopped s e : registered s = Some e -> en_marked e = false -> en_state e = Stopped ->
  exists s', uninstall s = (Ok tt, s') /\ registered s' = None.
Proof.
  intros E Hm Hs. unfold uninstall, scm_bind, with_service, scm_ret.
  destruct (local_computer_ok CONNECT s) as (s1 & -> & H1). rewrite E in H1.
  destruct (open_present [STOP; DELETE; QUERY_STATUS] s1 e H1) as (s2 & -> & H2).
  destruct (query_present s2 e H2) as (s3 & -> & H3). rewrite decide_True by done.
  destruct (delete_present _ e H3 Hm) as (s5 & -> & H5). eexists. split; [done|].
  rewrite (close_present _ _ H5). simpl. by rewrite decide_True.
Qed.

(** The registration of a service that is not there. *)
Lemma create_and_start s : registered s = None -> exists exe s' e,
  (local_computer CREATE_SERVICE ;~ exe_path <~ current_exe;;
   create_service (service_info exe_path) [CHANGE_CONFIG; START] ;~
   with_service (set_description SERVICE_DESCRIPTION ;~ start_service [])) s = (Ok tt, s') /\
  registered s' = Some e /\ en_state e <> Stopped /\ en_marked e = false /\
  en_info e = service_info exe.
Proof.
  intros E. unfold scm_bind, with_service.
  destruct (local_computer_ok CREATE_SERVICE s) as (s1 & -> & H1). rewrite E in H1.
  destruct (current_exe_ok s1) as (exe & s2 & -> & H2). rewrite H1 in H2.
  destruct (create_absent (service_info exe) [CHANGE_CONFIG; START] s2 H2 eq_refl) as (s3 & -> & H3).
  destruct (describe_present SERVICE_DESCRIPTION s3 _ H3) as (s4 & -> & H4).
  destruct (start_present [] s4 _ H4 eq_refl) as (s5 & e & -> & H5 & Hst & Hm & Hi).
  exists exe, (close_service s5), e. split; [done|]. simpl in Hm, Hi.
  rewrite (close_present _ _ H5), decide_False by naive_solver. by split.
Qed.
(** What [install] does once the old service has been dealt with. *)
Lemma install_after s s1 : is_installed s = (Ok false, s1) ->
  install s = (local_computer CREATE_SERVICE ;~ exe_path <~ current_exe;;
   create_service (service_info exe_path) [CHANGE_CONFIG; START] ;~
   with_service (set_description SERVICE_DESCRIPTION ;~ start_service [])) s1.
Proof. intros H. unfold install. unfold scm_bind at 1. by rewrite H. Qed.
Lemma install_replacing s s1 s2 : is_installed s = (Ok true, s1) -> uninstall s1 = (Ok tt, s2) ->
  install s = (local_computer CREATE_SERVICE ;~ exe_path <~ current_exe;;
   create_service (service_info exe_path) [CHANGE_CONFIG; START] ;~
   with_service (set_description SERVICE_DESCRIPTION ;~ start_service [])) s2.
Proof. intros H1 H2. unfold install. unfold scm_bind at 1. rewrite H1. unfold scm_bind at 1. by rewrite H2. Qed.

(** Installing registers and starts the service.  With administrator
    rights, where no service of the name exists, or the one that exists is
    stopped or has stopped within half a second of being asked to, [install]
    succeeds, and the service registered then is this executable's
    (LocalSystem, automatic start), started and not marked for deletion. *)
Lemma install_registers (s : S) :
  match registered s with
  | None => True
  | Some e => en_marked e = false /\
      (en_state e = Stopped \/ stops_in_time (when_asked (is_installed s).2))
  end ->
  exists exe s' e, install s = (Ok tt, s') /\ registered s' = Some e /\
    en_state e <> Stopped /\ en_marked e = false /\ en_info e = service_info exe.
Proof.
  intros H. destruct (is_installed_spec s) as (s1 & Hi & Hsome & Hnone).
  destruct (registered s) as [e|].
  2:{ rewrite (install_after s s1 Hi). by apply create_and_start, Hnone. }
  rewrite bool_decide_eq_true_2 in Hi by done. destruct H as [Hm H]. specialize (Hsome e eq_refl Hm).
  assert (exists s2, uninstall s1 = (Ok tt, s2) /\ registered s2 = None) as (s2 & Hu & H2).
  { destruct (decide (en_state e = Stopped)) as [Hst|Hst]; [by eapply uninstall_stopped|].
    destruct H as [H|H]; [done|]. rewrite Hi in H. destruct H as (e2 & He2 & Hst2 & Hm2).
    destruct (uninstall_running s1 e Hsome Hm Hst e2 He2 Hm2) as (s2 & -> & H2).
    exists s2. split; [done|]. by rewrite decide_True in H2. }
  rewrite (install_replacing s s1 s2 Hi Hu). by apply create_and_start.
Qed.

End InstallProperties.

(** ** A manager of one service *)
Section InstallSample.

(** The record and how long (ms) a stop still takes. *)
Definition one_service : Type := option (entry * Z).
Definition sample_stop (w : option (entry * Z)) : option (entry * Z) :=
  match w with
  | Some (e, ms) => Some (mk_service_entry StopPending (en_marked e) (en_info e), ms)
  | None => None
  end.
Definition sample_sleep (d : Duration) (w : option (entry * Z)) : option (entry * Z) :=
  match w with
  | Some (e, ms) =>
      if decide (en_state e = StopPending) then
        if ms <=? d then Some (mk_service_entry Stopped (en_marked e) (en_info e), ms)
        else Some (e, ms - d)
      else Some (e, ms)
  | None => None
  end.
#[local] Instance sample_scm : Scm one_service := {|
  local_computer _ w := (Ok tt, w);
  open_service _ _ w := match w with
    | Some _ => (Ok tt, w) | None => (Err (Winapi (Some ERROR_SERVICE_DOES_NOT_EXIST)), w) end;
  create_service info _ w := match w with
    | Some _ => (Err (Winapi (Some ERROR_SERVICE_MARKED_FOR_DELETE)), w)
    | None => (Ok tt, Some (mk_service_entry Stopped false info, secs 7)) end;
  scm_query_status w := match w with
    | Some (e, _) => (Ok (en_state e), w) | None => (Err (OtherError "no handle"), w) end;
  stop_service w := (Ok tt, sample_stop w);
  delete_service w := (Ok tt, match w with Some (e, l) => Some (set_marked e, l) | None => None end);
  set_description _ w := (Ok tt, w);
  start_service _ w := (Ok tt, match w with
    | Some (e, l) => Some (mk_service_entry StartPending (en_marked e) (en_info e), l) | None => None end);
  close_service w := match w with
    | Some (e, l) => if decide (en_marked e = true /\ en_state e = Stopped) then None else Some (e, l)
    | None => None end;
  current_exe w := (Ok "agent.exe"%string, w);
  sleep := sample_sleep;
|}.
#[local] Instance sample_scm_laws : ScmLaws one_service.
Proof.
  refine {| registered (w : one_service) := fst <$> w |}.
  - intros ac s. by exists s.
  - intros s. by eexists _, s.
  - intros ac [p|] H; [done|]. by eexists.
  - intros ac [[e0 l]|] e H; [|done]. by eexists.
  - intros [[e0 l]|] e H; [|done]. injection H as <-. by eexists.
  - intros [[e0 l]|] e H ?; [|done]. injection H as <-. by eexists _, _.
  - intros [[e0 l]|] e H ?; [|done]. injection H as <-. by eexists.
  - intros [[e0 l]|] e H; [|done]. injection H as <-. simpl. by case_decide.
  - intros info ac [p|] H ?; [done|]. by eexists.
  - intros info ac [[e0 l]|] e H ? ?; [|done]. by eexists.
  - intros text [[e0 l]|] e H; [|done]. by eexists.
  - intros args [[e0 l]|] e H ?; [|done]. injection H as <-. by eexists _, _.
Defined.

Definition old_service (state : ServiceState) : one_service :=
  Some (mk_service_entry state false (service_info "agent.exe"), secs 7).

Lemma install_registers_witness :
  exists exe s' e, install (old_service Stopped) = (Ok tt, s') /\ registered s' = Some e /\
    en_state e <> Stopped /\ en_marked e = false /\ en_info e = service_info exe.
Proof. apply (install_registers (old_service Stopped)). simpl. split; [done|]. by constructor 1. Defined.

End InstallSample.

(** ** [run_service] *)
Definition status_of (state : ServiceState) (controls_accepted : list ServiceControlAccept)
  : ServiceStatus := mk_status SERVICE_TYPE state controls_accepted 0 0 0 None.

(** Where [run_service] is; [SBoot] to [SFlush] are inside [run_blocking]. *)
Inductive service_phase : Type :=
| SRegister                          (* the control handler *)
| SStartPending | SRunning           (* about to report *)
| SBoot                              (* data directory, configuration, databases, loops *)
| SSetup                             (* [platform::run] has recorded its thread *)
| SPump                              (* its message loop *)
| SFlush (result : result string unit)
| SReport (result : result string unit)
| SOver (result : result string unit).

Record service : Type := mk_service {
  sv_phase : service_phase;
  sv_pump : pump;
  sv_reported : list ServiceStatus;
}.
Definition service_start : service := mk_service SRegister pump_init [].

Inductive service_event : Type :=
| EvStep
| EvControl (c : ServiceControl)     (* the manager calls the handler *)
| EvDestroyed.                       (* the message window is destroyed *)

Definition handler_registered (ph : service_phase) : bool :=
  match ph with SRegister | SOver _ => false | _ => true end.

(** [set_status] while it may be called. *)
Inductive set_status : service -> ServiceState -> list ServiceControlAccept -> service_phase ->
    service -> Prop :=
| st_reported ph ph' p l state acc :
    set_status (mk_service ph p l) state acc ph' (mk_service ph' p (l ++ [status_of state acc]))
| st_failed ph ph' p l state acc e :
    set_status (mk_service ph p l) state acc ph' (mk_service (SOver (Err e)) p l).

Inductive sstep : service -> service_event -> service -> Prop :=
| s_register p l : sstep (mk_service SRegister p l) EvStep (mk_service SStartPending p l)
| s_register_failed p l e :
    sstep (mk_service SRegister p l) EvStep (mk_service (SOver (Err e)) p l)
| s_start_pending p l s' : set_status (mk_service SStartPending p l) StartPending [] SRunning s' ->
    sstep (mk_service SStartPending p l) EvStep s'
| s_running p l s' :
    set_status (mk_service SRunning p l) Running [ACCEPT_STOP; ACCEPT_SHUTDOWN] SBoot s' ->
    sstep (mk_service SRunning p l) EvStep s'
| s_no_data_dir p l e : sstep (mk_service SBoot p l) EvStep (mk_service (SOver (Err e)) p l)
| s_boot_failed p l e : sstep (mk_service SBoot p l) EvStep (mk_service (SReport (Err e)) p l)
| s_booted p l tid :
    sstep (mk_service SBoot p l) EvStep (mk_service SSetup (pump_started tid p) l)
| s_setup_failed p l e : sstep (mk_service SSetup p l) EvStep (mk_service (SFlush (Err e)) p l)
| s_ready p l : sstep (mk_service SSetup p l) EvStep (mk_service SPump p l)
| s_quit p l : quit_posted p = true ->
    sstep (mk_service SPump p l) EvStep (mk_service (SFlush (Ok tt)) p l)
| s_destroyed p l : sstep (mk_service SPump p l) EvDestroyed (mk_service (SFlush (Ok tt)) p l)
| s_flushed p l r : sstep (mk_service (SFlush r) p l) EvStep (mk_service (SReport r) p l)
| s_stopped p l r s' : set_status (mk_service (SReport r) p l) Stopped [] (SOver r) s' ->
    sstep (mk_service (SReport r) p l) EvStep s'
| s_control ph p l c : handler_registered ph = true ->
    sstep (mk_service ph p l) (EvControl c) (mk_service ph (control c p).1 l).

Definition serves (s s' : service) : Prop := exists ev, sstep s ev s'.
(** Nobody sends a control and the window stays. *)
Definition unattended (s s' : service) : Prop := sstep s EvStep s'.

Section ServiceProperties.

Definition start_pending : ServiceStatus := status_of StartPending [].
Definition running : ServiceStatus := status_of Running [ACCEPT_STOP; ACCEPT_SHUTDOWN].
Definition stopped : ServiceStatus := status_of Stopped [].

(** What has been reported in each phase, and what the pump knows. *)
Definition service_ok (s : service) : Prop :=
  match sv_phase s with
  | SRegister | SStartPending => sv_reported s = []
  | SRunning => sv_reported s = [start_pending]
  | SBoot | SSetup | SPump | SFlush _ | SReport _ => sv_reported s = [start_pending; running]
  | SOver (Ok _) => sv_reported s = [start_pending; running; stopped]
  | SOver (Err _) => sv_reported s `prefix_of` [start_pending; running; stopped]
  end /\
  match sv_phase s with
  | SRegister | SStartPending | SRunning | SBoot => pump_thread (sv_pump s) = None
  | SSetup | SPump => is_Some (pump_thread (sv_pump s))
  | _ => True
  end /\
  (pump_thread (sv_pump s) = None -> quit_posted (sv_pump s) = false).

Lemma control_thread c p : pump_thread (control c p).1 = pump_thread p.
Proof. by destruct c, p as [[tid|] ? ?]. Qed.
Lemma control_unheard c p : pump_thread p = None -> quit_posted (control c p).1 = quit_posted p.
Proof. by destruct c, p as [[tid|] ? ?]. Qed.
Lemma control_heard c p : c = CtlStop \/ c = CtlShutdown -> is_Some (pump_thread p) ->
  quit_posted (control c p).1 = true.
Proof. by destruct p as [[tid|] ? ?]; intros [-> | ->] []. Qed.

Lemma sstep_ok s ev s' : sstep s ev s' -> service_ok s -> service_ok s'.
Proof.
  unfold service_ok. destruct 1 as [| |p l s' H|p l s' H| | | | | | | | |p l r s' H|ph p l c Hc]; simpl;
    intros (H1 & H2 & H3); try (inversion H; subst; simpl); rewrite ?control_thread.
  all: try (rewrite ?H1; split; [first [done|by eexists|by destruct r]|];
            split; [first [done|by destruct (pump_thread p)]|first [done|by destruct (pump_thread p)]]).
  split; [done|]. split; [done|]. intros Hn. rewrite control_unheard by done. auto.
Qed.

Lemma service_invariant s : rtc serves service_start s -> service_ok s.
Proof.
  assert (forall s0, rtc serves s0 s -> service_ok s0 -> service_ok s) as Hind.
  { induction 1 as [|x y z [ev Hs] _ IH]; [done|]. intros Hx. by eapply IH, sstep_ok. }
  intros H. apply (Hind _ H). by repeat split.
Qed.

(** C27. What the service reports.  In every execution of [run_service],
    whatever fails and whatever controls arrive, the statuses reported are
    StartPending, Running (accepting stop and shutdown) and Stopped, in this
    order and each at most once; Running is reported before [run_blocking] is
    entered, Stopped only once it has returned, and all three when
    [run_service] returns without error.  Every status carries exit code 0,
    also the Stopped of a [run_blocking] that failed. *)
Theorem service_reports (s : service) : rtc serves service_start s ->
  sv_reported s `prefix_of` [start_pending; running; stopped] /\
  Forall (fun st => ss_exit_code st = 0) (sv_reported s) /\
  (sv_reported s = [start_pending; running; stopped] -> exists r, sv_phase s = SOver r) /\
  (sv_phase s = SBoot -> sv_reported s = [start_pending; running]) /\
  (sv_phase s = SOver (Ok tt) -> sv_reported s = [start_pending; running; stopped]).
Proof.
  intros H. destruct (service_invariant s H) as (Hr & _ & _).
  assert (Hp : sv_reported s `prefix_of` [start_pending; running; stopped]).
  { destruct (sv_phase s) as [| | | | | | | |[]]; rewrite ?Hr; try done; by eexists. }
  split; [done|]. split.
  { destruct Hp as [l Hl]. assert (Forall (fun st => ss_exit_code st = 0) (sv_reported s ++ l)) as Hf
      by (rewrite <- Hl; by repeat constructor). by apply Forall_app in Hf as [Hf _]. }
  split; [|split].
  - intros Hall. destruct (sv_phase s) as [| | | | | | | |r]; try (by rewrite Hr in Hall). by eexists.
  - intros Hb. by rewrite Hb in Hr.
  - intros Ho. by rewrite Ho in Hr.
Qed.

(** A pump that nothing will stop. *)
Definition never_stopping (s : service) : Prop :=
  quit_posted (sv_pump s) = false /\
  match sv_phase s with
  | SBoot | SSetup | SPump => True
  | SFlush r | SReport r | SOver r => is_ok r = false
  | _ => False
  end.

Lemma unattended_never s s' : unattended s s' -> never_stopping s -> never_stopping s'.
Proof.
  unfold unattended, never_stopping. intros H. inversion H; subst; simpl; intros [H1 H2];
    try match goal with Hx : set_status _ _ _ _ _ |- _ => inversion Hx; subst; simpl end;
    try done; congruence.
Qed.

(** C14. A stop request works exactly while there is a pump to stop.  When the
    manager sends Stop or Shutdown while the message loop runs, the quit
    message is posted and the service can go on by itself to report Stopped.
    When the control arrives after Running has been reported but before the
    loop's thread is recorded, it is accepted too, and lost: by itself the
    service then never ends otherwise than by an error of its start. *)
Theorem stop_control_effect (s s' : service) (c : ServiceControl) :
  rtc serves service_start s -> c = CtlStop \/ c = CtlShutdown -> sstep s (EvControl c) s' ->
  (sv_phase s = SPump ->
     quit_posted (sv_pump s') = true /\
     exists s'', rtc unattended s' s'' /\ sv_phase s'' = SOver (Ok tt) /\
       sv_reported s'' = [start_pending; running; stopped]) /\
  (sv_phase s = SBoot -> (control c (sv_pump s)).2 = true /\
     forall s'', rtc unattended s' s'' -> sv_phase s'' <> SOver (Ok tt)).
Proof.
  intros Hr Hc Hs. destruct (service_invariant s Hr) as (Hrep & Hth & Hq). inversion Hs; subst.
  simpl in *. split.
  - intros ->. assert (Hpost : quit_posted (control c p).1 = true) by (by apply control_heard).
    split; [done|]. rewrite Hrep.
    exists (mk_service (SOver (Ok tt)) (control c p).1 [start_pending; running; stopped]).
    split; [|done]. eapply rtc_l; [by apply s_quit|]. eapply rtc_l; [apply s_flushed|].
    apply rtc_once, s_stopped. apply (st_reported _ _ _ [start_pending; running]).
  - intros ->. split; [by destruct Hc as [-> | ->]|]. intros s'' Hrun Ho.
    assert (never_stopping s'') as [_ Hn].
    { assert (never_stopping (mk_service SBoot (control c p).1 l)) as H0.
      { split; [|done]. simpl. rewrite control_unheard; auto. }
      clear Hs Ho. remember (mk_service SBoot (control c p).1 l) as s0. clear Heqs0.
      induction Hrun as [|x y z Hxy _ IH]; [done|]. by eapply IH, unattended_never. }
    by rewrite Ho in Hn.
Qed.
End ServiceProperties.

(** A stop sent while the databases are being opened. *)
Section ServiceSample.
Definition booting : service := mk_service SBoot pump_init [start_pending; running].

Lemma reaches_booting : rtc serves service_start booting.
Proof.
  eapply rtc_l; [exists EvStep; apply s_register|].
  eapply rtc_l; [exists EvStep; apply s_start_pending, st_reported|].
  apply rtc_once. exists EvStep.
  apply s_running, (st_reported _ _ _ [start_pending]).
Qed.

Lemma service_reports_witness :
  rtc serves service_start booting /\ sv_reported booting = [start_pending; running].
Proof.
  split; [apply reaches_booting|].
  destruct (service_reports booting reaches_booting) as (_ & _ & _ & H & _). by apply H.
Defined.

Lemma stop_control_effect_witness :
  sstep booting (EvControl CtlStop) booting /\
  forall s, rtc unattended booting s -> sv_phase s <> SOver (Ok tt).
Proof.
  assert (Hs : sstep booting (EvControl CtlStop) booting) by (by apply (s_control SBoot)).
  split; [exact Hs|].
  destruct (stop_control_effect booting booting CtlStop reaches_booting) as [_ H];
    [by left|exact Hs|]. by apply H.
Defined.
End ServiceSample.
