(* ===== verification/Main.v ===== *)
(** * The process ([run_blocking] of [agent/src/agent.rs], [agent/src/main.rs])

    The recorder runs on the platform's thread and the networking loops on the
    Tokio runtime; they share the event queue (an [Arc<Mutex<EventQueue>>]) and
    the session snapshot.  A [process] keeps the one shared copy in the agent:
    [notified] lends it to the recorder for one notification.  The commands
    [discover] and [test-event] follow. *)
From Stdlib Require Import String.
From stdpp Require Import pretty.
From S2P Require Import Prelude Codec Fs Tracker Schedule Messages Clock Protocol Db Queue Store.
From S2P Require Import Events Recorder Config Client Discovery Agent Loops Enforcement Restart.
From S2P Require Import Platform.
#[local] Open Scope Z_scope.

(** ** The command line *)
Record RunArgs : Type := mk_run_args {
  arg_controller_url : option string;
  arg_device_id : option string;
  arg_device_name : option string;
  arg_no_discovery : bool;
}.

Definition to_cli_overrides (args : RunArgs) : Overrides :=
  mk_overrides (arg_controller_url args) (arg_device_id args) (arg_device_name args)
    (if arg_no_discovery args then Some false else None).

Inductive Command : Type :=
| CmdRun (args : RunArgs)
| CmdService
| CmdInstall
| CmdUninstall
| CmdStatus
| CmdDiscover (force : bool)
| CmdTestEvent.

(** What [main] calls. *)
Inductive entry_point : Type :=
| RunBlocking (cli : Overrides)
| RunService
| InstallService
| UninstallService
| ShowStatus
| RunDiscover (force : bool)
| RunTestEvent.

Definition main (windows : bool) (command : option Command) : entry_point :=
  match command with
  | Some (CmdRun args) => RunBlocking (to_cli_overrides args)
  | Some CmdService => RunService
  | None => if windows then RunService else RunBlocking no_overrides
  | Some CmdInstall => InstallService
  | Some CmdUninstall => UninstallService
  | Some CmdStatus => ShowStatus
  | Some (CmdDiscover force) => RunDiscover force
  | Some CmdTestEvent => RunTestEvent
  end.

(** ** The running process *)
Record process : Type := mk_process {
  p_agent : Agent.t;
  p_recorder : UsageRecorder.t;
}.

Inductive StartError : Type :=
| StartConfig (e : ConfigError)
| StartStore (e : StoreError).

Section Process.
Import Agent.
Context {TT : TimeText} {UT : UuidText} {SJ : Serde (gmap string json)} {SQ : SqlEngine}
  {SS : Serde Schedule.t} {SM : Serde MessageStore.t} {SF : Serde AgentFileConfig}
  {HO : HashOrder}.

(** Up to the spawning of the loops; [events_db] and [state_db] are the two
    databases as they were opened. *)
Definition startup (fresh : Uuid) (hostname : option string) (var : string -> option string)
    (f : Fs.fault) (fs : Fs.t) (agent_toml_path : path) (cli : Overrides)
    (events_db : EventQueue.t * list bool) (state_db : Store.t * list bool)
    (started : Instant) (s1 s2 : stamp) : result StartError process :=
  match Config.load fresh hostname var f fs agent_toml_path cli with
  | (Err e, _) => Err (StartConfig e)
  | (Ok config, fs) =>
      match UsageRecorder.from_store state_db with
      | Err e => Err (StartStore e)
      | Ok recorder =>
          let recorder := UsageRecorder.with_event_queue events_db recorder in
          let agent := Agent.new config agent_toml_path events_db
                         (UsageRecorder.snapshot recorder) fs started in
          let agent := enqueue (fun i c => agent_started i c AGENT_VERSION "STARTUP") s1 agent in
          Ok (mk_process (enqueue system_boot s2 agent) recorder)
      end
  end.

(** One call of [handle] on the platform's thread, with the shared queue and
    snapshot. *)
Definition notified (inp : inputs) (event : SessionEvent) (username : option string)
    (utc_now : DateTime) (p : process) : result StoreError unit * process :=
  let '(res, r) := UsageRecorder.handle inp event username utc_now
                     (UsageRecorder.with_event_queue (queue (p_agent p)) (p_recorder p)) in
  (res, mk_process
          (set_snapshot (UsageRecorder.snapshot r)
             (set_queue (default (queue (p_agent p)) (UsageRecorder.event_queue r)) (p_agent p)))
          r).

(** One step of the process: a notification, or an operation of a loop. *)
Inductive pact : Type :=
| PNotify (inp : inputs) (event : SessionEvent) (username : option string) (utc_now : DateTime)
| PLoop (o : aop).

Definition prun (x : pact) (p : process) : process :=
  match x with
  | PNotify inp event username utc_now => (notified inp event username utc_now p).2
  | PLoop o => mk_process (run_op o (p_agent p)) (p_recorder p)
  end.

(** Only the platform's thread writes the snapshot. *)
Definition by_loops (o : aop) : Prop := match o with OSetSnapshot _ => False | _ => True end.

(** No statement on the session table failed, and a loop did what loops do. *)
Definition handled (x : pact) (p : process) : Prop :=
  match x with
  | PNotify inp event username utc_now => (notified inp event username utc_now p).1 = Ok tt
  | PLoop o => by_loops o
  end.

Fixpoint all_handled (xs : list pact) (p : process) : Prop :=
  match xs with
  | [] => True
  | x :: xs' => handled x p /\ all_handled xs' (prun x p)
  end.
Definition prun_all (xs : list pact) (p : process) : process := fold_left (fun p x => prun x p) xs p.

(** After [platform::run] has returned: [requested] is
    [platform::shutdown_requested()]. *)
Definition stopping (requested : bool) (s1 s2 : stamp) (a : Agent.t) : Agent.t :=
  let a := if requested then enqueue system_shutdown s1 a else a in
  let a := enqueue (fun i c => agent_stopping i c AGENT_VERSION) s2 a in
  begin_shutdown a.

(** ** [status], [discover] and [test-event] *)

Definition display_bool (b : bool) : string := if b then "true" else "false".
Definition as_secs (d : Duration) : Z := d / ns_per_sec.

(** The lines printed before the queue is counted. *)
Definition status_lines (dir : string) (c : AgentConfig) : list string :=
  ["Data directory:       " +:+ dir;
   "Device ID:            " +:+ uuid_to_string (device_id c);
   "Device name:          " +:+ device_name c;
   "Controller URL:       " +:+ default "(not configured)" (Config.controller_url c);
   "Discovery enabled:    " +:+ display_bool (discovery_enabled c);
   "Heartbeat interval:   " +:+ pretty (as_secs (heartbeat_interval c)) +:+ "s";
   "NTP time check:       " +:+
     (if ntp_enabled c then String.concat ", " (ntp_servers c) else "disabled")]%string.

(** [data_dir] of [lib.rs]: [env] is TIMELORD_DATA_DIR, [create_dir_all] the
    error of creating the directory, if any. *)
Definition data_dir (windows : bool) (env : option string) (create_dir_all : string -> option string)
  : result string string :=
  let path := match env with
              | Some dir => dir
              | None => if windows then "C:\ProgramData\TimeLord" else "./timelord-data"
              end%string in
  match create_dir_all path with Some e => Err e | None => Ok path end.

(** What is printed, the result, and the file system ([load] may store a
    device id).  [service]: [query_status] on Windows. *)
Definition status (service : option (result string string)) (fresh : Uuid)
    (hostname : option string) (var : string -> option string) (f : Fs.fault) (fs : Fs.t)
    (dir : string) (agent_toml_path : path) (events_db : EventQueue.t * list bool)
  : list string * result string unit * Fs.t :=
  match Config.load fresh hostname var f fs agent_toml_path no_overrides with
  | (Err _, fs) => ([], Err "configuration"%string, fs)
  | (Ok c, fs) =>
      match (EventQueue.len events_db).1 with
      | Err _ => (status_lines dir c, Err "queue"%string, fs)
      | Ok n =>
          (status_lines dir c ++ ["Pending local events: " +:+ pretty n]%string ++
           match service with
           | Some (Ok text) => ["Service state:        " +:+ text]%string
           | Some (Err e) => ["Service state:        unknown (" +:+ e +:+ ")"]%string
           | None => []
           end, Ok tt, fs)
      end
  end.

(** The commands that only work on Windows. *)
Definition run_service (windows : bool) (service : result string unit) : result string unit :=
  if windows then service
  else Err ("`service` mode requires the Windows Service Control Manager " +:+
            "and only runs on Windows")%string.
Definition install_service (windows : bool) (install : result string unit) : result string unit :=
  if windows then install else Err "service installation is only supported on Windows"%string.
Definition uninstall_service (windows : bool) (uninstall : result string unit)
  : result string unit :=
  if windows then uninstall else Err "service installation is only supported on Windows"%string.

(** The selected controller's URL, and the file system after [--force]. *)
Definition discover_command (force : bool) (f : Fs.fault) (fs : Fs.t) (agent_toml_path : path)
    (found : list DiscoveredController) : result ConfigError (option string) * Fs.t :=
  match found with
  | [] => (Ok None, fs)
  | _ =>
      match select_best found with
      | None => (Ok None, fs)  (* [expect("non-empty")] *)
      | Some best =>
          if force then
            match persist_controller_url f fs agent_toml_path (Discovery.controller_url best) with
            | (Err e, fs) => (Err e, fs)
            | (Ok _, fs) => (Ok (Some (Discovery.controller_url best)), fs)
            end
          else (Ok (Some (Discovery.controller_url best)), fs)
      end
  end.

Definition build_register_request (config : AgentConfig) (os arch : string) : RegisterRequest :=
  mk_register_request (device_id config) (device_name config) (device_name config)
    AGENT_VERSION os EmptyString arch [] [].

(** [register] and [submit] are the two calls of the client built for the
    configured URL. *)
Definition test_event (config : AgentConfig) (os arch : string) (s : stamp)
    (register : string -> RegisterRequest -> result ClientError RegisterResponse)
    (submit : string -> Uuid -> EventSubmissionRequest ->
              result ClientError EventSubmissionResponse)
    (q : EventQueue.t * list bool) : result QueueError unit * (EventQueue.t * list bool) :=
  let event := agent_started (st_id s) (st_built s) AGENT_VERSION "CLI_TEST_EVENT" in
  match EventQueue.enqueue event (st_now s) q with
  | (Err e, q) => (Err e, q)
  | (Ok _, q) =>
      match Config.controller_url config with
      | None => (Ok tt, q)
      | Some url =>
          match register url (build_register_request config os arch) with
          | Err _ => (Ok tt, q)
          | Ok resp =>
              match submit url (rr_device_id resp) (mk_submission [to_event_item event]) with
              | Err _ => (Ok tt, q)
              | Ok response =>
                  match head (sr_results response) with
                  | Some r =>
                      match er_status r with
                      | EventResultStatus.Rejected => (Ok tt, q)
                      | EventResultStatus.Accepted | EventResultStatus.Duplicate =>
                          EventQueue.mark_delivered_by_event_id (st_id s) q
                      end
                  | None => (Ok tt, q)
                  end
              end
          end
      end
  end.
End Process.

(** ** What a heartbeat says *)
Section Heartbeats.
Import Agent.
Context {TT : TimeText} {UT : UuidText} {SJ : Serde (gmap string json)} {SQ : SqlEngine}
  {SS : Serde Schedule.t} {SM : Serde MessageStore.t} {SF : Serde AgentFileConfig}
  {HO : HashOrder} {HL : HashOrderLaws}.

(** The shared snapshot is the recorder's, and it is truthful. *)
Definition snapshot_shared (p : process) : Prop :=
  session_snapshot (p_agent p) = UsageRecorder.snapshot (p_recorder p) /\
  truthful (p_recorder p).

Lemma run_op_snapshot o a : by_loops o -> session_snapshot (run_op o a) = session_snapshot a.
Proof.
  destruct o; simpl; intros Ho; try done.
  - unfold apply_schedule. by destruct (bool_decide _).
  - unfold mark_schedule_synced. by destruct (confirmed _).
Qed.

Lemma startup_shared fresh host var f fs path cli events_db state_db started s1 s2 p :
  startup fresh host var f fs path cli events_db state_db started s1 s2 = Ok p ->
  snapshot_shared p.
Proof.
  unfold startup. destruct (load _ _ _ _ _ _ _) as [[config|] fs']; [|done].
  unfold UsageRecorder.from_store. destruct (Store.find_dangling_session state_db) as [[o|] st];
    [simpl|done].
  destruct o as [[id st0]|]; intros [= <-]; (split; [done|]); unfold truthful; simpl;
    (split; [by split; [|intros []]|]; split; [done|]; split; [done|]; set_solver).
Qed.

Lemma prun_shared x p : handled x p -> snapshot_shared p -> snapshot_shared (prun x p).
Proof.
  intros Hh [Hs Ht]. destruct x as [inp e u now|o]; simpl in *.
  - unfold notified, UsageRecorder.handle in *.
    pose proof (handle_at_truthful inp e u now
      (UsageRecorder.with_event_queue (queue (p_agent p)) (p_recorder p)) Ht) as Hr.
    destruct (UsageRecorder.handle_at _ _ _ _ _) as [res r]. simpl in *. split; [done|auto].
  - split; [|done]. simpl. by rewrite run_op_snapshot.
Qed.

Lemma prun_all_shared xs p : all_handled xs p -> snapshot_shared p -> snapshot_shared (prun_all xs p).
Proof.
  revert p. induction xs as [|x xs IH]; intros p Hh Hp; [done|]. destruct Hh as [Hx Hh].
  apply IH; [done|]. by apply prun_shared.
Qed.

(** A heartbeat never claims more than is known.  From startup, through
    any interleaving of notifications on the platform's thread and
    operations of the networking loops, as long as the session table could
    be written, every heartbeat reports ACTIVE exactly when a usage session
    is open and the account of some logged-on session is known, names only
    an account of a logged-on session, and nobody only if none is known. *)
Lemma heartbeat_truthful (fresh : Uuid) (host : option string) (var : string -> option string)
    (f : Fs.fault) (fs : Fs.t) (toml : path) (cli : Overrides)
    (events_db : EventQueue.t * list bool) (state_db : Store.t * list bool) (started : Instant)
    (s1 s2 : stamp) (p0 : process) (xs : list pact) (s : stamp) (url : string) :
  startup fresh host var f fs toml cli events_db state_db started s1 s2 = Ok p0 ->
  all_handled xs p0 ->
  let p := prun_all xs p0 in
  let usernames := UsageRecorder.session_usernames (p_recorder p) in
  let hb := heartbeat_request s url (p_agent p) in
  (hq_session_state hb = "ACTIVE"%string <->
     UsageRecorder.is_active (p_recorder p) = true /\ usernames <> ∅) /\
  (forall name, hq_current_user hb = Some name -> exists id, usernames !! id = Some name) /\
  (hq_current_user hb = None <-> usernames = ∅).
Proof.
  intros H0 Hh. cbv zeta. destruct (prun_all_shared xs p0 Hh (startup_shared _ _ _ _ _ _ _ _ _ _ _ _ _ H0))
    as [Hs (H1 & H2 & H3 & _)].
  unfold heartbeat_request. simpl. rewrite Hs. done.
Qed.
End Heartbeats.

(** ** What is queued at the end *)
Section Stopping.
Import Agent.
Context {TT : TimeText} {UT : UuidText} {SJ : Serde (gmap string json)} {SQ : SqlEngine}
  {SS : Serde Schedule.t} {SM : Serde MessageStore.t} {SF : Serde AgentFileConfig}.
Context {SL : SerdeLaws (gmap string json)}.

Definition ids (q : EventQueue.t) : list string := map EventQueue.c_event_id (EventQueue.rows q).

(** The row a new event gets. *)
Definition is_new_row (e : QueuedEvent) (now : DateTime) (r : EventQueue.row) : Prop :=
  EventQueue.c_event_id r = uuid_to_string (event_id e) /\
  EventQueue.c_event_type r = event_type_to_string (event_type e) /\
  EventQueue.attempt_count r = 0 /\ EventQueue.next_attempt_at r = to_rfc3339 now.

(** With room in the table, the row of a new event is appended. *)
Lemma enqueue_appends e now q faults :
  quiet faults -> uuid_to_string (event_id e) ∉ ids q ->
  Z.of_nat (length (EventQueue.rows q)) < MAX_QUEUE_SIZE ->
  exists r faults', is_new_row e now r /\ quiet faults' /\
    let '(res, (q', fs')) := EventQueue.enqueue e now (q, faults) in
    res = Ok tt /\ fs' = faults' /\ EventQueue.rows q' = EventQueue.rows q ++ [r].
Proof.
  intros Hf Hid Hl. destruct (serde_round_trip (Queue.data e)) as (text & Ht & _).
  unfold EventQueue.enqueue, db_bind, EventQueue.or_serde. rewrite Ht. simpl.
  stmt_runs. pose proof (quiet_tail _ Hf) as Hf1.
  unfold EventQueue.insert_on_conflict_nothing. simpl.
  destruct (existsb _ (EventQueue.rows q)) eqn:E.
  { apply existsb_exists in E as (r & Hr & Heq%String.eqb_eq). destruct Hid.
    rewrite <- Heq. apply list_elem_of_fmap. exists r. split; [done|]. by apply list_elem_of_In. }
  simpl. unfold EventQueue.enforce_max_size, EventQueue.enforce_max_size_with_cap, db_bind.
  stmt_runs. simpl. rewrite length_app, Z.gtb_ltb. simpl.
  destruct (Z.ltb_spec 0 (Z.of_nat (length (EventQueue.rows q) + 1) - MAX_QUEUE_SIZE)); [lia|].
  eexists _, (tail (tail faults)). split; [|split; [by repeat apply quiet_tail|done]]. done.
Qed.

(** The notices of the end are in the durable queue before the loops are
    told to stop.  With a working database and room for two rows, leaving
    [run_blocking] appends a SYSTEM_SHUTDOWN event exactly when Windows
    announced a shutdown and then an AGENT_STOPPING event, both due at once,
    and touches no other event; only then is the shutdown signalled. *)
Lemma stop_notices_queued (requested : bool) (s1 s2 : stamp) (a : Agent.t)
    (q : EventQueue.t) (faults : list bool) :
  queue a = (q, faults) -> quiet faults ->
  (forall i, i ∈ [st_id s1; st_id s2] -> uuid_to_string i ∉ ids q) ->
  uuid_to_string (st_id s1) <> uuid_to_string (st_id s2) ->
  Z.of_nat (length (EventQueue.rows q)) + 2 <= MAX_QUEUE_SIZE ->
  let a' := stopping requested s1 s2 a in
  exists notices, EventQueue.rows (queue a').1 = EventQueue.rows q ++ notices /\
    map EventQueue.c_event_type notices =
      map event_type_to_string
        ((if requested then [EventType.SystemShutdown] else []) ++ [EventType.AgentStopping]) /\
    map EventQueue.next_attempt_at notices =
      (if requested then [to_rfc3339 (st_now s1)] else []) ++ [to_rfc3339 (st_now s2)] /\
    Forall (fun r => EventQueue.attempt_count r = 0) notices /\ Agent.shutdown a' = true.
Proof.
  intros Hq Hf Hid Hne Hl. unfold stopping.
  assert (Hn2 : uuid_to_string (st_id s2) ∉ ids q) by (apply Hid; set_solver).
  destruct requested.
  - destruct (enqueue_appends (system_shutdown (st_id s1) (st_built s1)) (st_now s1) q faults Hf)
      as (r1 & f1 & (H1 & H2 & H3 & H4) & Hf1 & Hr); [apply Hid; set_solver|lia|].
    destruct (EventQueue.enqueue _ _ _) as [res [q1 fs1]] eqn:E1. destruct Hr as (-> & -> & Hr1).
    destruct (enqueue_appends (agent_stopping (st_id s2) (st_built s2) AGENT_VERSION) (st_now s2)
      q1 f1 Hf1) as (r2 & f2 & (G1 & G2 & G3 & G4) & Hf2 & Hr).
    { unfold ids. rewrite Hr1, map_app. simpl. rewrite H1. simpl.
      rewrite not_elem_of_app, list_elem_of_singleton. split; [exact Hn2|by apply not_eq_sym]. }
    { rewrite Hr1, length_app. simpl. lia. }
    destruct (EventQueue.enqueue _ (st_now s2) _) as [res2 [q2 fs2]] eqn:E2.
    destruct Hr as (-> & -> & Hr2).
    exists [r1; r2]. unfold enqueue. simpl. rewrite Hq, E1. simpl. rewrite E2. simpl.
    rewrite Hr2, Hr1, <- app_assoc, H2, H4, G2, G4. do 3 (split; [done|]). split; [|done].
    by apply Forall_cons_2, Forall_singleton.
  - destruct (enqueue_appends (agent_stopping (st_id s2) (st_built s2) AGENT_VERSION) (st_now s2)
      q faults Hf Hn2) as (r2 & f2 & (G1 & G2 & G3 & G4) & Hf2 & Hr); [lia|].
    destruct (EventQueue.enqueue _ _ _) as [res2 [q2 fs2]] eqn:E2. destruct Hr as (-> & -> & Hr2).
    exists [r2]. unfold enqueue. simpl. rewrite Hq, E2. simpl. rewrite Hr2, G2, G4. do 3 (split; [done|]). split; [|done].
    by apply Forall_singleton.
Qed.
End Stopping.

(** ** The test event *)
Section TestEvent.
Context {TT : TimeText} {UT : UuidText} {SJ : Serde (gmap string json)} {SQ : SqlEngine}.
Context {UL : UuidTextLaws} {SL : SerdeLaws (gmap string json)}.

(** A test event is delivered or kept.  With a working database and room
    in it, [test-event] returns without an error; the event is in the queue
    afterwards unless a controller is configured, the device could be
    registered, and the controller's answer to the event itself was not a
    rejection, in which case exactly that event is gone. *)
Lemma test_event_delivered_or_kept (config : AgentConfig) (os arch : string) (s : stamp)
    (register : string -> RegisterRequest -> result ClientError RegisterResponse)
    (submit : string -> Uuid -> EventSubmissionRequest ->
              result ClientError EventSubmissionResponse)
    (q : EventQueue.t) (faults : list bool) :
  quiet faults -> uuid_to_string (st_id s) ∉ ids q ->
  Z.of_nat (length (EventQueue.rows q)) < MAX_QUEUE_SIZE ->
  let '(res, (q', _)) := test_event config os arch s register submit (q, faults) in
  res = Ok tt /\
  ((exists r, EventQueue.rows q' = EventQueue.rows q ++ [r] /\
      is_new_row (agent_started (st_id s) (st_built s) AGENT_VERSION "CLI_TEST_EVENT")
        (st_now s) r) \/
   (EventQueue.rows q' = EventQueue.rows q /\
    exists url resp answer r, Config.controller_url config = Some url /\
      register url (build_register_request config os arch) = Ok resp /\
      submit url (rr_device_id resp) (mk_submission [to_event_item
        (agent_started (st_id s) (st_built s) AGENT_VERSION "CLI_TEST_EVENT")]) = Ok answer /\
      head (sr_results answer) = Some r /\ er_status r <> EventResultStatus.Rejected)).
Proof.
  intros Hf Hid Hl. unfold test_event.
  set (ev := agent_started _ _ _ _).
  destruct (enqueue_appends ev (st_now s) q faults Hf Hid Hl) as (r & f1 & Hnew & Hf1 & Hr).
  destruct (EventQueue.enqueue ev (st_now s) (q, faults)) as [res [q1 fs1]].
  destruct Hr as (-> & -> & Hr). simpl.
  assert (Hkept : exists r, EventQueue.rows q1 = EventQueue.rows q ++ [r] /\
                    is_new_row ev (st_now s) r) by (by exists r).
  destruct (Config.controller_url config) as [url|] eqn:Eu; [|by auto].
  destruct (register url _) as [resp|] eqn:Er; [|by auto].
  destruct (submit url _ _) as [answer|] eqn:Es; [|by auto].
  destruct (head (sr_results answer)) as [x|] eqn:Eh; [|by auto].
  assert (Hgone : List.filter (fun r => negb (String.eqb (EventQueue.c_event_id r)
            (uuid_to_string (st_id s)))) (EventQueue.rows q1) = EventQueue.rows q).
  { rewrite Hr, List.filter_app. simpl. rewrite (proj1 Hnew), String.eqb_refl. simpl.
    rewrite app_nil_r. apply bfilter_all. intros y Hy. apply negb_true_iff, String.eqb_neq.
    intros Heq. apply Hid. rewrite <- Heq. by apply list_elem_of_fmap_2. }
  destruct (er_status x) eqn:Ex; [..|by auto];
    unfold EventQueue.mark_delivered_by_event_id; stmt_runs; simpl;
    (split; [done|]); right; (split; [exact Hgone|]);
    exists url, resp, answer, x; by rewrite Ex.
Qed.
End TestEvent.

(** ** Concrete runs *)
Section MainSample.
#[local] Existing Instances Bits.time_text Bits.uuid_text payload_serde stable_engine tree_order.
#[local] Existing Instances Bits.time_text_laws Bits.uuid_text_laws payload_serde_laws
  stable_engine_laws tree_order_laws.
#[local] Instance main_schedule_codec : Serde Schedule.t := Bits.serde_of_countable Schedule.t.
#[local] Instance main_store_codec : Serde MessageStore.t :=
  Bits.serde_of_countable MessageStore.t.
(** Any text is an [agent.toml] that configures a device id. *)
#[local] Instance main_toml : Serde AgentFileConfig := {|
  to_json _ := Some EmptyString;
  from_json _ := Some (set_device_id (uuid_to_string 9%N) default_file) |}.

Definition sample_toml : path := ("d", "agent", "toml")%string.
Definition sample_fs : Fs.t := {[ sample_toml := EmptyString ]}.
Definition sample_stamp (i : N) : stamp := mk_stamp i (secs 1) (secs 1).
Definition sample_start : result StartError process :=
  startup 1%N None (fun _ => None) None sample_fs sample_toml no_overrides
    (EventQueue.init, []) (Store.init, []) 0 (sample_stamp 10) (sample_stamp 11).
Definition sample_process : process :=
  match sample_start with
  | Ok p => p
  | Err _ => mk_process blank_agent (start [] None)
  end.
Definition sample_acts : list pact :=
  [PNotify (mk_inputs 1%N 2%N 3%N (secs 2)) (Logon 5%N) (Some "alice"%string) (secs 2);
   PLoop OMarkSynced; PLoop (OSetConnected true)].

Lemma heartbeat_truthful_witness :
  let p := prun_all sample_acts sample_process in
  let hb := heartbeat_request (sample_stamp 12) "http://c" (p_agent p) in
  hq_session_state hb = "ACTIVE"%string /\ hq_current_user hb = Some "alice"%string /\
  UsageRecorder.is_active (p_recorder p) = true.
Proof.
  intros p hb.
  assert (Ha : hq_session_state hb = "ACTIVE"%string) by (vm_compute; reflexivity).
  split; [exact Ha|]. split; [vm_compute; reflexivity|].
  apply (heartbeat_truthful 1%N None (fun _ => None) None sample_fs sample_toml no_overrides
           (EventQueue.init, []) (Store.init, []) 0 (sample_stamp 10) (sample_stamp 11)
           sample_process sample_acts (sample_stamp 12) "http://c"); [| |exact Ha].
  - vm_compute. reflexivity.
  - split; [vm_compute; reflexivity|]. by repeat split.
Defined.

Lemma stop_notices_queued_witness :
  exists notices, EventQueue.rows (Agent.queue (stopping true (sample_stamp 20) (sample_stamp 21)
                    blank_agent)).1 = notices /\ length notices = 2%nat.
Proof.
  destruct (stop_notices_queued true (sample_stamp 20) (sample_stamp 21) blank_agent
              EventQueue.init []) as (notices & Hr & Ht & _).
  - reflexivity.
  - constructor.
  - intros i _. apply not_elem_of_nil.
  - by vm_compute.
  - by vm_compute.
  - exists notices. split; [exact Hr|]. apply (f_equal length) in Ht. by rewrite length_map in Ht.
Defined.

Lemma test_event_delivered_or_kept_witness :
  let config := Agent.config blank_agent in
  let '(res, (q', _)) :=
    test_event config "linux" "x86_64" (sample_stamp 30) (fun _ _ => Err (Request ""))
      (fun _ _ _ => Err (Request "")) (EventQueue.init, []) in
  res = Ok tt /\ length (EventQueue.rows q') = 1%nat.
Proof.
  intros config.
  pose proof (test_event_delivered_or_kept config "linux" "x86_64" (sample_stamp 30)
                (fun _ _ => Err (Request "")) (fun _ _ _ => Err (Request "")) EventQueue.init []
                ltac:(constructor) ltac:(apply not_elem_of_nil) ltac:(vm_compute; reflexivity)) as H.
  destruct (test_event _ _ _ _ _ _ _) as [res [q' fs]].
  destruct H as [-> [(r & -> & _)|(_ & url & _ & _ & _ & Hu & _)]]; [by split|discriminate Hu].
Defined.
End MainSample.
