(* ===== verification/Network.v ===== *)
(** * The networking task and the threads around it ([agent/src/agent.rs])

    [run_blocking] with everything it starts: the platform's thread, the clock
    loop, and the networking task, which finds a controller, registers and then
    runs the joined loops.  Each loop is a relation on its own phase, the
    agent, and (for those that share the client) the client behind its mutex;
    [nstep] interleaves them.  A step is what a loop does between two [await]s,
    so a mutex held across one is a field ([holder]); an [await] on the queue's
    lock is a point between two steps.  Timers, answers of the controller and
    clock readings are the environment's.  [network_refines_enforcement]: what
    [Enforcement] shows of its executions holds of the whole process. *)
From S2P Require Import Prelude Codec Fs Tracker Schedule Messages Clock Protocol Db Queue Store.
From S2P Require Import Events Recorder Config Client Discovery Agent Loops Delivery Enforcement.
From S2P Require Import Restart Platform Main.
#[local] Open Scope Z_scope.

(** ** The shared client: [Arc<Mutex<(ControllerClient, Uuid)>>] *)
Record client : Type := mk_client { base_url : string; device : Uuid }.

(** The loops that keep the lock while they wait for an answer. *)
Inductive owner : Type := HeldByHeartbeat | HeldByDelivery.
Record lock : Type := mk_lock { shared_client : client; holder : option owner }.

(** ** The phases of the loops *)
Inductive register_phase : Type :=
| RgSend
| RgAnswered (answer : result ClientError RegisterResponse)
| RgAdopting (response : RegisterResponse)
| RgBackoff (until : Instant).

Inductive resolve_phase : Type :=
| RvStart
| RvSearching
| RvBackoff (until : Instant).

Inductive heartbeat_phase : Type :=
| HbSelect
| HbTicked                        (* about to read the client's url and id *)
| HbReady (url : string) (device_id : Uuid) (request : HeartbeatRequest)
| HbSent (url : string)           (* in flight, the client locked *)
| HbAnswered (url : string) (answer : result ClientError HeartbeatResponse)
| HbAdopting (response : HeartbeatResponse)
| HbReporting
| HbLost                          (* about to lock the client and register again *)
| HbRegistering (r : register_phase)
| HbStopped.

(** An interval's next tick and the phase. *)
Record heartbeat : Type := mk_hb { hb_next : Instant; hb_at : heartbeat_phase }.

(** [final]: the attempt after the shutdown signal. *)
Inductive delivery_phase : Type :=
| DlSelect
| DlTake (final : bool)
| DlReady (final : bool) (pending : list PendingDelivery)
| DlSent (final : bool) (pending : list PendingDelivery) (url : string)
| DlAnswered (final : bool) (pending : list PendingDelivery) (url : string)
    (answer : result ClientError EventSubmissionResponse)
| DlSettle (final : bool) (pending : list PendingDelivery)
    (answer : result ClientError EventSubmissionResponse)
| DlStopped.
Record delivery : Type := mk_dl { dl_next : Instant; dl_at : delivery_phase }.

Inductive poll_phase (R : Type) : Type :=
| PlTop
| PlPolling
| PlAnswered (answer : R)
| PlBackoff (until : Instant)
| PlStopped.
Arguments PlTop {R}.
Arguments PlPolling {R}.
Arguments PlAnswered {R} answer.
Arguments PlBackoff {R} until.
Arguments PlStopped {R}.

Abbreviation schedule_poll := (poll_phase (result ClientError (option Schedule.t))) (only parsing).
Abbreviation message_poll := (poll_phase (result ClientError (list AgentMessage.t))) (only parsing).

(** [watch]: the next tick of the watch interval. *)
Inductive clock_phase : Type :=
| CkTop (l : ClockSync.t) (watch : Instant)
| CkMeasuring (l : ClockSync.t) (watch : Instant)
| CkSelect (l : ClockSync.t) (watch : Instant)
| CkStopped.

(** ** Events *)
Inductive loop_name : Type :=
| HeartbeatLoop | ScheduleLoop | MessageLoop | DeliveryLoop | ClockLoop | NetworkTask.

Inductive event : Type :=
| ETime
| ENotified (ok : bool)                        (* a notification; [ok]: [handle] gave no error *)
| EPumpEnded (closed : bool)                   (* [closed]: the recorder's [shutdown] was written *)
| EMain                                        (* the main thread queues a notice of the end *)
| EShutdown (instant : Instant)                (* [begin_shutdown] *)
| EExit (instant : Instant)                    (* [run_blocking] stops waiting *)
| EEnforce (lb : label)
| EWake (lb : label)                           (* an arm of the enforcement loop's [select!] *)
| EArm (who : loop_name)                       (* an arm other than the shutdown's *)
| EOwn (who : loop_name)
| ERequest (who : loop_name) (device_id : Uuid)
| EConfirm                                     (* the controller gave its schedule *)
| EAssigned (device_id : Uuid)                 (* a registration succeeded; confirms too *)
| ETake (final : bool)                         (* the delivery loop read the queue *)
| ESettled (pending : list PendingDelivery)
    (answer : result ClientError EventSubmissionResponse)
| EPipeEnded
| EPanic.

(** What the joined loops are at.  [pipe]: the notifier's pipe is being
    served; [missed]: see [heartbeat_step]. *)
Record loops : Type := mk_loops {
  lk : lock;
  hb : heartbeat;
  sp : schedule_poll;
  mp : message_poll;
  dl : delivery;
  pipe : bool;
  missed : bool;
}.

(** The networking task. *)
Inductive task : Type :=
| Resolving (r : resolve_phase)
| Registering (url : string) (r : register_phase)
| Joined (ls : loops)
| Died.                        (* a panic unwound it *)

(** The main thread. *)
Inductive main_phase : Type :=
| MPump                                                  (* in [platform::run] *)
| MNotices (es : list (Uuid -> DateTime -> QueuedEvent)) (* left to enqueue *)
| MFlush (until : Instant)                               (* waits for the task *)
| MDone.

Record net : Type := mk_net {
  n_world : world;               (* the agent, the enforcement loop, the clocks *)
  n_recorder : UsageRecorder.t;
  n_task : task;
  n_clock : clock_phase;
  n_main : main_phase;
}.

Section Network.
Import Agent.
Context {TT : TimeText} {UT : UuidText} {SJ : Serde (gmap string json)} {SQ : SqlEngine}
  {SS : Serde Schedule.t} {SM : Serde MessageStore.t} {SF : Serde AgentFileConfig}
  {HO : HashOrder}.

(** Fresh ids and clock readings are in the range of their texts. *)
Definition stamp_ok (s : stamp) : Prop :=
  uuid_valid (st_id s) /\ representable (st_built s) /\ representable (st_now s).
(** So are the retry times computed from a reading. *)
Definition reading_ok (u : DateTime) : Prop := forall n, representable (u + backoff_delay n).

(** ** Resolving and registering *)
Inductive resolve_step (i : Instant) :
  resolve_phase * Agent.t -> event -> (resolve_phase + string) * Agent.t -> Prop :=
| rv_start a s : stamp_ok s ->
    resolve_step i (RvStart, a) (EOwn NetworkTask)
      (inl RvSearching, enqueue controller_discovery_started s a)
| rv_found f s found a url a' : stamp_ok s -> resolve_found f s found a = (Some url, a') ->
    resolve_step i (RvSearching, a) (EOwn NetworkTask) (inr url, a')
| rv_nothing f s found a a' : stamp_ok s -> resolve_found f s found a = (None, a') ->
    resolve_step i (RvSearching, a) (EOwn NetworkTask) (inl (RvBackoff (i + RECONNECT_BACKOFF)), a')
| rv_again until a : until <= i ->
    resolve_step i (RvBackoff until, a) (EArm NetworkTask) (inl RvStart, a).

Inductive register_step (who : loop_name) (i : Instant) :
  register_phase * Agent.t -> event -> (register_phase + Uuid) * Agent.t -> Prop :=
| rg_send a answer :
    register_step who i (RgSend, a) (EOwn who) (inl (RgAnswered answer), a)
| rg_ok r a s : stamp_ok s ->
    register_step who i (RgAnswered (Ok r), a) (EOwn who)
      (inl (RgAdopting r), enqueue (fun i c => registration_succeeded i c (rr_device_id r)) s a)
| rg_adopt f r a :
    register_step who i (RgAdopting r, a) (EAssigned (rr_device_id r))
      (inr (rr_device_id r), registered f r a)
| rg_failed e a s : stamp_ok s ->
    register_step who i (RgAnswered (Err e), a) (EOwn who)
      (inl (RgBackoff (i + RECONNECT_BACKOFF)),
       enqueue (fun i c => registration_failed i c (client_error_to_string e)) s a)
| rg_again until a : until <= i ->
    register_step who i (RgBackoff until, a) (EArm who) (inl RgSend, a).

(** ** The heartbeat loop.  [missed]: the loop subscribed to the shutdown
    signal only after it had been given, and will not see it. *)
Inductive heartbeat_step (i : Instant) (missed : bool) :
  heartbeat * lock * Agent.t -> event -> heartbeat * lock * Agent.t -> Prop :=
| hb_tick next lk a : next <= i ->
    heartbeat_step i missed (mk_hb next HbSelect, lk, a) (EArm HeartbeatLoop)
      (mk_hb (next + heartbeat_interval (config a)) HbTicked, lk, a)
| hb_stop next lk a : shutdown a = true -> missed = false ->
    heartbeat_step i missed (mk_hb next HbSelect, lk, a) (EOwn HeartbeatLoop)
      (mk_hb next HbStopped, lk, a)
| hb_prepare next c a s :
    heartbeat_step i missed (mk_hb next HbTicked, mk_lock c None, a) (EOwn HeartbeatLoop)
      (mk_hb next (HbReady (base_url c) (device c) (heartbeat_request s (base_url c) a)),
       mk_lock c None, a)
| hb_send next url id rq c a :
    heartbeat_step i missed (mk_hb next (HbReady url id rq), mk_lock c None, a)
      (ERequest HeartbeatLoop id)
      (mk_hb next (HbSent url), mk_lock c (Some HeldByHeartbeat), a)
| hb_answer next url c h a answer :
    heartbeat_step i missed (mk_hb next (HbSent url), mk_lock c h, a) (EOwn HeartbeatLoop)
      (mk_hb next (HbAnswered url answer), mk_lock c None, a)
| hb_connected next url r lk a s : stamp_ok s ->
    heartbeat_step i missed (mk_hb next (HbAnswered url (Ok r)), lk, a) (EOwn HeartbeatLoop)
      (mk_hb next (HbAdopting r), lk, note_connected url s a)
| hb_adopt next r lk a f :
    heartbeat_step i missed (mk_hb next (HbAdopting r), lk, a) EConfirm
      (mk_hb next HbReporting, lk, mark_schedule_synced (apply_schedule f (hr_schedule r) a))
| hb_report next lk a s : stamp_ok s ->
    heartbeat_step i missed (mk_hb next HbReporting, lk, a) (EOwn HeartbeatLoop)
      (mk_hb next HbSelect, lk, enqueue heartbeat_sent s a)
| hb_not_found next url e lk a s : stamp_ok s -> is_device_not_found e = true ->
    heartbeat_step i missed (mk_hb next (HbAnswered url (Err e)), lk, a) (EOwn HeartbeatLoop)
      (mk_hb next HbLost, lk, note_disconnected "device not found; re-registering" s a)
| hb_failed next url e lk a s : stamp_ok s -> is_device_not_found e = false ->
    heartbeat_step i missed (mk_hb next (HbAnswered url (Err e)), lk, a) (EOwn HeartbeatLoop)
      (mk_hb next HbSelect, lk, note_disconnected (client_error_to_string e) s a)
| hb_relock next c a :
    heartbeat_step i missed (mk_hb next HbLost, mk_lock c None, a) (EOwn HeartbeatLoop)
      (mk_hb next (HbRegistering RgSend), mk_lock c (Some HeldByHeartbeat), a)
| hb_registering next r lk a ev r' a' :
    register_step HeartbeatLoop i (r, a) ev (inl r', a') ->
    heartbeat_step i missed (mk_hb next (HbRegistering r), lk, a) ev
      (mk_hb next (HbRegistering r'), lk, a')
| hb_registered next r c h a ev id a' :
    register_step HeartbeatLoop i (r, a) ev (inr id, a') ->
    heartbeat_step i missed (mk_hb next (HbRegistering r), mk_lock c h, a) ev
      (mk_hb next HbSelect, mk_lock (mk_client (base_url c) id) None, a').

(** ** The delivery loop *)
Definition after_delivery (final : bool) : delivery_phase := if final then DlStopped else DlSelect.

Inductive delivery_step (i : Instant) (utc : DateTime) (missed : bool) :
  delivery * lock * Agent.t -> event -> delivery * lock * Agent.t -> Prop :=
| dl_tick next lk a : next <= i ->
    delivery_step i utc missed (mk_dl next DlSelect, lk, a) (EArm DeliveryLoop)
      (mk_dl (next + event_retry_interval (config a)) (DlTake false), lk, a)
| dl_flush next lk a : flush_notify a = true ->
    delivery_step i utc missed (mk_dl next DlSelect, lk, a) (EArm DeliveryLoop)
      (mk_dl next (DlTake false), lk, set_flush false a)
| dl_shutdown next lk a : shutdown a = true -> missed = false ->
    delivery_step i utc missed (mk_dl next DlSelect, lk, a) (EOwn DeliveryLoop)
      (mk_dl next (DlTake true), lk, a)
| dl_take next final lk a d pending a' : take_batch utc a = (Ok (d :: pending), a') ->
    delivery_step i utc missed (mk_dl next (DlTake final), lk, a) (ETake final)
      (mk_dl next (DlReady final (d :: pending)), lk, a')
| dl_empty next final lk a a' : take_batch utc a = (Ok [], a') ->
    delivery_step i utc missed (mk_dl next (DlTake final), lk, a) (ETake final)
      (mk_dl next (after_delivery final), lk, a')
| dl_unread next final lk a e a' : take_batch utc a = (Err e, a') -> e <> QPanic ->
    delivery_step i utc missed (mk_dl next (DlTake final), lk, a) (ETake final)
      (mk_dl next (after_delivery final), lk, a')
| dl_panic next final lk a a' : take_batch utc a = (Err QPanic, a') ->
    delivery_step i utc missed (mk_dl next (DlTake final), lk, a) EPanic
      (mk_dl next (DlTake final), lk, a')
| dl_send next final pending c a :
    delivery_step i utc missed (mk_dl next (DlReady final pending), mk_lock c None, a)
      (ERequest DeliveryLoop (device c))
      (mk_dl next (DlSent final pending (base_url c)), mk_lock c (Some HeldByDelivery), a)
| dl_answer next final pending url c h a answer :
    delivery_step i utc missed (mk_dl next (DlSent final pending url), mk_lock c h, a)
      (EOwn DeliveryLoop)
      (mk_dl next (DlAnswered final pending url answer), mk_lock c None, a)
| dl_note next final pending url answer lk a s : stamp_ok s ->
    delivery_step i utc missed (mk_dl next (DlAnswered final pending url answer), lk, a)
      (EOwn DeliveryLoop)
      (mk_dl next (DlSettle final pending answer), lk, note_result s url answer a)
| dl_settle next final pending answer lk a clock_at :
    (forall d, reading_ok (clock_at d)) ->
    delivery_step i utc missed (mk_dl next (DlSettle final pending answer), lk, a)
      (ESettled pending answer)
      (mk_dl next (after_delivery final), lk,
       set_queue (exec_all (settle_ops clock_at pending answer) (queue a)) a).

(** ** The two polls.  [apply] is what the loop does with an answer; [true]:
    it backs off. *)
Inductive poll_step {R : Type} (who : loop_name) (i : Instant) (missed : bool)
    (apply : R -> Agent.t -> event -> bool * Agent.t -> Prop) :
  poll_phase R * lock * Agent.t -> event -> poll_phase R * lock * Agent.t -> Prop :=
| pl_request c a :
    poll_step who i missed apply (PlTop, mk_lock c None, a) (ERequest who (device c))
      (PlPolling, mk_lock c None, a)
| pl_answered answer lk a :
    poll_step who i missed apply (PlPolling, lk, a) (EArm who) (PlAnswered answer, lk, a)
| pl_applied answer lk a ev a' : apply answer a ev (false, a') ->
    poll_step who i missed apply (PlAnswered answer, lk, a) ev (PlTop, lk, a')
| pl_failed answer lk a ev a' : apply answer a ev (true, a') ->
    poll_step who i missed apply (PlAnswered answer, lk, a) ev
      (PlBackoff (i + RECONNECT_BACKOFF), lk, a')
| pl_again until lk a : until <= i ->
    poll_step who i missed apply (PlBackoff until, lk, a) (EArm who) (PlTop, lk, a)
| pl_stop lk a : shutdown a = true -> missed = false ->
    poll_step who i missed apply (PlPolling, lk, a) (EOwn who) (PlStopped, lk, a)
| pl_stop_backoff until lk a : shutdown a = true -> missed = false ->
    poll_step who i missed apply (PlBackoff until, lk, a) (EOwn who) (PlStopped, lk, a).

Definition apply_schedule_answer (r : result ClientError (option Schedule.t)) (a : Agent.t)
    (ev : event) (out : bool * Agent.t) : Prop :=
  exists f, out = schedule_poll_answer f r a /\
            ev = match r with Ok _ => EConfirm | Err _ => EOwn ScheduleLoop end.
Definition apply_message_answer (utc : DateTime) (r : result ClientError (list AgentMessage.t))
    (a : Agent.t) (ev : event) (out : bool * Agent.t) : Prop :=
  exists f, out = message_poll_answer f utc r a /\ ev = EOwn MessageLoop.

(** ** The clock loop *)
Inductive clock_step (i : Instant) (utc : DateTime) :
  clock_phase * Agent.t -> event -> clock_phase * Agent.t -> Prop :=
| ck_due l watch a : ClockSync.next_sync l <= i ->
    clock_step i utc (CkTop l watch, a) (EOwn ClockLoop) (CkMeasuring l watch, a)
| ck_not_due l watch a : i < ClockSync.next_sync l ->
    clock_step i utc (CkTop l watch, a) (EOwn ClockLoop) (CkSelect l watch, a)
| ck_measured measured l watch a l' a' : ClockSync.sync measured utc i l a = (l', a') ->
    clock_step i utc (CkMeasuring l watch, a) (EOwn ClockLoop) (CkSelect l' watch, a')
| ck_sleep l watch a : ClockSync.next_sync l <= i ->
    clock_step i utc (CkSelect l watch, a) (EArm ClockLoop) (CkTop l watch, a)
| ck_resync l watch a l' a' : clock_resync a = true ->
    ClockSync.woken ClockSync.Resync utc i l a = (l', a') ->
    clock_step i utc (CkSelect l watch, a) (EArm ClockLoop) (CkTop l' watch, a')
| ck_watch l watch a l' a' : watch <= i ->
    ClockSync.woken ClockSync.WatchTick utc i l a = (l', a') ->
    clock_step i utc (CkSelect l watch, a) (EArm ClockLoop)
      (CkTop l' (i + CLOCK_WATCH_INTERVAL), a')
| ck_stop l watch a : shutdown a = true ->
    clock_step i utc (CkSelect l watch, a) (EOwn ClockLoop) (CkStopped, a).

(** [clock_sync_loop] as it is entered. *)
Definition clock_start (utc : DateTime) (i : Instant) (a : Agent.t) : clock_phase :=
  if TrustedClock.enabled (clock a) then CkTop (ClockSync.start utc i) i else CkStopped.

(** ** The whole process *)
Definition put_agent (a : Agent.t) (w : world) : world :=
  mk_world a (w_loop w) (w_instant w) (w_utc w).

Definition inputs_ok (inp : inputs) (u : DateTime) : Prop :=
  uuid_valid (in_event_id inp) /\ uuid_valid (in_activity_id inp) /\
  representable (in_clock inp) /\ representable u.

(** [tokio::join!] creates the two intervals, and [interval] panics on a
    period of zero. *)
Definition join_loops (windows : bool) (i : Instant) (url : string) (id : Uuid) (a : Agent.t) : task :=
  if (heartbeat_interval (config a) =? 0) || (event_retry_interval (config a) =? 0) then Died
  else Joined
    (mk_loops (mk_lock (mk_client (ControllerClient.base_url (ControllerClient.new url)) id) None)
       (mk_hb i HbSelect) PlTop PlTop (mk_dl i DlSelect) windows (shutdown a)).

(** All the joined futures have returned, or the task has panicked. *)
Definition task_over (l : loop) (t : task) : Prop :=
  match t with
  | Joined ls => hb_at (hb ls) = HbStopped /\ sp ls = PlStopped /\ mp ls = PlStopped /\
                 dl_at (dl ls) = DlStopped /\ pipe ls = false /\ at_phase l = Stopped
  | Died => True
  | _ => False
  end.

Definition set_hb h k (ls : loops) : loops :=
  mk_loops k h (sp ls) (mp ls) (dl ls) (pipe ls) (missed ls).
Definition set_sp x k (ls : loops) : loops :=
  mk_loops k (hb ls) x (mp ls) (dl ls) (pipe ls) (missed ls).
Definition set_mp x k (ls : loops) : loops :=
  mk_loops k (hb ls) (sp ls) x (dl ls) (pipe ls) (missed ls).
Definition set_dl x k (ls : loops) : loops :=
  mk_loops k (hb ls) (sp ls) (mp ls) x (pipe ls) (missed ls).
Definition pipe_ended (ls : loops) : loops :=
  mk_loops (lk ls) (hb ls) (sp ls) (mp ls) (dl ls) false (missed ls).

(** The notices queued after [platform::run] has returned. *)
Definition notices (requested : bool) : list (Uuid -> DateTime -> QueuedEvent) :=
  (if requested then [system_shutdown] else []) ++ [fun i c => agent_stopping i c AGENT_VERSION].

(** One turn of the enforcement loop, which runs among the joined ones. *)
Inductive enforcement_step (w : world) (missed : bool) : event -> world -> Prop :=
| en_act s l' a' act sch : stamp_ok s -> at_phase (w_loop w) = Top ->
    decide s (w_utc w) (w_instant w) (w_loop w) (w_agent w) = (l', a', Some (act, sch)) ->
    enforcement_step w missed
      (EEnforce (LAct act sch (w_instant w) (Agent.now (w_agent w) (w_utc w))))
      (mk_world a' l' (w_instant w) (w_utc w))
| en_park s l' a' : stamp_ok s -> at_phase (w_loop w) = Top ->
    decide s (w_utc w) (w_instant w) (w_loop w) (w_agent w) = (l', a', None) ->
    enforcement_step w missed (EEnforce LPark) (mk_world a' l' (w_instant w) (w_utc w))
| en_finish s r sch wait l' a' o : stamp_ok s -> at_phase (w_loop w) = Acting sch wait ->
    finish s r (w_utc w) (w_instant w) sch wait (w_loop w) (w_agent w) = (l', a', o) ->
    enforcement_step w missed (EEnforce (reset_label o)) (mk_world a' l' (w_instant w) (w_utc w))
| en_timer planned until l' a' o : at_phase (w_loop w) = Waiting planned until ->
    until <= w_instant w ->
    wake planned (w_utc w) (w_instant w) (w_loop w) (w_agent w) = (l', a', o) ->
    enforcement_step w missed (EWake (reset_label o)) (mk_world a' l' (w_instant w) (w_utc w))
| en_notified planned until l' a' o : at_phase (w_loop w) = Waiting planned until ->
    schedule_changed (w_agent w) = true ->
    wake planned (w_utc w) (w_instant w) (w_loop w) (set_schedule_changed false (w_agent w)) =
      (l', a', o) ->
    enforcement_step w missed (EWake (reset_label o)) (mk_world a' l' (w_instant w) (w_utc w))
| en_stop planned until : at_phase (w_loop w) = Waiting planned until ->
    shutdown (w_agent w) = true -> missed = false ->
    enforcement_step w missed (EEnforce LGo)
      (mk_world (w_agent w) (mk_loop Stopped (last_shutdown_request (w_loop w)))
         (w_instant w) (w_utc w)).

(** A step of the networking task. *)
Inductive task_step (windows : bool) (w : world) : task -> event -> task -> world -> Prop :=
| t_resolve r ev r' a' : resolve_step (w_instant w) (r, w_agent w) ev (inl r', a') ->
    task_step windows w (Resolving r) ev (Resolving r') (put_agent a' w)
| t_resolved r ev url a' : resolve_step (w_instant w) (r, w_agent w) ev (inr url, a') ->
    task_step windows w (Resolving r) ev (Registering url RgSend) (put_agent a' w)
| t_register url r ev r' a' :
    register_step NetworkTask (w_instant w) (r, w_agent w) ev (inl r', a') ->
    task_step windows w (Registering url r) ev (Registering url r') (put_agent a' w)
| t_registered url r ev id a' :
    register_step NetworkTask (w_instant w) (r, w_agent w) ev (inr id, a') ->
    task_step windows w (Registering url r) ev (join_loops windows (w_instant w) url id a')
      (put_agent a' w)
| t_heartbeat ls ev h k a' :
    heartbeat_step (w_instant w) (missed ls) (hb ls, lk ls, w_agent w) ev (h, k, a') ->
    task_step windows w (Joined ls) ev (Joined (set_hb h k ls)) (put_agent a' w)
| t_schedule ls ev p k a' :
    poll_step ScheduleLoop (w_instant w) (missed ls) apply_schedule_answer
      (sp ls, lk ls, w_agent w) ev (p, k, a') ->
    task_step windows w (Joined ls) ev (Joined (set_sp p k ls)) (put_agent a' w)
| t_messages ls ev p k a' :
    poll_step MessageLoop (w_instant w) (missed ls) (apply_message_answer (w_utc w))
      (mp ls, lk ls, w_agent w) ev (p, k, a') ->
    task_step windows w (Joined ls) ev (Joined (set_mp p k ls)) (put_agent a' w)
| t_deliver ls ev d k a' :
    delivery_step (w_instant w) (w_utc w) (missed ls) (dl ls, lk ls, w_agent w) ev (d, k, a') ->
    ev <> EPanic ->
    task_step windows w (Joined ls) ev (Joined (set_dl d k ls)) (put_agent a' w)
| t_panic ls d k a' :
    delivery_step (w_instant w) (w_utc w) (missed ls) (dl ls, lk ls, w_agent w) EPanic (d, k, a') ->
    task_step windows w (Joined ls) EPanic Died (put_agent a' w)
| t_enforce ls ev w' : enforcement_step w (missed ls) ev w' ->
    task_step windows w (Joined ls) ev (Joined ls) w'
| t_pipe ls : pipe ls = true ->
    task_step windows w (Joined ls) EPipeEnded (Joined (pipe_ended ls)) w.

Inductive nstep (windows : bool) : net -> event -> net -> Prop :=
| n_time a l i u r t c m d u' : 0 <= d ->
    nstep windows (mk_net (mk_world a l i u) r t c m) ETime
      (mk_net (mk_world a l (i + d) u') r t c m)
| n_notify w r t c inp e user u res a' r' : inputs_ok inp u ->
    notified inp e user u (mk_process (w_agent w) r) = (res, mk_process a' r') ->
    nstep windows (mk_net w r t c MPump) (ENotified (is_ok res))
      (mk_net (put_agent a' w) r' t c MPump)
| n_pump_ends w r t c requested clean u :
    nstep windows (mk_net w r t c MPump)
      (EPumpEnded (clean && is_ok (UsageRecorder.shutdown u r).1))
      (mk_net w (if clean : bool then (UsageRecorder.shutdown u r).2 else r) t c
         (MNotices (notices requested)))
| n_notice w r t c e es s : stamp_ok s ->
    nstep windows (mk_net w r t c (MNotices (e :: es))) EMain
      (mk_net (put_agent (enqueue e s (w_agent w)) w) r t c (MNotices es))
| n_signal w r t c :
    nstep windows (mk_net w r t c (MNotices [])) (EShutdown (w_instant w))
      (mk_net (put_agent (begin_shutdown (w_agent w)) w) r t c
         (MFlush (w_instant w + SHUTDOWN_FLUSH_TIMEOUT)))
| n_joined w r t c until : task_over (w_loop w) t ->
    nstep windows (mk_net w r t c (MFlush until)) (EExit (w_instant w)) (mk_net w r t c MDone)
| n_timeout w r t c until : until <= w_instant w ->
    nstep windows (mk_net w r t c (MFlush until)) (EExit (w_instant w)) (mk_net w r t c MDone)
| n_clock_loop w r t c ev c' a' m : m <> MDone ->
    clock_step (w_instant w) (w_utc w) (c, w_agent w) ev (c', a') ->
    nstep windows (mk_net w r t c m) ev (mk_net (put_agent a' w) r t c' m)
| n_task_step w r t c ev t' w' m : m <> MDone -> task_step windows w t ev t' w' ->
    nstep windows (mk_net w r t c m) ev (mk_net w' r t' c m).

(** Executions, with their events in order. *)
Inductive nexec (windows : bool) : net -> list event -> net -> Prop :=
| nexec_nil n : nexec windows n [] n
| nexec_snoc n es n1 e n2 :
    nexec windows n es n1 -> nstep windows n1 e n2 -> nexec windows n (es ++ [e]) n2.

(** The process once [startup] has built it and the loops are spawned. *)
Definition entered (p : process) (started : Instant) (u : DateTime) : net :=
  mk_net (mk_world (p_agent p) (mk_loop Top None) started u) (p_recorder p)
    (match Config.controller_url (config (p_agent p)) with
     | Some url => Registering url RgSend
     | None => Resolving RvStart
     end)
    (clock_start u started (p_agent p)) MPump.
End Network.

(** ** The enforcement loop's view of the process *)
Section Refinement.
Import Agent.
Context {TT : TimeText} {UT : UuidText} {SJ : Serde (gmap string json)} {SQ : SqlEngine}
  {SS : Serde Schedule.t} {SM : Serde MessageStore.t} {SF : Serde AgentFileConfig}
  {HO : HashOrder}.

(** The labels that matter for enforcement: its actions, confirmations, their
    invalidation, and the shutdown signal. *)
Definition visible (lb : label) : bool :=
  match lb with
  | LAct _ _ _ _ | LReset _ | LOp OMarkSynced | LOp OBeginShutdown => true
  | _ => false
  end.

Definition observe (e : event) : list label :=
  match e with
  | EEnforce (LOp _) | EWake (LOp _) => []  (* not labels of its own turns *)
  | EEnforce lb | EWake lb => List.filter visible [lb]
  | EConfirm | EAssigned _ => [LOp OMarkSynced]
  | EShutdown _ => [LOp OBeginShutdown]
  | _ => []
  end.

Lemma exec_trans w tr1 w1 tr2 w2 : exec w tr1 w1 -> exec w1 tr2 w2 -> exec w (tr1 ++ tr2) w2.
Proof.
  intros H1 H2. revert H1. induction H2 as [|w1 tr2 w2 lb w3 H2 IH Hs]; intros H1.
  - by rewrite app_nil_r.
  - rewrite app_assoc. econstructor; [by apply IH|done].
Qed.
Lemma exec_step w lb w' : step w lb w' -> exec w [lb] w'.
Proof. intros H. apply (exec_snoc _ [] w); [constructor|done]. Qed.

(** [a'] is [a] after operations of which [vis] can be seen. *)
Definition runs (a : Agent.t) (vis : list label) (a' : Agent.t) : Prop :=
  exists os, a' = run_ops os a /\ List.filter visible (map LOp os) = vis.

Lemma runs_refl a : runs a [] a.
Proof. by exists []. Qed.
Lemma runs_one o a : runs a (List.filter visible [LOp o]) (run_op o a).
Proof. by exists [o]. Qed.
Lemma runs_trans a v1 b v2 c : runs a v1 b -> runs b v2 c -> runs a (v1 ++ v2) c.
Proof.
  intros (os & -> & <-) (os' & -> & <-). exists (os ++ os').
  split; [unfold run_ops; by rewrite fold_left_app|by rewrite map_app, List.filter_app].
Qed.
(** Two steps neither of which can be seen. *)
Lemma runs_quiet a b c : runs a [] b -> runs b [] c -> runs a [] c.
Proof. apply runs_trans. Qed.

Lemma runs_enqueue e s a : runs a [] (enqueue e s a).
Proof. apply (runs_one (OEnqueue e s)). Qed.
Lemma runs_queue q a : runs a [] (set_queue q a).
Proof. apply (runs_one (OSetQueue q)). Qed.
Lemma runs_note_connected url s a : runs a [] (note_connected url s a).
Proof.
  unfold note_connected. destruct (connected a); [apply (runs_one (OSetConnected true))|].
  apply (runs_quiet _ (set_connected true a)); [apply (runs_one (OSetConnected true))|].
  eapply runs_quiet; [apply runs_enqueue|]. apply (runs_one (OFlush true)).
Qed.
Lemma runs_note_disconnected reason s a : runs a [] (note_disconnected reason s a).
Proof.
  unfold note_disconnected. destruct (connected a); [|apply (runs_one (OSetConnected false))].
  apply (runs_quiet _ (set_connected false a)); [apply (runs_one (OSetConnected false))|].
  apply runs_enqueue.
Qed.
Lemma runs_note_result s url r a : runs a [] (note_result s url r a).
Proof. destruct r; [apply runs_note_connected|apply runs_note_disconnected]. Qed.
Lemma runs_adopt f sch a :
  runs a [LOp OMarkSynced] (mark_schedule_synced (apply_schedule f sch a)).
Proof. by exists [OApplySchedule f sch; OMarkSynced]. Qed.
Lemma runs_registered f r a : runs a [LOp OMarkSynced] (registered f r a).
Proof.
  by exists [OSetConnected true; OApplySchedule f (rr_schedule r); OMarkSynced; OFlush true].
Qed.
#[local] Hint Resolve runs_refl runs_enqueue runs_queue runs_note_connected runs_note_disconnected
  runs_note_result runs_adopt runs_registered : timelord.

(** Executions between two worlds with the observation [vis]. *)
Definition simulates (w : world) (vis : list label) (w' : world) : Prop :=
  exists tr, exec w tr w' /\ List.filter visible tr = vis.

Lemma simulates_runs w vis a' : runs (w_agent w) vis a' -> simulates w vis (put_agent a' w).
Proof.
  intros (os & -> & <-). exists (map LOp os). split; [|done].
  destruct w as [a l i u]. unfold put_agent. simpl. revert a.
  induction os as [|o os IH]; intros a; [constructor|].
  change (map LOp (o :: os)) with ([LOp o] ++ map LOp os).
  eapply exec_trans; [apply exec_step, step_op|]. apply IH.
Qed.

Lemma simulates_step w lb w' : step w lb w' -> simulates w (List.filter visible [lb]) w'.
Proof. intros H. exists [lb]. split; [by apply exec_step|done]. Qed.

Lemma simulates_trans w tr1 w1 tr2 w2 :
  simulates w tr1 w1 -> simulates w1 tr2 w2 -> simulates w (tr1 ++ tr2) w2.
Proof.
  intros (t1 & H1 & <-) (t2 & H2 & <-). exists (t1 ++ t2).
  split; [by eapply exec_trans|apply List.filter_app].
Qed.

Lemma simulates_refl w : simulates w [] w.
Proof. exists []. split; [constructor|done]. Qed.

Lemma resolve_runs i r a ev out a' : resolve_step i (r, a) ev (out, a') -> runs a (observe ev) a'.
Proof.
  assert (Hf : forall f s found b, runs b [] (resolve_found f s found b).2).
  { intros f s [[|c cs]|text] b; unfold resolve_found; [apply runs_enqueue| |apply runs_enqueue].
    destruct (select_best (c :: cs)) as [best|]; [|apply runs_refl].
    eapply runs_quiet; [apply runs_enqueue|apply (runs_one (OSetDisk _))]. }
  inversion 1; subst; simpl; auto with timelord;
    match goal with Hr : resolve_found ?f ?s ?found ?b = _ |- _ =>
      pose proof (Hf f s found b) as Hq; by rewrite Hr in Hq end.
Qed.

Lemma register_runs who i r a ev out a' :
  register_step who i (r, a) ev (out, a') -> runs a (observe ev) a'.
Proof. inversion 1; subst; simpl; auto with timelord. Qed.

Lemma heartbeat_runs i m h k a ev h' k' a' :
  heartbeat_step i m (h, k, a) ev (h', k', a') -> runs a (observe ev) a'.
Proof. inversion 1; subst; simpl; eauto using register_runs with timelord. Qed.

Lemma delivery_runs i u m d k a ev d' k' a' :
  delivery_step i u m (d, k, a) ev (d', k', a') -> runs a (observe ev) a'.
Proof.
  assert (Ht : forall b, runs b [] (take_batch u b).2).
  { intros b. unfold take_batch. destruct (EventQueue.due_batch _ _ _). apply runs_queue. }
  inversion 1; subst; simpl; auto with timelord;
    try (match goal with Hr : take_batch _ ?b = _ |- _ => pose proof (Ht b) as Hq; by rewrite Hr in Hq end).
  apply (runs_one (OFlush false)).
Qed.

Lemma poll_runs {R} who i m (apply : R -> _ -> _ -> _ -> Prop) p k a ev p' k' a' :
  (forall r b e b' x, apply r b e (x, b') -> runs b (observe e) b') ->
  poll_step who i m apply (p, k, a) ev (p', k', a') -> runs a (observe ev) a'.
Proof. intros Ha. inversion 1; subst; simpl; eauto with timelord. Qed.

Lemma schedule_answer_runs r a ev b a' :
  apply_schedule_answer r a ev (b, a') -> runs a (observe ev) a'.
Proof. intros (f & Hr & ->). destruct r; injection Hr as -> ->; simpl; auto with timelord. Qed.

Lemma message_answer_runs u r a ev b a' :
  apply_message_answer u r a ev (b, a') -> runs a (observe ev) a'.
Proof.
  intros (f & Hr & ->). destruct r as [l|e]; injection Hr as -> ->; simpl; auto with timelord.
  apply (runs_one (OApplyMessages f l u)).
Qed.

Lemma clock_runs i u c a ev c' a' : clock_step i u (c, a) ev (c', a') -> runs a (observe ev) a'.
Proof.
  inversion 1 as [| |measured l w b l' b' Hs| |l w b l' b' _ Hs|l w b l' b' _ Hs|]; subst; simpl;
    auto with timelord.
  - unfold ClockSync.sync in Hs. destruct (_ <=? _); [|injection Hs as <- <-; auto with timelord].
    destruct measured as [o|]; injection Hs as <- <-.
    + by exists [OSetClock o; OScheduleChanged].
    + by exists [OScheduleChanged].
  - injection Hs as <- <-. apply (runs_one OResyncTaken).
  - injection Hs as <- <-. auto with timelord.
Qed.

Lemma notified_runs inp e user u p res p' :
  notified inp e user u p = (res, p') -> runs (p_agent p) [] (p_agent p').
Proof.
  unfold notified. destruct (UsageRecorder.handle _ _ _ _ _) as [x r]. intros [= <- <-]. simpl.
  eexists [OSetQueue _; OSetSnapshot _]. done.
Qed.

Lemma enforcement_simulates w m ev w' :
  enforcement_step w m ev w' -> simulates w (observe ev) w'.
Proof.
  destruct w as [a l i u].
  assert (Hr : forall o e, e = EEnforce (reset_label o) \/ e = EWake (reset_label o) ->
    observe e = List.filter visible [reset_label o]) by (by intros [] ? [-> | ->]).
  intros H. destruct H; rewrite ?(Hr o) by auto; unfold observe; apply simulates_step; simpl in *.
  - by apply (step_act _ _ _ _ s).
  - by apply (step_park _ _ _ _ s).
  - by eapply step_finish.
  - by eapply step_timer.
  - by eapply step_notified.
  - by eapply step_stop.
Qed.

Lemma task_simulates windows w t ev t' w' :
  task_step windows w t ev t' w' -> simulates w (observe ev) w'.
Proof.
  destruct 1; eauto using simulates_runs, resolve_runs, register_runs, heartbeat_runs,
    delivery_runs, poll_runs, schedule_answer_runs, message_answer_runs, enforcement_simulates.
  apply simulates_refl.
Qed.

Lemma nstep_simulates windows n ev n' :
  nstep windows n ev n' -> simulates (n_world n) (observe ev) (n_world n').
Proof.
  destruct 1; simpl; eauto using simulates_refl, task_simulates, simulates_runs, clock_runs,
    runs_enqueue.
  - exists [LTime]. split; [|done]. by apply exec_step, step_time.
  - apply simulates_runs. by apply notified_runs in H0.
  - apply simulates_runs. apply (runs_one OBeginShutdown).
Qed.

Lemma nexec_simulates windows n es n' :
  nexec windows n es n' -> simulates (n_world n) (flat_map observe es) (n_world n').
Proof.
  induction 1 as [|n es n1 e n2 _ IH Hs]; [apply simulates_refl|].
  rewrite flat_map_app. simpl. rewrite app_nil_r.
  eapply simulates_trans; [exact IH|]. by eapply nstep_simulates.
Qed.

Lemma nexec_app windows n t1 t2 n' :
  nexec windows n (t1 ++ t2) n' -> exists n1, nexec windows n t1 n1 /\ nexec windows n1 t2 n'.
Proof.
  revert n'. induction t2 as [|e t2 IH] using rev_ind; intros n' H.
  { rewrite app_nil_r in H. exists n'. split; [done|constructor]. }
  rewrite app_assoc in H. inversion H as [|n00 es n1 e' n2 Hex Hst Heq Htr]; subst.
  { by destruct (t1 ++ t2). }
  apply app_inj_tail in Htr as [-> ->]. destruct (IH n1 Hex) as (nm & H1 & H2).
  exists nm. split; [done|]. by econstructor.
Qed.
Lemma nexec_step windows n e n' : nexec windows n [e] n' -> nstep windows n e n'.
Proof.
  intros H. inversion H as [|n0 es n1 e' n2 Hex Hst Heq Htr]. subst.
  apply (app_inj_tail es []) in Htr as [-> ->]. inversion Hex as [|n3 es' n4 e2 n5 H1 H2 H3 Htr].
  - by subst.
  - by destruct es'.
Qed.

Lemma nexec_trans windows n t1 n1 t2 n2 :
  nexec windows n t1 n1 -> nexec windows n1 t2 n2 -> nexec windows n (t1 ++ t2) n2.
Proof.
  intros H1 H2. revert H1. induction H2 as [|n1 es n2 e n3 H2 IH Hs]; intros H1.
  - by rewrite app_nil_r.
  - rewrite app_assoc. econstructor; [by apply IH|done].
Qed.

(** C4. What is shown of the enforcement loop holds of the whole process.
    Every execution of [run_blocking] (notifications, the clock loop, finding
    and registering with a controller, the joined loops, the pipe, the stop,
    time and clock changes, in any interleaving) is an execution of the
    enforcement specification with the same power actions, the same
    invalidations, a confirmation exactly where the controller gave its
    schedule and the shutdown signal exactly where it was given, in the same
    order. *)
Theorem network_refines_enforcement (windows : bool) (p : process) (started : Instant)
    (u : DateTime) (es : list event) (n : net) :
  nexec windows (entered p started u) es n ->
  exists tr, exec (mk_world (p_agent p) (mk_loop Top None) started u) tr (n_world n) /\
             List.filter visible tr = flat_map observe es.
Proof. apply nexec_simulates. Qed.

(** A label that cannot be seen does not touch the sync state. *)
Lemma sync_visible tr sy :
  fold_left sync_step (List.filter visible tr) sy = fold_left sync_step tr sy.
Proof.
  revert sy. induction tr as [|lb tr IH]; intros sy; [done|].
  simpl. destruct lb as [|o| | | |]; simpl; try apply IH. destruct o; simpl; apply IH.
Qed.

Lemma act_step_of windows n act sch i now n' :
  nstep windows n (EEnforce (LAct act sch i now)) n' ->
  step (n_world n) (LAct act sch i now) (n_world n').
Proof.
  inversion 1; subst; simpl.
  { match goal with Hc : clock_step _ _ _ _ _ |- _ => inversion Hc end. }
  match goal with Ht : task_step _ _ _ _ _ _ |- _ => inversion Ht; subst end;
    repeat match goal with
    | Hx : resolve_step _ _ _ _ |- _ => inversion Hx
    | Hx : register_step _ _ _ _ _ |- _ => inversion Hx
    | Hx : heartbeat_step _ _ _ _ _ |- _ => inversion Hx; subst; clear Hx
    | Hx : delivery_step _ _ _ _ _ _ |- _ => inversion Hx
    | Hx : poll_step _ _ _ _ _ _ _ |- _ => inversion Hx; subst; clear Hx
    | Hx : apply_schedule_answer ?r _ _ _ |- _ => destruct Hx as (? & _ & ?); by destruct r
    | Hx : apply_message_answer _ _ _ _ _ |- _ => destruct Hx as (? & _ & ?); done
    end.
  match goal with He : enforcement_step ?w _ _ _ |- _ => inversion He; subst; destruct w end.
  - by eapply step_act.
  - by destruct o.
Qed.

(** C1. No power action of the process is unjustified.  Whatever the loops,
    the platform's thread, the controller and the clocks do, an action is
    that of the schedule in the cache, requested inside one of its windows
    by the trusted clock; and either the controller has given its schedule
    since the start and since the last resume or oversleep, or 90 s of
    monotonic time have passed since then. *)
Theorem process_actions_justified (windows : bool) (p : process) (started : Instant)
    (u : DateTime) (es : list event) (n n' : net) (act : PowerAction) (sch : Schedule.t)
    (i : Instant) (now : DateTime) :
  schedule_sync (p_agent p) = mk_sync false started ->
  nexec windows (entered p started u) es n ->
  nstep windows n (EEnforce (LAct act sch i now)) n' ->
  let a := w_agent (n_world n) in
  let sy := fold_left sync_step (flat_map observe es) (mk_sync false started) in
  Agent.schedule a = Some sch /\ act = Schedule.action sch /\
  now = w_utc (n_world n) + millis (TrustedClock.offset_ms (clock a)) /\
  (exists win, win ∈ Schedule.windows sch /\ off_at win <= now < on_at win) /\
  ((confirmed sy = true /\ TrustedClock.is_ready (clock a) = true) \/ since sy + secs 90 <= i).
Proof.
  intros Hs Hex Hst. destruct (nexec_simulates _ _ _ _ Hex) as (tr & Htr & Hv).
  pose proof (act_step_of _ _ _ _ _ _ _ Hst) as Hw. cbv zeta. rewrite <- Hv, sync_visible.
  by apply (power_action_justified (mk_world (p_agent p) (mk_loop Top None) started u) _ (n_world n')).
Qed.

(** The controller gave its schedule. *)
Definition gives_schedule (e : event) : bool :=
  match e with EConfirm | EAssigned _ => true | _ => false end.

Lemma confirm_visible tr es :
  List.filter visible tr = flat_map observe es -> existsb is_confirm tr = existsb gives_schedule es.
Proof.
  intros Hv. assert (H1 : existsb is_confirm tr = existsb is_confirm (List.filter visible tr)).
  { clear Hv. induction tr as [|lb tr IH]; [done|]. simpl.
    destruct lb as [|o| | | |]; simpl; try done. by destruct o. }
  rewrite H1, Hv. clear. induction es as [|e es IH]; [done|]. simpl. rewrite existsb_app, IH.
  f_equal. destruct e as [| | | | | |lb|lb| | | | | | | | |]; simpl; try done;
    (destruct lb as [|o| | | |]; simpl; try done; by destruct o).
Qed.

(** An execution of the process around one of its power actions. *)
Lemma simulates_around windows n0 t1 act sch i now t2 n :
  nexec windows n0 (t1 ++ EEnforce (LAct act sch i now) :: t2) n ->
  exists tr1 tr2, exec (n_world n0) (tr1 ++ LAct act sch i now :: tr2) (n_world n) /\
    List.filter visible tr2 = flat_map observe t2.
Proof.
  intros H. apply nexec_app in H as (n1 & H1 & H2).
  change (EEnforce (LAct act sch i now) :: t2) with ([EEnforce (LAct act sch i now)] ++ t2) in H2.
  apply nexec_app in H2 as (n2 & H2 & H3). apply nexec_step, act_step_of in H2.
  destruct (nexec_simulates _ _ _ _ H1) as (tr1 & Htr1 & _).
  destruct (nexec_simulates _ _ _ _ H3) as (tr2 & Htr2 & Hv).
  exists tr1, tr2. split; [|done]. eapply exec_trans; [exact Htr1|].
  change (LAct act sch i now :: tr2) with ([LAct act sch i now] ++ tr2).
  eapply exec_trans; [by apply exec_step|done].
Qed.

(** C5. A device woken inside a window is not put straight back to sleep by
    any part of the process.  After a suspend request the next power action
    comes only once the controller has answered a heartbeat, a schedule poll
    or a registration with its schedule, or at least 90 s later. *)
Theorem process_resume_waits (windows : bool) (p : process) (started : Instant) (u : DateTime)
    (t1 t2 : list event) (n n' : net) (sch sch' : Schedule.t) (act : PowerAction)
    (i i' : Instant) (now now' : DateTime) :
  nexec windows (entered p started u) (t1 ++ EEnforce (LAct Sleep sch i now) :: t2) n ->
  nstep windows n (EEnforce (LAct act sch' i' now')) n' ->
  existsb gives_schedule t2 = true \/ i + secs 90 <= i'.
Proof.
  intros Hex Hst. apply simulates_around in Hex as (tr1 & tr2 & Htr & Hv).
  rewrite <- (confirm_visible _ _ Hv). apply act_step_of in Hst.
  by eapply resume_waits_for_confirmation.
Qed.

(** C23. Shutdown requests of the process are at least five minutes apart. *)
Theorem process_shutdowns_spaced (windows : bool) (p : process) (started : Instant) (u : DateTime)
    (t1 t2 : list event) (n n' : net) (sch sch' : Schedule.t)
    (i i' : Instant) (now now' : DateTime) :
  schedule_sync (p_agent p) = mk_sync false started ->
  nexec windows (entered p started u) (t1 ++ EEnforce (LAct Shutdown sch i now) :: t2) n ->
  nstep windows n (EEnforce (LAct Shutdown sch' i' now')) n' -> i + secs 300 <= i'.
Proof.
  intros Hs Hex Hst. apply simulates_around in Hex as (tr1 & tr2 & Htr & _).
  apply act_step_of in Hst.
  eapply (shutdown_requests_spaced (n_world (entered p started u))); [done|exact Htr| |exact Hst].
  apply elem_of_app. right. by left.
Qed.
End Refinement.
