(* ===== verification/Coherence.v ===== *)
(** * Invariants of the whole process

    On the executions of [Network]: the shared client and the ids requests
    carry; the event queue under everything the threads and loops do to it
    ([nstep_queue]), the batch that is out for delivery, what can remove an
    event, and that the networking task never unwinds. *)
From S2P Require Import Prelude Codec Fs Tracker Schedule Messages Clock Protocol Db Queue Table.
From S2P Require Import Store Events Recorder Config Client Discovery Agent Loops Delivery.
From S2P Require Import Enforcement Restart Platform Main Network.
#[local] Open Scope Z_scope.

(** ** The shared client *)
Section SharedClient.
Import Agent.
Context {TT : TimeText} {UT : UuidText} {SJ : Serde (gmap string json)} {SQ : SqlEngine}
  {SS : Serde Schedule.t} {SM : Serde MessageStore.t} {SF : Serde AgentFileConfig}
  {HO : HashOrder}.

(** The heartbeat loop, or the delivery loop, waits for an answer with the
    client locked. *)
Definition hb_holds (p : heartbeat_phase) : bool :=
  match p with HbSent _ | HbRegistering _ => true | _ => false end.
Definition dl_holds (p : delivery_phase) : bool :=
  match p with DlSent _ _ _ => true | _ => false end.

Definition lock_ok (h : heartbeat_phase) (d : delivery_phase) (k : lock) : Prop :=
  holder k = (if hb_holds h then Some HeldByHeartbeat
              else if dl_holds d then Some HeldByDelivery else None) /\
  hb_holds h && dl_holds d = false /\
  (forall url id rq, h = HbReady url id rq -> id = device (shared_client k)).

(** The id of the latest registration. *)
Definition assigned_id (es : list event) : option Uuid :=
  fold_left (fun o e => match e with EAssigned id => Some id | _ => o end) es None.

Definition client_ok (es : list event) (n : net) : Prop :=
  match n_task n with
  | Joined ls => lock_ok (hb_at (hb ls)) (dl_at (dl ls)) (lk ls) /\
                 assigned_id es = Some (device (shared_client (lk ls)))
  | _ => True
  end.

Lemma assigned_snoc es e :
  assigned_id (es ++ [e]) = match e with EAssigned id => Some id | _ => assigned_id es end.
Proof. unfold assigned_id. by rewrite fold_left_app. Qed.

Lemma register_event who i r a ev out a' : register_step who i (r, a) ev (out, a') ->
  match out with
  | inl _ => ev = EOwn who \/ ev = EArm who
  | inr id => ev = EAssigned id
  end.
Proof. inversion 1; subst; auto. Qed.

(** What a step of the heartbeat loop does to its phase and the lock. *)
Lemma heartbeat_lock i m h k a ev h' k' a' d id :
  heartbeat_step i m (h, k, a) ev (h', k', a') -> lock_ok (hb_at h) d k ->
  id = Some (device (shared_client k)) ->
  lock_ok (hb_at h') d k' /\
  match ev with EAssigned x => Some x | _ => id end = Some (device (shared_client k')) /\
  (forall who x, ev = ERequest who x -> id = Some x).
Proof.
  unfold lock_ok. intros Hst (Hh & Hx & Hr) ->.
  inversion Hst as [| | |next url x rq c b| | | | | | | |next r k0 b ev0 r' b' Hreg
    |next r c o b ev0 x b' Hreg]; subst; cbn [hb_at hb_holds holder shared_client] in *; clear Hst.
  all: try (split; [split; [by destruct (dl_holds d)|split; [by destruct (dl_holds d)|intros; congruence]]
                   |split; [reflexivity|intros; congruence]]).
  - split; [split; [done|split; [|intros; congruence]]|].
    + by destruct (dl_holds d).
    + split; [done|]. intros who y [= _ <-]. by rewrite (Hr _ _ _ eq_refl).
  - apply register_event in Hreg as [-> | ->];
      (split; [split; [done|split; [done|intros; congruence]]|split; [done|intros; congruence]]).
  - apply register_event in Hreg as ->. simpl in Hx.
    split; [split; [by rewrite Hx|split; [done|intros; congruence]]|split; [done|intros; congruence]].
Qed.

Lemma delivery_lock i u m dl k a ev dl' k' a' h id :
  delivery_step i u m (dl, k, a) ev (dl', k', a') -> lock_ok h (dl_at dl) k ->
  id = Some (device (shared_client k)) ->
  lock_ok h (dl_at dl') k' /\ (forall x, ev <> EAssigned x) /\
  shared_client k' = shared_client k /\
  (forall who x, ev = ERequest who x -> id = Some x).
Proof.
  unfold lock_ok. intros Hst (Hh & Hx & Hr) ->.
  inversion Hst as [| | | |next final| next final| | |next final| |next final]; subst;
    cbn [dl_at dl_holds holder shared_client] in *; clear Hst;
    try destruct final; cbn [after_delivery dl_holds] in *.
  all: split; [split; [|split; [|exact Hr]]|split; [intros x [=]|split; [reflexivity|intros who x E]]].
  all: try (subst; reflexivity).
  all: try discriminate E.
  all: destruct (hb_holds h); simpl in *; first [done | congruence].
Qed.

Lemma poll_lock {R} who i m (apply : R -> _ -> _ -> _ -> Prop) p k a ev p' k' a' id :
  (forall r b e x b', apply r b e (x, b') ->
     (forall w y, e <> ERequest w y) /\ (forall y, e <> EAssigned y)) ->
  poll_step who i m apply (p, k, a) ev (p', k', a') ->
  id = Some (device (shared_client k)) ->
  k' = k /\ (forall x, ev <> EAssigned x) /\ (forall w x, ev = ERequest w x -> id = Some x).
Proof.
  intros Ha Hst ->. inversion Hst; subst; clear Hst;
    try match goal with H : apply _ _ _ _ |- _ => apply Ha in H as [Hq1 Hq2] end;
    (split; [reflexivity|]); split; try assumption; try (intros x E; discriminate E);
    intros w x E; first [by apply Hq1 in E | by injection E as _ <- | discriminate E].
Qed.

Lemma schedule_answer_event r b e x b' : apply_schedule_answer r b e (x, b') ->
  (forall w y, e <> ERequest w y) /\ (forall y, e <> EAssigned y).
Proof. intros (f & _ & ->). by destruct r. Qed.
Lemma message_answer_event u r b e x b' : apply_message_answer u r b e (x, b') ->
  (forall w y, e <> ERequest w y) /\ (forall y, e <> EAssigned y).
Proof. intros (f & _ & ->). done. Qed.

Lemma task_client windows w t ev t' w' es :
  task_step windows w t ev t' w' ->
  (match t with
   | Joined ls => lock_ok (hb_at (hb ls)) (dl_at (dl ls)) (lk ls) /\
                  assigned_id es = Some (device (shared_client (lk ls)))
   | _ => True end) ->
  (match t' with
   | Joined ls => lock_ok (hb_at (hb ls)) (dl_at (dl ls)) (lk ls) /\
                  assigned_id (es ++ [ev]) = Some (device (shared_client (lk ls)))
   | _ => True end) /\
  (forall who x, ev = ERequest who x -> assigned_id es = Some x).
Proof.
  intros Hst. rewrite assigned_snoc. destruct Hst; simpl; intros Hc;
    try match type of Hc with _ /\ _ => destruct Hc as [Hl Hid] end.
  - split; [done|]. inversion H; discriminate.
  - split; [done|]. inversion H; discriminate.
  - split; [done|]. apply register_event in H as [-> | ->]; discriminate.
  - apply register_event in H as ->. split; [|discriminate]. unfold join_loops.
    destruct (_ || _); [done|]. by repeat split.
  - destruct (heartbeat_lock _ _ _ _ _ _ _ _ _ _ _ H Hl Hid) as (H1 & H2 & H3). auto.
  - destruct (poll_lock _ _ _ _ _ _ _ _ _ _ _ _ schedule_answer_event H Hid) as (-> & H2 & H3).
    split; [|done]. split; [done|]. destruct ev; try done. by destruct (H2 device_id).
  - destruct (poll_lock _ _ _ _ _ _ _ _ _ _ _ _ (message_answer_event _) H Hid) as (-> & H2 & H3).
    split; [|done]. split; [done|]. destruct ev; try done. by destruct (H2 device_id).
  - destruct (delivery_lock _ _ _ _ _ _ _ _ _ _ _ _ H Hl Hid) as (H1 & H2 & H3 & H4).
    split; [|done]. split; [done|]. rewrite H3. destruct ev; try done. by destruct (H2 device_id).
  - done.
  - destruct H; simpl; try (split; [by split|discriminate]).
  - by split.
Qed.

Lemma nstep_client windows n e n' es : nstep windows n e n' -> client_ok es n ->
  client_ok (es ++ [e]) n' /\ (forall who x, e = ERequest who x -> assigned_id es = Some x).
Proof.
  unfold client_ok. intros Hst.
  assert (Hsame : forall t, (forall x, e <> EAssigned x) ->
    match t with Joined ls => lock_ok (hb_at (hb ls)) (dl_at (dl ls)) (lk ls) /\
      assigned_id es = Some (device (shared_client (lk ls))) | _ => True end ->
    match t with Joined ls => lock_ok (hb_at (hb ls)) (dl_at (dl ls)) (lk ls) /\
      assigned_id (es ++ [e]) = Some (device (shared_client (lk ls))) | _ => True end).
  { intros t Hn. rewrite assigned_snoc. destruct e; try done. by destruct (Hn device_id). }
  destruct Hst; simpl; intros Hc; try (split; [by apply Hsame|discriminate]).
  - inversion H0; subst; (split; [by apply Hsame|discriminate]).
  - by eapply task_client.
Qed.

Lemma nexec_client windows p started u es n :
  nexec windows (entered p started u) es n -> client_ok es n.
Proof.
  intros H. remember (entered p started u) as n0. induction H as [n|n es n1 e n2 _ IH Hst].
  - subst n. unfold client_ok. simpl. by destruct (Config.controller_url _).
  - by apply (nstep_client _ _ _ _ _ Hst (IH Heqn0)).
Qed.

(** C6. The client shared behind the mutex is used by one loop at a time and
    with the right identity.  In every execution of the process, a request
    (a heartbeat, a batch of events or a long poll) carries the id that the
    latest registration, the first or a repeated one, was given; and the
    heartbeat loop and the delivery loop never wait for an answer through the
    shared client at the same time. *)
Theorem requests_carry_current_id (windows : bool) (p : process) (started : Instant)
    (u : DateTime) (es : list event) (n : net) :
  nexec windows (entered p started u) es n ->
  (forall who id n', nstep windows n (ERequest who id) n' -> assigned_id es = Some id) /\
  (forall ls, n_task n = Joined ls ->
     hb_holds (hb_at (hb ls)) && dl_holds (dl_at (dl ls)) = false).
Proof.
  intros H. apply nexec_client in H. split.
  - intros who id n' Hst. by apply (proj2 (nstep_client _ _ _ _ _ Hst H) who).
  - intros ls Hls. unfold client_ok in H. rewrite Hls in H. by destruct H as [(_ & Hx & _) _].
Qed.
End SharedClient.

(** ** What the process does to the event queue *)
Section SharedQueue.
Import Agent.
Context {TT : TimeText} {UT : UuidText} {SJ : Serde (gmap string json)} {SQ : SqlEngine}
  {SS : Serde Schedule.t} {SM : Serde MessageStore.t} {SF : Serde AgentFileConfig}
  {HO : HashOrder}.
Context {TL : TimeTextLaws} {UL : UuidTextLaws} {SL : SerdeLaws (gmap string json)}
  {QL : SqlEngineLaws}.

(** Adding an event or reading a batch, with valid arguments. *)
Definition adds (o : qop) : Prop :=
  qop_ok o /\ match o with OpEnqueue _ _ | OpDueBatch _ _ => True | _ => False end.

(** At most [n] operations of these lead from one queue to the other. *)
Definition adding (n : nat) (w w' : EventQueue.t * list bool) : Prop :=
  exists os, Forall adds os /\ (length os <= n)%nat /\ w' = exec_all os w.

Lemma adding_none n w : adding n w w.
Proof. exists []. split; [constructor|]. split; [simpl; lia|done]. Qed.

Definition event_fn_ok (e : Uuid -> DateTime -> QueuedEvent) : Prop :=
  forall i c, uuid_valid i -> representable c -> event_valid (e i c).

Lemma enqueue_adding e s a : event_fn_ok e -> stamp_ok s ->
  adding 1 (queue a) (queue (enqueue e s a)).
Proof.
  intros He (Hi & Hb & Hn). exists [OpEnqueue (e (st_id s) (st_built s)) (st_now s)].
  split; [|split; [done|done]]. apply Forall_singleton. split; [|done]. split; [by apply He|done].
Qed.

(** Every event of [new_event] is valid. *)
Lemma new_event_ok i c ty sev d : uuid_valid i -> representable c ->
  event_valid (new_event i c ty sev d).
Proof. intros Hi Hc. split; [done|]. split; [done|]. intros u [=]. Qed.
#[local] Hint Resolve adding_none new_event_ok : timelord.
#[local] Hint Unfold event_fn_ok : timelord.

Ltac built := intros ? ? ? ?; apply new_event_ok; assumption.

Lemma note_connected_adding url s a : stamp_ok s ->
  adding 1 (queue a) (queue (note_connected url s a)).
Proof.
  intros Hs. unfold note_connected. destruct (connected a); [apply adding_none|].
  apply (enqueue_adding _ s (set_connected true a)); [built|done].
Qed.
Lemma note_disconnected_adding reason s a : stamp_ok s ->
  adding 1 (queue a) (queue (note_disconnected reason s a)).
Proof.
  intros Hs. unfold note_disconnected. destruct (connected a); [|apply adding_none].
  apply (enqueue_adding _ s (set_connected false a)); [built|done].
Qed.
Lemma note_result_adding s url r a : stamp_ok s ->
  adding 1 (queue a) (queue (note_result s url r a)).
Proof. destruct r; [apply note_connected_adding|apply note_disconnected_adding]. Qed.

Lemma adopt_queue f s a : queue (mark_schedule_synced (apply_schedule f s a)) = queue a.
Proof.
  unfold mark_schedule_synced, apply_schedule. destruct (bool_decide _); simpl;
    by destruct (confirmed _).
Qed.
Lemma registered_queue f r a : queue (registered f r a) = queue a.
Proof. apply (adopt_queue f (rr_schedule r) (set_connected true a)). Qed.

(** A notification reports at most two events. *)
Lemma handle_adding inp e user u r : inputs_ok inp u ->
  exists os, Forall adds os /\ (length os <= 2)%nat /\
    UsageRecorder.event_queue (UsageRecorder.handle inp e user u r).2 =
      exec_all os <$> UsageRecorder.event_queue r.
Proof.
  intros (Hi & Hj & Hc & Hu).
  assert (Hnone : forall r', UsageRecorder.event_queue r' = UsageRecorder.event_queue r ->
    exists os, Forall adds os /\ (length os <= 2)%nat /\
      UsageRecorder.event_queue r' = exec_all os <$> UsageRecorder.event_queue r).
  { intros r' ->. exists []. split; [constructor|]. split; [simpl; lia|].
    by destruct (UsageRecorder.event_queue r). }
  unfold UsageRecorder.handle, UsageRecorder.handle_at. destruct (match e with Logon _ => _ | _ => _ end);
    [by apply Hnone|].
  set (r1 := match session_id e, user with Some id, Some name => _ | _, _ => r end).
  assert (Hr1 : UsageRecorder.event_queue r1 = UsageRecorder.event_queue r)
    by (unfold r1; by destruct (session_id e), user).
  destruct (UsageTracker.apply _ e u) as [tr x].
  assert (Hp : UsageRecorder.event_queue
                 (UsageRecorder.persist inp x (UsageRecorder.set_tracker tr r1)).2 =
               UsageRecorder.event_queue r).
  { rewrite <- Hr1. unfold UsageRecorder.persist. destruct x as [|start|rec]; [done|..].
    - by destruct (Store.start_session _ _ _) as [[] st].
    - destruct (UsageRecorder.open_session_id _); [by destruct (Store.end_session _ _ _ _)|].
      by destruct (Store.insert_closed_session _ _ _). }
  destruct (UsageRecorder.persist _ _ _) as [[[]|err] r2]; simpl in Hp; [|by apply Hnone].
  set (es := UsageRecorder.reported inp e _ x u). exists (map (fun ev => OpEnqueue ev u) es).
  assert (Hes : Forall (fun ev => event_valid ev) es).
  { unfold es, UsageRecorder.reported. constructor.
    - unfold from_session_event. destruct e; apply new_event_ok; done.
    - destruct (UsageRecorder.activity_transition x e); [|constructor].
      apply Forall_singleton. split; [done|]. split; [done|]. intros v [=]. }
  split; [|split].
  - apply Forall_fmap. eapply Forall_impl; [exact Hes|]. intros ev Hev. by split.
  - rewrite length_map. unfold es, UsageRecorder.reported. simpl.
    destruct (UsageRecorder.activity_transition x e); simpl; lia.
  - assert (Hq : forall r3, UsageRecorder.event_queue r3 = UsageRecorder.event_queue r2 ->
      UsageRecorder.event_queue (UsageRecorder.refresh_snapshot e r3) = UsageRecorder.event_queue r)
      by (intros r3 Hr3; simpl; congruence).
    clearbody es. cbn [snd]. unfold UsageRecorder.set_queue. cbn [UsageRecorder.event_queue].
    rewrite Hq by (by destruct e). unfold UsageRecorder.enqueue_all.
    destruct (UsageRecorder.event_queue r) as [q|]; [|done]. simpl. f_equal.
    clear -es. revert q. induction es as [|ev es IH]; intros q; [done|]. apply IH.
Qed.

Lemma notified_adding inp e user u p res p' : inputs_ok inp u ->
  notified inp e user u p = (res, p') -> adding 2 (queue (p_agent p)) (queue (p_agent p')).
Proof.
  intros Hi. unfold notified.
  destruct (handle_adding inp e user u
    (UsageRecorder.with_event_queue (queue (p_agent p)) (p_recorder p)) Hi) as (os & Ho & Hl & Hq).
  destruct (UsageRecorder.handle _ _ _ _ _) as [x r]. simpl in Hq. intros [= <- <-]. simpl.
  rewrite Hq. by exists os.
Qed.

(** The batch the delivery loop has out. *)
Definition in_flight (p : delivery_phase) : list PendingDelivery :=
  match p with
  | DlReady _ l | DlSent _ l _ | DlAnswered _ l _ _ | DlSettle _ l _ => l
  | _ => []
  end.
Definition task_batch (t : task) : list PendingDelivery :=
  match t with Joined ls => in_flight (dl_at (dl ls)) | _ => [] end.

(** What a step may do to the queue. *)
Definition queue_effect (ev : event) (w w' : EventQueue.t * list bool) : Prop :=
  match ev with
  | ESettled pending answer =>
      exists clock_at, (forall d, reading_ok (clock_at d)) /\
        w' = exec_all (settle_ops clock_at pending answer) w
  | _ => adding 2 w w'
  end.

Lemma adding_weaken n m w w' : (n <= m)%nat -> adding n w w' -> adding m w w'.
Proof. intros Hnm (os & H1 & H2 & ->). exists os. split; [done|]. split; [lia|done]. Qed.

Lemma adding_effect ev w w' : (forall p r, ev <> ESettled p r) -> adding 1 w w' ->
  queue_effect ev w w'.
Proof.
  intros Hev Ha. apply (adding_weaken 1 2) in Ha; [|lia].
  destruct ev; try exact Ha. by destruct (Hev pending answer).
Qed.

Lemma resolve_adding i r a ev out a' : resolve_step i (r, a) ev (out, a') ->
  adding 1 (queue a) (queue a').
Proof.
  assert (Hf : forall f s found b, stamp_ok s ->
    adding 1 (queue b) (queue (resolve_found f s found b).2)).
  { intros f s found b Hs. unfold resolve_found. destruct found as [[|c cs]|text];
      apply (enqueue_adding _ s b); try built; done. }
  inversion 1; subst; try apply adding_none;
    try match goal with Hr : resolve_found ?f ?s ?found ?b = _ |- _ =>
      pose proof (Hf f s found b ltac:(assumption)) as Hq; by rewrite Hr in Hq end.
  apply enqueue_adding; [built|done].
Qed.

Lemma register_adding who i r a ev out a' : register_step who i (r, a) ev (out, a') ->
  adding 1 (queue a) (queue a').
Proof.
  inversion 1; subst; try apply adding_none; try (apply enqueue_adding; [built|done]).
  rewrite registered_queue. apply adding_none.
Qed.

Lemma heartbeat_adding i m h k a ev h' k' a' : heartbeat_step i m (h, k, a) ev (h', k', a') ->
  adding 1 (queue a) (queue a').
Proof.
  inversion 1; subst; try apply adding_none; eauto using register_adding.
  - by apply note_connected_adding.
  - rewrite adopt_queue. apply adding_none.
  - apply enqueue_adding; [built|done].
  - by apply note_disconnected_adding.
  - by apply note_disconnected_adding.
Qed.

Lemma poll_adding {R} who i m (apply : R -> _ -> _ -> _ -> Prop) p k a ev p' k' a' :
  (forall r b e x b', apply r b e (x, b') -> queue b' = queue b) ->
  poll_step who i m apply (p, k, a) ev (p', k', a') -> adding 1 (queue a) (queue a').
Proof.
  intros Ha. inversion 1; subst; try apply adding_none;
    match goal with Hx : apply _ _ _ _ |- _ => rewrite (Ha _ _ _ _ _ Hx); apply adding_none end.
Qed.

Lemma schedule_answer_queue r b e x b' : apply_schedule_answer r b e (x, b') -> queue b' = queue b.
Proof.
  intros (f & Hr & _). destruct r; injection Hr as _ ->; [apply adopt_queue|done].
Qed.
Lemma message_answer_queue u r b e x b' : apply_message_answer u r b e (x, b') -> queue b' = queue b.
Proof.
  intros (f & Hr & _). destruct r; injection Hr as _ ->; [|done]. unfold apply_messages.
  by destruct (MessageStore.apply _ _ _).
Qed.

Lemma clock_queue i u c a ev c' a' : clock_step i u (c, a) ev (c', a') -> queue a' = queue a.
Proof.
  inversion 1 as [| |measured l w b l' b' Hs| |l w b l' b' _ Hs|l w b l' b' _ Hs|]; subst; try done.
  - unfold ClockSync.sync in Hs. destruct (_ <=? _); [|by injection Hs as <- <-].
    by destruct measured; injection Hs as <- <-.
  - by injection Hs as <- <-.
  - by injection Hs as <- <-.
Qed.

Lemma enforcement_adding w m ev w' : enforcement_step w m ev w' ->
  adding 1 (queue (w_agent w)) (queue (w_agent w')).
Proof.
  assert (Hd : forall s u i l a, stamp_ok s -> adding 1 (queue a) (queue (decide s u i l a).1.2)).
  { intros s u i l a Hs. destruct (decide_agent s u i l a) as [-> | (action & ->)];
      [apply adding_none|apply enqueue_adding; [built|done]]. }
  assert (Hw : forall p u i l a, queue (wake p u i l a).1.2 = queue a)
    by (intros p u i l a; unfold wake; by destruct (_ <? _)).
  destruct 1; simpl; try (apply adding_none);
    try (match goal with Hx : decide ?s ?u ?i ?l ?a = _, Hs : stamp_ok ?s |- _ =>
      pose proof (Hd s u i l a Hs) as Hq; by rewrite Hx in Hq end);
    try (match goal with Hx : wake ?p ?u ?i ?l ?a = _ |- _ =>
      pose proof (Hw p u i l a) as Hq; rewrite Hx in Hq; simpl in Hq; rewrite Hq; apply adding_none end).
  assert (Hr : queue a' = queue (enforce_result s sch r (w_agent w))).
  { unfold finish in H1. by destruct (Schedule.action sch); injection H1 as _ <- _. }
  rewrite Hr. unfold enforce_result. destruct r as [|text|], (Schedule.action sch);
    try apply adding_none; apply (enqueue_adding _ s (w_agent w)); try built; done.
Qed.

Lemma take_adding u a r a' : take_batch u a = (r, a') -> adding 1 (queue a) (queue a').
Proof.
  unfold take_batch. destruct (EventQueue.due_batch _ _ _) as [x q] eqn:Eq. intros [= <- <-].
  exists [OpDueBatch u EVENT_BATCH_SIZE]. split; [by apply Forall_singleton|]. split; [done|].
  simpl. by rewrite Eq.
Qed.

Lemma take_wf u a r a' : wf_queue (queue a).1 -> take_batch u a = (r, a') ->
  match r with Ok pending => batch_ok (queue a').1 pending | Err e => e <> QPanic end.
Proof.
  intros Hq Ht. pose proof (take_adding _ _ _ _ Ht) as (os & _ & _ & Ha).
  unfold take_batch in Ht. destruct (queue a) as [q fs] eqn:Eqa.
  pose proof (due_batch_wf u EVENT_BATCH_SIZE q fs Hq) as Hd.
  destruct (EventQueue.due_batch _ _ _) as [x q'] eqn:Eq. injection Ht as <- <-.
  destruct x as [l|e]; [|done]. apply (batch_ok_from q); [|done].
  rewrite Ha. apply (exec_all_from os (q, fs)).
Qed.

Lemma settle_ops_ok clock_at pending answer (q : EventQueue.t) :
  batch_ok q pending -> (forall d, reading_ok (clock_at d)) ->
  Forall qop_ok (settle_ops clock_at pending answer).
Proof.
  intros Hb Hc. assert (Hf : forall d, d ∈ pending ->
    qop_ok (OpMarkFailed (row_id d) (pd_attempt_count d) (clock_at d))).
  { intros d Hd. pose proof (proj1 (Forall_forall _ _) Hb d Hd) as (_ & Ha & _).
    split; [done|apply Hc]. }
  unfold settle_ops. destruct answer as [response|e].
  - apply Forall_fmap, Forall_forall. intros [d x] Hin. simpl. unfold settle_op.
    destruct (er_status x); [done..|]. apply Hf.
    by apply list_elem_of_In, (in_combine_l _ _ _ _ (proj1 (list_elem_of_In _ _) Hin)).
  - by apply Forall_fmap, Forall_forall.
Qed.

(** A step's effect keeps the table well-formed and its rows. *)
Lemma effect_keeps ev w w' : queue_effect ev w w' -> wf_queue w.1 ->
  (forall p r, ev = ESettled p r -> batch_ok w.1 p) -> wf_queue w'.1 /\ from_table w.1 w'.1.
Proof.
  intros He Hq Hb.
  assert (Hall : forall os, Forall qop_ok os -> w' = exec_all os w ->
    wf_queue w'.1 /\ from_table w.1 w'.1).
  { intros os Ho ->. split; [by apply exec_all_wf|apply exec_all_from]. }
  destruct ev; try (destruct He as (os & Ho & _ & ->); apply (Hall os); [|done];
    eapply Forall_impl; [exact Ho|by intros ? []]).
  destruct He as (clock_at & Hc & ->). eapply Hall; [|done].
  eapply settle_ops_ok; [by apply (Hb pending answer)|done].
Qed.

Lemma delivery_sound i u m dl k a ev dl' k' a' :
  delivery_step i u m (dl, k, a) ev (dl', k', a') ->
  wf_queue (queue a).1 -> batch_ok (queue a).1 (in_flight (dl_at dl)) ->
  queue_effect ev (queue a) (queue a') /\ batch_ok (queue a').1 (in_flight (dl_at dl')) /\
  (forall p r, ev = ESettled p r -> p = in_flight (dl_at dl)) /\ ev <> EPanic.
Proof.
  intros Hst Hq Hb.
  assert (Hnil : forall q, batch_ok q []) by (intros q; constructor).
  assert (Hidle : forall (q : EventQueue.t) final, batch_ok q (in_flight (after_delivery final)))
    by (intros q [|]; apply Hnil).
  inversion Hst; subst; clear Hst; cbn [dl_at in_flight] in *;
    try match goal with H : take_batch _ _ = _ |- _ =>
      pose proof (take_wf _ _ _ _ Hq H) as Hw; apply take_adding in H end;
    try (exfalso; by apply Hw).
  all: try (split; [by apply adding_none|split; [auto|split; [intros ? ? [=]|intros [=]]]]).
  all: try (split; [eapply (adding_weaken 1 2); [lia|eassumption]|
                    split; [auto|split; [intros ? ? [=]|intros [=]]]]).
  - assert (Hn : adding 1 (queue a) (queue (note_result s url answer a)))
      by (by apply note_result_adding).
    split; [by apply (adding_weaken 1 2) in Hn; [|lia]|].
    split; [|split; [intros ? ? [=]|intros [=]]].
    destruct Hn as (os & _ & _ & ->). eapply batch_ok_from; [apply exec_all_from|done].
  - split; [by exists clock_at|]. split; [apply Hidle|]. split; [by intros ? ? [= <- _]|intros [=]].
Qed.

(** ** The invariant *)
Definition sound (n : net) : Prop :=
  wf_queue (queue (w_agent (n_world n))).1 /\
  batch_ok (queue (w_agent (n_world n))).1 (task_batch (n_task n)) /\
  match n_main n with MNotices es => Forall event_fn_ok es | _ => True end.

Lemma notices_ok requested : Forall event_fn_ok (notices requested).
Proof.
  unfold notices. apply Forall_app_2; [destruct requested; [|constructor]|];
    apply Forall_singleton; built.
Qed.

(** A step of the task: its effect, the batch, and no unwinding. *)
Definition step_sound (t : task) (a : Agent.t) (ev : event) (t' : task) (a' : Agent.t) : Prop :=
  queue_effect ev (queue a) (queue a') /\ batch_ok (queue a').1 (task_batch t') /\
  (forall p r, ev = ESettled p r -> p = task_batch t) /\ ev <> EPanic.

(** One that only adds events and leaves the batch alone. *)
Lemma adding_sound t a ev t' a' :
  adding 1 (queue a) (queue a') -> (forall p r, ev <> ESettled p r) -> ev <> EPanic ->
  (task_batch t' = task_batch t \/ task_batch t' = []) ->
  batch_ok (queue a).1 (task_batch t) -> step_sound t a ev t' a'.
Proof.
  intros Ha Hs Hp Hbt Hb. split; [by apply adding_effect|].
  split; [|split; [|done]].
  - destruct Ha as (os & _ & _ & ->). destruct Hbt as [-> | ->]; [|constructor].
    eapply batch_ok_from; [apply exec_all_from|done].
  - intros p r ->. by destruct (Hs p r).
Qed.

Lemma heartbeat_event i m h k a ev h' k' a' : heartbeat_step i m (h, k, a) ev (h', k', a') ->
  (forall p r, ev <> ESettled p r) /\ ev <> EPanic.
Proof.
  inversion 1; subst; try done;
    match goal with Hr : register_step _ _ _ _ _ |- _ => apply register_event in Hr end;
    naive_solver.
Qed.

Lemma poll_event {R} who i m (apply : R -> _ -> _ -> _ -> Prop) p k a ev p' k' a' :
  (forall r b e x b', apply r b e (x, b') -> (forall p r, e <> ESettled p r) /\ e <> EPanic) ->
  poll_step who i m apply (p, k, a) ev (p', k', a') ->
  (forall p r, ev <> ESettled p r) /\ ev <> EPanic.
Proof. intros Ha. inversion 1; subst; try done; eauto. Qed.

Lemma task_sound windows w t ev t' w' : task_step windows w t ev t' w' ->
  wf_queue (queue (w_agent w)).1 -> batch_ok (queue (w_agent w)).1 (task_batch t) ->
  step_sound t (w_agent w) ev t' (w_agent w').
Proof.
  intros Hst Hq Hb. destruct Hst.
  - apply adding_sound; auto; [by eapply resolve_adding|by inversion H..].
  - apply adding_sound; auto; [by eapply resolve_adding|by inversion H..].
  - apply adding_sound; auto; [by eapply register_adding|..];
      apply register_event in H as [-> | ->]; done.
  - apply adding_sound; auto; [by eapply register_adding|..];
      try (apply register_event in H as ->; done). left. unfold join_loops.
    by destruct (_ || _).
  - apply adding_sound; auto; [by eapply heartbeat_adding|by eapply heartbeat_event..].
  - apply adding_sound; auto; [eapply poll_adding; [|done]; apply schedule_answer_queue|..];
      eapply poll_event; try exact H; intros r b e x b' (f & _ & ->); by destruct r.
  - apply adding_sound; auto; [eapply poll_adding; [|done]; apply message_answer_queue|..];
      eapply poll_event; try exact H; intros r b e x b' (f & _ & ->); done.
  - by apply (delivery_sound _ _ _ _ _ _ _ _ _ _ H).
  - exfalso. by apply (delivery_sound _ _ _ _ _ _ _ _ _ _ H Hq Hb).
  - apply adding_sound; auto; [by eapply enforcement_adding|by inversion H..].
  - apply adding_sound; auto; [apply adding_none|done..].
Qed.

Lemma nstep_sound windows n e n' : nstep windows n e n' -> sound n ->
  sound n' /\ step_sound (n_task n) (w_agent (n_world n)) e (n_task n') (w_agent (n_world n')).
Proof.
  intros Hst (Hq & Hb & Hm).
  assert (Hs : step_sound (n_task n) (w_agent (n_world n)) e (n_task n') (w_agent (n_world n'))).
  { destruct Hst; cbn [n_task n_world w_agent put_agent] in *;
      try (apply adding_sound; [apply adding_none|done..|by left|done]).
    - apply notified_adding in H0 as (os & Ho & Hl & Hq'); [|done]. simpl in Hq'.
      split; [by exists os|]. split; [|done]. rewrite Hq'.
      eapply batch_ok_from; [apply exec_all_from|done].
    - apply adding_sound; [|done..|by left|done]. apply Forall_cons in Hm as [He _].
      by apply enqueue_adding.
    - assert (Hc := clock_queue _ _ _ _ _ _ _ H0). apply adding_sound; [|by inversion H0..|by left|done].
      rewrite Hc. apply adding_none.
    - by apply (task_sound _ _ _ _ _ _ H0). }
  split; [|done]. pose proof Hs as (He & Hb' & Hp & _).
  destruct (effect_keeps e _ _ He Hq) as [Hq' _].
  { intros p r Hev. by rewrite (Hp p r Hev). }
  split; [done|]. split; [done|].
  destruct Hst; cbn [n_main] in *; try done; [apply notices_ok|by apply Forall_cons in Hm as [_ Hm]].
Qed.

Lemma nexec_sound windows n0 es n : nexec windows n0 es n -> sound n0 -> sound n.
Proof.
  induction 1 as [|n es n1 e n2 _ IH Hst]; [done|]. intros H0. by apply (nstep_sound _ _ _ _ Hst), IH.
Qed.

Lemma entered_sound p started u : wf_queue (queue (p_agent p)).1 -> sound (entered p started u).
Proof.
  intros Hq. split; [done|]. split; [|done]. simpl. destruct (Config.controller_url _); constructor.
Qed.

(** ** What can remove an event *)
Lemma exec_all_length os w :
  (length (EventQueue.rows (exec_all os w).1) <= length os + length (EventQueue.rows w.1))%nat.
Proof.
  revert w. induction os as [|o os IH]; intros w; [done|].
  change (exec_all (o :: os) w) with (exec_all os (Queue.exec o w)).
  pose proof (IH (Queue.exec o w)) as H1. pose proof (exec_from o w) as [_ H2]. simpl in *. lia.
Qed.

Lemma adding_keeps w w' r : adding 2 w w' -> present r w.1 ->
  Z.of_nat (length (EventQueue.rows w.1)) + 2 <= MAX_QUEUE_SIZE -> present r w'.1.
Proof.
  intros (os & Ho & Hl & ->) Hp Hroom. destruct w as [q fs].
  destruct (queue_loss_explained os q fs r Hp) as [H|(os1 & o & os2 & -> & He)]; [done|exfalso].
  apply Forall_app in Ho as [_ Ho]. apply Forall_cons in Ho as [[_ Ho] _].
  pose proof (exec_all_length os1 (q, fs)) as Hn. rewrite length_app in Hl. simpl in Hl, Hn, Hroom.
  destruct o; try done. unfold explains, MAX_QUEUE_SIZE in *. lia.
Qed.

(** C2. From the moment it is queued an event is the controller's or the
    agent's.  In any execution of the whole process (every thread and loop,
    any statement failing, any answer), a step that starts with room for two
    rows keeps every queued event, with one exception: it settles an answer
    to a batch that contained exactly this event, and either the controller
    acknowledged it (ACCEPTED or DUPLICATE at its place) or this was its
    48th attempt. *)
Theorem event_kept_until_acknowledged (windows : bool) (p : process) (started : Instant)
    (u : DateTime) (es : list event) (n : net) (e : event) (n' : net) (r : EventQueue.row) :
  wf_queue (queue (p_agent p)).1 ->
  nexec windows (entered p started u) es n -> nstep windows n e n' ->
  let q := (queue (w_agent (n_world n))).1 in
  present r q -> Z.of_nat (length (EventQueue.rows q)) + 2 <= MAX_QUEUE_SIZE ->
  present r (queue (w_agent (n_world n'))).1 \/
  exists pending answer d, e = ESettled pending answer /\ d ∈ pending /\
    EventQueue.c_event_id r = uuid_to_string (event_id (pd_event d)) /\
    ((exists response x, answer = Ok response /\ (d, x) ∈ zip pending (sr_results response) /\
                         acknowledged x) \/
     pd_attempt_count d = MAX_ATTEMPTS - 1).
Proof.
  intros Hq0 Hex Hst q Hp Hroom.
  pose proof (nexec_sound _ _ _ _ Hex (entered_sound _ _ _ Hq0)) as Hs.
  destruct (nstep_sound _ _ _ _ Hst Hs) as [_ (He & _ & Hpend & _)].
  destruct Hs as (_ & Hb & _).
  assert (Ha : adding 2 (queue (w_agent (n_world n))) (queue (w_agent (n_world n'))) ->
    present r (queue (w_agent (n_world n'))).1) by (intros Ha; by apply (adding_keeps _ _ r Ha)).
  destruct e as [| | | | | | | | | | | | | |pending answer| |]; try (left; by apply Ha).
  rewrite <- (Hpend pending answer eq_refl) in Hb. destruct He as (clock_at & Hc & ->).
  destruct (exec_all_keeps (settle_ops clock_at pending answer) _ r Hp)
    as [H|(o & q' & Ho & Hex')]; [by left|right].
  assert (Hid : forall d, d ∈ pending -> row_id d = EventQueue.id r ->
    EventQueue.c_event_id r = uuid_to_string (event_id (pd_event d)) /\
    0 <= pd_attempt_count d < MAX_ATTEMPTS).
  { intros d Hd Hrow. pose proof (proj1 (Forall_forall _ _) Hb d Hd) as (_ & Hat & Hr).
    split; [|done]. destruct Hp as (r1 & Hin & Hs1). pose proof Hs1 as (Hi1 & <- & _).
    apply Hr; [done|congruence]. }
  exists pending, answer.
  destruct (settle_ops_explain clock_at pending answer o q' r Ho Hex')
    as [(response & d & x & Hok & Hin & Hrow & Hack)|(d & Hd & Hrow & Hmax)]; exists d.
  - assert (Hd : d ∈ pending)
      by apply list_elem_of_In, (in_combine_l _ _ _ _ (proj1 (list_elem_of_In _ _) Hin)).
    destruct (Hid d Hd Hrow) as [Hev _]. do 3 (split; [done|]). left. by exists response, x.
  - destruct (Hid d Hd Hrow) as [Hev Hat]. do 3 (split; [done|]). right.
    unfold MAX_ATTEMPTS in *. rewrite wrap_u32_id in Hmax by lia. lia.
Qed.

(** ** The networking task does not unwind *)
Lemma run_op_config o a : config (run_op o a) = config a.
Proof.
  destruct o; simpl; try done.
  - unfold apply_schedule. by destruct (bool_decide _).
  - unfold mark_schedule_synced. by destruct (confirmed _).
Qed.

Lemma run_ops_config os a : config (run_ops os a) = config a.
Proof.
  revert a. induction os as [|o os IH]; intros a; [done|]. simpl. rewrite IH. apply run_op_config.
Qed.

Lemma register_config who i r a ev out a' : register_step who i (r, a) ev (out, a') ->
  config a' = config a.
Proof. intros (os & -> & _)%register_runs. apply run_ops_config. Qed.

Lemma decide_config s u i l a : config (decide s u i l a).1.2 = config a.
Proof. by destruct (decide_agent s u i l a) as [-> | (action & ->)]. Qed.

Lemma step_config w lb w' : step w lb w' -> config (w_agent w') = config (w_agent w).
Proof.
  destruct 1 as [|a l i u o|a l i u s l' a' act sch _ H|a l i u s l' a' _ H
    |a l i u s r sch wait l' a' o _ H|a l i u pl un l' a' o _ _ H|a l i u pl un l' a' o _ _ H|];
    simpl; try done.
  - apply run_op_config.
  - pose proof (decide_config s u i l a) as Hd. by rewrite H in Hd.
  - pose proof (decide_config s u i l a) as Hd. by rewrite H in Hd.
  - unfold finish in H. assert (Hr : config (enforce_result s sch r a) = config a)
      by (unfold enforce_result; by destruct r, (Schedule.action sch)).
    by destruct (Schedule.action sch); injection H as _ <- _.
  - unfold wake in H. destruct (_ <? _); by injection H as _ <- _.
  - unfold wake in H. destruct (_ <? _); by injection H as _ <- _.
Qed.

Lemma nexec_config windows n0 es n : nexec windows n0 es n ->
  config (w_agent (n_world n)) = config (w_agent (n_world n0)).
Proof.
  intros H. destruct (nexec_simulates _ _ _ _ H) as (tr & Htr & _).
  induction Htr as [|w tr w1 lb w2 _ IH Hs]; [done|]. by rewrite (step_config _ _ _ Hs).
Qed.

End SharedQueue.
