(* ===== verification/Turns.v ===== *)
(** * Turns of the loops as functions and as steps

    [Delivery] and [Loops] give a turn of a loop as one function of the agent;
    [Network] cuts it at its [await]s, so that other parts of the process can
    come in between.  The two agree: the steps of one turn, taken together,
    do exactly what the function does ([turns_alone]).  With the steps the
    requests of the process can be followed: [process_heartbeats_truthful]. *)
From stdpp Require Import relations.
From S2P Require Import Prelude Codec Fs Tracker Schedule Messages Clock Protocol Db Queue Table.
From S2P Require Import Store Events Recorder Config Client Discovery Agent Loops Delivery.
From S2P Require Import Enforcement Restart Platform Main Network Coherence.
#[local] Open Scope Z_scope.

Section Turns.
Import Agent.
Context {TT : TimeText} {UT : UuidText} {SJ : Serde (gmap string json)} {SQ : SqlEngine}
  {SS : Serde Schedule.t} {SM : Serde MessageStore.t} {SF : Serde AgentFileConfig}
  {HO : HashOrder}.

(** A step of the delivery loop inside a turn: not in its [select!], and
    without a panic. *)
Definition delivering_alone (u : DateTime) (missed : bool)
    (x y : delivery * lock * Agent.t) : Prop :=
  dl_at x.1.1 <> DlSelect /\ exists i ev, ev <> EPanic /\ delivery_step i u missed x ev y.

(** The same of the heartbeat loop, whatever time passes. *)
Definition beating_alone (missed : bool) (x y : heartbeat * lock * Agent.t) : Prop :=
  hb_at x.1.1 <> HbSelect /\ exists i ev, heartbeat_step i missed x ev y.

(** The next step of a chain that has not arrived yet. *)
Ltac next_delivery :=
  match goal with H : rtc (delivering_alone _ _) _ _ |- _ =>
    let E := fresh "E" in let Hs := fresh "Hs" in let Hr := fresh "Hr" in
    apply rtc_inv in H; destruct H as [E|(? & (_ & ? & ? & ? & Hs) & Hr)];
    [by inversion E|inversion Hs; subst; clear Hs; try done]
  end.
Ltac next_beat :=
  match goal with H : rtc (beating_alone _) _ _ |- _ =>
    let E := fresh "E" in let Hs := fresh "Hs" in let Hr := fresh "Hr" in
    apply rtc_inv in H; destruct H as [E|(? & (_ & ? & ? & Hs) & Hr)];
    [by inversion E|inversion Hs; subst; clear Hs]
  end.

(** ** Delivery *)
Lemma delivered_is_over u m d k a y : dl_at d = DlSelect \/ dl_at d = DlStopped ->
  rtc (delivering_alone u m) (d, k, a) y -> y = (d, k, a).
Proof.
  intros Hd H. apply rtc_inv in H as [<-|(z & (Hn & i & ev & _ & Hs) & _)]; [done|].
  destruct Hd as [Hd|Hd]; [done|]. inversion Hs; subst; simpl in *; congruence.
Qed.

Lemma settling_alone u m next final pending c a k a' :
  rtc (delivering_alone u m) (mk_dl next (DlReady final pending), mk_lock c None, a)
    (mk_dl next (after_delivery final), k, a') ->
  k = mk_lock c None /\ exists s clock_at answer, stamp_ok s /\
    (forall d, reading_ok (clock_at d)) /\ a' = settle_batch s (base_url c) clock_at pending answer a.
Proof.
  intros H. destruct final; unfold after_delivery in H; do 4 next_delivery;
    (match goal with Hr : rtc _ (_, _, set_queue _ _) _ |- _ =>
       apply delivered_is_over in Hr; [|unfold after_delivery; simpl; auto]; injection Hr as -> -> end);
    (split; [done|]); by eexists _, _, _.
Qed.

Lemma delivering_alone_turn u m next final c a k a' s0 u0 : stamp_ok s0 -> reading_ok u0 ->
  rtc (delivering_alone u m) (mk_dl next (DlTake final), mk_lock c None, a)
    (mk_dl next (after_delivery final), k, a') ->
  k = mk_lock c None /\ (take_batch u a).1 <> Err QPanic /\
  exists s clock_at submit, stamp_ok s /\ (forall d, reading_ok (clock_at d)) /\
    a' = deliver_due_batch u s (base_url c) clock_at submit a.
Proof.
  intros Hs0 Hu0 H. unfold deliver_due_batch.
  apply rtc_inv in H as [E|(z & (_ & i & ev & Hev & Hs) & H)]; [by destruct final|].
  inversion Hs; subst; clear Hs; try done;
    match goal with Ht : take_batch _ _ = _ |- _ => rewrite Ht end; simpl;
    [|apply delivered_is_over in H; [|destruct final; simpl; auto]; injection H as <- <-;
      (split; [done|]); (split; [congruence|]); by exists s0, (fun _ => u0), (fun _ => Err (ApiError 0 ""))..].
  apply settling_alone in H as (-> & s & ck & answer & Hs & Hck & ->).
  split; [done|]. split; [done|]. by exists s, ck, (fun _ => answer).
Qed.

Lemma turn_delivering_alone u m next final c a s clock_at submit : stamp_ok s ->
  (forall d, reading_ok (clock_at d)) -> (take_batch u a).1 <> Err QPanic ->
  rtc (delivering_alone u m) (mk_dl next (DlTake final), mk_lock c None, a)
    (mk_dl next (after_delivery final), mk_lock c None,
     deliver_due_batch u s (base_url c) clock_at submit a).
Proof.
  intros Hs Hck Hp. unfold deliver_due_batch.
  destruct (take_batch u a) as [[[|d pending]|e] b] eqn:Ht; simpl in Hp.
  - apply rtc_once. split; [done|]. exists 0, (ETake final). split; [done|]. by constructor.
  - set (answer := submit _).
    eapply rtc_l; [split; [done|]; exists 0, (ETake final); split; [done|]; by apply (dl_take _ _ _ _ _ _ _ _ _ _ Ht)|].
    eapply rtc_l; [split; [done|]; exists 0, (ERequest DeliveryLoop (device c)); split; [done|]; apply dl_send|].
    eapply rtc_l; [split; [done|]; eexists 0, (EOwn DeliveryLoop); split; [done|]; apply (dl_answer _ _ _ _ _ _ _ _ _ _ answer)|].
    eapply rtc_l; [split; [done|]; eexists 0, (EOwn DeliveryLoop); split; [done|]; by apply (dl_note _ _ _ _ _ _ _ _ _ _ s)|].
    apply rtc_once. split; [done|]. eexists 0, _. split; [|by apply dl_settle]. done.
  - apply rtc_once. split; [done|]. exists 0, (ETake final). split; [done|].
    eapply dl_unread; [done|]. congruence.
Qed.
(** ** Heartbeats *)
Definition attempts_ok
    (attempts : list (Fs.fault * stamp * result ClientError RegisterResponse)) : Prop :=
  Forall (fun x => stamp_ok x.1.2) attempts.

Lemma no_attempts : attempts_ok [].
Proof. constructor. Qed.

(** What is left of a registration leads to the id [id] and the agent [a']. *)
Definition registers (r : register_phase) (a : Agent.t) (id : Uuid) (a' : Agent.t) : Prop :=
  match r with
  | RgSend | RgBackoff _ => exists attempts, attempts_ok attempts /\
      register attempts a = (Some id, a')
  | RgAnswered answer => exists f s attempts, stamp_ok s /\ attempts_ok attempts /\
      register ((f, s, answer) :: attempts) a = (Some id, a')
  | RgAdopting response => exists f, id = rr_device_id response /\ a' = registered f response a
  end.

Lemma beaten_is_over m next k a y :
  rtc (beating_alone m) (mk_hb next HbSelect, k, a) y -> y = (mk_hb next HbSelect, k, a).
Proof. intros H. by apply rtc_inv in H as [<-|(z & (Hn & _) & _)]. Qed.

Lemma registering_alone m next next' r c h a k a' :
  rtc (beating_alone m) (mk_hb next (HbRegistering r), mk_lock c h, a) (mk_hb next' HbSelect, k, a') ->
  next' = next /\ exists id, k = mk_lock (mk_client (base_url c) id) None /\ registers r a id a'.
Proof.
  intros H. remember (mk_hb next (HbRegistering r), mk_lock c h, a) as x eqn:Ex.
  remember (mk_hb next' HbSelect, k, a') as y eqn:Ey. revert r a Ex Ey.
  induction H as [x|x z y (_ & i & ev & Hs) Hr IH]; intros r a -> Ey; [by inversion Ey|].
  inversion Hs; subst; clear Hs.
  - destruct (IH _ _ eq_refl eq_refl) as (-> & id & -> & Hid). split; [done|].
    exists id. split; [done|]. match goal with H : register_step _ _ _ _ _ |- _ => inversion H; subst end.
    + destruct Hid as (f & s & l & Hok & Hl & Hid). exists ((f, s, answer) :: l).
      split; [by constructor|done].
    + destruct Hid as (f & -> & ->). exists f, s, []. split; [done|]. split; [constructor|done].
    + destruct Hid as (l & Hl & Hid). exists None, s, l. by split.
    + done.
  - match goal with H : register_step _ _ _ _ _ |- _ => inversion H; subst end.
    apply beaten_is_over in Hr. injection Hr as -> -> ->. split; [done|].
    eexists. split; [done|]. by eexists.
Qed.

Lemma register_runs_alone m next c attempts a id a' : attempts_ok attempts ->
  register attempts a = (Some id, a') ->
  rtc (beating_alone m) (mk_hb next (HbRegistering RgSend), mk_lock c (Some HeldByHeartbeat), a)
    (mk_hb next HbSelect, mk_lock (mk_client (base_url c) id) None, a').
Proof.
  intros Hok. revert a. induction Hok as [|[[f s] answer] l Hs _ IH]; intros a H; [done|].
  assert (Hstep : forall i ev r r' b b', register_step HeartbeatLoop i (r, b) ev (inl r', b') ->
    beating_alone m (mk_hb next (HbRegistering r), mk_lock c (Some HeldByHeartbeat), b)
      (mk_hb next (HbRegistering r'), mk_lock c (Some HeldByHeartbeat), b'))
    by (intros i ev r r' b b' Hr; split; [done|]; exists i, ev; by constructor).
  eapply rtc_l; [apply (Hstep 0 (EOwn HeartbeatLoop)), (rg_send _ _ _ answer)|].
  simpl in H. destruct answer as [response|e]; simpl in H.
  - injection H as <- <-. eapply rtc_l; [by eapply (Hstep 0), rg_ok|].
    apply rtc_once. split; [done|]. eexists 0, _. by apply hb_registered, rg_adopt.
  - eapply rtc_l; [by eapply (Hstep 0), rg_failed|].
    eapply rtc_l; [by eapply (Hstep (0 + RECONNECT_BACKOFF)), rg_again|]. by apply IH.
Qed.

(** The turn is over: a registration it had to make has succeeded. *)
Definition turn_over (f : Fs.fault) (s1 s2 : stamp) (url : string)
    (answer : result ClientError HeartbeatResponse)
    (attempts : list (Fs.fault * stamp * result ClientError RegisterResponse)) (a : Agent.t) : Prop :=
  match heartbeat_answer f s1 s2 url answer a with
  | (true, a) => is_Some (register attempts a).1
  | (false, _) => True
  end.

Lemma beating_alone_turn m next next' c a k a' s0 : stamp_ok s0 ->
  rtc (beating_alone m) (mk_hb next HbTicked, mk_lock c None, a) (mk_hb next' HbSelect, k, a') ->
  next' = next /\ exists f s1 s2 answer attempts,
    stamp_ok s1 /\ stamp_ok s2 /\ attempts_ok attempts /\
    turn_over f s1 s2 (base_url c) answer attempts a /\
    let '(id, b) := heartbeat_turn f s1 s2 (base_url c) answer attempts (device c) a in
    k = mk_lock (mk_client (base_url c) id) None /\ a' = b.
Proof.
  intros Hs0 H. do 4 next_beat.
  - do 2 next_beat.
    match goal with Hr : rtc _ _ _ |- _ => apply beaten_is_over in Hr; injection Hr as -> -> -> end.
    split; [done|]. destruct c. exists f, s1, s2, (Ok r), []. split; [done|]. split; [done|]. split; [apply no_attempts|]. by split.
  - next_beat. match goal with Hr : rtc _ _ _ |- _ =>
      apply registering_alone in Hr as (-> & id & -> & attempts & Hok & Hid) end.
    split; [done|]. exists None, s1, s1, (Err e), attempts. do 3 (split; [done|]).
    unfold turn_over, heartbeat_turn, heartbeat_answer.
    match goal with Hx : is_device_not_found e = true |- _ => rewrite Hx end.
    rewrite Hid. by split; [eexists|].
  - match goal with Hr : rtc _ _ _ |- _ => apply beaten_is_over in Hr; injection Hr as -> -> -> end.
    split; [done|]. destruct c. exists None, s1, s1, (Err e), []. do 2 (split; [done|]). split; [apply no_attempts|].
    unfold turn_over, heartbeat_turn, heartbeat_answer.
    by match goal with Hx : is_device_not_found e = false |- _ => rewrite Hx end.
Qed.

Lemma turn_beating_alone m next c a f s1 s2 answer attempts id b : stamp_ok s1 -> stamp_ok s2 ->
  attempts_ok attempts -> turn_over f s1 s2 (base_url c) answer attempts a ->
  heartbeat_turn f s1 s2 (base_url c) answer attempts (device c) a = (id, b) ->
  rtc (beating_alone m) (mk_hb next HbTicked, mk_lock c None, a)
    (mk_hb next HbSelect, mk_lock (mk_client (base_url c) id) None, b).
Proof.
  intros Hs1 Hs2 Hok Hover Ht. unfold turn_over, heartbeat_turn in *.
  assert (Hstep : forall i ev h h' k k' x x', h <> HbSelect ->
    heartbeat_step i m (mk_hb next h, k, x) ev (mk_hb next h', k', x') ->
    beating_alone m (mk_hb next h, k, x) (mk_hb next h', k', x'))
    by (intros i ev h h' k k' x x' Hh Hr; split; [done|]; by exists i, ev).
  eapply rtc_l; [by eapply (Hstep 0), (hb_prepare _ _ _ _ _ s1)|].
  eapply rtc_l; [by eapply (Hstep 0), hb_send|].
  eapply rtc_l; [by eapply (Hstep 0), (hb_answer _ _ _ _ _ _ _ answer)|].
  destruct answer as [response|e]; simpl in *.
  - injection Ht as <- <-. destruct c as [url id].
    eapply rtc_l; [by eapply (Hstep 0), (hb_connected _ _ _ _ _ _ _ s1)|].
    eapply rtc_l; [by eapply (Hstep 0), (hb_adopt _ _ _ _ _ _ f)|].
    apply rtc_once. by eapply (Hstep 0), (hb_report _ _ _ _ _ s2).
  - destruct (is_device_not_found e) eqn:En.
    + destruct (register attempts _) as [[new|] a2] eqn:Er; [|by destruct Hover].
      injection Ht as <- <-. eapply rtc_l; [by eapply (Hstep 0), (hb_not_found _ _ _ _ _ _ _ s1)|].
      eapply rtc_l; [by eapply (Hstep 0), hb_relock|]. by eapply register_runs_alone.
    + injection Ht as <- <-. destruct c as [url id]. apply rtc_once. by eapply (Hstep 0), (hb_failed _ _ _ _ _ _ _ s1).
Qed.

End Turns.

(** ** What the process reports in its heartbeats *)
Section Heartbeats.
Import Agent.
Context {TT : TimeText} {UT : UuidText} {SJ : Serde (gmap string json)} {SQ : SqlEngine}
  {SS : Serde Schedule.t} {SM : Serde MessageStore.t} {SF : Serde AgentFileConfig}
  {HO : HashOrder} {HL : HashOrderLaws}.

(** Only the platform's thread writes the snapshot: every loop keeps it. *)
Definition keeps_snapshot (a a' : Agent.t) : Prop := session_snapshot a' = session_snapshot a.

Lemma note_connected_snapshot url s a : keeps_snapshot a (note_connected url s a).
Proof. unfold note_connected. by destruct (connected a). Qed.
Lemma note_disconnected_snapshot reason s a : keeps_snapshot a (note_disconnected reason s a).
Proof. unfold note_disconnected. by destruct (connected a). Qed.
Lemma apply_schedule_snapshot f s a : keeps_snapshot a (apply_schedule f s a).
Proof. unfold apply_schedule. by destruct (bool_decide _). Qed.
Lemma mark_synced_snapshot a : keeps_snapshot a (mark_schedule_synced a).
Proof. unfold mark_schedule_synced. by destruct (confirmed _). Qed.
Lemma apply_messages_snapshot f l u a : keeps_snapshot a (apply_messages f l u a).
Proof. unfold apply_messages. by destruct (MessageStore.apply _ _ _). Qed.
Lemma adopt_snapshot f s a : keeps_snapshot a (mark_schedule_synced (apply_schedule f s a)).
Proof. red. rewrite mark_synced_snapshot. apply apply_schedule_snapshot. Qed.
Lemma registered_snapshot f r a : keeps_snapshot a (registered f r a).
Proof. unfold registered. red. simpl. apply (adopt_snapshot f (rr_schedule r) (set_connected true a)). Qed.
Lemma take_snapshot u a r a' : take_batch u a = (r, a') -> keeps_snapshot a a'.
Proof. unfold take_batch. destruct (EventQueue.due_batch _ _ _). by intros [= _ <-]. Qed.
#[local] Hint Resolve note_connected_snapshot note_disconnected_snapshot apply_schedule_snapshot
  adopt_snapshot registered_snapshot apply_messages_snapshot take_snapshot : timelord.

Lemma resolve_snapshot i r a ev out a' : resolve_step i (r, a) ev (out, a') -> keeps_snapshot a a'.
Proof.
  assert (Hf : forall f s found b, keeps_snapshot b (resolve_found f s found b).2).
  { intros f s [[|c cs]|text] b; unfold resolve_found;
      [done|by destruct (select_best (c :: cs))|done]. }
  inversion 1; subst; try done;
    match goal with Hr : resolve_found ?f ?s ?found ?b = _ |- _ =>
      pose proof (Hf f s found b) as Hq; by rewrite Hr in Hq end.
Qed.

Lemma register_snapshot who i r a ev out a' : register_step who i (r, a) ev (out, a') ->
  keeps_snapshot a a'.
Proof. inversion 1; subst; try done; auto with timelord. Qed.

Lemma heartbeat_snapshot i m h k a ev h' k' a' :
  heartbeat_step i m (h, k, a) ev (h', k', a') -> keeps_snapshot a a'.
Proof. inversion 1; subst; try done; eauto using register_snapshot with timelord. Qed.

Lemma delivery_snapshot i u m d k a ev d' k' a' :
  delivery_step i u m (d, k, a) ev (d', k', a') -> keeps_snapshot a a'.
Proof.
  inversion 1; subst; try done; eauto with timelord.
  unfold note_result. by destruct answer; auto with timelord.
Qed.

Lemma poll_snapshot {R} who i m (apply : R -> _ -> _ -> _ -> Prop) p k a ev p' k' a' :
  (forall r b e x b', apply r b e (x, b') -> keeps_snapshot b b') ->
  poll_step who i m apply (p, k, a) ev (p', k', a') -> keeps_snapshot a a'.
Proof. intros Ha. inversion 1; subst; try done; eauto. Qed.

Lemma schedule_answer_snapshot r b e x b' : apply_schedule_answer r b e (x, b') -> keeps_snapshot b b'.
Proof. intros (f & Hx & _). destruct r; injection Hx as _ ->; [auto with timelord|done]. Qed.
Lemma message_answer_snapshot u r b e x b' : apply_message_answer u r b e (x, b') -> keeps_snapshot b b'.
Proof. intros (f & Hx & _). destruct r; injection Hx as _ ->; [auto with timelord|done]. Qed.

Lemma clock_snapshot i u c a ev c' a' : clock_step i u (c, a) ev (c', a') -> keeps_snapshot a a'.
Proof.
  inversion 1 as [| |measured l w b l' b' Hs| |l w b l' b' _ Hs|l w b l' b' _ Hs|]; subst;
    try done; try (by injection Hs as <- <-).
  unfold ClockSync.sync in Hs. destruct (_ <=? _); [|by injection Hs as <- <-].
  by destruct measured; injection Hs as <- <-.
Qed.

Lemma enforcement_snapshot w m ev w' : enforcement_step w m ev w' ->
  keeps_snapshot (w_agent w) (w_agent w').
Proof.
  assert (Hd : forall s u i l a, keeps_snapshot a (decide s u i l a).1.2)
    by (intros s u i l a; destruct (decide_agent s u i l a) as [-> | (action & ->)]; done).
  assert (Hw : forall p u i l a, keeps_snapshot a (wake p u i l a).1.2)
    by (intros p u i l a; unfold wake; by destruct (_ <? _)).
  assert (Hf : forall s r u i sch wt l a, keeps_snapshot a (finish s r u i sch wt l a).1.2).
  { intros s r u i sch wt l a. unfold finish, enforce_result.
    by destruct (Schedule.action sch), r. }
  destruct 1; simpl; try done;
    match goal with
    | Hx : decide ?s ?u ?i ?l ?a = _ |- _ => pose proof (Hd s u i l a) as Hq; by rewrite Hx in Hq
    | Hx : wake ?p ?u ?i ?l ?a = _ |- _ => pose proof (Hw p u i l a) as Hq; by rewrite Hx in Hq
    | Hx : finish ?s ?r ?u ?i ?sch ?wt ?l ?a = _ |- _ =>
        pose proof (Hf s r u i sch wt l a) as Hq; by rewrite Hx in Hq
    end.
Qed.

Lemma task_snapshot windows w t ev t' w' : task_step windows w t ev t' w' ->
  keeps_snapshot (w_agent w) (w_agent w').
Proof.
  destruct 1; simpl; try done; eauto using resolve_snapshot, register_snapshot,
    heartbeat_snapshot, delivery_snapshot, enforcement_snapshot;
    eapply poll_snapshot; try eassumption; eauto using schedule_answer_snapshot,
    message_answer_snapshot.
Qed.
(** While the platform's thread runs, the snapshot is the recorder's. *)
Lemma nexec_shared windows p started u es n : snapshot_shared p ->
  nexec windows (entered p started u) es n -> ENotified false ∉ es -> n_main n = MPump ->
  snapshot_shared (mk_process (w_agent (n_world n)) (n_recorder n)).
Proof.
  intros H0 H. remember (entered p started u) as n0.
  induction H as [n|n es n1 e n2 Hex IH Hst]; intros He Hm; [subst; by destruct p|].
  apply not_elem_of_app in He as [He1 He2]. specialize (IH Heqn0 He1). subst n.
  assert (Hkeep : forall a a' r, keeps_snapshot a a' -> snapshot_shared (mk_process a r) ->
    snapshot_shared (mk_process a' r))
    by (intros a a' r Ha [Hs Ht]; split; [by simpl; rewrite Ha|done]).
  destruct Hst as [|w r t c inp ev user u0 res a' r' _ Hn| | | | | |w r t c ev c' a' m _ Hc
    |w r t c ev t' w' m _ Ht]; simpl in *; try done; auto.
  - destruct res as [[]|]; [|by destruct He2; left].
    pose proof (prun_shared (PNotify inp ev user u0) (mk_process (w_agent w) r)) as Hp.
    simpl in Hp. rewrite Hn in Hp. auto.
  - eapply Hkeep; [by eapply clock_snapshot|auto].
  - eapply Hkeep; [by eapply task_snapshot|auto].
Qed.

(** A heartbeat that is prepared is made of the snapshot. *)
Lemma prepared_request windows n ev n' ls ls' url id rq : nstep windows n ev n' ->
  n_task n = Joined ls -> n_task n' = Joined ls' -> hb_at (hb ls) = HbTicked ->
  hb_at (hb ls') = HbReady url id rq ->
  exists s, rq = heartbeat_request s url (w_agent (n_world n)).
Proof.
  intros Hst Hn Hn' Ht Hr. destruct Hst; simpl in *; try congruence.
  match goal with H : task_step _ _ _ _ _ _ |- _ => destruct H; simplify_eq/=; try congruence end.
  match goal with Hh : heartbeat_step _ _ _ _ _ |- _ => rename Hh into Hb end.
  destruct (hb ls) as [next ph], k, (lk ls). simpl in Ht. subst ph.
  inversion Hb; subst; simplify_eq/=. by eexists.
Qed.

End Heartbeats.
