(* ===== verification/Stop.v ===== *)
(** * How the process stops

    After [begin_shutdown]: the loops come to a stop in a bounded number of
    steps of their own and can always get there ([stop_completes]); the
    delivery loop makes one more attempt ([final_delivery_attempt]); and what
    the wait of [run_blocking] depends on.  Two theorems record what the
    comments of the program do not say: the pipe server keeps the wait going
    ([windows_stop_waits]), and an interval of zero ends the networking task
    before it enforces anything ([zero_interval_ends_enforcement]). *)
From stdpp Require Import relations.
From S2P Require Import Prelude Codec Fs Tracker Schedule Messages Clock Protocol Db Queue Table.
From S2P Require Import Store Events Recorder Closing Config Client Discovery Agent Loops Delivery.
From S2P Require Import Enforcement Restart Platform Main Network Coherence.
#[local] Open Scope Z_scope.

(** ** Steps that wait for nothing but an answer *)
Section Termination.
Import Agent.
Context {TT : TimeText} {UT : UuidText} {SJ : Serde (gmap string json)} {SQ : SqlEngine}
  {SS : Serde Schedule.t} {SM : Serde MessageStore.t} {SF : Serde AgentFileConfig}
  {HO : HashOrder}.

(** Not the passing of time, the other threads, an arm of a [select!] other
    than the shutdown's, or a failure of the pipe. *)
Definition by_itself (e : event) : bool :=
  match e with
  | ETime | ENotified _ | EPumpEnded _ | EMain | EShutdown _ | EWake _ | EArm _ | EPipeEnded
  | EPanic => false
  | _ => true
  end.

Definition stop_step (windows : bool) (n n' : net) : Prop :=
  exists e, nstep windows n e n' /\ by_itself e = true.

Definition register_weight (r : register_phase) : nat :=
  match r with RgSend => 3 | RgAnswered _ => 2 | RgAdopting _ => 1 | RgBackoff _ => 0 end.
Definition resolve_weight (r : resolve_phase) : nat :=
  match r with RvStart => 2 | RvSearching => 1 | RvBackoff _ => 0 end.
Definition heartbeat_weight (h : heartbeat_phase) : nat :=
  match h with
  | HbStopped => 0 | HbSelect => 1 | HbReporting => 2 | HbAdopting _ => 3
  | HbRegistering r => 2 + register_weight r
  | HbLost => 6 | HbAnswered _ _ => 7 | HbSent _ => 8 | HbReady _ _ _ => 9 | HbTicked => 10
  end.
Definition delivery_weight (d : delivery_phase) : nat :=
  let base (final : bool) := if final then 0%nat else 7%nat in
  match d with
  | DlStopped => 0 | DlSelect => 7
  | DlSettle f _ _ => base f + 1 | DlAnswered f _ _ _ => base f + 2 | DlSent f _ _ => base f + 3
  | DlReady f _ => base f + 4 | DlTake f => base f + 5
  end.
Definition poll_weight {R} (p : poll_phase R) : nat :=
  match p with
  | PlStopped => 0 | PlPolling | PlBackoff _ => 1 | PlTop => 2 | PlAnswered _ => 3
  end.
Definition enforcement_weight (l : loop) : nat :=
  match at_phase l with Stopped => 0 | Waiting _ _ => 1 | Acting _ _ => 2 | Top => 3 end.
Definition clock_weight (c : clock_phase) : nat :=
  match c with CkStopped => 0 | CkSelect _ _ => 1 | CkMeasuring _ _ => 2 | CkTop _ _ => 3 end.
Definition task_weight (t : task) : nat :=
  match t with
  | Died => 0
  | Joined ls => heartbeat_weight (hb_at (hb ls)) + poll_weight (sp ls) + poll_weight (mp ls) +
                 delivery_weight (dl_at (dl ls))
  | Registering _ r => 40 + register_weight r
  | Resolving r => 44 + resolve_weight r
  end.
Definition weight (n : net) : nat :=
  task_weight (n_task n) + enforcement_weight (w_loop (n_world n)) + clock_weight (n_clock n) +
  match n_main n with MDone => 0 | _ => 1 end.

Lemma weight_bound n : (weight n <= 53)%nat.
Proof.
  unfold weight. assert (task_weight (n_task n) <= 46)%nat.
  { destruct (n_task n) as [r|url r|ls|]; simpl; [by destruct r; simpl; lia..| |lia].
    assert (heartbeat_weight (hb_at (hb ls)) <= 10)%nat
      by (destruct (hb_at (hb ls)) as [| | | | | | | |[]|]; simpl; lia).
    assert (poll_weight (sp ls) <= 3)%nat by (destruct (sp ls); simpl; lia).
    assert (poll_weight (mp ls) <= 3)%nat by (destruct (mp ls); simpl; lia).
    assert (delivery_weight (dl_at (dl ls)) <= 12)%nat
      by (destruct (dl_at (dl ls)) as [|[]|[]|[]|[]|[]|]; simpl; lia).
    lia. }
  assert (enforcement_weight (w_loop (n_world n)) <= 3)%nat
    by (unfold enforcement_weight; destruct (at_phase _); lia).
  assert (clock_weight (n_clock n) <= 3)%nat by (destruct (n_clock n); simpl; lia).
  destruct (n_main n); lia.
Qed.

Lemma register_lighter who i r a ev r' a' : register_step who i (r, a) ev (inl r', a') ->
  by_itself ev = true -> (register_weight r' < register_weight r)%nat.
Proof. inversion 1; subst; simpl; intros; first [lia|discriminate]. Qed.

Lemma heartbeat_lighter i m h k a ev h' k' a' : heartbeat_step i m (h, k, a) ev (h', k', a') ->
  by_itself ev = true -> (heartbeat_weight (hb_at h') < heartbeat_weight (hb_at h))%nat.
Proof.
  inversion 1; subst; cbn [hb_at heartbeat_weight]; intros Hev; try (simpl; lia);
    try discriminate Hev.
  match goal with Hr : register_step _ _ _ _ _ |- _ => apply register_lighter in Hr; [lia|done] end.
Qed.

Lemma delivery_lighter i u m d k a ev d' k' a' :
  delivery_step i u m (d, k, a) ev (d', k', a') -> by_itself ev = true ->
  (delivery_weight (dl_at d') < delivery_weight (dl_at d))%nat.
Proof.
  inversion 1; subst; cbn [dl_at]; intros Hev; try discriminate Hev;
    try destruct final; simpl; lia.
Qed.

Lemma poll_lighter {R} who i m (apply : R -> _ -> _ -> _ -> Prop) p k a ev p' k' a' :
  poll_step who i m apply (p, k, a) ev (p', k', a') -> by_itself ev = true ->
  (poll_weight p' < poll_weight p)%nat.
Proof. inversion 1; subst; intros Hev; first [discriminate Hev | simpl; lia]. Qed.

Lemma clock_lighter i u c a ev c' a' : clock_step i u (c, a) ev (c', a') -> by_itself ev = true ->
  (clock_weight c' < clock_weight c)%nat.
Proof. inversion 1; subst; intros Hev; first [discriminate Hev | simpl; lia]. Qed.

Lemma decide_phase s u i l a : at_phase l = Top ->
  (enforcement_weight (decide s u i l a).1.1 < enforcement_weight l)%nat.
Proof.
  intros Hl. unfold enforcement_weight. rewrite Hl. unfold decide.
  destruct (enforcement_view _ _ _) as [[sch|] h]; [|simpl; lia].
  destruct (Schedule.active_window sch _); [|destruct (Schedule.next_off_at _ _); simpl; lia].
  destruct (enforce_request _ _ _ _ _) as [[last b]|]; simpl; lia.
Qed.

Lemma enforcement_lighter w m ev w' : enforcement_step w m ev w' -> by_itself ev = true ->
  (enforcement_weight (w_loop w') < enforcement_weight (w_loop w))%nat.
Proof.
  destruct 1; cbn [w_loop]; intros Hev; try discriminate Hev.
  - pose proof (decide_phase s (w_utc w) (w_instant w) (w_loop w) (w_agent w) H0) as Hd.
    by rewrite H1 in Hd.
  - pose proof (decide_phase s (w_utc w) (w_instant w) (w_loop w) (w_agent w) H0) as Hd.
    by rewrite H1 in Hd.
  - unfold enforcement_weight. rewrite H0. unfold finish in H1.
    destruct (Schedule.action sch); injection H1 as <- _ _; simpl; lia.
  - unfold enforcement_weight. rewrite H. simpl. lia.
Qed.

Lemma task_lighter windows w t ev t' w' : task_step windows w t ev t' w' -> by_itself ev = true ->
  (task_weight t' + enforcement_weight (w_loop w') < task_weight t + enforcement_weight (w_loop w))%nat.
Proof.
  destruct 1; cbn [task_weight put_agent w_loop set_hb set_sp set_mp set_dl hb sp mp dl]; intros Hev.
  - inversion H; subst; first [discriminate Hev | simpl; lia].
  - inversion H; subst; simpl; lia.
  - pose proof (register_lighter _ _ _ _ _ _ _ H Hev). lia.
  - unfold join_loops. destruct (_ || _); simpl; lia.
  - pose proof (heartbeat_lighter _ _ _ _ _ _ _ _ _ H Hev). lia.
  - pose proof (poll_lighter _ _ _ _ _ _ _ _ _ _ _ H Hev). lia.
  - pose proof (poll_lighter _ _ _ _ _ _ _ _ _ _ _ H Hev). lia.
  - pose proof (delivery_lighter _ _ _ _ _ _ _ _ _ _ H Hev). lia.
  - discriminate Hev.
  - pose proof (enforcement_lighter _ _ _ _ H Hev). lia.
  - discriminate Hev.
Qed.

Lemma stop_step_lighter windows n n' : stop_step windows n n' -> (weight n' < weight n)%nat.
Proof.
  intros (e & Hst & Hev). unfold weight.
  destruct Hst; cbn [n_task n_world n_clock n_main]; try discriminate Hev.
  - lia.
  - lia.
  - pose proof (clock_lighter _ _ _ _ _ _ _ H0 Hev). simpl. lia.
  - pose proof (task_lighter _ _ _ _ _ _ H0 Hev). lia.
Qed.

Lemma stop_steps_bounded windows k n n' : nsteps (stop_step windows) k n n' ->
  (k + weight n' <= weight n)%nat.
Proof.
  induction 1 as [n|k n1 n2 n3 Hs _ IH]; [lia|]. apply stop_step_lighter in Hs. lia.
Qed.
End Termination.

(** ** Nothing gets stuck *)
Section Progress.
Import Agent.
Context {TT : TimeText} {UT : UuidText} {SJ : Serde (gmap string json)} {SQ : SqlEngine}
  {SS : Serde Schedule.t} {SM : Serde MessageStore.t} {SF : Serde AgentFileConfig}
  {HO : HashOrder}.
Context {TL : TimeTextLaws} {UL : UuidTextLaws} {SL : SerdeLaws (gmap string json)}
  {QL : SqlEngineLaws}.
(** Some id and some clock reading are in the range of their texts. *)
Context (s0 : stamp) (u0 : DateTime) (Hs0 : stamp_ok s0) (Hu0 : reading_ok u0).
Context (windows : bool).

(** A process that waits for its joined loops. *)
Definition flushing (n : net) (ls : loops) : Prop :=
  n_task n = Joined ls /\ (exists until, n_main n = MFlush until) /\ missed ls = false /\
  shutdown (w_agent (n_world n)) = true /\ sound n /\
  lock_ok (hb_at (hb ls)) (dl_at (dl ls)) (lk ls).

Lemma task_red n ls ev t' w' : flushing n ls ->
  task_step windows (n_world n) (Joined ls) ev t' w' -> by_itself ev = true ->
  red (stop_step windows) n.
Proof.
  intros (Ht & (until & Hm) & _) Hst Hev. destruct n as [w r t c m]. simpl in *. subst.
  eexists. exists ev. split; [by apply n_task_step|done].
Qed.

Lemma register_red who i r a :
  (exists until, r = RgBackoff until) \/
  exists ev out a', register_step who i (r, a) ev (out, a') /\ by_itself ev = true.
Proof using Hs0.
  destruct r as [|[resp|e]|resp|until]; [right..|by left; exists until].
  - eexists _, _, _. split; [by apply (rg_send who i a (Err (Request EmptyString)))|done].
  - eexists _, _, _. split; [by apply (rg_ok who i resp a s0)|done].
  - eexists _, _, _. split; [by apply (rg_failed who i e a s0)|done].
  - eexists _, _, _. split; [by apply (rg_adopt who i None)|done].
Qed.

Lemma heartbeat_red i h k a : shutdown a = true -> hb_at h <> HbStopped ->
  (holder k = None \/ hb_holds (hb_at h) = true) ->
  (exists until, hb_at h = HbRegistering (RgBackoff until)) \/
  exists ev h' k' a', heartbeat_step i false (h, k, a) ev (h', k', a') /\ by_itself ev = true.
Proof using Hs0.
  intros Hsh Hne Hk. destruct h as [next h], k as [c hold]; simpl in *.
  assert (Hfree : hb_holds h = false -> hold = None) by (intros Hf; destruct Hk; congruence).
  destruct h as [| |url id rq|url|url [resp|e]|resp| | |r|];
    try (rewrite (Hfree eq_refl)); try done.
  - right. eexists _, _, _, _. split; [by apply hb_stop|done].
  - right. eexists _, _, _, _. split; [by apply (hb_prepare i false next c a s0)|done].
  - right. eexists _, _, _, _. split; [by apply hb_send|done].
  - right. eexists _, _, _, _. split; [by apply (hb_answer _ _ _ _ _ _ _ (Err (Request EmptyString)))|done].
  - right. eexists _, _, _, _. split; [by apply (hb_connected _ _ _ _ _ _ _ s0)|done].
  - right. destruct (is_device_not_found e) eqn:Ee; eexists _, _, _, _.
    + split; [by apply (hb_not_found _ _ _ _ _ _ _ s0)|done].
    + split; [by apply (hb_failed _ _ _ _ _ _ _ s0)|done].
  - right. eexists _, _, _, _. split; [by apply (hb_adopt _ _ _ _ _ _ None)|done].
  - right. eexists _, _, _, _. split; [by apply (hb_report _ _ _ _ _ s0)|done].
  - right. eexists _, _, _, _. split; [by apply hb_relock|done].
  - destruct (register_red HeartbeatLoop i r a) as [(until & ->)|(ev & [r'|id] & a' & Hst & Hev)].
    + left. by exists until.
    + right. eexists ev, _, _, _. split; [by eapply hb_registering|done].
    + right. eexists ev, _, _, _. split; [by eapply hb_registered|done].
Qed.

Lemma delivery_red i u d k a : shutdown a = true -> dl_at d <> DlStopped ->
  wf_queue (queue a).1 -> (holder k = None \/ dl_holds (dl_at d) = true) ->
  exists ev d' k' a', delivery_step i u false (d, k, a) ev (d', k', a') /\ by_itself ev = true.
Proof using Hs0 Hu0 TL UL SL QL.
  intros Hsh Hne Hq Hk. destruct d as [next d], k as [c hold]; simpl in *.
  assert (Hfree : dl_holds d = false -> hold = None) by (intros Hf; destruct Hk; congruence).
  destruct d as [|final|final l|final l url|final l url r|final l r|]; try done.
  - eexists _, _, _, _. split; [by apply dl_shutdown|done].
  - destruct (take_batch u a) as [r a'] eqn:Et. pose proof (take_wf _ _ _ _ Hq Et) as Hw.
    destruct r as [[|x l]|e]; eexists _, _, _, _.
    + split; [by eapply dl_empty|done].
    + split; [by eapply dl_take|done].
    + split; [by eapply dl_unread|done].
  - rewrite (Hfree eq_refl). eexists _, _, _, _. split; [by apply dl_send|done].
  - eexists _, _, _, _. split; [by apply (dl_answer _ _ _ _ _ _ _ _ _ _ (Err (Request EmptyString)))|done].
  - eexists _, _, _, _. split; [by apply (dl_note _ _ _ _ _ _ _ _ _ _ s0)|done].
  - eexists _, _, _, _. split; [by apply (dl_settle _ _ _ _ _ _ _ _ _ (fun _ => u0))|done].
Qed.

Lemma poll_red {R} who i (apply : R -> _ -> _ -> _ -> Prop) p k a :
  shutdown a = true -> p <> PlStopped -> holder k = None ->
  (forall r, exists ev b a', apply r a ev (b, a') /\ by_itself ev = true) ->
  by_itself (EOwn who) = true ->
  exists ev p' k' a', poll_step who i false apply (p, k, a) ev (p', k', a') /\ by_itself ev = true.
Proof.
  intros Hsh Hne Hk Ha _. destruct k as [c hold]. simpl in Hk. subst.
  destruct p as [| |r|until|]; [..|done].
  - eexists _, _, _, _. split; [by apply pl_request|done].
  - eexists _, _, _, _. split; [by apply pl_stop|done].
  - destruct (Ha r) as (ev & [] & a' & Hap & Hev); eexists ev, _, _, _.
    + split; [by eapply pl_failed|done].
    + split; [by eapply pl_applied|done].
  - eexists _, _, _, _. split; [by eapply pl_stop_backoff|done].
Qed.

Lemma enforcement_red w : shutdown (w_agent w) = true -> at_phase (w_loop w) <> Stopped ->
  exists ev w', enforcement_step w false ev w' /\ by_itself ev = true.
Proof using Hs0.
  intros Hsh Hne. destruct (at_phase (w_loop w)) as [|sch wait|planned until|] eqn:Ep; [..|done].
  - destruct (decide s0 (w_utc w) (w_instant w) (w_loop w) (w_agent w)) as [[l' a'] [[act sch]|]] eqn:Ed;
      eexists _, _.
    + split; [by eapply (en_act _ _ s0)|done].
    + split; [by eapply (en_park _ _ s0)|done].
  - destruct (finish s0 ActOk (w_utc w) (w_instant w) sch wait (w_loop w) (w_agent w))
      as [[l' a'] o] eqn:Ef. eexists _, _. split; [by eapply (en_finish _ _ s0 ActOk)|by destruct o].
  - eexists _, _. split; [by eapply en_stop|done].
Qed.

Lemma decide_shutdown s u i l a : shutdown (decide s u i l a).1.2 = shutdown a.
Proof. by destruct (decide_agent s u i l a) as [-> | (action & ->)]. Qed.

Lemma enforce_shutdown s sch r a : shutdown (enforce_result s sch r a) = shutdown a.
Proof. unfold enforce_result. by destruct r, (Schedule.action sch). Qed.

Lemma run_op_shutdown o a : shutdown a = true -> shutdown (run_op o a) = true.
Proof.
  destruct o; simpl; try done.
  - unfold apply_schedule. by destruct (bool_decide _).
  - unfold mark_schedule_synced. by destruct (confirmed _).
Qed.

(** The signal is never taken back. *)
Lemma exec_shutdown w tr w' : exec w tr w' -> shutdown (w_agent w) = true ->
  shutdown (w_agent w') = true.
Proof.
  intros Hex Hsh. induction Hex as [|w tr w1 lb w2 _ IH Hs]; [done|]. specialize (IH Hsh).
  destruct Hs as [|a l i u o|a l i u s l' a' act sch _ H|a l i u s l' a' _ H
    |a l i u s r sch wait l' a' o _ H|a l i u pl un l' a' o _ _ H|a l i u pl un l' a' o _ _ H|];
    simpl in *; try done.
  - by apply run_op_shutdown.
  - pose proof (decide_shutdown s u i l a) as Hd. rewrite H in Hd. simpl in Hd. congruence.
  - pose proof (decide_shutdown s u i l a) as Hd. rewrite H in Hd. simpl in Hd. congruence.
  - unfold finish in H. pose proof (enforce_shutdown s sch r a) as Hr.
    destruct (Schedule.action sch); injection H as _ <- _; simpl; congruence.
  - unfold wake in H. destruct (_ <? _); injection H as _ <- _; done.
  - unfold wake in H. destruct (_ <? _); injection H as _ <- _; done.
Qed.

(** Only [begin_shutdown] gives it. *)
Lemma step_shutdown w lb w' : step w lb w' -> shutdown (w_agent w) = false ->
  shutdown (w_agent w') = true -> lb = LOp OBeginShutdown.
Proof.
  intros Hst H0 H1. assert (Hne : shutdown (w_agent w') <> shutdown (w_agent w)) by congruence.
  destruct Hst as [|a l i u o|a l i u s l' a' act sch _ H|a l i u s l' a' _ H
    |a l i u s r sch wait l' a' o _ H|a l i u pl un l' a' o _ _ H|a l i u pl un l' a' o _ _ H|];
    simpl in *; try done.
  - destruct o; simpl in *; try done; destruct Hne.
    + unfold apply_schedule. by destruct (bool_decide _).
    + unfold mark_schedule_synced. by destruct (confirmed _).
  - destruct Hne. pose proof (decide_shutdown s u i l a) as Hd. by rewrite H in Hd.
  - destruct Hne. pose proof (decide_shutdown s u i l a) as Hd. by rewrite H in Hd.
  - destruct Hne. unfold finish in H. rewrite <- (enforce_shutdown s sch r a).
    destruct (Schedule.action sch); by injection H as _ <- _.
  - destruct Hne. unfold wake in H. destruct (_ <? _); by injection H as _ <- _.
  - destruct Hne. unfold wake in H. destruct (_ <? _); by injection H as _ <- _.
Qed.

(** All the joined loops have stopped. *)
Definition loops_stopped (n : net) (ls : loops) : Prop :=
  hb_at (hb ls) = HbStopped /\ sp ls = PlStopped /\ mp ls = PlStopped /\
  dl_at (dl ls) = DlStopped /\ at_phase (w_loop (n_world n)) = Stopped.

Lemma stop_progress n ls : flushing n ls ->
  red (stop_step windows) n \/
  (exists until, hb_at (hb ls) = HbRegistering (RgBackoff until)) \/
  (loops_stopped n ls /\ pipe ls = true).
Proof using Hs0 Hu0 TL UL SL QL.
  intros Hf. pose proof Hf as (Ht & (until & Hm) & Hmiss & Hsh & Hsound & (Hh & Hx & _)).
  set (a := w_agent (n_world n)) in *. set (i := w_instant (n_world n)).
  set (u := w_utc (n_world n)).
  assert (Hq : wf_queue (queue a).1) by apply Hsound.
  assert (Hhb : hb_at (hb ls) <> HbStopped ->
    (holder (lk ls) = None \/ hb_holds (hb_at (hb ls)) = true) -> red (stop_step windows) n \/
    (exists until, hb_at (hb ls) = HbRegistering (RgBackoff until))).
  { intros Hne Hk. destruct (heartbeat_red i (hb ls) (lk ls) a Hsh Hne Hk)
      as [?|(ev & h' & k' & a' & Hst & Hev)]; [by right|left].
    rewrite <- Hmiss in Hst. eapply task_red; [done|by apply t_heartbeat|done]. }
  assert (Hdl : dl_at (dl ls) <> DlStopped ->
    (holder (lk ls) = None \/ dl_holds (dl_at (dl ls)) = true) -> red (stop_step windows) n).
  { intros Hne Hk. destruct (delivery_red i u (dl ls) (lk ls) a Hsh Hne Hq Hk)
      as (ev & d' & k' & a' & Hst & Hev). rewrite <- Hmiss in Hst.
    eapply task_red; [done|by apply t_deliver; [exact Hst|intros ->]|done]. }
  destruct (hb_holds (hb_at (hb ls))) eqn:Ehh.
  { destruct Hhb as [?|?]; [by intros E; rewrite E in Ehh|by right|by left|by right; left]. }
  destruct (dl_holds (dl_at (dl ls))) eqn:Edh.
  { left. apply Hdl; [by intros E; rewrite E in Edh|by right]. }
  assert (Hen : at_phase (w_loop (n_world n)) <> Stopped -> red (stop_step windows) n).
  { intros Hne. destruct (enforcement_red (n_world n) Hsh Hne) as (ev & w' & Hst & Hev).
    rewrite <- Hmiss in Hst. eapply task_red; [done|by apply t_enforce|done]. }
  assert (Hsp : sp ls <> PlStopped -> holder (lk ls) = None -> red (stop_step windows) n).
  { intros Hne Hk. destruct (poll_red ScheduleLoop i apply_schedule_answer (sp ls) (lk ls) a Hsh Hne Hk)
      as (ev & p' & k' & a' & Hst & Hev); [|done|].
    - intros r. destruct (schedule_poll_answer None r a) as [b a'] eqn:E.
      eexists _, b, a'. split; [by exists None|by destruct r].
    - rewrite <- Hmiss in Hst. eapply task_red; [done|by apply t_schedule|done]. }
  assert (Hmp : mp ls <> PlStopped -> holder (lk ls) = None -> red (stop_step windows) n).
  { intros Hne Hk. destruct (poll_red MessageLoop i (apply_message_answer u) (mp ls) (lk ls) a Hsh Hne Hk)
      as (ev & p' & k' & a' & Hst & Hev); [|done|].
    - intros r. destruct (message_poll_answer None u r a) as [b a'] eqn:E.
      eexists _, b, a'. split; [by exists None|done].
    - rewrite <- Hmiss in Hst. eapply task_red; [done|by apply t_messages|done]. }
  assert (H1 : hb_at (hb ls) = HbStopped \/ hb_at (hb ls) <> HbStopped) by (destruct (hb_at (hb ls)); auto; by right);
    destruct H1 as [H1|H1]; [|destruct (Hhb H1 (or_introl Hh)); auto].
  assert (H2 : dl_at (dl ls) = DlStopped \/ dl_at (dl ls) <> DlStopped) by (destruct (dl_at (dl ls)); auto; by right);
    destruct H2 as [H2|H2]; [|left; by apply Hdl; [|left]].
  assert (H3 : sp ls = PlStopped \/ sp ls <> PlStopped) by (destruct (sp ls); auto; by right);
    destruct H3 as [H3|H3]; [|left; by apply Hsp].
  assert (H4 : mp ls = PlStopped \/ mp ls <> PlStopped) by (destruct (mp ls); auto; by right);
    destruct H4 as [H4|H4]; [|left; by apply Hmp].
  assert (H5 : at_phase (w_loop (n_world n)) = Stopped \/ at_phase (w_loop (n_world n)) <> Stopped) by (destruct (at_phase (w_loop (n_world n))); auto; by right);
    destruct H5 as [H5|H5]; [|left; by apply Hen].
  destruct (pipe ls) eqn:Ep; [by right; right|left].
  destruct n as [w r t c m]. simpl in *. subst. eexists. exists (EExit (w_instant w)).
  split; [by apply n_joined|done].
Qed.

(** The end of the wait, or still waiting for its loops. *)
Lemma stop_step_flushing n ls n' : flushing n ls -> stop_step windows n n' ->
  n_main n' = MDone \/ exists ls', flushing n' ls' /\ pipe ls' = pipe ls.
Proof using TL UL SL QL.
  intros (Ht & (until & Hm) & Hmiss & Hsh & Hsound & Hlock) (e & Hst & Hev).
  destruct (nstep_sound _ _ _ _ Hst Hsound) as [Hsound' _].
  assert (Hsh' : shutdown (w_agent (n_world n')) = true).
  { destruct (nstep_simulates _ _ _ _ Hst) as (tr & Htr & _). by eapply exec_shutdown. }
  destruct Hst as [| | | | |w r t c u' Ho|w r t c u' Ho|w r t c ev c' a' m Hal Hck
    |w r t c ev t' w' m Hal Htk]; simpl in *; try discriminate Hev; try (by left); right.
  { exists ls. split; [|done]. split; [done|]. split; [by exists until|]. by split_and!. }
  subst t m. assert (Hl : exists ls', t' = Joined ls' /\ missed ls' = false /\ pipe ls' = pipe ls).
  { inversion Htk; subst; eauto; try discriminate Hev. }
  destruct Hl as (ls' & -> & Hmiss' & Hp). exists ls'. split; [|done].
  split; [done|]. split; [by exists until|]. do 3 (split; [done|]).
  assert (Hc := task_client windows w (Joined ls) ev (Joined ls') w'
    [EAssigned (device (shared_client (lk ls)))] Htk (conj Hlock eq_refl)).
  by destruct Hc as [[Hc _] _].
Qed.

Lemma stop_run_flushing n ls n' : flushing n ls -> rtc (stop_step windows) n n' ->
  n_main n' = MDone \/ exists ls', flushing n' ls' /\ pipe ls' = pipe ls.
Proof using TL UL SL QL.
  intros Hf Hr. revert ls Hf. induction Hr as [n|n1 n2 n3 Hs Hr IH]; intros ls Hf.
  { right. by exists ls. }
  destruct (stop_step_flushing _ _ _ Hf Hs) as [Hd|(ls' & Hf' & Hp)].
  - left. inversion Hr as [|? n4 ? (e & Hst & Hev) _]; subst; [done|].
    destruct Hst; simpl in *; congruence || discriminate Hev.
  - destruct (IH ls' Hf') as [?|(ls2 & ? & Hp2)]; [by left|right]. exists ls2. split; [done|congruence].
Qed.
End Progress.

(** ** The stop *)
Section Stop.
Import Agent.
Context {TT : TimeText} {UT : UuidText} {SJ : Serde (gmap string json)} {SQ : SqlEngine}
  {SS : Serde Schedule.t} {SM : Serde MessageStore.t} {SF : Serde AgentFileConfig}
  {HO : HashOrder}.

(** Once the main thread waits, the signal has been given. *)
Lemma nexec_signalled windows p started u es n :
  nexec windows (entered p started u) es n ->
  match n_main n with MFlush _ | MDone => shutdown (w_agent (n_world n)) = true | _ => True end.
Proof.
  intros H. remember (entered p started u) as n0. induction H as [|n es n1 e n2 _ IH Hst].
  { by subst. }
  specialize (IH Heqn0). pose proof (nstep_simulates _ _ _ _ Hst) as (tr & Htr & _).
  assert (Hkeep := exec_shutdown _ _ _ Htr).
  destruct Hst as [| | | | | | |? ? ? ? ? ? ? m|? ? ? ? ? ? ? m]; simpl in *; try done;
    destruct m; auto.
Qed.

Section Completes.
Context {TL : TimeTextLaws} {UL : UuidTextLaws} {SL : SerdeLaws (gmap string json)}
  {QL : SqlEngineLaws}.

(** C8. The stop terminates.  In any execution of the process whose loops were
    joined before the shutdown signal, from the signal on: a run of steps
    that wait for nothing but an answer (no timer, tick, flush or poll arm)
    has at most 53 steps, whatever is answered; and where no such step is
    left, either [run_blocking] has returned, or the heartbeat loop sits in
    the backoff of a failed re-registration, or all the joined loops have
    stopped and only the notifier's pipe is still being served. *)
Theorem stop_completes (windows : bool) (p : process) (started : Instant) (u : DateTime)
    (es : list event) (n : net) (ls : loops) (until : Instant) (s0 : stamp) (u0 : DateTime)
    (k : nat) (n' : net) :
  stamp_ok s0 -> reading_ok u0 -> wf_queue (queue (p_agent p)).1 ->
  nexec windows (entered p started u) es n ->
  n_task n = Joined ls -> n_main n = MFlush until -> missed ls = false ->
  nsteps (stop_step windows) k n n' ->
  (k <= 53)%nat /\
  (nf (stop_step windows) n' ->
   n_main n' = MDone \/
   exists ls', n_task n' = Joined ls' /\
     ((exists b, hb_at (hb ls') = HbRegistering (RgBackoff b)) \/
      (loops_stopped n' ls' /\ pipe ls' = true))).
Proof.
  intros Hs0 Hu0 Hq Hex Ht Hm Hmiss Hrun. split.
  { pose proof (stop_steps_bounded _ _ _ _ Hrun). pose proof (weight_bound n). lia. }
  assert (Hf : flushing n ls).
  { split; [done|]. split; [by exists until|]. split; [done|].
    pose proof (nexec_signalled _ _ _ _ _ _ Hex) as Hsig. rewrite Hm in Hsig. split; [done|].
    split; [by eapply nexec_sound, entered_sound|].
    pose proof (nexec_client _ _ _ _ _ _ Hex) as Hc. unfold client_ok in Hc. rewrite Ht in Hc.
    apply Hc. }
  intros Hnf. destruct (stop_run_flushing windows n ls n' Hf) as [Hd|(ls' & Hf' & Hp)];
    [by eapply rtc_nsteps_2|by left|right].
  exists ls'. split; [apply Hf'|].
  destruct (stop_progress s0 u0 Hs0 Hu0 windows n' ls' Hf') as [?|?]; [done|done].
Qed.
End Completes.

(** ** The last delivery attempt *)
Definition signalled (es : list event) : Prop := exists i, EShutdown i ∈ es.

(** The queue was read once more, and only once, after the signal. *)
Definition attempted (es : list event) : Prop :=
  exists es1 es2, es = es1 ++ ETake true :: es2 /\ signalled es1 /\
    (forall f, ETake f ∉ es2) /\ ETake true ∉ es1.

Definition final_ok (es : list event) (t : task) : Prop :=
  match t with
  | Joined ls =>
      match dl_at (dl ls) with
      | DlTake true => signalled es /\ ETake true ∉ es
      | DlReady true _ | DlSent true _ _ | DlAnswered true _ _ _ | DlSettle true _ _ | DlStopped =>
          attempted es
      | _ => ETake true ∉ es
      end
  | Died => True
  | _ => ETake true ∉ es
  end.

Lemma signalled_snoc es e : signalled es -> signalled (es ++ [e]).
Proof. intros (i & Hi). exists i. apply elem_of_app. by left. Qed.
Lemma not_taken_snoc es e : ETake true ∉ es -> e <> ETake true -> ETake true ∉ es ++ [e].
Proof. intros H1 H2 [H|H%list_elem_of_singleton]%elem_of_app; congruence. Qed.
Lemma attempted_snoc es e : attempted es -> (forall f, e <> ETake f) -> attempted (es ++ [e]).
Proof.
  intros (es1 & es2 & -> & Hs & Hn & Hb) He. exists es1, (es2 ++ [e]).
  split; [by rewrite <- app_assoc|]. split; [done|]. split; [|done].
  intros f [H|H%list_elem_of_singleton]%elem_of_app; [by apply (Hn f)|by apply (He f)].
Qed.

(** The signal is in the agent only once it has been given. *)
Lemma shutdown_given windows p started u es n :
  shutdown (p_agent p) = false -> nexec windows (entered p started u) es n ->
  shutdown (w_agent (n_world n)) = true -> signalled es.
Proof.
  intros H0 Hex Hsh. destruct (nexec_simulates _ _ _ _ Hex) as (tr & Htr & Hv).
  assert (Hin : LOp OBeginShutdown ∈ List.filter visible tr).
  { apply elem_of_bfilter. split; [|done].
    remember (n_world (entered p started u)) as w0. assert (Hw0 : shutdown (w_agent w0) = false)
      by (by subst). clear Heqw0 Hv Hex. induction Htr as [|w tr w1 lb w2 _ IH Hst]; [congruence|].
    destruct (shutdown (w_agent w1)) eqn:E1; [apply elem_of_app; left; auto|].
    apply elem_of_app. right. by rewrite (step_shutdown _ _ _ Hst E1 Hsh), list_elem_of_singleton. }
  rewrite Hv in Hin. apply list_elem_of_In, in_flat_map in Hin as (e & He & Hin).
  apply list_elem_of_In in He. destruct e as [| | | |i| |lb|lb| | | | | | | | |]; simpl in Hin;
    try (by destruct Hin); try (by destruct Hin as [[=]|[]]).
  - by exists i.
  - destruct lb as [|o| | | |]; simpl in Hin; try done; by destruct Hin as [[=]|[]].
  - destruct lb as [|o| | | |]; simpl in Hin; try done; by destruct Hin as [[=]|[]].
Qed.

Lemma register_not_take who i r a ev out a' : register_step who i (r, a) ev (out, a') ->
  ev <> ETake true.
Proof. by inversion 1. Qed.

(** A step of another loop leaves the delivery loop's record as it was. *)
Lemma final_other es e t : (forall f, e <> ETake f) -> final_ok es t -> final_ok (es ++ [e]) t.
Proof.
  intros He. assert (Hn : e <> ETake true) by apply He. destruct t as [r|url r|ls|]; simpl;
    auto using not_taken_snoc.
  destruct (dl_at (dl ls)) as [|[]|[] l|[] l url|[] l url r|[] l r|];
    auto using not_taken_snoc, attempted_snoc.
  intros [Hs Ht]. auto using not_taken_snoc, signalled_snoc.
Qed.

Lemma delivery_final i u d k a ev d' k' a' ls es :
  delivery_step i u (missed ls) (d, k, a) ev (d', k', a') -> (shutdown a = true -> signalled es) ->
  dl ls = d -> final_ok es (Joined ls) -> final_ok (es ++ [ev]) (Joined (set_dl d' k' ls)).
Proof.
  intros Hst Hsig Hd Hf. unfold final_ok in Hf. rewrite Hd in Hf. clear Hd.
  unfold final_ok. cbn [set_dl dl]. inversion Hst; subst; clear Hst; cbn [dl_at] in *;
    try destruct final; cbn [after_delivery] in *.
  all: try (apply attempted_snoc; [exact Hf|discriminate]).
  all: try (apply not_taken_snoc; [exact Hf|discriminate]).
  all: try (destruct Hf as [Hs Ht]; exists es, []; split; [done|split; [exact Hs|
    split; [intros f; apply not_elem_of_nil|exact Ht]]]).
  all: split; [apply signalled_snoc; first [by auto | apply Hf]
              |apply not_taken_snoc; [first [exact Hf | apply Hf]|discriminate]].
Qed.

Lemma task_final windows w t ev t' w' es : task_step windows w t ev t' w' ->
  (shutdown (w_agent w) = true -> signalled es) -> final_ok es t -> final_ok (es ++ [ev]) t'.
Proof.
  intros Hst Hsig Hf. destruct Hst; try done.
  - apply (final_other es ev (Resolving r)); [by inversion H|done].
  - apply not_taken_snoc; [done|by inversion H].
  - apply (final_other es ev (Registering url r)); [by inversion H|done].
  - unfold join_loops. destruct (_ || _); [done|]. apply not_taken_snoc; [done|by inversion H].
  - apply (final_other es ev (Joined ls)); [|done]. inversion H; subst; try done;
      match goal with Hr : register_step _ _ _ _ _ |- _ => by inversion Hr end.
  - apply (final_other es ev (Joined ls)); [|done]. inversion H; subst; try done;
      match goal with Hr : apply_schedule_answer ?r _ _ _ |- _ => destruct Hr as (? & _ & ->); by destruct r end.
  - apply (final_other es ev (Joined ls)); [|done]. inversion H; subst; try done;
      match goal with Hr : apply_message_answer _ _ _ _ _ |- _ => by destruct Hr as (? & _ & ->) end.
  - by eapply delivery_final.
  - apply (final_other es ev (Joined ls)); [by inversion H|done].
  - by apply (final_other es EPipeEnded (Joined ls)).
Qed.

Lemma nexec_final windows p started u es n : shutdown (p_agent p) = false ->
  nexec windows (entered p started u) es n -> final_ok es (n_task n).
Proof.
  intros H0 H. remember (entered p started u) as n0. induction H as [|n es n1 e n2 Hex IH Hst].
  { subst. simpl. destruct (Config.controller_url _); apply not_elem_of_nil. }
  specialize (IH Heqn0). subst n.
  assert (Hsig := shutdown_given _ _ _ _ _ _ H0 Hex).
  destruct Hst; simpl in *; try (by apply final_other).
  - apply final_other; [|done]. by inversion H1.
  - by eapply task_final.
Qed.


(** The events of the main thread and of time are not those of a loop. *)
Definition main_event (e : event) : bool :=
  match e with
  | ETime | ENotified _ | EPumpEnded _ | EMain | EShutdown _ | EExit _ => true
  | _ => false
  end.

Lemma clock_event i u c a ev c' a' : clock_step i u (c, a) ev (c', a') -> main_event ev = false.
Proof. by inversion 1. Qed.
Lemma register_main who i r a ev out a' : register_step who i (r, a) ev (out, a') ->
  main_event ev = false.
Proof. by inversion 1. Qed.
Lemma task_event windows w t ev t' w' : task_step windows w t ev t' w' -> main_event ev = false.
Proof.
  destruct 1; try done; try (by eapply register_main); inversion H; subst; try done;
    try (by eapply register_main).
  - match goal with Hr : apply_schedule_answer ?r _ _ _ |- _ => destruct Hr as (? & _ & ->); by destruct r end.
  - match goal with Hr : apply_schedule_answer ?r _ _ _ |- _ => destruct Hr as (? & _ & ->); by destruct r end.
  - match goal with Hr : apply_message_answer _ _ _ _ _ |- _ => by destruct Hr as (? & _ & ->) end.
  - match goal with Hr : apply_message_answer _ _ _ _ _ |- _ => by destruct Hr as (? & _ & ->) end.
Qed.

(** ** The last session *)
Lemma recorder_kept windows n es n' : nexec windows n es n' -> n_main n <> MPump ->
  n_main n' <> MPump /\ n_recorder n' = n_recorder n.
Proof.
  induction 1 as [|n es n1 e n2 _ IH Hst]; [done|]. intros Hm. destruct (IH Hm) as [Hm1 <-].
  by destruct Hst.
Qed.

(** What the steps do to the recorder while the pump runs. *)
Lemma nexec_only_current windows p started u es n : only_current (p_recorder p) ->
  nexec windows (entered p started u) es n -> ENotified false ∉ es -> n_main n = MPump ->
  only_current (n_recorder n).
Proof.
  intros H0 H. remember (entered p started u) as n0.
  induction H as [n|n es n1 e n2 _ IH Hst]; intros He Hm; [by subst|].
  apply not_elem_of_app in He as [He1 He2]. specialize (IH Heqn0 He1).
  destruct Hst as [|w r t c inp ev user u0 res a' r' _ Hn| | | | | | |]; simpl in *; try done; auto.
  destruct res as [[]|]; [|by destruct He2; left]. unfold notified, UsageRecorder.handle in Hn.
  pose proof (handle_only_current inp ev user u0
    (UsageRecorder.with_event_queue (queue (w_agent w)) r)) as Hh. simpl in Hn.
  destruct (UsageRecorder.handle_at _ _ _ _ _) as [res r1]. injection Hn as -> _ <-.
  by apply Hh; [apply (only_current_core r)|]; auto.
Qed.

Lemma startup_only_current {TL : TimeTextLaws} {UL : UuidTextLaws} {QL : SqlEngineLaws}
    fresh host var f fs toml cli events_db (state_db : Store.t * list bool) started s1 s2 p :
  startup fresh host var f fs toml cli events_db state_db started s1 s2 = Ok p ->
  one_left_open state_db.1 -> only_current (p_recorder p).
Proof.
  intros Hst Hone.
  unfold startup in Hst. destruct (Config.load _ _ _ _ _ _ _) as [[cfg|] fs']; [|done].
  destruct (UsageRecorder.from_store state_db) as [r|] eqn:Er; [|done].
  injection Hst as <-. simpl. apply (only_current_core r); [done|].
  by eapply from_store_only_current.
Qed.

(** The step with which the platform's thread ends, and what is left after it. *)
Lemma clean_end_closes {TL : TimeTextLaws} {UL : UuidTextLaws} windows p started u es1 es2 n :
  only_current (p_recorder p) ->
  nexec windows (entered p started u) (es1 ++ EPumpEnded true :: es2) n -> ENotified false ∉ es1 ->
  open_rows (UsageRecorder.store (n_recorder n)).1 = [] /\
  UsageRecorder.is_active (n_recorder n) = false.
Proof.
  intros H0 Hex He.
  apply nexec_app in Hex as (n1 & H1 & Hex).
  change (EPumpEnded true :: es2) with ([EPumpEnded true] ++ es2) in Hex.
  apply nexec_app in Hex as (n2 & H2 & H3). apply nexec_step in H2.
  assert (Hend : n_main n1 = MPump /\ n_main n2 <> MPump /\ exists now,
    (UsageRecorder.shutdown now (n_recorder n1)).1 = Ok tt /\
    n_recorder n2 = (UsageRecorder.shutdown now (n_recorder n1)).2).
  { inversion H2; subst; simpl.
    - match goal with H : clean && _ = true |- _ => apply andb_true_iff in H as [-> Hok] end.
      split; [done|]. split; [done|]. exists u0. split; [|done].
      by destruct (UsageRecorder.shutdown u0 r) as [[[]|] r'].
    - match goal with H : clock_step _ _ _ _ _ |- _ => by apply clock_event in H end.
    - match goal with H : task_step _ _ _ _ _ _ |- _ => by apply task_event in H end. }
  destruct Hend as (Hm1 & Hm2 & now & Hok & Hr).
  destruct (recorder_kept _ _ _ _ H3 Hm2) as [_ ->]. rewrite Hr. apply shutdown_closes; [|done].
  by eapply nexec_only_current.
Qed.

(** C20. A clean stop leaves no usage session open.  Started on a session
    table in which at most one session was left open (by an agent that was
    killed), when the platform's thread ends cleanly and its [shutdown] was
    written, and no notification before that failed on the table: every row
    of the table has its end, and the tracker knows of no open session, from
    then until the process is over. *)
Theorem clean_stop_closes_session {TL : TimeTextLaws} {UL : UuidTextLaws} {QL : SqlEngineLaws}
    (windows : bool) (fresh : Uuid) (host : option string)
    (var : string -> option string) (f : Fs.fault) (fs : Fs.t) (toml : path) (cli : Overrides)
    (events_db : EventQueue.t * list bool) (state_db : Store.t * list bool) (started : Instant)
    (s1 s2 : stamp) (p : process) (u : DateTime) (es1 es2 : list event) (n : net) :
  startup fresh host var f fs toml cli events_db state_db started s1 s2 = Ok p ->
  one_left_open state_db.1 ->
  nexec windows (entered p started u) (es1 ++ EPumpEnded true :: es2) n -> ENotified false ∉ es1 ->
  open_rows (UsageRecorder.store (n_recorder n)).1 = [] /\
  UsageRecorder.is_active (n_recorder n) = false.
Proof. intros Hst Hone. apply clean_end_closes. by eapply startup_only_current. Qed.

(** ** What the wait of [run_blocking] depends on *)
Lemma nexec_pipe windows p started u es n ls :
  nexec windows (entered p started u) es n -> EPipeEnded ∉ es -> n_task n = Joined ls ->
  pipe ls = windows.
Proof.
  intros H. remember (entered p started u) as n0. revert ls.
  induction H as [|n es n1 e n2 Hex IH Hst]; intros ls Hp Ht.
  { subst. simpl in Ht. by destruct (Config.controller_url _). }
  specialize (IH Heqn0). apply not_elem_of_app in Hp as [Hp He].
  assert (Hne : e <> EPipeEnded) by (intros ->; apply He; by left).
  destruct Hst; simpl in *; eauto.
  destruct H0; simplify_eq; try done; try (pose proof (IH _ Hp eq_refl) as Hx; exact Hx).
  unfold join_loops in Ht. destruct (_ || _); by simplify_eq.
Qed.

Lemma flush_deadline windows n es n' until : nexec windows n es n' -> n_main n = MFlush until ->
  n_main n' = MFlush until \/ n_main n' = MDone.
Proof.
  intros H Hm. induction H as [|n es n1 e n2 Hex IH Hst]; [by left|].
  destruct (IH Hm) as [Hn|Hn]; destruct Hst; simpl in *; try discriminate; auto.
Qed.

Lemma signal_step windows n i n' : nstep windows n (EShutdown i) n' ->
  n_main n' = MFlush (i + SHUTDOWN_FLUSH_TIMEOUT).
Proof.
  inversion 1; subst; [done|..];
    [match goal with Hc : clock_step _ _ _ _ _ |- _ => by apply clock_event in Hc end
    |match goal with Hc : task_step _ _ _ _ _ _ |- _ => by apply task_event in Hc end].
Qed.

Lemma exit_step windows n i n' : nstep windows n (EExit i) n' ->
  exists until, n_main n = MFlush until /\
    (task_over (w_loop (n_world n)) (n_task n) \/ until <= i).
Proof.
  inversion 1; subst; [by exists until; auto..|exfalso|exfalso];
    [match goal with Hc : clock_step _ _ _ _ _ |- _ => by apply clock_event in Hc end
    |match goal with Hc : task_step _ _ _ _ _ _ |- _ => by apply task_event in Hc end].
Qed.

(** C39. On Windows a stop always waits out its five seconds.  The pipe server
    is joined with the other loops and has no end of its own, so while the
    pipe does not fail, [run_blocking] returns from the wait for its loops,
    however soon they have stopped, only five seconds after the signal. *)
Theorem windows_stop_waits (p : process) (started : Instant) (u : DateTime)
    (es1 es2 : list event) (n n' : net) (ls : loops) (i i' : Instant) :
  nexec true (entered p started u) (es1 ++ EShutdown i :: es2) n ->
  EPipeEnded ∉ es1 ++ EShutdown i :: es2 -> n_task n = Joined ls ->
  nstep true n (EExit i') n' -> i + secs 5 <= i'.
Proof.
  intros Hex Hp Ht Hst. pose proof (nexec_pipe _ _ _ _ _ _ _ Hex Hp Ht) as Hpipe.
  apply nexec_app in Hex as (n1 & _ & Hex).
  change (EShutdown i :: es2) with ([EShutdown i] ++ es2) in Hex.
  apply nexec_app in Hex as (n2 & H1 & H2). apply nexec_step, signal_step in H1.
  destruct (exit_step _ _ _ _ Hst) as (until & Hm' & Hor).
  destruct (flush_deadline _ _ _ _ _ H2 H1) as [Hm|Hm]; [|congruence].
  rewrite Hm in Hm'. injection Hm' as <-. rewrite Ht in Hor.
  destruct Hor as [(_ & _ & _ & _ & Hpe & _)|Hle]; [congruence|exact Hle].
Qed.

(** ** Intervals of zero *)
Lemma nexec_not_joined windows p started u es n :
  heartbeat_interval (config (p_agent p)) = 0 \/ event_retry_interval (config (p_agent p)) = 0 ->
  nexec windows (entered p started u) es n -> forall ls, n_task n <> Joined ls.
Proof.
  intros H0 H. remember (entered p started u) as n0. induction H as [|n es n1 e n2 Hex IH Hst].
  { subst. simpl. by destruct (Config.controller_url _). }
  specialize (IH Heqn0). pose proof (nexec_config _ _ _ _ Hex) as Hc. subst n. intros ls.
  destruct Hst; simpl in *; auto.
  destruct H1; simpl; auto; try (by intros [=]); try (by destruct (IH _ eq_refl)).
  unfold join_loops. apply register_config in H1. rewrite H1, Hc.
  destruct H0 as [-> | ->]; [done|]. by rewrite orb_true_r.
Qed.

(** C40. An interval of zero switches the enforcement off.  The configuration
    takes [heartbeat_interval_seconds = 0] (or that of the event retries) as
    it is; the interval made of it panics when the loops are joined, and the
    whole networking task with them: in no execution is a power action ever
    requested, whatever the schedule says. *)
Theorem zero_interval_ends_enforcement (windows : bool) (p : process) (started : Instant)
    (u : DateTime) (es : list event) (n n' : net) (fresh : Uuid) (file : AgentFileConfig)
    (env cli : Overrides) (host : string) (act : PowerAction) (sch : Schedule.t)
    (i : Instant) (now : DateTime) :
  config (p_agent p) = resolve fresh file env cli host ->
  f_heartbeat_interval_seconds (f_agent file) = Some 0 \/
  f_event_retry_interval_seconds (f_agent file) = Some 0 ->
  nexec windows (entered p started u) es n ->
  ~ nstep windows n (EEnforce (LAct act sch i now)) n'.
Proof.
  intros Hcfg Hz Hex Hst.
  assert (H0 : heartbeat_interval (config (p_agent p)) = 0 \/
               event_retry_interval (config (p_agent p)) = 0).
  { rewrite Hcfg. unfold resolve. destruct (match _ with Some id => _ | None => _ end) as [did gen].
    simpl. destruct Hz as [-> | ->]; auto. }
  pose proof (nexec_not_joined _ _ _ _ _ _ H0 Hex) as Hn.
  inversion Hst; subst; simpl in *; [by match goal with H : clock_step _ _ _ _ _ |- _ => inversion H end|].
  match goal with H : task_step _ _ _ _ _ _ |- _ => inversion H; subst end;
    try (by eapply Hn);
    match goal with H : resolve_step _ _ _ _ |- _ => inversion H
                  | H : register_step _ _ _ _ _ |- _ => inversion H end.
Qed.
End Stop.
