(* ===== verification/Runs.v ===== *)
(** * Concrete executions of the whole process

    A controller is configured; the agent registers, joins its loops, and then
    suspends, shuts down, delivers or stops.  They instantiate the theorems of
    [Network], [Coherence], [Turns] and [Stop]. *)
From stdpp Require Import relations.
From S2P Require Import Prelude Codec Fs Tracker Schedule Messages Clock Protocol Db Queue Table.
From S2P Require Import Store Events Recorder Closing Config Client Discovery Agent Loops Delivery.
From S2P Require Import Enforcement Restart Platform Main Network Coherence Turns Stop.
#[local] Open Scope Z_scope.

Section Runs.
Import Agent.
#[local] Existing Instances Bits.time_text Bits.uuid_text payload_serde stable_engine tree_order.
#[local] Existing Instances Bits.time_text_laws Bits.uuid_text_laws payload_serde_laws
  stable_engine_laws tree_order_laws.
#[local] Instance run_schedule_codec : Serde Schedule.t := Bits.serde_of_countable Schedule.t.
#[local] Instance run_store_codec : Serde MessageStore.t := Bits.serde_of_countable MessageStore.t.
#[local] Instance run_toml_codec : Serde AgentFileConfig := {|
  to_json _ := Some EmptyString;
  from_json _ := Some (set_device_id (uuid_to_string 9%N) default_file) |}.

Lemma nexec_cons windows n e n1 es n2 :
  nstep windows n e n1 -> nexec windows n1 es n2 -> nexec windows n (e :: es) n2.
Proof.
  intros H1 H2. apply (nexec_trans windows n [e] n1 es n2); [|done].
  apply (nexec_snoc windows n [] n); [constructor|done].
Qed.

Definition run_config (heartbeat : Duration) : AgentConfig :=
  mk_config 1%N false "pc" heartbeat (secs 10) (Some "http://c"%string) true 45821 (secs 5) false [].
Definition run_process (heartbeat : Duration) (act : PowerAction) : process :=
  mk_process
    (Agent.mk (run_config heartbeat) ("d", "agent", "toml")%string (EventQueue.init, []) false
       default_snapshot false false (Some (night act)) ("d", "schedule", "json")%string false
       MessageStore.default ("d", "messages", "json")%string (mk_sync false 0)
       (TrustedClock.new false) false ∅)
    (start [] None).
Definition welcome (act : PowerAction) : RegisterResponse :=
  mk_register_response 7%N 3%N (secs 100) 30 true (Some (night act)).
Definition run_stamp (i : N) : stamp := mk_stamp i (secs 100) (secs 100).
Lemma run_stamp_ok i : (i < 2 ^ 128)%N -> stamp_ok (run_stamp i).
Proof. intros Hi. split; [done|]. by split; vm_compute. Qed.

Lemma run_reading : reading_ok (secs 100).
Proof.
  intros n. destruct (proj1 backoff_schedule n) as [H1 H2].
  unfold representable, Bits.time_text, secs, ns_per_sec in *. lia.
Qed.

(** ** Registered, and the loops joined *)
Definition registered_agent (act : PowerAction) : Agent.t :=
  registered None (welcome act)
    (enqueue (fun i c => registration_succeeded i c 7%N) (run_stamp 20)
       (p_agent (run_process (secs 30) act))).
Definition joined_loops (windows : bool) : loops :=
  mk_loops (mk_lock (mk_client "http://c" 7%N) None) (mk_hb 0 HbSelect) PlTop PlTop
    (mk_dl 0 DlSelect) windows false.
Definition at_join (windows : bool) (act : PowerAction) : net :=
  mk_net (mk_world (registered_agent act) (mk_loop Top None) 0 (secs 100)) (start [] None)
    (Joined (joined_loops windows)) CkStopped MPump.
Definition run_start (act : PowerAction) : net :=
  entered (run_process (secs 30) act) 0 (secs 100).
#[local] Opaque registered_agent.
Definition joining : list event := [EOwn NetworkTask; EOwn NetworkTask; EAssigned 7%N].

Lemma joins windows act : nexec windows (run_start act) joining (at_join windows act).
Proof.
  eapply nexec_cons; [apply n_task_step; [done|apply t_register, (rg_send _ _ _ (Ok (welcome act)))]|].
  eapply nexec_cons; [apply n_task_step; [done|apply t_register, (rg_ok _ _ _ _ (run_stamp 20));
    by apply run_stamp_ok]|].
  eapply nexec_cons; [apply n_task_step; [done|apply t_registered, (rg_adopt _ _ None)]|].
  assert (Hj : join_loops windows 0 "http://c" 7%N (registered_agent act) =
               Joined (joined_loops windows)) by (destruct act, windows; vm_compute; reflexivity).
  assert (Hn : nexec windows (mk_net (mk_world (registered_agent act) (mk_loop Top None) 0 (secs 100))
    (start [] None) (join_loops windows 0 "http://c" 7%N (registered_agent act)) CkStopped MPump) []
    (at_join windows act)) by (rewrite Hj; constructor).
  exact Hn.
Qed.

(** ** Suspended inside the window, resumed, and 91 s later suspended again *)
Definition requested (act : PowerAction) : net :=
  let r := decide (run_stamp 21) (secs 100) 0 (mk_loop Top None) (registered_agent act) in
  mk_net (mk_world r.1.2 r.1.1 0 (secs 100)) (start [] None) (Joined (joined_loops false))
    CkStopped MPump.
Definition returned (act : PowerAction) : net :=
  let w := n_world (requested act) in
  let r := finish (run_stamp 22) ActOk (secs 100) 0 (night act) (secs 60) (w_loop w) (w_agent w) in
  mk_net (mk_world r.1.2 r.1.1 0 (secs 100)) (start [] None) (Joined (joined_loops false))
    CkStopped MPump.
Definition again (act : PowerAction) (d : Duration) : net :=
  let w := n_world (returned act) in
  mk_net (mk_world (w_agent w) (mk_loop Top (last_shutdown_request (w_loop w))) d (secs 160))
    (start [] None) (Joined (joined_loops false)) CkStopped MPump.

(** Steps of the enforcement loop in a process that still pumps messages. *)
Lemma run_act windows a l i u r ls c s l' a' act sch now :
  stamp_ok s -> at_phase l = Top -> decide s u i l a = (l', a', Some (act, sch)) ->
  Agent.now a u = now ->
  nstep windows (mk_net (mk_world a l i u) r (Joined ls) c MPump) (EEnforce (LAct act sch i now))
    (mk_net (mk_world a' l' i u) r (Joined ls) c MPump).
Proof.
  intros Hs Hl Hd <-. apply n_task_step; [done|]. apply t_enforce.
  exact (en_act (mk_world a l i u) (missed ls) s l' a' act sch Hs Hl Hd).
Qed.
Lemma run_finish windows a l i u r ls c s res sch wait l' a' o :
  stamp_ok s -> at_phase l = Acting sch wait -> finish s res u i sch wait l a = (l', a', o) ->
  nstep windows (mk_net (mk_world a l i u) r (Joined ls) c MPump) (EEnforce (reset_label o))
    (mk_net (mk_world a' l' i u) r (Joined ls) c MPump).
Proof.
  intros Hs Hl Hd. apply n_task_step; [done|]. apply t_enforce.
  exact (en_finish (mk_world a l i u) (missed ls) s res sch wait l' a' o Hs Hl Hd).
Qed.
Lemma run_timer windows a l i u r ls c planned until l' a' o :
  at_phase l = Waiting planned until -> until <= i -> wake planned u i l a = (l', a', o) ->
  nstep windows (mk_net (mk_world a l i u) r (Joined ls) c MPump) (EWake (reset_label o))
    (mk_net (mk_world a' l' i u) r (Joined ls) c MPump).
Proof.
  intros Hl Hi Hw. apply n_task_step; [done|]. apply t_enforce.
  exact (en_timer (mk_world a l i u) (missed ls) planned until l' a' o Hl Hi Hw).
Qed.

Lemma requests act :
  nstep false (at_join false act) (EEnforce (LAct act (night act) 0 (secs 100))) (requested act).
Proof.
  apply (run_act _ _ _ _ _ _ _ _ (run_stamp 21)); [by apply run_stamp_ok|done|..];
    destruct act; vm_compute; reflexivity.
Qed.

Definition result_label (act : PowerAction) : label :=
  match act with Sleep => LReset 0 | Shutdown => LGo end.

Lemma returns act : nstep false (requested act) (EEnforce (result_label act)) (returned act).
Proof.
  assert (He : result_label act = reset_label (match act with Sleep => Some 0 | Shutdown => None end))
    by (by destruct act).
  rewrite He. apply (run_finish _ _ _ _ _ _ _ _ (run_stamp 22) ActOk (night act) (secs 60));
    [by apply run_stamp_ok|destruct act; vm_compute; reflexivity..].
Qed.

Definition until_again (act : PowerAction) : list event :=
  [EEnforce (result_label act); ETime; EWake LGo].

Lemma comes_again act d : secs 60 <= d ->
  nexec false (run_start act)
    (joining ++ EEnforce (LAct act (night act) 0 (secs 100)) :: until_again act) (again act d).
Proof.
  intros Hd. eapply nexec_trans; [apply joins|]. eapply nexec_cons; [apply requests|].
  eapply nexec_cons; [apply returns|].
  eapply nexec_cons; [apply (n_time _ _ _ 0 (secs 100) _ _ _ _ d (secs 160)); unfold secs, ns_per_sec in *; lia|].
  eapply nexec_cons; [|constructor]. rewrite Z.add_0_l.
  apply (run_timer _ _ _ _ _ _ _ _ (secs 160) (secs 60) _ _ None); [|done|];
    destruct act; vm_compute; reflexivity.
Qed.

Definition third (act : PowerAction) (d : Duration) : net :=
  let w := n_world (again act d) in
  let r := decide (run_stamp 23) (secs 160) d (w_loop w) (w_agent w) in
  mk_net (mk_world r.1.2 r.1.1 d (secs 160)) (start [] None) (Joined (joined_loops false))
    CkStopped MPump.

Lemma requests_again act d : (act = Sleep /\ d = secs 91) \/ (act = Shutdown /\ d = secs 301) ->
  nstep false (again act d) (EEnforce (LAct act (night act) d (secs 160))) (third act d).
Proof.
  intros Hd. apply (run_act _ _ _ _ _ _ _ _ (run_stamp 23)); [by apply run_stamp_ok|done|..];
    destruct Hd as [[-> ->]|[-> ->]]; vm_compute; reflexivity.
Qed.

Lemma process_actions_justified_witness :
  let es := joining ++ EEnforce (LAct Sleep (night Sleep) 0 (secs 100)) :: until_again Sleep in
  nexec false (run_start Sleep) es (again Sleep (secs 91)) /\
  let sy := fold_left sync_step (flat_map observe es) (mk_sync false 0) in
  confirmed sy = false /\ since sy + secs 90 <= secs 91 /\
  Agent.schedule (w_agent (n_world (again Sleep (secs 91)))) = Some (night Sleep).
Proof.
  intros es. pose proof (comes_again Sleep (secs 91) ltac:(done)) as Hex. split; [exact Hex|].
  destruct (process_actions_justified false (run_process (secs 30) Sleep) 0 (secs 100) es
    (again Sleep (secs 91)) (third Sleep (secs 91)) Sleep (night Sleep) (secs 91) (secs 160))
    as (Hs & _ & _ & _ & [[Hc _]|Hg]); [reflexivity|exact Hex|apply requests_again; by left| |].
  - vm_compute in Hc. discriminate Hc.
  - split; [vm_compute; reflexivity|]. split; [exact Hg|exact Hs].
Defined.

Lemma process_resume_waits_witness :
  existsb gives_schedule (until_again Sleep) = true \/ 0 + secs 90 <= secs 91.
Proof.
  apply (process_resume_waits false (run_process (secs 30) Sleep) 0 (secs 100) joining
    (until_again Sleep) (again Sleep (secs 91)) (third Sleep (secs 91)) (night Sleep) (night Sleep)
    Sleep 0 (secs 91) (secs 100) (secs 160)); [by apply comes_again|apply requests_again; by left].
Defined.

Lemma process_shutdowns_spaced_witness :
  nexec false (run_start Shutdown)
    (joining ++ EEnforce (LAct Shutdown (night Shutdown) 0 (secs 100)) :: until_again Shutdown)
    (again Shutdown (secs 301)) /\ 0 + secs 300 <= secs 301.
Proof.
  pose proof (comes_again Shutdown (secs 301) ltac:(done)) as Hex. split; [exact Hex|].
  apply (process_shutdowns_spaced false (run_process (secs 30) Shutdown) 0 (secs 100) joining
    (until_again Shutdown) (again Shutdown (secs 301)) (third Shutdown (secs 301)) (night Shutdown)
    (night Shutdown) 0 (secs 301) (secs 100) (secs 160)); [reflexivity|exact Hex|].
  apply requests_again. by right.
Defined.

Lemma network_refines_enforcement_witness :
  exists tr, List.filter visible tr =
    [LOp OMarkSynced; LAct Sleep (night Sleep) 0 (secs 100); LReset 0].
Proof.
  destruct (network_refines_enforcement false (run_process (secs 30) Sleep) 0 (secs 100)
    (joining ++ EEnforce (LAct Sleep (night Sleep) 0 (secs 100)) :: until_again Sleep)
    (again Sleep (secs 91))) as (tr & _ & Hv); [by apply comes_again|].
  exists tr. exact Hv.
Defined.

(** ** A batch delivered *)
Definition free_lock : lock := mk_lock (mk_client "http://c" 7%N) None.
Definition delivering (windows : bool) (d : delivery_phase) (k : lock) (a : Agent.t)
    (m : main_phase) : net :=
  mk_net (mk_world a (mk_loop Top None) 0 (secs 100)) (start [] None)
    (Joined (mk_loops k (mk_hb 0 HbSelect) PlTop PlTop (mk_dl 0 d) windows false)) CkStopped m.

Lemma run_deliver windows d k a m ev d' k' a' :
  m <> MDone -> ev <> EPanic ->
  delivery_step 0 (secs 100) false (mk_dl 0 d, k, a) ev (mk_dl 0 d', k', a') ->
  nstep windows (delivering windows d k a m) ev (delivering windows d' k' a' m).
Proof.
  intros Hm Hev Hst. apply n_task_step; [done|].
  exact (t_deliver windows (mk_world a (mk_loop Top None) 0 (secs 100))
           (mk_loops k (mk_hb 0 HbSelect) PlTop PlTop (mk_dl 0 d) windows false) ev
           (mk_dl 0 d') k' a' Hst Hev).
Qed.

Definition all_accepted (pending : list PendingDelivery)
  : result ClientError EventSubmissionResponse :=
  accept_all (submission_request pending).
Definition submitting (final : bool) : list event :=
  [ETake final; ERequest DeliveryLoop 7%N; EOwn DeliveryLoop; EOwn DeliveryLoop].

Lemma submits windows final a m d l a' :
  m <> MDone -> take_batch (secs 100) a = (Ok (d :: l), a') ->
  nexec windows (delivering windows (DlTake final) free_lock a m) (submitting final)
    (delivering windows (DlSettle final (d :: l) (all_accepted (d :: l))) free_lock
       (note_result (run_stamp 25) "http://c" (all_accepted (d :: l)) a') m).
Proof.
  intros Hm Ht.
  eapply nexec_cons; [apply run_deliver; [done|done|by eapply dl_take]|].
  eapply nexec_cons; [apply run_deliver; [done|done|apply dl_send]|].
  eapply nexec_cons; [apply run_deliver; [done|done|apply (dl_answer _ _ _ _ _ _ _ _ _ _ (all_accepted (d :: l)))]|].
  eapply nexec_cons; [apply run_deliver; [done|done|apply (dl_note _ _ _ _ _ _ _ _ _ _ (run_stamp 25)); by apply run_stamp_ok]|].
  constructor.
Qed.

Definition settled (final : bool) (pending : list PendingDelivery) (a : Agent.t) : Agent.t :=
  set_queue (exec_all (settle_ops (fun _ => secs 100) pending (all_accepted pending)) (queue a)) a.

Lemma settles windows final pending a m : m <> MDone ->
  nstep windows (delivering windows (DlSettle final pending (all_accepted pending)) free_lock a m)
    (ESettled pending (all_accepted pending))
    (delivering windows (after_delivery final) free_lock (settled final pending a) m).
Proof.
  intros Hm. apply run_deliver; [done|done|].
  apply (dl_settle _ _ _ _ _ _ _ _ _ (fun _ => secs 100)).
  intros d. apply run_reading.
Qed.

Definition flushed : Agent.t := set_flush false (registered_agent Sleep).
Definition batch_of (a : Agent.t) : list PendingDelivery :=
  match (take_batch (secs 100) a).1 with Ok l => l | Err _ => [] end.
Definition first_settle : net :=
  delivering false (DlSettle false (batch_of flushed) (all_accepted (batch_of flushed))) free_lock
    (note_result (run_stamp 25) "http://c" (all_accepted (batch_of flushed))
       (take_batch (secs 100) flushed).2) MPump.

(** What the sample's batches are: one event each. *)
Lemma taken a d l : batch_of a = d :: l ->
  take_batch (secs 100) a = (Ok (d :: l), (take_batch (secs 100) a).2).
Proof. unfold batch_of. destruct (take_batch (secs 100) a) as [[x|e] a']; simpl; [by intros ->|done]. Qed.

Lemma reaches_settle :
  nexec false (run_start Sleep) (joining ++ EArm DeliveryLoop :: submitting false) first_settle.
Proof.
  eapply nexec_trans; [apply joins|].
  eapply nexec_cons; [apply (run_deliver false DlSelect free_lock (registered_agent Sleep) MPump);
    [done|done|apply dl_flush; vm_compute; reflexivity]|].
  assert (Hb : exists d l, batch_of flushed = d :: l) by (vm_compute; eauto).
  destruct Hb as (d & l & Hb). unfold first_settle. rewrite Hb. apply submits; [done|].
  by apply taken.
Qed.

Lemma init_wf : wf_queue EventQueue.init.
Proof. exists []. split; [apply init_repr|constructor]. Qed.

Definition registration_row : EventQueue.row :=
  match EventQueue.rows (queue (w_agent (n_world first_settle))).1 with
  | r :: _ => r
  | [] => sample_row 1
  end.

Lemma event_kept_until_acknowledged_witness :
  exists n', nstep false first_settle
    (ESettled (batch_of flushed) (all_accepted (batch_of flushed))) n' /\
  (present registration_row (queue (w_agent (n_world n'))).1 \/
   exists pending answer d,
     ESettled (batch_of flushed) (all_accepted (batch_of flushed)) = ESettled pending answer /\
     d ∈ pending /\
     EventQueue.c_event_id registration_row = uuid_to_string (event_id (pd_event d)) /\
     ((exists response x, answer = Ok response /\ (d, x) ∈ zip pending (sr_results response) /\
                          acknowledged x) \/
      pd_attempt_count d = MAX_ATTEMPTS - 1)).
Proof.
  eexists. split; [by apply settles|].
  apply (event_kept_until_acknowledged false (run_process (secs 30) Sleep) 0 (secs 100)
    (joining ++ EArm DeliveryLoop :: submitting false) first_settle); [apply init_wf
    |apply reaches_settle|by apply settles| |vm_compute; discriminate].
  exists registration_row. split; [|by repeat split]. vm_compute. left.
Defined.


Lemma requests_carry_current_id_witness :
  exists n, nexec false (run_start Sleep) joining n /\
    nstep false n (ERequest ScheduleLoop 7%N) (mk_net (n_world n) (n_recorder n)
      (Joined (set_sp PlPolling free_lock (joined_loops false))) CkStopped MPump) /\
    assigned_id joining = Some 7%N.
Proof.
  exists (at_join false Sleep). split; [apply joins|].
  assert (Hst : nstep false (at_join false Sleep) (ERequest ScheduleLoop 7%N)
    (mk_net (mk_world (registered_agent Sleep) (mk_loop Top None) 0 (secs 100)) (start [] None)
      (Joined (set_sp PlPolling free_lock (joined_loops false))) CkStopped MPump)).
  { apply n_task_step; [done|].
    exact (t_schedule false (mk_world (registered_agent Sleep) (mk_loop Top None) 0 (secs 100))
      (joined_loops false) _ PlPolling free_lock (registered_agent Sleep)
      (pl_request ScheduleLoop 0 false apply_schedule_answer (mk_client "http://c" 7%N)
         (registered_agent Sleep))). }
  split; [exact Hst|].
  exact (proj1 (requests_carry_current_id false (run_process (secs 30) Sleep) 0 (secs 100) joining
    (at_join false Sleep) (joins false Sleep)) ScheduleLoop 7%N _ Hst).
Defined.

(** ** Stopped *)
Definition notified_agent : Agent.t :=
  enqueue (fun i c => agent_stopping i c AGENT_VERSION) (run_stamp 30) (registered_agent Sleep).
Definition stopped_agent : Agent.t := begin_shutdown notified_agent.
Definition signalling : list event := [EPumpEnded false; EMain; EShutdown 0].
Definition wait : main_phase := MFlush (secs 5).
Definition at_signal (windows : bool) : net := delivering windows DlSelect free_lock stopped_agent wait.

Lemma signals windows : nexec windows (at_join windows Sleep) signalling (at_signal windows).
Proof.
  eapply nexec_cons; [apply (n_pump_ends windows _ _ _ _ false false (secs 100))|].
  eapply nexec_cons; [apply (n_notice windows _ _ _ _ _ _ (run_stamp 30)); by apply run_stamp_ok|].
  eapply nexec_cons; [apply n_signal|]. constructor.
Qed.

Lemma reaches_signal windows :
  nexec windows (run_start Sleep) (joining ++ signalling) (at_signal windows).
Proof. eapply nexec_trans; [apply joins|apply signals]. Qed.

Definition final_turn (n : net) : list event :=
  EOwn DeliveryLoop :: submitting true ++ [ESettled (batch_of stopped_agent) (all_accepted (batch_of stopped_agent))].

Lemma last_turn windows : exists a, nexec windows (at_signal windows) (final_turn (at_signal windows))
  (delivering windows DlStopped free_lock a wait).
Proof.
  exists (settled true (batch_of stopped_agent) (note_result (run_stamp 25) "http://c"
    (all_accepted (batch_of stopped_agent)) (take_batch (secs 100) stopped_agent).2)).
  unfold final_turn. eapply nexec_cons; [apply (run_deliver windows DlSelect free_lock stopped_agent wait);
    [done|done|apply dl_shutdown; [reflexivity|done]]|].
  assert (Hb : exists d l, batch_of stopped_agent = d :: l) by (vm_compute; eauto).
  destruct Hb as (d & l & Hb). rewrite Hb. eapply nexec_trans; [apply submits; [done|by apply taken]|].
  eapply nexec_cons; [by apply settles|]. constructor.
Qed.


Lemma stop_completes_witness :
  exists n', nsteps (stop_step false) 1 (at_signal false) n' /\ (1 <= 53)%nat.
Proof.
  assert (Hst : nstep false (at_signal false) (EOwn DeliveryLoop)
    (delivering false (DlTake true) free_lock stopped_agent wait)).
  { apply run_deliver; [done|done|]. apply dl_shutdown; [reflexivity|done]. }
  eexists. assert (Hn : nsteps (stop_step false) 1 (at_signal false)
    (delivering false (DlTake true) free_lock stopped_agent wait)).
  { apply nsteps_once. by exists (EOwn DeliveryLoop). }
  split; [exact Hn|].
  apply (stop_completes false (run_process (secs 30) Sleep) 0 (secs 100) (joining ++ signalling)
    (at_signal false) (joined_loops false) (secs 5) (run_stamp 40) (secs 100) 1
    (delivering false (DlTake true) free_lock stopped_agent wait));
    [by apply run_stamp_ok|apply run_reading|apply init_wf|apply reaches_signal|done|done|done|exact Hn].
Defined.

Lemma windows_stop_waits_witness :
  exists n n', nexec true (run_start Sleep) (joining ++ [EPumpEnded false; EMain] ++ EShutdown 0 :: [ETime]) n /\
    nstep true n (EExit (secs 5)) n' /\ 0 + secs 5 <= secs 5.
Proof.
  set (n := mk_net (mk_world stopped_agent (mk_loop Top None) (0 + secs 5) (secs 105)) (start [] None)
    (Joined (joined_loops true)) CkStopped wait).
  assert (Hex : nexec true (run_start Sleep) ((joining ++ [EPumpEnded false; EMain]) ++ EShutdown 0 :: [ETime]) n).
  { change ((joining ++ [EPumpEnded false; EMain]) ++ EShutdown 0 :: [ETime])
      with ((joining ++ signalling) ++ [ETime]).
    eapply nexec_trans; [apply reaches_signal|]. eapply nexec_cons; [by apply (n_time true stopped_agent (mk_loop Top None) 0 (secs 100) _ _ _ _ (secs 5) (secs 105))|].
    apply nexec_nil. }
  assert (Hst : nstep true n (EExit (secs 5)) (mk_net (n_world n) (n_recorder n) (n_task n)
    (n_clock n) MDone)) by (by apply n_timeout).
  exists n, (mk_net (n_world n) (n_recorder n) (n_task n) (n_clock n) MDone).
  split; [exact Hex|]. split; [exact Hst|].
  apply (windows_stop_waits (run_process (secs 30) Sleep) 0 (secs 100) (joining ++ [EPumpEnded false; EMain])
    [ETime] n (mk_net (n_world n) (n_recorder n) (n_task n) (n_clock n) MDone) (joined_loops true)
    0 (secs 5) Hex); [|reflexivity|exact Hst].
  rewrite list_elem_of_In. simpl. naive_solver.
Defined.

(** ** A heartbeat interval of zero *)
Definition zero_file : AgentFileConfig :=
  mk_file (mk_agent_section "" "pc" (Some 0) None)
    (mk_controller_section "http://c" None None None) (mk_time_section (Some false) None).
Definition zero_process : process :=
  mk_process
    (Agent.mk (resolve 1%N zero_file no_overrides no_overrides "pc") ("d", "agent", "toml")%string
       (EventQueue.init, []) false default_snapshot false false (Some (night Sleep))
       ("d", "schedule", "json")%string false MessageStore.default ("d", "messages", "json")%string
       (mk_sync false 0) (TrustedClock.new false) false ∅)
    (start [] None).

Lemma zero_interval_ends_enforcement_witness :
  exists n, nexec true (entered zero_process 0 (secs 100)) joining n /\
    n_task n = Died /\
    ~ nstep true n (EEnforce (LAct Sleep (night Sleep) 0 (secs 100))) n.
Proof.
  set (a := registered None (welcome Sleep) (enqueue (fun i c => registration_succeeded i c 7%N)
              (run_stamp 20) (p_agent zero_process))).
  set (n := mk_net (mk_world a (mk_loop Top None) 0 (secs 100)) (start [] None)
              (join_loops true 0 "http://c" 7%N a) CkStopped MPump).
  assert (Hex : nexec true (entered zero_process 0 (secs 100)) joining n).
  { eapply nexec_cons; [apply n_task_step; [done|apply t_register, (rg_send _ _ _ (Ok (welcome Sleep)))]|].
    eapply nexec_cons; [apply n_task_step; [done|apply t_register, (rg_ok _ _ _ _ (run_stamp 20));
      by apply run_stamp_ok]|].
    eapply nexec_cons; [apply n_task_step; [done|apply t_registered, (rg_adopt _ _ None)]|].
    apply nexec_nil. }
  exists n. split; [exact Hex|]. split; [vm_compute; reflexivity|].
  apply (zero_interval_ends_enforcement true zero_process 0 (secs 100) joining n n 1%N zero_file
    no_overrides no_overrides "pc"); [reflexivity|by left|exact Hex].
Defined.

(** ** A user logs on and the next heartbeat says so *)
Definition live_start : result StartError process :=
  startup 1%N None (fun _ => None) None {[ ("d", "agent", "toml")%string := EmptyString ]}
    ("d", "agent", "toml")%string (mk_overrides (Some "http://c"%string) None None None)
    (EventQueue.init, []) (Store.init, []) 0 (run_stamp 10) (run_stamp 11).
Definition live_process : process :=
  match live_start with Ok p => p | Err _ => mk_process blank_agent (start [] None) end.
Definition live_agent : Agent.t :=
  registered None (welcome Sleep) (enqueue (fun i c => registration_succeeded i c 7%N)
    (run_stamp 20) (p_agent live_process)).
Definition logged_on : process :=
  (notified (mk_inputs 1%N 2%N 3%N (secs 100)) (Logon 5%N) (Some "alice"%string) (secs 100)
     (mk_process live_agent (p_recorder live_process))).2.
Definition beating_loops (h : heartbeat_phase) (next : Instant) : loops :=
  mk_loops (mk_lock (mk_client "http://c" 7%N) None) (mk_hb next h) PlTop PlTop
    (mk_dl 0 DlSelect) true false.
Definition beating (h : heartbeat_phase) (next : Instant) : net :=
  mk_net (mk_world (p_agent logged_on) (mk_loop Top None) 0 (secs 100)) (p_recorder logged_on)
    (Joined (beating_loops h next)) (clock_start (secs 100) 0 (p_agent live_process)) MPump.
#[local] Opaque live_process.

Definition live_events : list event :=
  joining ++ [ENotified true; EArm HeartbeatLoop].

Lemma logs_on : nexec true (entered live_process 0 (secs 100)) live_events (beating HbTicked (secs 30)).
Proof.
  set (ck := clock_start (secs 100) 0 (p_agent live_process)).
  assert (Hj : join_loops true 0 "http://c" 7%N live_agent = Joined (joined_loops true))
    by (vm_compute; reflexivity).
  assert (Hn : notified (mk_inputs 1%N 2%N 3%N (secs 100)) (Logon 5%N) (Some "alice"%string) (secs 100)
     (mk_process live_agent (p_recorder live_process)) =
     (Ok tt, mk_process (p_agent logged_on) (p_recorder logged_on))) by (vm_compute; reflexivity).
  assert (Hi : heartbeat_interval (config (p_agent logged_on)) = secs 30) by (vm_compute; reflexivity).
  eapply (nexec_trans _ _ joining (mk_net (mk_world live_agent (mk_loop Top None) 0 (secs 100))
    (p_recorder live_process) (Joined (joined_loops true)) ck MPump)).
  - assert (Hs : n_task (entered live_process 0 (secs 100)) = Registering "http://c" RgSend)
      by (vm_compute; reflexivity).
    unfold entered in *. simpl in Hs. rewrite Hs.
    eapply nexec_cons; [apply n_task_step; [done|apply t_register, (rg_send _ _ _ (Ok (welcome Sleep)))]|].
    eapply nexec_cons; [apply n_task_step; [done|apply t_register, (rg_ok _ _ _ _ (run_stamp 20));
      by apply run_stamp_ok]|].
    eapply nexec_cons; [apply n_task_step; [done|apply t_registered, (rg_adopt _ _ None)]|].
    rewrite <- Hj. apply nexec_nil.
  - eapply nexec_cons; [eapply (n_notify _ _ _ _ _ _ _ _ (secs 100) (Ok tt) (p_agent logged_on)
      (p_recorder logged_on)); [|exact Hn]; repeat split; by vm_compute|].
    eapply nexec_cons; [|apply nexec_nil]. rewrite <- (Z.add_0_l (secs 30)), <- Hi.
    apply n_task_step; [done|].
    exact (t_heartbeat true (mk_world (p_agent logged_on) (mk_loop Top None) 0 (secs 100))
      (joined_loops true) _ _ _ _ (hb_tick 0 false 0 _ _ (Z.le_refl 0))).
Qed.

(** ** The service is stopped while the user is logged on *)
Definition shut : UsageRecorder.t := (UsageRecorder.shutdown (secs 200) (p_recorder logged_on)).2.

Lemma clean_stop_closes_session_witness :
  open_rows (UsageRecorder.store (p_recorder logged_on)).1 <> [] /\
  open_rows (UsageRecorder.store shut).1 = [].
Proof.
  split; [vm_compute; discriminate|].
  set (n := mk_net (mk_world (p_agent logged_on) (mk_loop Top None) 0 (secs 100)) shut
    (Joined (beating_loops HbTicked (secs 30))) (clock_start (secs 100) 0 (p_agent live_process))
    (MNotices (notices false))).
  assert (Hend : (true && is_ok (UsageRecorder.shutdown (secs 200) (p_recorder logged_on)).1) = true)
    by (vm_compute; reflexivity).
  assert (Hex : nexec true (entered live_process 0 (secs 100)) (live_events ++ EPumpEnded true :: []) n).
  { eapply nexec_trans; [exact logs_on|]. rewrite <- Hend.
    eapply nexec_cons; [apply (n_pump_ends true _ _ _ _ false true (secs 200))|apply nexec_nil]. }
  apply (clean_stop_closes_session true 1%N None (fun _ => None) None
    {[ ("d", "agent", "toml")%string := EmptyString ]} ("d", "agent", "toml")%string
    (mk_overrides (Some "http://c"%string) None None None) (EventQueue.init, []) (Store.init, []) 0
    (run_stamp 10) (run_stamp 11) live_process (secs 100) live_events [] n);
    [vm_compute; reflexivity|left; reflexivity|exact Hex|rewrite list_elem_of_In; simpl; naive_solver].
Defined.
End Runs.
