(* ===== verification/Fairness.v ===== *)
(** * Every queued event is delivered, if the delivery loop keeps running

    Infinite executions of the process ([Network.nstep]).  The argument is a
    ranking: while an event waits, every step of the delivery loop brings the
    loop closer to settling a batch with a row at least as old as the event's,
    no other step of the process takes it further away, and each such batch
    leaves fewer of those rows. *)
From S2P Require Import Prelude Codec Fs Tracker Schedule Messages Clock Protocol Db Queue Table.
From S2P Require Import Store Events Recorder Config Client Discovery Agent Loops Delivery Enforcement.
From S2P Require Import Restart Platform Main Network Coherence Turns Stop Runs.
#[local] Open Scope Z_scope.

(** ** Ranking *)
Section Ranking.
Local Open Scope nat_scope.
Context (rank : nat -> nat) (tick : nat -> bool) (P : nat -> Prop) `{HP : forall k, Decision (P k)}.

(** It holds up to [j], or stops holding at some step before. *)
Lemma holds_or_leaves k j : k <= j -> P k -> (forall i, k <= i <= j -> P i) \/ exists i, P i /\ ~ P (S i).
Proof using HP.
  intros Hkj Hk. induction Hkj as [|j Hkj [IH|IH]]; [|destruct (HP (S j)) as [Hj|Hj]|by right].
  - left. intros i Hi. by assert (i = k) as -> by lia.
  - left. intros i Hi. destruct (base.decide (i = S j)) as [->|]; [done|]. apply IH. lia.
  - right. exists j. split; [apply IH; lia|done].
Qed.

(** Ticks forever, each of which lowers the rank while [P] holds. *)
Lemma ranked_run : (forall k, exists j, k <= j /\ tick j = true) ->
  (forall k, P k -> rank (S k) + (if tick k then 1 else 0) <= rank k) ->
  P 0 -> exists k, P k /\ ~ P (S k).
Proof using HP.
  intros Hfair Hstep. generalize 0. intros k0.
  remember (rank k0) as b eqn:Eb. assert (Hb : rank k0 <= b) by lia. clear Eb. revert k0 Hb.
  induction b as [b IH] using lt_wf_ind. intros k Hb Hk.
  destruct (Hfair k) as (j & Hkj & Hj).
  destruct (holds_or_leaves k (S j) ltac:(lia) Hk) as [Hall|]; [|done].
  assert (Hle : forall i, k <= i <= S j -> rank i <= rank k).
  { intros i [Hki Hij]. induction Hki as [|i Hki IHi]; [done|].
    pose proof (Hstep i (Hall i ltac:(lia))). specialize (IHi ltac:(lia)). lia. }
  pose proof (Hstep j (Hall j ltac:(lia))) as Hd. rewrite Hj in Hd.
  pose proof (Hle j ltac:(lia)). apply (IH (rank (S j))) with (S j); [lia|done|].
  apply Hall. lia.
Qed.
End Ranking.

Lemma bfilter_length_lt {A} (p : A -> bool) l x : x ∈ l -> p x = false ->
  (length (List.filter p l) < length l)%nat.
Proof.
  intros Hx Hp. induction l as [|y l IH]; [by apply not_elem_of_nil in Hx|]. simpl.
  apply elem_of_cons in Hx as [->|Hx].
  - rewrite Hp. pose proof (List.filter_length_le p l). lia.
  - specialize (IH Hx). destruct (p y); simpl; lia.
Qed.

(** ** What steps do to the rows of a table that works *)
Section Rows.
Import Agent EventQueue.
Context {TT : TimeText} {UT : UuidText} {SJ : Serde (gmap string json)} {SQ : SqlEngine}.

#[export] Instance row_eq_dec : EqDecision row.
Proof. solve_decision. Defined.

Lemma exec_add_rows o q fs : adds o -> quiet fs -> Z.of_nat (length (rows q)) < MAX_QUEUE_SIZE ->
  rows q ⊆ rows (Queue.exec o (q, fs)).1 /\ quiet (Queue.exec o (q, fs)).2.
Proof.
  intros [_ Ho] Hf Hlen. destruct o as [e now|now lim|rid|eid|rid att now|]; try done; cbn [Queue.exec].
  - unfold enqueue, db_bind, or_serde. destruct (to_json (Queue.data e)) as [pj|]; [|done]. unfold db_ret.
    stmt_runs. match goal with |- context [insert_on_conflict_nothing ?f q] =>
      pose proof (insert_rows f q) as Hins end.
    destruct (insert_on_conflict_nothing _ q) as [q1 []]. cbn [fst snd] in *.
    assert (Hr : rows q ⊆ rows q1) by (destruct Hins as [-> | ->]; [done|set_solver]).
    assert (Hl : Z.of_nat (length (rows q1)) <= MAX_QUEUE_SIZE).
    { destruct Hins as [-> | ->]; [|rewrite length_app; simpl]; lia. }
    unfold enforce_max_size, enforce_max_size_with_cap, db_bind. stmt_runs. simpl.
    rewrite Z.gtb_ltb. destruct (Z.ltb_spec 0 (Z.of_nat (length (rows q1)) - MAX_QUEUE_SIZE)); [lia|].
    simpl. auto with timelord.
  - unfold due_batch, db_bind. stmt_runs. simpl. auto with timelord.
Qed.

Lemma adding_rows w w' : adding 2 w w' -> quiet w.2 ->
  Z.of_nat (length (rows w.1)) + 2 <= MAX_QUEUE_SIZE -> rows w.1 ⊆ rows w'.1 /\ quiet w'.2.
Proof.
  intros (os & Ho & Hl & ->) Hf Hroom.
  assert (Hgen : forall os w, Forall adds os -> quiet w.2 ->
    Z.of_nat (length (rows w.1)) + Z.of_nat (length os) <= MAX_QUEUE_SIZE ->
    rows w.1 ⊆ rows (exec_all os w).1 /\ quiet (exec_all os w).2).
  { clear. induction os as [|o os IH]; intros [q fs] Ho Hf Hroom; [done|].
    apply Forall_cons in Ho as [Ho Hos]. simpl in Hroom.
    destruct (exec_add_rows o q fs Ho Hf ltac:(lia)) as [Hr Hq].
    change (exec_all (o :: os) (q, fs)) with (exec_all os (Queue.exec o (q, fs))).
    pose proof (proj2 (exec_from o (q, fs))) as Hle. simpl in Hle.
    destruct (IH (Queue.exec o (q, fs)) Hos Hq ltac:(lia)) as [Hr' Hq']. split; [by etrans|done]. }
  apply Hgen; [done|done|lia].
Qed.

(** Settling with an acknowledgement for each event of the batch. *)
Definition acknowledges_all (e : event) : Prop :=
  match e with
  | ESettled pending answer =>
      exists response, answer = Ok response /\ length (sr_results response) = length pending /\
        Forall acknowledged (sr_results response)
  | _ => True
  end.

Definition names (pending : list PendingDelivery) (r : row) : bool :=
  existsb (fun d => id r =? row_id d) pending.

Lemma settle_rows clock_at pending answer w :
  quiet w.2 -> acknowledges_all (ESettled pending answer) ->
  let w' := exec_all (settle_ops clock_at pending answer) w in
  rows w'.1 = List.filter (fun r => negb (names pending r)) (rows w.1) /\ quiet w'.2.
Proof.
  intros Hf (response & -> & Hlen & Hack). simpl. revert Hlen Hack. generalize (sr_results response).
  intros l. revert l w Hf. induction pending as [|d pending IH]; intros l [q fs] Hf Hlen Hack.
  { simpl. by rewrite bfilter_all. }
  destruct l as [|x l]; [done|]. apply Forall_cons in Hack as [Hx Hack]. injection Hlen as Hlen.
  cbn [zip zip_with map]. replace (settle_op clock_at (d, x).1 (er_status (d, x).2))
    with (OpMarkDelivered (row_id d)) by (unfold settle_op; simpl; by destruct Hx as [-> | ->]).
  match goal with |- context [exec_all (?o :: ?os) ?w] =>
    change (exec_all (o :: os) w) with (exec_all os (Queue.exec o w)) end.
  cbn [Queue.exec]. unfold mark_delivered. simpl in Hf. stmt_runs. cbn [snd fst].
  destruct (IH l ((delete_where (fun r => id r =? row_id d) q).1, tail fs) (quiet_tail _ Hf) Hlen Hack)
    as [-> Hq]. split; [|done].
  simpl. rewrite bfilter_bfilter. apply List.filter_ext. intros r. unfold names. simpl.
  by rewrite negb_orb, andb_comm.
Qed.
End Rows.

(** ** How far the delivery loop is from settling an old row *)
Section Progress.
Import Agent.
Context {TT : TimeText} {UT : UuidText} {SJ : Serde (gmap string json)} {SQ : SqlEngine}
  {SS : Serde Schedule.t} {SM : Serde MessageStore.t} {SF : Serde AgentFileConfig}
  {HO : HashOrder}.
Context {TL : TimeTextLaws} {UL : UuidTextLaws} {SL : SerdeLaws (gmap string json)}
  {QL : SqlEngineLaws}.

Abbreviation table n := (queue (w_agent (n_world n))) (only parsing).

(** The steps of the delivery loop. *)
Definition delivery_event (e : event) : bool :=
  match e with
  | EArm DeliveryLoop | EOwn DeliveryLoop | ERequest DeliveryLoop _ | ETake _ | ESettled _ _ => true
  | _ => false
  end.

(** The row that waits. *)
Context (r : EventQueue.row).

Definition older (x : EventQueue.row) : bool :=
  String.leb (EventQueue.created_at x) (EventQueue.created_at r).
Definition ahead (q : EventQueue.t) : nat := length (List.filter older (EventQueue.rows q)).
(** The batch names a row that is ahead, or [r]. *)
Definition advances (q : EventQueue.t) (pending : list PendingDelivery) : bool :=
  existsb (fun x => older x && names pending x) (EventQueue.rows q).

(** Steps of the loop until such a batch is settled. *)
Definition distance (q : EventQueue.t) (p : delivery_phase) : nat :=
  let late pending k := if advances q pending then k else (k + 6)%nat in
  match p with
  | DlSelect => 6
  | DlTake _ => 5
  | DlReady _ l => late l 4
  | DlSent _ l _ => late l 3
  | DlAnswered _ l _ _ => late l 2
  | DlSettle _ l _ => late l 1
  | DlStopped => 0
  end%nat.
Definition task_distance (q : EventQueue.t) (t : task) : nat :=
  match t with
  | Resolving _ | Registering _ _ => 11
  | Joined ls => distance q (dl_at (dl ls))
  | Died => 0
  end%nat.
Definition remaining (n : net) : nat :=
  (12 * ahead (table n).1 + task_distance (table n).1 (n_task n))%nat.

(** What a step adds is younger. *)
Definition adds_younger (q q' : EventQueue.t) : Prop :=
  forall x, x ∈ EventQueue.rows q' -> x ∈ EventQueue.rows q \/ older x = false.

Lemma ahead_le q q' : adds_younger q q' -> NoDup (EventQueue.rows q') -> (ahead q' <= ahead q)%nat.
Proof.
  intros Hy Hn. unfold ahead. apply submseteq_length, NoDup_submseteq;
    [eapply sublist_NoDup; [exact Hn|apply bfilter_sublist]|].
  intros x [Hx Ho]%elem_of_bfilter. apply elem_of_bfilter. destruct (Hy x Hx) as [?|H]; [done|congruence].
Qed.

Lemma advances_mono q q' l : EventQueue.rows q ⊆ EventQueue.rows q' ->
  advances q l = true -> advances q' l = true.
Proof.
  unfold advances. rewrite !existsb_exists. intros Hs (x & Hx%list_elem_of_In & Ha). exists x.
  split; [|done]. apply list_elem_of_In. by apply Hs.
Qed.

Lemma distance_mono q q' p : EventQueue.rows q ⊆ EventQueue.rows q' -> (distance q' p <= distance q p)%nat.
Proof.
  intros Hs. destruct p as [| |f l|f l u|f l u a|f l a|]; simpl; try lia;
    (destruct (advances q l) eqn:E; [by rewrite (advances_mono q q' l Hs E)|]; destruct (advances q' l); lia).
Qed.
Lemma task_distance_mono q q' t : EventQueue.rows q ⊆ EventQueue.rows q' ->
  (task_distance q' t <= task_distance q t)%nat.
Proof. intros Hs. destruct t; simpl; try lia. by apply distance_mono. Qed.

Lemma distance_bound q t : (task_distance q t <= 11)%nat.
Proof.
  destruct t as [| |ls|]; simpl; try lia.
  destruct (dl_at (dl ls)); simpl; try lia; destruct (advances _ _); lia.
Qed.

Lemma wf_ids q : wf_queue q -> NoDup (map EventQueue.id (EventQueue.rows q)).
Proof.
  intros (es & (Hf & Hi & _) & _). replace (map EventQueue.id (EventQueue.rows q)) with (map en_id es); [done|].
  clear Hi. induction Hf as [|x en rs es Hx _ IH]; [done|]. simpl. rewrite IH.
  by rewrite (proj1 (row_repr_fields x en Hx)).
Qed.
Lemma wf_nodup q : wf_queue q -> NoDup (EventQueue.rows q).
Proof. intros H%wf_ids. by apply NoDup_fmap_1 in H. Qed.

(** The batch taken while [r] is due begins with a row at least as old. *)
Lemma take_advances u a res a' en :
  wf_queue (queue a).1 -> quiet (queue a).2 -> representable u ->
  r ∈ EventQueue.rows (queue a).1 -> row_repr r en -> en_next en <= u ->
  take_batch u a = (res, a') ->
  queue a' = ((queue a).1, tail (queue a).2) /\
  exists d l, res = Ok (d :: l) /\ advances (queue a).1 (d :: l) = true.
Proof.
  intros (es & Hq & _) Hf Hu Hr Hrep Hdue Ht. unfold take_batch in Ht.
  destruct (queue a) as [q fs] eqn:Eq. simpl in Hq, Hf, Hr. cbn [fst snd].
  destruct (due_batch_correct q es u EVENT_BATCH_SIZE fs Hq Hu Hf) as (old & Hp & Hs & Hd).
  rewrite Hd in Ht. injection Ht as <- <-. split; [done|].
  pose proof Hq as (H2 & _). apply list_elem_of_lookup in Hr as [k Hk].
  destruct (Forall2_lookup_l _ _ _ _ _ H2 Hk) as (en0 & Hen0 & Hrep0).
  assert (Hin : en0 ∈ old).
  { rewrite Hp. apply elem_of_bfilter. split; [by eapply list_elem_of_lookup_2|].
    rewrite <- (due_repr u r en0), (due_repr u r en); [unfold due; lia|done..]. }
  destruct old as [|e1 old]; [by apply not_elem_of_nil in Hin|].
  exists (pending_of e1), (map pending_of (take 99 old)). split; [done|].
  assert (He1 : e1 ∈ es).
  { assert (Hx : e1 ∈ e1 :: old) by left. rewrite Hp in Hx. by apply elem_of_bfilter in Hx as [? _]. }
  apply list_elem_of_lookup in He1 as [m Hm].
  destruct (Forall2_lookup_r _ _ _ _ _ H2 Hm) as (r1 & Hr1 & Hrep1).
  unfold advances. apply existsb_exists. exists r1.
  split; [apply list_elem_of_In; by eapply list_elem_of_lookup_2|].
  apply andb_true_intro. split.
  - unfold older. destruct (row_repr_fields _ _ Hrep1) as (_ & -> & _).
    destruct (row_repr_fields _ _ Hrep0) as (_ & -> & _).
    destruct Hrep0 as (_ & _ & Hc0 & _), Hrep1 as (_ & _ & Hc1 & _). apply rfc3339_ordered; [done..|].
    apply elem_of_cons in Hin as [->|Hin]; [done|].
    exact (proj1 (Forall_forall _ _) (proj2 (StronglySorted_inv Hs)) _ Hin).
  - unfold names. simpl. by rewrite (proj1 (row_repr_fields _ _ Hrep1)), Z.eqb_refl.
Qed.

(** An acknowledged batch that names one of those leaves fewer. *)
Lemma settle_ahead clock_at pending answer w :
  quiet w.2 -> acknowledges_all (ESettled pending answer) ->
  let w' := exec_all (settle_ops clock_at pending answer) w in
  (ahead w'.1 + (if advances w.1 pending then 1 else 0) <= ahead w.1)%nat.
Proof.
  intros Hf Ha w'. unfold w', ahead. rewrite (proj1 (settle_rows clock_at pending answer w Hf Ha)).
  rewrite bfilter_bfilter.
  rewrite (List.filter_ext _ (fun x => older x && negb (names pending x))) by (intros; apply andb_comm).
  rewrite <- bfilter_bfilter. destruct (advances w.1 pending) eqn:E.
  - unfold advances in E. apply existsb_exists in E as (x & Hx%list_elem_of_In & [Ho Hn]%andb_true_iff).
    assert (Hl : (length (List.filter (fun x => negb (names pending x))
        (List.filter older (EventQueue.rows w.1))) < length (List.filter older (EventQueue.rows w.1)))%nat)
      by (apply (bfilter_length_lt _ _ x); [by apply elem_of_bfilter|by rewrite Hn]). lia.
  - pose proof (List.filter_length_le (fun x => negb (names pending x)) (List.filter older (EventQueue.rows w.1))). lia.
Qed.

(** One step of the loop. *)
Lemma delivery_progress i u m d k a ev d' k' a' en :
  delivery_step i u m (d, k, a) ev (d', k', a') -> ev <> EPanic ->
  wf_queue (queue a).1 -> quiet (queue a).2 ->
  Z.of_nat (length (EventQueue.rows (queue a).1)) + 2 <= MAX_QUEUE_SIZE ->
  representable u -> r ∈ EventQueue.rows (queue a).1 -> row_repr r en -> en_next en <= u ->
  acknowledges_all ev -> wf_queue (queue a').1 -> adds_younger (queue a).1 (queue a').1 ->
  quiet (queue a').2 /\
  (12 * ahead (queue a').1 + distance (queue a').1 (dl_at d') + 1 <=
   12 * ahead (queue a).1 + distance (queue a).1 (dl_at d))%nat.
Proof.
  intros Hst Hev Hq Hf Hroom Hu Hr Hrep Hdue Hack Hq' Hy.
  pose proof (ahead_le _ _ Hy (wf_nodup _ Hq')) as Hle.
  assert (Ht : forall res b, take_batch u a = (res, b) ->
    queue b = ((queue a).1, tail (queue a).2) /\
    exists x l, res = Ok (x :: l) /\ advances (queue a).1 (x :: l) = true)
    by (intros res b; by apply take_advances with en).
  inversion Hst as [| | |? ? ? ? x l b Hb|? ? ? ? b Hb|? ? ? ? e b Hb He|? ? ? ? b Hb|
    |next final pending url c h b answer|next final pending url answer k0 b s Hs|
    ? ? ? ? ? ? ck Hck]; subst; try done; cbn [dl_at distance].
  - split; [done|lia].
  - change (queue (set_flush false a)) with (queue a). split; [done|lia].
  - split; [done|lia].
  - destruct (Ht _ _ Hb) as (Hqb & y & l' & [= <- <-] & Ha). rewrite Hqb in Hle |- *. cbn [fst snd] in *.
    split; [auto with timelord|]. rewrite Ha. lia.
  - destruct (Ht _ _ Hb) as (_ & y & l' & [=] & _).
  - destruct (Ht _ _ Hb) as (_ & y & l' & [=] & _).
  - split; [done|]. destruct (advances _ _); lia.
  - split; [done|]. destruct (advances _ _); lia.
  - pose proof (adding_weaken 1 2 _ _ ltac:(lia) (note_result_adding s url answer a Hs)) as Had.
    destruct (adding_rows _ _ Had Hf Hroom) as [Hs' Hf']. split; [done|].
    destruct (advances (queue a).1 pending) eqn:E; [rewrite (advances_mono _ _ _ Hs' E); lia|].
    destruct (advances (queue (note_result s url answer a)).1 pending); lia.
  - pose proof (settle_ahead ck pending answer (queue a) Hf Hack) as Hs'.
    destruct (settle_rows ck pending answer (queue a) Hf Hack) as [_ Hf'].
    cbn [set_queue queue] in *. split; [exact Hf'|].
    assert (Hd : (distance (exec_all (settle_ops ck pending answer) (queue a)).1 (after_delivery final) <= 6)%nat)
      by (destruct final; simpl; lia).
    destruct (advances (queue a).1 pending); lia.
Qed.

Lemma register_name who i p a ev out a' : register_step who i (p, a) ev (out, a') ->
  delivery_event ev = true -> who = DeliveryLoop.
Proof. inversion 1; subst; simpl; by destruct who. Qed.
Lemma poll_name {R} who i m (apply : R -> _ -> _ -> _ -> Prop) p k a ev p' k' a' :
  (forall x b e out, apply x b e out -> delivery_event e = false) ->
  poll_step who i m apply (p, k, a) ev (p', k', a') -> delivery_event ev = true -> who = DeliveryLoop.
Proof.
  intros Ha. inversion 1; subst; simpl; try (by destruct who);
    match goal with H : apply _ _ _ _ |- _ => by rewrite (Ha _ _ _ _ H) end.
Qed.
Lemma delivery_name i u m d k a ev d' k' a' :
  delivery_step i u m (d, k, a) ev (d', k', a') -> ev <> EPanic -> delivery_event ev = true.
Proof. by inversion 1. Qed.

(** A step of the loop, or one that leaves it where it is. *)
Lemma task_delivery windows w t ev t' w' : task_step windows w t ev t' w' ->
  (exists ls d k a', t = Joined ls /\ t' = Joined (set_dl d k ls) /\ w' = put_agent a' w /\
    delivery_step (w_instant w) (w_utc w) (missed ls) (dl ls, lk ls, w_agent w) ev (d, k, a') /\
    ev <> EPanic /\ delivery_event ev = true) \/
  (delivery_event ev = false /\ forall q, (task_distance q t' <= task_distance q t)%nat).
Proof.
  assert (Hno : forall b, (b = true -> False) -> b = false) by (by intros []).
  destruct 1 as [| | | | | | |ls ev d k a' Hd Hev|ls d k a' Hd|ls ev w' He|ls];
    [..|left; exists ls, d, k, a'; do 5 (split; [done|]); by eapply delivery_name| | |];
    (right; split; [apply Hno; intros Hx|intros q; first [done | simpl; lia | idtac]]).
  - by inversion H; subst.
  - by inversion H; subst.
  - by apply (register_name _ _ _ _ _ _ _ H) in Hx.
  - by apply (register_name _ _ _ _ _ _ _ H) in Hx.
  - unfold join_loops. destruct (_ || _); simpl; lia.
  - inversion H; subst; try done;
      match goal with Hr : register_step _ _ _ _ _ |- _ => by apply register_name in Hr end.
  - apply poll_name in H; [done|by intros x b e out (f & _ & ->); destruct x|done].
  - apply poll_name in H; [done|by intros x b e out (f & _ & ->)|done].
  - done.
  - by destruct He.
  - done.
Qed.

Lemma nstep_delivery windows n e n' : nstep windows n e n' ->
  (exists ls d k a', n_task n = Joined ls /\ n_task n' = Joined (set_dl d k ls) /\
    w_agent (n_world n') = a' /\
    delivery_step (w_instant (n_world n)) (w_utc (n_world n)) (missed ls)
      (dl ls, lk ls, w_agent (n_world n)) e (d, k, a') /\
    e <> EPanic /\ delivery_event e = true) \/
  (delivery_event e = false /\
   forall q, (task_distance q (n_task n') <= task_distance q (n_task n))%nat).
Proof.
  destruct 1; try (right; split; [done|intros q; simpl; lia]).
  - right. split; [by inversion H0|]. intros q; simpl; lia.
  - destruct (task_delivery _ _ _ _ _ _ H0) as [(ls & d & k & a' & -> & -> & -> & Hd & He & Hn)|Hr];
      [left|by right].
    exists ls, d, k, a'. auto 6.
Qed.
End Progress.

(** ** Delivery under a fair schedule *)
Section Liveness.
Import Agent.
Context {TT : TimeText} {UT : UuidText} {SJ : Serde (gmap string json)} {SQ : SqlEngine}
  {SS : Serde Schedule.t} {SM : Serde MessageStore.t} {SF : Serde AgentFileConfig}
  {HO : HashOrder}.
Context {TL : TimeTextLaws} {UL : UuidTextLaws} {SL : SerdeLaws (gmap string json)}
  {QL : SqlEngineLaws}.

Definition table (n : net) : EventQueue.t * list bool := queue (w_agent (n_world n)).
Definition waiting (n : net) : list EventQueue.row := EventQueue.rows (table n).1.

(** The loop takes steps again and again: it is scheduled, time passes, and
    the client's lock comes free. *)
Definition keeps_delivering (events : nat -> event) : Prop :=
  forall k, exists j, (k <= j)%nat /\ delivery_event (events j) = true.

(** Before and after a step: a working table and controller, room, and a
    clock that has passed the time at which [en] is due. *)
Record fair_step (en : entry) (n : net) (e : event) (n' : net) : Prop := {
  fs_acknowledged : acknowledges_all e;
  fs_room : Z.of_nat (length (waiting n)) + 2 <= MAX_QUEUE_SIZE;
  fs_clock : representable (w_utc (n_world n)) /\ en_next en <= w_utc (n_world n);
  fs_younger : forall x, x ∈ waiting n' -> x ∈ waiting n \/
    exists en', row_repr x en' /\ en_created en < en_created en';
}.

(** The rows a step leaves, without failures. *)
Lemma effect_rows e w w' : queue_effect e w w' -> quiet w.2 -> acknowledges_all e ->
  Z.of_nat (length (EventQueue.rows w.1)) + 2 <= MAX_QUEUE_SIZE ->
  quiet w'.2 /\
  (EventQueue.rows w.1 ⊆ EventQueue.rows w'.1 \/
   exists pending answer, e = ESettled pending answer /\
     EventQueue.rows w'.1 = List.filter (fun x => negb (names pending x)) (EventQueue.rows w.1)).
Proof.
  intros He Hf Ha Hroom.
  assert (Hadd : adding 2 w w' -> quiet w'.2 /\ EventQueue.rows w.1 ⊆ EventQueue.rows w'.1)
    by (intros H; destruct (adding_rows w w' H Hf Hroom); by split).
  destruct e as [| | | | | | | | | | | | | |pending answer| |]; try (destruct (Hadd He); by auto).
  destruct He as (ck & _ & ->). destruct (settle_rows ck pending answer w Hf Ha) as [Hr Hq].
  split; [done|]. right. by exists pending, answer.
Qed.

Lemma younger_rows r en n n' : row_repr r en ->
  (forall x, x ∈ waiting n' -> x ∈ waiting n \/
    exists en', row_repr x en' /\ en_created en < en_created en') ->
  adds_younger r (table n).1 (table n').1.
Proof.
  intros Hr Hy x Hx. destruct (Hy x Hx) as [?|(en' & Hx' & Hlt)]; [by left|right].
  unfold older. apply not_true_iff_false. intros Hle.
  pose proof (repr_created_le _ _ _ _ Hx' Hr Hle). lia.
Qed.

(** One step brings the event nearer to delivery. *)
Lemma fair_progress windows r en n e n' :
  nstep windows n e n' -> sound n -> quiet (table n).2 -> row_repr r en -> r ∈ waiting n ->
  fair_step en n e n' ->
  (remaining r n' + (if delivery_event e then 1 else 0) <= remaining r n)%nat.
Proof.
  intros Hst Hs Hf Hrep Hr [Hack Hroom [Hu Hdue] Hyoung].
  destruct (nstep_sound _ _ _ _ Hst Hs) as [Hs' (He & _)].
  pose proof (younger_rows r en n n' Hrep Hyoung) as Hy.
  pose proof Hs as (Hq & _). pose proof Hs' as (Hq' & _). unfold remaining.
  destruct (nstep_delivery r _ _ _ _ Hst) as [(ls & d & k & a' & Ht & Ht' & Ha & Hd & Hp & Hn)|[Hn Hdist]].
  - rewrite Ht, Ht', Hn. subst a'. cbn [task_distance dl set_dl].
    destruct (delivery_progress r _ _ _ _ _ _ _ _ _ _ en Hd Hp Hq Hf Hroom Hu Hr Hrep Hdue Hack Hq' Hy)
      as [_ Hle]. lia.
  - rewrite Hn. pose proof (ahead_le r _ _ Hy (wf_nodup _ Hq')) as Hle. unfold table in *.
    assert (Hsub : EventQueue.rows (queue (w_agent (n_world n))).1 ⊆
                   EventQueue.rows (queue (w_agent (n_world n'))).1).
    { destruct (effect_rows e _ _ He Hf Hack Hroom) as [_ [H|(pd & ans & -> & _)]]; [done|]. by simpl in Hn. }
    pose proof (task_distance_mono r _ _ (n_task n) Hsub).
    specialize (Hdist (queue (w_agent (n_world n'))).1).
    assert (Hd : (task_distance r (queue (w_agent (n_world n'))).1 (n_task n') <=
                  task_distance r (queue (w_agent (n_world n'))).1 (n_task n))%nat)
      by (apply Hdist). lia.
Qed.

(** C3. Every queued event is delivered.  In an infinite execution of the
    whole process from any state it can reach, whatever else its threads and
    loops do: if from there on the delivery loop is never starved, the database
    works and has room, the controller acknowledges what it is sent, and the
    clock has passed the event's retry time and does not date new events
    before it, then at some step the controller acknowledges this event and it
    leaves the table. *)
Theorem event_eventually_acknowledged (windows : bool) (p : process) (started : Instant)
    (u : DateTime) (es : list event) (states : nat -> net) (events : nat -> event)
    (r : EventQueue.row) (en : entry) :
  wf_queue (queue (p_agent p)).1 ->
  nexec windows (entered p started u) es (states 0%nat) ->
  (forall k, nstep windows (states k) (events k) (states (S k))) ->
  keeps_delivering events -> quiet (table (states 0%nat)).2 ->
  (forall k, fair_step en (states k) (events k) (states (S k))) ->
  r ∈ waiting (states 0%nat) -> row_repr r en ->
  exists k pending response d x,
    events k = ESettled pending (Ok response) /\ (d, x) ∈ zip pending (sr_results response) /\
    acknowledged x /\ EventQueue.c_event_id r = uuid_to_string (event_id (pd_event d)) /\
    r ∉ waiting (states (S k)).
Proof.
  intros Hp Hex Hrun Hfair Hf0 Hsteps Hr0 Hrep.
  assert (Hs : forall k, sound (states k)).
  { induction k as [|k IH]; [eapply nexec_sound; [exact Hex|by apply entered_sound]|].
    by apply (nstep_sound _ _ _ _ (Hrun k)). }
  assert (Hq : forall k, quiet (table (states k)).2).
  { induction k as [|k IH]; [done|]. destruct (nstep_sound _ _ _ _ (Hrun k) (Hs k)) as [_ (He & _)].
    destruct (Hsteps k) as [Ha Hroom _ _]. by apply (effect_rows _ _ _ He IH Ha Hroom). }
  destruct (ranked_run (fun k => remaining r (states k)) (fun k => delivery_event (events k))
    (fun k => r ∈ waiting (states k))) as (k & Hin & Hout); [done| |done|].
  { intros k Hk. by apply (fair_progress windows r en _ _ _ (Hrun k)). }
  destruct (nstep_sound _ _ _ _ (Hrun k) (Hs k)) as [_ (He & _ & Hpend & _)].
  destruct (Hsteps k) as [Ha Hroom _ _].
  destruct (effect_rows _ _ _ He (Hq k) Ha Hroom) as [_ [Hsub|(pending & answer & Hev & Hrows)]];
    [destruct Hout; by apply Hsub|].
  rewrite Hev in Ha. destruct Ha as (response & -> & Hlen & Hack).
  assert (Hnamed : names pending r = true).
  { destruct (names pending r) eqn:E; [done|]. destruct Hout. unfold waiting, table. rewrite Hrows.
    apply elem_of_bfilter. by rewrite E. }
  apply existsb_exists in Hnamed as (d & Hd%list_elem_of_In & Hid%Z.eqb_eq).
  apply list_elem_of_lookup in Hd as [i Hi].
  destruct (lookup_lt_is_Some_2 (sr_results response) i) as [x Hx].
  { rewrite Hlen. by eapply lookup_lt_Some. }
  exists k, pending, response, d, x. split; [done|]. split; [|split; [|split; [|done]]].
  - apply list_elem_of_lookup. exists i. apply lookup_zip_with_Some. by exists d, x.
  - rewrite Forall_forall in Hack. apply Hack. by eapply list_elem_of_lookup_2.
  - rewrite (Hpend _ _ Hev) in Hi. destruct (Hs k) as (_ & Hb & _).
    pose proof (proj1 (Forall_forall _ _) Hb d (list_elem_of_lookup_2 _ _ _ Hi)) as (_ & _ & Hc).
    by apply Hc.
Qed.
End Liveness.

(** ** A run in which the registration is reported, and nothing else happens *)
Section FairSample.
Import Agent.
#[local] Existing Instances Bits.time_text Bits.uuid_text payload_serde stable_engine tree_order.
#[local] Existing Instances Bits.time_text_laws Bits.uuid_text_laws payload_serde_laws
  stable_engine_laws tree_order_laws.
#[local] Existing Instances run_schedule_codec run_store_codec run_toml_codec.

Definition registration_entry : entry :=
  mk_entry 1 (registration_succeeded 20%N (secs 100) 7%N) 0 (secs 100) (secs 100).
Definition reported_agent : Agent.t :=
  settled false (batch_of flushed) (note_result (run_stamp 25) "http://c"
    (all_accepted (batch_of flushed)) (take_batch (secs 100) flushed).2).

(** The loop's turns over an empty queue, every ten seconds. *)
Inductive beat : Type := Due | Reading | Resting.
Fixpoint turn_at (k : nat) : nat * beat :=
  match k with
  | O => (O, Due)
  | S k => match turn_at k with
           | (m, Due) => (m, Reading)
           | (m, Reading) => (m, Resting)
           | (m, Resting) => (S m, Due)
           end
  end.

Definition idle (i next : Instant) (d : delivery_phase) : net :=
  mk_net (mk_world reported_agent (mk_loop Top None) i (secs 100)) (start [] None)
    (Joined (mk_loops free_lock (mk_hb 0 HbSelect) PlTop PlTop (mk_dl next d) false false))
    CkStopped MPump.
Definition at_turn (m : nat) : Instant := Z.of_nat m * secs 10.
Definition idle_at (b : nat * beat) : net :=
  match b with
  | (m, Due) => idle (at_turn m) (at_turn m) DlSelect
  | (m, Reading) => idle (at_turn m) (at_turn m + secs 10) (DlTake false)
  | (m, Resting) => idle (at_turn m) (at_turn m + secs 10) DlSelect
  end.
Definition fair_states (k : nat) : net :=
  match k with O => first_settle | S k => idle_at (turn_at k) end.
Definition fair_events (k : nat) : event :=
  match k with
  | O => ESettled (batch_of flushed) (all_accepted (batch_of flushed))
  | S k => match (turn_at k).2 with
           | Due => EArm DeliveryLoop
           | Reading => ETake false
           | Resting => ETime
           end
  end.

Lemma idle_deliver i next d next' d' ev :
  delivery_step i (secs 100) false (mk_dl next d, free_lock, reported_agent) ev
    (mk_dl next' d', free_lock, reported_agent) -> ev <> EPanic ->
  nstep false (idle i next d) ev (idle i next' d').
Proof.
  intros Hst Hev. apply n_task_step; [done|].
  exact (t_deliver false (mk_world reported_agent (mk_loop Top None) i (secs 100))
    (mk_loops free_lock (mk_hb 0 HbSelect) PlTop PlTop (mk_dl next d) false false) ev
    (mk_dl next' d') free_lock reported_agent Hst Hev).
Qed.

Lemma reported_take : take_batch (secs 100) reported_agent = (Ok [], reported_agent).
Proof. vm_compute. reflexivity. Qed.
Lemma reported_retry : event_retry_interval (config reported_agent) = secs 10.
Proof. vm_compute. reflexivity. Qed.
#[local] Opaque reported_agent.

Lemma fair_run k : nstep false (fair_states k) (fair_events k) (fair_states (S k)).
Proof.
  destruct k as [|k].
  - change (fair_states 1) with (delivering false (after_delivery false) free_lock reported_agent MPump).
    by apply settles.
  - cbn [fair_states fair_events turn_at]. destruct (turn_at k) as [m []]; cbn [snd idle_at].
    + apply idle_deliver; [|done]. rewrite <- reported_retry. apply dl_tick. lia.
    + apply idle_deliver; [|done]. apply (dl_empty _ _ _ _ false), reported_take.
    + assert (Hm : at_turn (S m) = at_turn m + secs 10) by (unfold at_turn; lia).
      rewrite Hm. apply n_time. by vm_compute.
Qed.

Lemma fair_delivering : keeps_delivering fair_events.
Proof.
  intros k. destruct (turn_at k) as [m b] eqn:E.
  assert (Hk : exists j, (k <= j)%nat /\ (turn_at j).2 = Due).
  { destruct b; [exists k|exists (S (S k))|exists (S k)]; cbn [turn_at]; rewrite E; split; (done || lia). }
  destruct Hk as (j & Hj & Hd). exists (S j). split; [lia|]. simpl. by rewrite Hd.
Qed.

Lemma fair_sample_step k : fair_step registration_entry (fair_states k) (fair_events k) (fair_states (S k)).
Proof.
  assert (Hw : forall k, waiting (fair_states (S k)) = []).
  { intros j. cbn [fair_states]. destruct (turn_at j) as [m []]; vm_compute; reflexivity. }
  assert (Hc : forall k, w_utc (n_world (fair_states k)) = secs 100).
  { intros [|j]; [reflexivity|]. cbn [fair_states]. by destruct (turn_at j) as [m []]. }
  split.
  - destruct k as [|k]; [|simpl; by destruct (turn_at k).2].
    eexists. split; [reflexivity|]. split; [vm_compute; reflexivity|].
    vm_compute. repeat constructor.
  - destruct k as [|k]; [vm_compute; discriminate|]. rewrite Hw. vm_compute. discriminate.
  - rewrite Hc. split; [by vm_compute|]. vm_compute. discriminate.
  - intros x. rewrite Hw. by intros ?%not_elem_of_nil.
Qed.

Lemma event_eventually_acknowledged_witness :
  registration_row ∈ waiting first_settle /\
  exists k pending response d x,
    fair_events k = ESettled pending (Ok response) /\ (d, x) ∈ zip pending (sr_results response) /\
    acknowledged x /\
    EventQueue.c_event_id registration_row = uuid_to_string (event_id (pd_event d)) /\
    registration_row ∉ waiting (fair_states (S k)).
Proof.
  assert (Hr : registration_row ∈ waiting first_settle) by (vm_compute; left).
  split; [exact Hr|].
  apply (event_eventually_acknowledged false (run_process (secs 30) Sleep) 0 (secs 100)
    (joining ++ EArm DeliveryLoop :: submitting false) fair_states fair_events registration_row
    registration_entry); [apply init_wf|apply reaches_settle|apply fair_run|apply fair_delivering| |
    apply fair_sample_step|exact Hr|].
  - vm_compute. constructor.
  - split; [split; [done|split; [by vm_compute|done]]|]. do 2 (split; [by vm_compute|]).
    split; [simpl; lia|]. eexists. split; vm_compute; reflexivity.
Defined.
End FairSample.
