(* ===== verification/Device.v ===== *)
(** * The service and the process it runs, in one system

    [run_service] ([Service]) around [run_blocking] ([Network]): the control
    handler and the pump on one side, everything [run_blocking] starts on the
    other.  They meet where [platform::run] records its thread, delivers
    notifications and returns, where [run_blocking] asks whether a shutdown was
    requested, and where it returns.  [device_projects]: an execution of the
    system is one of each part, so what [Service], [Coherence], [Stop] and
    [Turns] show holds of it. *)
From stdpp Require Import relations.
From S2P Require Import Prelude Codec Fs Tracker Schedule Messages Clock Protocol Db Queue Table.
From S2P Require Import Store Events Recorder Closing Config Client Discovery Agent Loops Delivery.
From S2P Require Import Enforcement Restart Platform Service Main Network Coherence Turns Stop Runs.
#[local] Open Scope Z_scope.

(** What a start of [run_blocking] finds: the arguments of [Main.startup]. *)
Record boot : Type := mk_boot {
  bt_fresh : Uuid;
  bt_hostname : option string;
  bt_var : string -> option string;
  bt_fault : Fs.fault;
  bt_fs : Fs.t;
  bt_toml : path;
  bt_cli : Overrides;
  bt_events_db : EventQueue.t * list bool;
  bt_state_db : Store.t * list bool;
  bt_started : Instant;
  bt_stamp1 : stamp;
  bt_stamp2 : stamp;
  bt_utc : DateTime;
}.

(** [dv_net]: from the end of [startup] on; after [run_blocking] has returned,
    what it left. *)
Record device : Type := mk_device { dv_service : service; dv_net : option net }.

Inductive dlabel : Type :=
| DStep                            (* the service by itself *)
| DControl (c : ServiceControl)
| DBooted (b : boot)
| DPumpEnded (closed : bool)       (* [closed]: as in [EPumpEnded] *)
| DNotice (e : QueuedEvent)        (* queued by the main thread *)
| DNet (e : event)
| DReturned (instant : Instant).   (* [run_blocking] stops waiting *)

Section Device.
Import Agent.
Context {TT : TimeText} {UT : UuidText} {SJ : Serde (gmap string json)} {SQ : SqlEngine}
  {SS : Serde Schedule.t} {SM : Serde MessageStore.t} {SF : Serde AgentFileConfig}
  {HO : HashOrder}.

Definition boots (b : boot) : result StartError process :=
  startup (bt_fresh b) (bt_hostname b) (bt_var b) (bt_fault b) (bt_fs b) (bt_toml b) (bt_cli b)
    (bt_events_db b) (bt_state_db b) (bt_started b) (bt_stamp1 b) (bt_stamp2 b).

(** Steps of the loops, the clock and time; notifications only from the
    message loop.  The main thread's own steps are constructors. *)
Definition loop_event (ph : service_phase) (e : event) : Prop :=
  match e with
  | EPumpEnded _ | EMain | EShutdown _ | EExit _ => False
  | ENotified _ => ph = SPump
  | _ => True
  end.

Inductive dstep (windows : bool) : device -> dlabel -> device -> Prop :=
| d_reported sv sv' : sv_phase sv = SRegister \/ sv_phase sv = SStartPending \/ sv_phase sv = SRunning ->
    sstep sv EvStep sv' -> dstep windows (mk_device sv None) DStep (mk_device sv' None)
| d_control sv sv' n c : sstep sv (EvControl c) sv' ->
    dstep windows (mk_device sv n) (DControl c) (mk_device sv' n)
| d_not_booted sv sv' : sv_phase sv = SBoot -> sstep sv EvStep sv' -> sv_phase sv' <> SSetup ->
    dstep windows (mk_device sv None) DStep (mk_device sv' None)
| d_booted pu l tid b p : boots b = Ok p ->
    dstep windows (mk_device (mk_service SBoot pu l) None) (DBooted b)
      (mk_device (mk_service SSetup (pump_started tid pu) l)
         (Some (entered p (bt_started b) (bt_utc b))))
| d_ready pu l n :
    dstep windows (mk_device (mk_service SSetup pu l) n) DStep (mk_device (mk_service SPump pu l) n)
(** [platform::run] returns: with an error of its set-up, or after it has shut
    the recorder down.  Then [shutdown_requested] is read. *)
| d_set_up_failed pu l e w r t c :
    dstep windows
      (mk_device (mk_service SSetup pu l) (Some (mk_net w r t c MPump))) (DPumpEnded false)
      (mk_device (mk_service (SFlush (Err e)) pu l)
         (Some (mk_net w r t c (MNotices (notices (shutdown_requested pu))))))
| d_pump_ended sv sv' ev w r t c u : sv_phase sv = SPump ->
    ev = EvStep \/ ev = EvDestroyed -> sstep sv ev sv' ->
    dstep windows (mk_device sv (Some (mk_net w r t c MPump)))
      (DPumpEnded (is_ok (UsageRecorder.shutdown u r).1))
      (mk_device sv' (Some (mk_net w (UsageRecorder.shutdown u r).2 t c
         (MNotices (notices (shutdown_requested (sv_pump sv)))))))
| d_notice sv w r t c e es s : stamp_ok s ->
    dstep windows (mk_device sv (Some (mk_net w r t c (MNotices (e :: es)))))
      (DNotice (e (st_id s) (st_built s)))
      (mk_device sv (Some (mk_net (put_agent (enqueue e s (w_agent w)) w) r t c (MNotices es))))
| d_signal sv n n' i : nstep windows n (EShutdown i) n' ->
    dstep windows (mk_device sv (Some n)) (DNet (EShutdown i)) (mk_device sv (Some n'))
| d_loops sv n e n' : loop_event (sv_phase sv) e -> nstep windows n e n' ->
    dstep windows (mk_device sv (Some n)) (DNet e) (mk_device sv (Some n'))
| d_returned sv sv' n n' i : (exists r, sv_phase sv = SFlush r) -> sstep sv EvStep sv' ->
    nstep windows n (EExit i) n' ->
    dstep windows (mk_device sv (Some n)) (DReturned i) (mk_device sv' (Some n'))
| d_over sv sv' n : (exists r, sv_phase sv = SReport r) -> sstep sv EvStep sv' ->
    dstep windows (mk_device sv n) DStep (mk_device sv' n).

Inductive dexec (windows : bool) : list dlabel -> device -> Prop :=
| dexec_nil : dexec windows [] (mk_device service_start None)
| dexec_snoc ls d lb d' :
    dexec windows ls d -> dstep windows d lb d' -> dexec windows (ls ++ [lb]) d'.

(** ** Projections *)
Definition net_event (lb : dlabel) : option event :=
  match lb with
  | DPumpEnded closed => Some (EPumpEnded closed)
  | DNotice _ => Some EMain
  | DNet e => Some e
  | DReturned i => Some (EExit i)
  | DStep | DControl _ | DBooted _ => None
  end.
Definition net_events (ls : list dlabel) : list event := omap net_event ls.

Lemma net_events_snoc ls lb : net_events (ls ++ [lb]) =
  net_events ls ++ match net_event lb with Some e => [e] | None => [] end.
Proof. unfold net_events. rewrite omap_app. simpl. by destruct (net_event lb). Qed.

Lemma dstep_service windows d lb d' : dstep windows d lb d' ->
  rtc serves (dv_service d) (dv_service d').
Proof.
  destruct 1; simpl; try done; try (apply rtc_once; by eexists);
    try (apply rtc_once; eexists EvStep; by constructor).
Qed.

(** What the process does in a step, if there is one. *)
Lemma dstep_net windows d lb d' n : dstep windows d lb d' -> dv_net d = Some n ->
  exists n', dv_net d' = Some n' /\
    match net_event lb with Some e => nstep windows n e n' | None => n' = n end.
Proof.
  destruct 1; simpl; intros Hn; simplify_eq; (eexists; split; [first [reflexivity|eassumption]|]); try done.
  - apply (n_pump_ends windows w r _ c (shutdown_requested pu) false 0).
  - apply (n_pump_ends windows w r _ c (shutdown_requested (sv_pump sv)) true u).
  - by apply n_notice.
Qed.

Lemma dstep_birth windows d lb d' n : dstep windows d lb d' -> dv_net d = None -> dv_net d' = Some n ->
  exists b p, lb = DBooted b /\ boots b = Ok p /\ n = entered p (bt_started b) (bt_utc b).
Proof. destruct 1; simpl; intros; simplify_eq; eauto 6. Qed.

Lemma no_net_events windows ls d : dexec windows ls d -> dv_net d = None -> net_events ls = [].
Proof.
  induction 1 as [|ls d lb d' _ IH Hst]; [done|]. rewrite net_events_snoc.
  destruct Hst; simpl in *; intros; simplify_eq; by rewrite IH.
Qed.

Lemma projected windows ls d : dexec windows ls d ->
  rtc serves service_start (dv_service d) /\
  forall n, dv_net d = Some n -> exists b p, DBooted b ∈ ls /\ boots b = Ok p /\
    nexec windows (entered p (bt_started b) (bt_utc b)) (net_events ls) n.
Proof.
  intros H. split.
  { induction H as [|ls d lb d' _ IH Hst]; [done|]. etrans; [exact IH|]. by eapply dstep_service. }
  induction H as [|ls d lb d' Hex IH Hst]; [done|]. intros n' Hn'. rewrite net_events_snoc.
  destruct (dv_net d) as [n|] eqn:En.
  - destruct (IH n eq_refl) as (b & p & Hb & Hp & Hrun). exists b, p. split; [set_solver|]. split; [done|].
    destruct (dstep_net _ _ _ _ n Hst En) as (n1 & Hn1 & Hs). rewrite Hn' in Hn1. injection Hn1 as <-.
    destruct (net_event lb); [by econstructor|]. subst. by rewrite app_nil_r.
  - destruct (dstep_birth _ _ _ _ n' Hst En Hn') as (b & p & -> & Hp & ->). exists b, p.
    split; [set_solver|]. split; [done|]. rewrite (no_net_events _ _ _ Hex En). constructor.
Qed.


(** ** What a stop leaves behind *)
Definition asks_shutdown (lb : dlabel) : bool :=
  match lb with DControl CtlShutdown => true | _ => false end.
Definition queued (ls : list dlabel) : list QueuedEvent :=
  omap (fun lb => match lb with DNotice e => Some e | _ => None end) ls.

(** The types of the notices, which do not depend on the stamp. *)
Definition notice_type (e : Uuid -> DateTime -> QueuedEvent) : EventType.t := event_type (e 0%N 0).
Definition steady (e : Uuid -> DateTime -> QueuedEvent) : Prop :=
  forall i c, event_type (e i c) = notice_type e.
Definition notice_types (requested : bool) : list EventType.t :=
  (if requested then [EventType.SystemShutdown] else []) ++ [EventType.AgentStopping].

Lemma notices_steady requested : Forall steady (notices requested) /\
  map notice_type (notices requested) = notice_types requested.
Proof. destruct requested; (split; [by repeat constructor|done]). Qed.

Lemma queued_app l k : queued (l ++ k) = queued l ++ queued k.
Proof. apply omap_app. Qed.
Lemma queued_quiet l lb : queued [lb] = [] -> queued (l ++ [lb]) = queued l.
Proof. intros H. by rewrite queued_app, H, app_nil_r. Qed.

(** The part of the run before the end of the pump and the part after it. *)
Definition ended (ls before : list dlabel) (closed : bool) (after : list dlabel) : Prop :=
  ls = before ++ DPumpEnded closed :: after /\ queued before = [].
Definition signal_given (after : list dlabel) : Prop :=
  exists mid i rest, after = mid ++ DNet (EShutdown i) :: rest /\ queued rest = [].

Definition device_ok (ls : list dlabel) (d : device) : Prop :=
  shutdown_requested (sv_pump (dv_service d)) = existsb asks_shutdown ls /\
  match sv_phase (dv_service d) with
  | SRegister | SStartPending | SRunning | SBoot => dv_net d = None /\ queued ls = []
  | SSetup | SPump => queued ls = [] /\ exists n, dv_net d = Some n /\ n_main n = MPump
  | SFlush _ => exists before closed after n es, ended ls before closed after /\
      dv_net d = Some n /\ Forall steady es /\
      map event_type (queued after) ++ map notice_type es = notice_types (existsb asks_shutdown before) /\
      (n_main n = MNotices es \/
       es = [] /\ signal_given after /\ exists until, n_main n = MFlush until)
  | SReport (Ok _) | SOver (Ok _) => exists before closed after n, ended ls before closed after /\
      dv_net d = Some n /\ n_main n = MDone /\ signal_given after /\
      map event_type (queued after) = notice_types (existsb asks_shutdown before)
  | SReport (Err _) | SOver (Err _) => True
  end.

Lemma ended_snoc ls before closed after lb : ended ls before closed after ->
  ended (ls ++ [lb]) before closed (after ++ [lb]).
Proof. intros [-> H]. split; [by rewrite <- app_assoc|done]. Qed.

Lemma signal_snoc after lb : queued [lb] = [] -> signal_given after -> signal_given (after ++ [lb]).
Proof.
  intros Hq (mid & i & rest & -> & Hr). exists mid, i, (rest ++ [lb]).
  split; [by rewrite <- app_assoc|]. by rewrite queued_app, Hr.
Qed.

(** A label that neither queues a notice nor asks for anything. *)
Lemma device_ok_snoc ls d d' lb : queued [lb] = [] ->
  shutdown_requested (sv_pump (dv_service d')) =
    (shutdown_requested (sv_pump (dv_service d)) || asks_shutdown lb) ->
  sv_phase (dv_service d') = sv_phase (dv_service d) ->
  match dv_net d, dv_net d' with
  | None, None => True
  | Some n, Some n' => n_main n' = n_main n
  | _, _ => False
  end -> device_ok ls d -> device_ok (ls ++ [lb]) d'.
Proof.
  intros Hq Hf Hp Hn [H1 H2]. unfold device_ok. rewrite Hf, Hp, H1, existsb_app. simpl. rewrite orb_false_r.
  split; [done|]. assert (Hql : queued (ls ++ [lb]) = queued ls) by (by apply queued_quiet).
  assert (Hqa : forall l, queued (l ++ [lb]) = queued l) by (intros l; by apply queued_quiet).
  destruct (sv_phase (dv_service d)) as [| | | | | |r|r|r].
  1-4: rewrite Hql; destruct H2 as [H2 H3]; rewrite H2 in Hn; by destruct (dv_net d').
  1-2: rewrite Hql; destruct H2 as (H2 & n & H3 & H4); split; [done|]; rewrite H3 in Hn;
       destruct (dv_net d') as [n'|]; [exists n'; by rewrite Hn|done].
  - destruct H2 as (before & closed & after & n & es & He & Hd & Hs & Hm & Ho). rewrite Hd in Hn.
    destruct (dv_net d') as [n'|]; [|done].
    exists before, closed, (after ++ [lb]), n', es. rewrite Hqa, Hn.
    split; [by apply ended_snoc|]. do 3 (split; [done|]).
    destruct Ho as [Ho|(He0 & Hg & Ho)]; [by left|right]. split; [done|]. split; [by apply signal_snoc|done].
  - destruct r as [[]|]; [|done]. destruct H2 as (before & closed & after & n & He & Hd & Hm & Hg & Ht).
    rewrite Hd in Hn. destruct (dv_net d') as [n'|]; [|done].
    exists before, closed, (after ++ [lb]), n'. rewrite Hqa, Hn.
    split; [by apply ended_snoc|]. do 2 (split; [done|]). split; [by apply signal_snoc|done].
  - destruct r as [[]|]; [|done]. destruct H2 as (before & closed & after & n & He & Hd & Hm & Hg & Ht).
    rewrite Hd in Hn. destruct (dv_net d') as [n'|]; [|done].
    exists before, closed, (after ++ [lb]), n'. rewrite Hqa, Hn.
    split; [by apply ended_snoc|]. do 2 (split; [done|]). split; [by apply signal_snoc|done].
Qed.

Lemma loop_event_main windows ph n e n' : nstep windows n e n' -> loop_event ph e -> n_main n' = n_main n.
Proof. by destruct 1. Qed.

Lemma signal_main windows n i n' : nstep windows n (EShutdown i) n' ->
  n_main n = MNotices [] /\ exists until, n_main n' = MFlush until.
Proof.
  inversion 1; subst; simpl; [split; [done|by eexists]|..];
    match goal with
    | H : clock_step _ _ _ _ _ |- _ => by apply clock_event in H
    | H : task_step _ _ _ _ _ _ |- _ => by apply task_event in H
    end.
Qed.
Lemma exit_main windows n i n' : nstep windows n (EExit i) n' ->
  (exists until, n_main n = MFlush until) /\ n_main n' = MDone.
Proof.
  inversion 1; subst; simpl; try (split; [by eexists|done]);
    match goal with
    | H : clock_step _ _ _ _ _ |- _ => by apply clock_event in H
    | H : task_step _ _ _ _ _ _ |- _ => by apply task_event in H
    end.
Qed.

Lemma control_flag c p : shutdown_requested (control c p).1 =
  (shutdown_requested p || asks_shutdown (DControl c)).
Proof. destruct c, p as [[tid|] q f]; simpl; by rewrite ?orb_true_r, ?orb_false_r. Qed.

(** The end of the pump, with what it makes [run_blocking] queue. *)
Lemma ended_ok ls sv n r closed pu : sv_phase sv = SFlush r -> sv_pump sv = pu ->
  shutdown_requested pu = existsb asks_shutdown ls -> queued ls = [] ->
  n_main n = MNotices (notices (shutdown_requested pu)) ->
  device_ok (ls ++ [DPumpEnded closed]) (mk_device sv (Some n)).
Proof.
  intros Hp Hpu Hf Hq Hm. unfold device_ok. simpl. rewrite Hp, Hpu, Hf, existsb_app. simpl.
  rewrite orb_false_r. split; [done|]. destruct (notices_steady (shutdown_requested pu)) as [H1 H2].
  exists ls, closed, [], n, (notices (shutdown_requested pu)). split; [by split|]. split; [done|].
  split; [done|]. rewrite Hf in *. split; [done|by left].
Qed.

(** A notice, and the signal. *)
Lemma notice_ok ls sv n n' e es q : n_main n = MNotices (e :: es) -> n_main n' = MNotices es ->
  (steady e -> event_type q = notice_type e) ->
  device_ok ls (mk_device sv (Some n)) -> device_ok (ls ++ [DNotice q]) (mk_device sv (Some n')).
Proof.
  intros Hm Hm' He [H1 H2]. split; [simpl in *; by rewrite H1, existsb_app, orb_false_r|]. simpl in *.
  destruct (sv_phase sv) as [| | | | | |r|[]|[]]; try done; try (by destruct H2);
    try (destruct H2 as (_ & n1 & [= <-] & Hx); congruence).
  - destruct H2 as (before & closed & after & n1 & es1 & Hd & [= <-] & Hs & Ht & Ho).
    rewrite Hm in Ho. destruct Ho as [[= <-]|(_ & _ & until & Ho)]; [|done].
    apply Forall_cons in Hs as [Hse Hs].
    exists before, closed, (after ++ [DNotice q]), n', es. split; [by apply ended_snoc|].
    split; [done|]. split; [done|]. split; [|by left].
    rewrite queued_app, map_app, <- app_assoc. simpl. by rewrite He.
  - destruct H2 as (before & closed & after & n1 & _ & [= <-] & Hx & _). congruence.
  - destruct H2 as (before & closed & after & n1 & _ & [= <-] & Hx & _). congruence.
Qed.

Lemma signal_ok ls sv n n' i until : n_main n = MNotices [] -> n_main n' = MFlush until ->
  device_ok ls (mk_device sv (Some n)) ->
  device_ok (ls ++ [DNet (EShutdown i)]) (mk_device sv (Some n')).
Proof.
  intros Hm Hm' [H1 H2]. split; [simpl in *; by rewrite H1, existsb_app, orb_false_r|]. simpl in *.
  destruct (sv_phase sv) as [| | | | | |r|[]|[]]; try done; try (by destruct H2);
    try (destruct H2 as (_ & n1 & [= <-] & Hx); congruence).
  - destruct H2 as (before & closed & after & n1 & es1 & Hd & [= <-] & Hs & Ht & Ho).
    rewrite Hm in Ho. destruct Ho as [[= <-]|(_ & _ & u & Ho)]; [|done].
    exists before, closed, (after ++ [DNet (EShutdown i)]), n', []. split; [by apply ended_snoc|].
    split; [done|]. split; [done|]. split; [by rewrite queued_quiet|]. right.
    split; [done|]. split; [exists after, i, []; by split|by exists until].
  - destruct H2 as (before & closed & after & n1 & _ & [= <-] & Hx & _). congruence.
  - destruct H2 as (before & closed & after & n1 & _ & [= <-] & Hx & _). congruence.
Qed.

Lemma returned_ok ls sv sv' n n' i r : sv_phase sv = SFlush r -> sv_phase sv' = SReport r ->
  sv_pump sv' = sv_pump sv -> (exists until, n_main n = MFlush until) -> n_main n' = MDone ->
  device_ok ls (mk_device sv (Some n)) -> device_ok (ls ++ [DReturned i]) (mk_device sv' (Some n')).
Proof.
  intros Hp Hp' Hpu (until & Hm) Hm' [H1 H2]. unfold device_ok in *. simpl in *. rewrite Hp in H2.
  rewrite Hpu, Hp', H1, existsb_app, orb_false_r. split; [done|]. destruct r as [[]|]; [|done].
  destruct H2 as (before & closed & after & n1 & es & Hd & [= <-] & Hs & Ht & Ho).
  destruct Ho as [Ho|(-> & Hg & _)]; [congruence|].
  exists before, closed, (after ++ [DReturned i]), n'. split; [by apply ended_snoc|].
  split; [done|]. split; [done|]. split; [by apply signal_snoc|].
  by rewrite queued_quiet, <- Ht, app_nil_r.
Qed.

Lemma over_ok ls sv sv' n r : sv_phase sv = SReport r ->
  sv_phase sv' = SOver r \/ (exists e, sv_phase sv' = SOver (Err e)) -> sv_pump sv' = sv_pump sv ->
  device_ok ls (mk_device sv n) -> device_ok (ls ++ [DStep]) (mk_device sv' n).
Proof.
  intros Hp Hp' Hpu [H1 H2]. unfold device_ok in *. simpl in *. rewrite Hp in H2.
  rewrite Hpu, H1, existsb_app, orb_false_r. split; [done|].
  destruct Hp' as [->|[e ->]]; [|done]. destruct r as [[]|]; [|done].
  destruct H2 as (before & closed & after & n1 & Hd & -> & Hm & Hg & Ht).
  exists before, closed, (after ++ [DStep]), n1. split; [by apply ended_snoc|].
  split; [done|]. split; [done|]. split; [by apply signal_snoc|]. by rewrite queued_quiet.
Qed.

Lemma dstep_ok windows ls d lb d' : dexec windows ls d -> dstep windows d lb d' ->
  device_ok ls d -> device_ok (ls ++ [lb]) d'.
Proof.
  intros _ Hst Hok. assert (Hno : forall k (b : bool), (b || (asks_shutdown k || false)) = b || asks_shutdown k)
    by (intros; by rewrite orb_false_r).
  destruct Hst as [sv sv' Hp Hs|sv sv' n c Hs|sv sv' Hp Hs Hne|pu l tid b p Hb|pu l n|pu l e w r t c
    |sv sv' ev w r t c u Hp Hev Hs|sv w r t c e es s Hs|sv n n' i Hs|sv n e n' He Hs
    |sv sv' n n' i [r Hp] Hs Hn|sv sv' n [r Hp] Hs].
  - destruct Hok as [H1 H2]. unfold device_ok. simpl in *.
    inversion Hs; subst; simpl in *; try (destruct Hp as [[=]|[[=]|[=]]]; fail);
      try match goal with H : set_status _ _ _ _ _ |- _ => inversion H; subst; simpl end;
      rewrite H1, existsb_app, orb_false_r; (split; [done|]);
      try done; by rewrite queued_quiet.
  - inversion Hs; subst. apply (device_ok_snoc ls (mk_device (mk_service ph p l) n)); try done.
    + apply control_flag.
    + simpl. by destruct n.
  - destruct Hok as [H1 H2]. unfold device_ok. simpl in *.
    inversion Hs; subst; simpl in *; try done; try (by destruct Hne);
      by rewrite H1, existsb_app, orb_false_r.
  - destruct Hok as [H1 [_ H2]]. unfold device_ok. simpl in *. rewrite existsb_app, orb_false_r, queued_quiet by done.
    split; [exact H1|]. split; [done|]. by eexists.
  - destruct Hok as [H1 H2]. unfold device_ok. simpl in *.
    by rewrite existsb_app, orb_false_r, queued_quiet.
  - destruct Hok as [H1 [H2 _]]. by apply (ended_ok _ _ _ (Err e) _ pu).
  - destruct Hok as [H1 H2]. simpl in H1, H2. rewrite Hp in H2. destruct H2 as [H2 _].
    assert ((exists r, sv_phase sv' = SFlush r) /\ sv_pump sv' = sv_pump sv) as [[r' Hp'] Hpu]
      by (inversion Hs; subst; simpl in *; try done; try (by destruct Hev); naive_solver).
    by apply (ended_ok _ _ _ r' _ (sv_pump sv)).
  - by eapply notice_ok; [..|exact Hok].
  - destruct (signal_main _ _ _ _ Hs) as [H1 [until H2]]. by eapply signal_ok.
  - apply (device_ok_snoc ls (mk_device sv (Some n))); try done.
    + simpl. by rewrite orb_false_r.
    + simpl. by eapply loop_event_main.
  - destruct (exit_main _ _ _ _ Hn) as [H1 H2].
    assert (sv_phase sv' = SReport r /\ sv_pump sv' = sv_pump sv) as [H3 H4]
      by (inversion Hs; subst; simpl in *; try done; naive_solver).
    by eapply returned_ok.
  - assert ((sv_phase sv' = SOver r \/ exists e, sv_phase sv' = SOver (Err e)) /\ sv_pump sv' = sv_pump sv)
      as [H3 H4].
    { inversion Hs; subst; simpl in *; try done.
      match goal with H : set_status _ _ _ _ _ |- _ => inversion H; subst; simpl end; naive_solver. }
    by eapply over_ok.
Qed.

Lemma dexec_ok windows ls d : dexec windows ls d -> device_ok ls d.
Proof. induction 1; [by repeat split|]. by eapply dstep_ok. Qed.

(** C11. What a stopped service leaves behind.  In every execution that
    ends with the service over without an error, StartPending, Running and
    Stopped were reported; after the pump ended, and not before, the main thread
    queued AGENT_STOPPING, preceded by SYSTEM_SHUTDOWN exactly if the manager
    had sent Shutdown (not Stop) by then, and both before the signal that lets
    the loops make their last attempt; and if the recorder's shutdown was
    written and no notification had failed on the session table, no usage
    session is left open. *)
Theorem stopped_service_leaves {TL : TimeTextLaws} {UL : UuidTextLaws} {QL : SqlEngineLaws}
    (windows : bool) (ls : list dlabel) (d : device) :
  dexec windows ls d -> sv_phase (dv_service d) = SOver (Ok tt) ->
  sv_reported (dv_service d) = [start_pending; running; stopped] /\
  exists before closed mid i rest n,
    ls = before ++ DPumpEnded closed :: mid ++ DNet (EShutdown i) :: rest /\
    queued before = [] /\ queued rest = [] /\
    map event_type (queued mid) = notice_types (existsb asks_shutdown before) /\
    dv_net d = Some n /\ n_main n = MDone /\
    (closed = true -> ENotified false ∉ net_events before ->
     (forall b, DBooted b ∈ ls -> one_left_open (bt_state_db b).1) ->
     open_rows (UsageRecorder.store (n_recorder n)).1 = [] /\
     UsageRecorder.is_active (n_recorder n) = false).
Proof.
  intros Hex Hp. pose proof (dexec_ok _ _ _ Hex) as [_ Hok]. rewrite Hp in Hok.
  assert (Hproj : rtc serves service_start (dv_service d) /\
    forall n, dv_net d = Some n -> exists b p, DBooted b ∈ ls /\ boots b = Ok p /\
      nexec windows (entered p (bt_started b) (bt_utc b)) (net_events ls) n) by (by apply projected).
  destruct Hproj as [Hserves Hnet]. split.
  { pose proof (service_invariant _ Hserves) as [Hr _]. by rewrite Hp in Hr. }
  destruct Hok as (before & closed & after & n & [Hls Hb] & Hn & Hm & (mid & i & rest & -> & Hr) & Ht).
  exists before, closed, mid, i, rest, n.
  rewrite queued_app in Ht. change (queued (DNet (EShutdown i) :: rest)) with (queued rest) in Ht.
  rewrite Hr, app_nil_r in Ht. do 6 (split; [done|]). intros -> Hno Hone.
  destruct (Hnet n Hn) as (b & p & Hbo & Hbp & Hrun).
  eapply (clean_end_closes windows p (bt_started b) (bt_utc b) (net_events before)); [|..|exact Hno].
  - by eapply startup_only_current; [exact Hbp|apply Hone].
  - rewrite Hls in Hrun. unfold net_events in Hrun. rewrite omap_app in Hrun. exact Hrun.
Qed.
End Device.

(** ** A start, and a shutdown of the machine before anybody logs on *)
Section DeviceSample.
Import Agent.
#[local] Existing Instances Bits.time_text Bits.uuid_text payload_serde stable_engine tree_order.
#[local] Existing Instances Bits.time_text_laws Bits.uuid_text_laws payload_serde_laws
  stable_engine_laws tree_order_laws.
#[local] Existing Instances main_schedule_codec main_store_codec main_toml.

Definition sample_boot : boot :=
  mk_boot 1%N None (fun _ => None) None sample_fs sample_toml no_overrides
    (EventQueue.init, []) (Store.init, []) 0 (sample_stamp 10) (sample_stamp 11) (secs 2).
Definition reported : list ServiceStatus := [start_pending; running].
Definition pumping (q f : bool) : service := mk_service SPump (mk_pump (Some 1%N) q f) reported.
Definition shut_down : list dlabel :=
  [DStep; DStep; DStep; DBooted sample_boot; DStep; DControl CtlShutdown; DPumpEnded true;
   DNotice (system_shutdown 12%N (secs 1)); DNotice (agent_stopping 13%N (secs 1) AGENT_VERSION);
   DNet (EShutdown 0); DNet ETime; DReturned (secs 5); DStep].

Lemma sample_stamp_ok i : (i < 2 ^ 128)%N -> stamp_ok (sample_stamp i).
Proof. intros Hi. split; [done|]. by split; vm_compute. Qed.

Definition booted : net := entered sample_process 0 (secs 2).
Lemma boots_sample : boots sample_boot = Ok sample_process.
Proof.
  assert (H : is_ok sample_start = true) by (vm_compute; reflexivity).
  change (boots sample_boot) with sample_start. unfold sample_process.
  by destruct sample_start.
Qed.

Lemma to_pump : dexec false [DStep; DStep; DStep; DBooted sample_boot; DStep; DControl CtlShutdown]
  (mk_device (pumping true true) (Some booted)).
Proof.
  eapply (dexec_snoc _ [_; _; _; _; _]); [|by apply d_control, (s_control SPump (mk_pump (Some 1%N) false false))].
  eapply (dexec_snoc _ [_; _; _; _]); [|apply d_ready].
  eapply (dexec_snoc _ [_; _; _]);
    [|apply (d_booted _ pump_init reported 1%N sample_boot sample_process boots_sample)].
  eapply (dexec_snoc _ [_; _]); [|eapply d_reported;
    [|apply s_running, (st_reported _ _ _ [start_pending])]; by right; right].
  eapply (dexec_snoc _ [_]); [|eapply d_reported;
    [|apply s_start_pending, (st_reported _ _ _ [])]; by right; left].
  eapply (dexec_snoc _ []); [constructor|]. eapply d_reported; [|apply s_register]; by left.
Qed.

Lemma shuts_down : exists d, dexec false shut_down d /\ sv_phase (dv_service d) = SOver (Ok tt).
Proof.
  pose proof to_pump as H. unfold booted, entered in H.
  eapply dexec_snoc in H;
    [|eapply (d_pump_ended false (pumping true true) _ EvStep _ _ _ _ (secs 2)); [done|by left|by apply s_quit]].
  eapply dexec_snoc in H; [|eapply (d_notice _ _ _ _ _ _ _ _ (sample_stamp 12)); by apply sample_stamp_ok].
  eapply dexec_snoc in H; [|eapply (d_notice _ _ _ _ _ _ _ _ (sample_stamp 13)); by apply sample_stamp_ok].
  eapply dexec_snoc in H; [|eapply d_signal, n_signal].
  eapply dexec_snoc in H;
    [|eapply (d_loops _ _ _ ETime); [done|apply (n_time _ _ _ _ _ _ _ _ _ (secs 5) (secs 2)); by vm_compute]].
  eapply dexec_snoc in H;
    [|eapply (d_returned _ _ _ _ _ (secs 5)); [by exists (Ok tt)|apply s_flushed|apply n_timeout; reflexivity]].
  eapply dexec_snoc in H;
    [|eapply d_over; [by exists (Ok tt)|apply s_stopped, (st_reported _ _ _ reported)]].
  eexists. split; [exact H|done].
Qed.


Lemma stopped_service_leaves_witness : exists d n, dexec false shut_down d /\
  sv_reported (dv_service d) = [start_pending; running; stopped] /\ dv_net d = Some n /\
  n_main n = MDone.
Proof.
  destruct shuts_down as (d & Hd & Hp).
  destruct (stopped_service_leaves false shut_down d Hd Hp) as (Hr & _ & _ & _ & _ & _ & n & _ & _ & _ & _ & Hn & Hm & _).
  by exists d, n.
Defined.
End DeviceSample.
