(* ===== verification/Desk.v ===== *)
(** * The process and the notifier on the desk ([run_blocking], [notify_pipe.rs],
    [notifier/src/main.rs])

    The process of [Network] with a notifier that polls it: while the process
    runs on, the notifier asks its two questions over the pipe, each answered
    from the agent as it is then, shows what is due, sleeps, and may be started
    again.  The theorem [screen_from_controller] follows what is shown, and
    what is done to the machine, back to where it came from: an answer of the
    controller in this run, or a cache that was there at its start. *)
From S2P Require Import Prelude Codec Fs Tracker Schedule Messages Clock Protocol Db Queue Store.
From S2P Require Import Events Recorder Config Client Discovery Agent Loops Delivery Enforcement.
From S2P Require Import Restart Platform Main Network Ipc Notifier Warnings.
#[local] Open Scope Z_scope.

(** ** What the controller has offered: the answers the loops hold *)
Definition offered_at_registration (r : register_phase) : list Schedule.t :=
  match r with
  | RgAnswered (Ok r) | RgAdopting r => option_list (rr_schedule r)
  | _ => []
  end.
Definition offered_at_heartbeat (h : heartbeat_phase) : list Schedule.t :=
  match h with
  | HbAnswered _ (Ok r) | HbAdopting r => option_list (hr_schedule r)
  | HbRegistering r => offered_at_registration r
  | _ => []
  end.
Definition offered_schedules (n : net) : list Schedule.t :=
  match n_task n with
  | Registering _ r => offered_at_registration r
  | Joined ls =>
      offered_at_heartbeat (hb_at (hb ls)) ++
      match sp ls with PlAnswered (Ok s) => option_list s | _ => [] end
  | _ => []
  end.
Definition offered_messages (n : net) : list AgentMessage.t :=
  match n_task n with
  | Joined ls => match mp ls with PlAnswered (Ok l) => l | _ => [] end
  | _ => []
  end.

Section Sources.
Import Agent.
Context {TT : TimeText} {UT : UuidText} {SJ : Serde (gmap string json)} {SQ : SqlEngine}
  {SS : Serde Schedule.t} {SM : Serde MessageStore.t} {SF : Serde AgentFileConfig}
  {HO : HashOrder}.

(** Neither the schedule nor the messages are touched. *)
Definition kept (a a' : Agent.t) : Prop :=
  Agent.schedule a' = Agent.schedule a /\ Agent.messages a' = Agent.messages a.
Lemma kept_refl a : kept a a.
Proof. done. Qed.
Lemma kept_trans a b c : kept a b -> kept b c -> kept a c.
Proof. intros [H1 H2] [H3 H4]. split; congruence. Qed.

Lemma mark_kept a : kept a (mark_schedule_synced a).
Proof. unfold mark_schedule_synced. by case_match. Qed.
Lemma connected_kept url s a : kept a (note_connected url s a).
Proof. unfold note_connected. by repeat case_match. Qed.
Lemma disconnected_kept why s a : kept a (note_disconnected why s a).
Proof. unfold note_disconnected. by repeat case_match. Qed.
Lemma result_kept s url r a : kept a (note_result s url r a).
Proof. destruct r; [apply connected_kept|apply disconnected_kept]. Qed.
Lemma resolve_kept f s r a : kept a (resolve_found f s r a).2.
Proof. unfold resolve_found. by repeat case_match. Qed.
Lemma batch_kept u a : kept a (take_batch u a).2.
Proof. unfold take_batch. by destruct (EventQueue.due_batch _ _ _). Qed.
Lemma sync_kept m u i l a : kept a (ClockSync.sync m u i l a).2.
Proof. unfold ClockSync.sync. by repeat case_match; simplify_eq. Qed.
Lemma woken_kept w u i l a : kept a (ClockSync.woken w u i l a).2.
Proof. by destruct w. Qed.
Lemma decide_kept s u i l a : kept a (Enforcement.decide s u i l a).1.2.
Proof.
  unfold Enforcement.decide, enforce_request. by repeat (case_match; simplify_eq/=).
Qed.
Lemma finish_kept s r u i sch w l a : kept a (finish s r u i sch w l a).1.2.
Proof. unfold finish, enforce_result. by repeat (case_match; simplify_eq/=). Qed.
Lemma wake_kept p u i l a : kept a (Enforcement.wake p u i l a).1.2.
Proof. unfold Enforcement.wake. by case_match. Qed.
Lemma notified_kept inp e user u p : kept (p_agent p) (p_agent (notified inp e user u p).2).
Proof. unfold notified. by destruct (UsageRecorder.handle _ _ _ _ _). Qed.

Lemma apply_messages_kept f l u a : Agent.schedule (apply_messages f l u a) = Agent.schedule a.
Proof. unfold apply_messages. by destruct (MessageStore.apply _ _ _). Qed.
End Sources.

Section Steps.
Import Agent.
Context {TT : TimeText} {UT : UuidText} {SJ : Serde (gmap string json)} {SQ : SqlEngine}
  {SS : Serde Schedule.t} {SM : Serde MessageStore.t} {SF : Serde AgentFileConfig}
  {HO : HashOrder}.

(** What [a'] holds was held by [a] or is among what was offered. *)
Definition from_offers (ss : list Schedule.t) (ms : list AgentMessage.t) (a a' : Agent.t) : Prop :=
  (forall s, Agent.schedule a' = Some s -> Agent.schedule a = Some s \/ s ∈ ss) /\
  (forall m, m ∈ MessageStore.messages (Agent.messages a') ->
     m ∈ MessageStore.messages (Agent.messages a) \/ m ∈ ms).

Lemma kept_offers ss ms a a' : kept a a' -> from_offers ss ms a a'.
Proof. intros [H1 H2]. unfold from_offers. rewrite H1, H2. auto. Qed.
Lemma offers_kept ss ms a b c : from_offers ss ms a b -> kept b c -> from_offers ss ms a c.
Proof. intros H [H1 H2]. unfold from_offers. by rewrite H1, H2. Qed.
Lemma offers_weaken ss ms ss' ms' a b : ss ⊆ ss' -> ms ⊆ ms' ->
  from_offers ss ms a b -> from_offers ss' ms' a b.
Proof. intros Hs Hm [H1 H2]. split; [intros s []%H1; auto|intros m []%H2; auto]. Qed.

Lemma schedule_offers f incoming ms a :
  from_offers (option_list incoming) ms a (apply_schedule f incoming a).
Proof.
  unfold apply_schedule. case_bool_decide; [by apply kept_offers|]. split; [|auto].
  intros s Hs. simpl in Hs. subst incoming. right. simpl. by left.
Qed.

Lemma messages_offers f incoming u ss a :
  from_offers ss incoming a (apply_messages f incoming u a).
Proof.
  split; [intros s; rewrite apply_messages_kept; auto|]. unfold apply_messages.
  destruct (MessageStore.apply _ _ _) as [st ch] eqn:E. unfold MessageStore.apply in E. simplify_eq.
  simpl. intros m [_ Hm]%list_elem_of_filter. by apply merge_messages.
Qed.

Lemma register_offers who i r a ev r' a' ms :
  register_step who i (r, a) ev (r', a') -> from_offers (offered_at_registration r) ms a a'.
Proof.
  inversion 1; subst; try (by apply kept_offers).
  unfold registered. eapply offers_kept; [|by apply mark_kept]. apply (schedule_offers f (rr_schedule r0) ms (set_connected true a)).
Qed.

Lemma heartbeat_offers i m h k a ev h' k' a' ms :
  heartbeat_step i m (h, k, a) ev (h', k', a') -> from_offers (offered_at_heartbeat (hb_at h)) ms a a'.
Proof.
  inversion 1; subst; cbn [hb_at offered_at_heartbeat]; try (by apply kept_offers);
    try (apply kept_offers; apply connected_kept || apply disconnected_kept); try (by eapply register_offers).
  eapply offers_kept; [apply schedule_offers|apply mark_kept].
Qed.

Lemma poll_offers {R} who i m (apply : R -> _ -> _ -> _ -> Prop) p k a ev p' k' a' ss ms :
  (forall r ev b b' x, apply r b ev (x, b') -> p = PlAnswered r -> from_offers ss ms b b') ->
  poll_step who i m apply (p, k, a) ev (p', k', a') -> from_offers ss ms a a'.
Proof. intros Ha. inversion 1; subst; eauto; by apply kept_offers. Qed.

Lemma delivery_kept i u m d k a ev d' k' a' : delivery_step i u m (d, k, a) ev (d', k', a') -> kept a a'.
Proof.
  inversion 1; subst; try done; try apply result_kept;
    match goal with Ht : take_batch _ _ = (_, ?b) |- kept _ ?b =>
      pose proof (batch_kept u a) as Hk; by rewrite Ht in Hk end.
Qed.
Lemma clock_kept i u c a ev c' a' : clock_step i u (c, a) ev (c', a') -> kept a a'.
Proof.
  inversion 1 as [| |measured l w b l' b' Hs| |l w b l' b' _ Hs|l w b l' b' _ Hs|]; subst; try done.
  - pose proof (sync_kept measured u i l a) as Hk. by rewrite Hs in Hk.
  - pose proof (woken_kept ClockSync.Resync u i l a) as Hk. by rewrite Hs in Hk.
  - pose proof (woken_kept ClockSync.WatchTick u i l a) as Hk. by rewrite Hs in Hk.
Qed.
Lemma enforcement_kept w m ev w' : enforcement_step w m ev w' -> kept (w_agent w) (w_agent w').
Proof.
  inversion 1; subst; simpl; try done;
    match goal with
    | Hd : Enforcement.decide ?s ?u ?i ?l ?a = _ |- _ =>
        pose proof (decide_kept s u i l a) as Hk; by rewrite Hd in Hk
    | Hd : finish ?s ?r ?u ?i ?sch ?wt ?l ?a = _ |- _ =>
        pose proof (finish_kept s r u i sch wt l a) as Hk; by rewrite Hd in Hk
    | Hd : Enforcement.wake ?p ?u ?i ?l ?a = _ |- _ =>
        pose proof (wake_kept p u i l a) as Hk; by rewrite Hd in Hk
    end.
Qed.
Lemma resolve_step_kept i r a ev r' a' : resolve_step i (r, a) ev (r', a') -> kept a a'.
Proof.
  inversion 1; subst; try done;
    match goal with Hd : resolve_found ?f ?s ?r ?a = _ |- _ =>
      pose proof (resolve_kept f s r a) as Hk; by rewrite Hd in Hk end.
Qed.

Lemma task_offers windows w r t c m ev t' w' :
  task_step windows w t ev t' w' ->
  from_offers (offered_schedules (mk_net w r t c m)) (offered_messages (mk_net w r t c m))
    (w_agent w) (w_agent w').
Proof.
  inversion 1; subst; unfold offered_schedules, offered_messages; cbn [n_task];
    try (apply kept_offers; first [by eapply resolve_step_kept | by eapply delivery_kept | by eapply enforcement_kept | done]).
  - by eapply register_offers.
  - by eapply register_offers.
  - eapply offers_weaken; [| |by eapply heartbeat_offers]; set_solver.
  - eapply poll_offers; [|eassumption]. intros [s|e] ev' b b' x (f & Hr & _) ->; simplify_eq/=; [|by apply kept_offers].
    eapply offers_weaken; [| |eapply offers_kept; [apply schedule_offers|apply mark_kept]]; [set_solver|reflexivity].
  - eapply poll_offers; [|eassumption]. intros [l|e] ev' b b' x (f & Hr & _) ->; simplify_eq/=; [|by apply kept_offers].
    apply messages_offers.
Qed.

Lemma nstep_offers windows n ev n' : nstep windows n ev n' ->
  from_offers (offered_schedules n) (offered_messages n) (w_agent (n_world n)) (w_agent (n_world n')).
Proof.
  inversion 1; subst; simpl; try (by apply kept_offers).
  - pose proof (notified_kept inp e user u (mk_process (w_agent w) r)) as Hk.
    match goal with Hd : notified _ _ _ _ _ = _ |- _ => rewrite Hd in Hk end. by apply kept_offers.
  - apply kept_offers. by eapply clock_kept.
  - by eapply task_offers.
Qed.
End Steps.

(** ** The notifier next to the process *)
Inductive desk_phase : Type :=
| DkAsking                      (* top of the loop *)
| DkAsked                       (* the messages are done; about to ask what is pending *)
| DkSleeping (until : Instant).
Record desk : Type := mk_desk {
  dk_net : net;
  dk_notifier : notifier;
  dk_at : desk_phase;
  dk_screen : list shown;       (* everything shown so far *)
}.

Section Desk.
Import Agent.
Context {TT : TimeText} {UT : UuidText} {SJ : Serde (gmap string json)} {SQ : SqlEngine}
  {SS : Serde Schedule.t} {SM : Serde MessageStore.t} {SF : Serde AgentFileConfig}
  {HO : HashOrder}.
Context {SR : Serde Request} {SP : Serde Response} {SI : Serde (list Uuid)}.
Context (new_v5 : string -> Uuid) (local : DateTime -> string) (state_path : path).

(** The pipe is being served. *)
Definition served (n : net) : Prop :=
  n_main n <> MDone /\ exists ls, n_task n = Joined ls /\ pipe ls = true.

(** The agent's end of the pipe, as it is now. *)
Definition answered_now (n : net) (line : string) : result string string :=
  let w := n_world n in
  match handle_line new_v5 line (schedule_for_notices (w_agent w) (w_instant w))
          (live_messages (w_agent w) (w_utc w)) (Agent.now (w_agent w) (w_utc w)) with
  | Some out => Ok out
  | None => Err "no answer"%string
  end.

(** [transport::call]: answered, or failed (no server, no instance free, a
    broken pipe). *)
Inductive asks (n : net) (r : Request) : result string Response -> Prop :=
| asks_answered : served n -> asks n r (call (answered_now n) r)
| asks_failed e : asks n r (Err e).

Inductive desk_step (windows : bool) : desk -> desk -> Prop :=
| dk_process n ev n' nt ph sc : nstep windows n ev n' ->
    desk_step windows (mk_desk n nt ph sc) (mk_desk n' nt ph sc)
| dk_messages n f answer nt nt' sh sc : asks n GetMessages answer ->
    show_new_messages f state_path answer nt = (nt', sh) ->
    desk_step windows (mk_desk n nt DkAsking sc) (mk_desk n nt' DkAsked (sc ++ sh))
(** The rest of the turn; the messages were seen to in [dk_messages]. *)
| dk_pending n f answer utc1 utc2 e nt nt' sh wait sc : asks n GetPending answer ->
    turn local f state_path (Err e) answer utc1 utc2 nt = (nt', sh, wait) ->
    desk_step windows (mk_desk n nt DkAsked sc)
      (mk_desk n nt' (DkSleeping (w_instant (n_world n) + wait)) (sc ++ sh))
| dk_awake n nt until sc : until <= w_instant (n_world n) ->
    desk_step windows (mk_desk n nt (DkSleeping until) sc) (mk_desk n nt DkAsking sc)
(** The notifier is ended (the user logs off) and started again. *)
| dk_restarted n nt ph sc :
    desk_step windows (mk_desk n nt ph sc)
      (mk_desk n (start (n_disk nt) state_path) DkAsking sc).

(** Executions, with the states of the process they go through. *)
Inductive desk_run (windows : bool) : desk -> list net -> desk -> Prop :=
| run_here d : desk_run windows d [] d
| run_step d0 visited d d' : desk_run windows d0 visited d -> desk_step windows d d' ->
    desk_run windows d0 (visited ++ [dk_net d]) d'.

(** One turn of the notifier's loop is the two steps. *)
Lemma turn_split f m q utc1 utc2 e nt :
  turn local f state_path m q utc1 utc2 nt =
  let '(n1, shown1) := show_new_messages f state_path m nt in
  let '(n2, shown2, wait) := turn local f state_path (Err e) q utc1 utc2 n1 in
  (n2, shown1 ++ shown2, wait).
Proof.
  unfold turn. destruct (show_new_messages f state_path m nt) as [n1 s1]. simpl.
  destruct q as [[u l|u l]|t]; [|by rewrite app_nil_r|by rewrite app_nil_r].
  by repeat case_match.
Qed.
End Desk.

(** ** Where it all comes from *)
Section Provenance.
Import Agent.
Context {TT : TimeText} {TL : TimeTextLaws} {UT : UuidText} {SJ : Serde (gmap string json)} {SQ : SqlEngine}
  {SS : Serde Schedule.t} {SM : Serde MessageStore.t} {SF : Serde AgentFileConfig}
  {HO : HashOrder}.
Context {SR : Serde Request} {SP : Serde Response} {SI : Serde (list Uuid)}.
Context {LR : SerdeLaws Request} {LP : SerdeLaws Response}.
Context (new_v5 : string -> Uuid) (local : DateTime -> string) (state_path : path).

Definition agent_of (n : net) : Agent.t := w_agent (n_world n).
(** The agent's clock. *)
Definition clock_of (n : net) : DateTime := Agent.now (agent_of n) (w_utc (n_world n)).

(** In the cache at the start, or in an answer of the controller since. *)
Definition schedule_source (n0 : net) (visited : list net) (s : Schedule.t) : Prop :=
  Agent.schedule (agent_of n0) = Some s \/ exists n, n ∈ visited /\ s ∈ offered_schedules n.
Definition message_source (n0 : net) (visited : list net) (m : AgentMessage.t) : Prop :=
  m ∈ MessageStore.messages (Agent.messages (agent_of n0)) \/
  exists n, n ∈ visited /\ m ∈ offered_messages n.

(** The schedule is enforced: the controller has confirmed it and the clock
    was checked, or 90 s have passed. *)
Definition in_force (n : net) (s : Schedule.t) : Prop :=
  let sy := schedule_sync (agent_of n) in
  Agent.schedule (agent_of n) = Some s /\
  ((confirmed sy = true /\ TrustedClock.is_ready (clock (agent_of n)) = true) \/
   since sy + secs 90 <= w_instant (n_world n)).
Lemma notices_in_force n s :
  schedule_for_notices (agent_of n) (w_instant (n_world n)) = Some s -> in_force n s.
Proof.
  unfold schedule_for_notices, enforcement_view, enforcement_ready, in_force.
  destruct (_ || _) eqn:E; [|done]. simpl. intros Hs. split; [done|].
  apply orb_true_iff in E as [[H1 H2]%andb_true_iff|H%Z.leb_le]; [by left|right].
  unfold SCHEDULE_SYNC_GRACE in H. lia.
Qed.

(** A message was the administrator's and had not expired; a warning is of a
    window of such a schedule, then in force, that starts within the half
    hour, at the mark the time left had crossed. *)
Definition item_source (n0 : net) (visited : list net) (x : shown) : Prop :=
  match x with
  | ShowMessage id text => exists m n, message_source n0 visited m /\ n ∈ visited /\
      clock_of n < AgentMessage.expires_at m /\ id = AgentMessage.id m /\
      text = message (AgentMessage.title m) (AgentMessage.body m)
  | ShowWarning id text => exists s w n due, schedule_source n0 visited s /\ w ∈ Schedule.windows s /\
      n ∈ visited /\ in_force n s /\
      clock_of n < off_at w <= clock_of n + secs 1800 /\
      td_action due = action_of new_v5 (Schedule.action s) w /\
      crossed (remaining due) = Some (threshold due) /\
      id = pa_id (td_action due) /\ text = warning due (local (off_at w))
  | Dismiss _ => True
  end.

Definition net_source (n0 : net) (visited : list net) (n : net) : Prop :=
  (forall s, Agent.schedule (agent_of n) = Some s -> schedule_source n0 visited s) /\
  (forall m, m ∈ MessageStore.messages (Agent.messages (agent_of n)) -> message_source n0 visited m).

Lemma schedule_source_grows n0 vs vs' s : vs ⊆ vs' -> schedule_source n0 vs s -> schedule_source n0 vs' s.
Proof. intros Hv [H|(n & Hn & H)]; [by left|right; eauto]. Qed.
Lemma message_source_grows n0 vs vs' m : vs ⊆ vs' -> message_source n0 vs m -> message_source n0 vs' m.
Proof. intros Hv [H|(n & Hn & H)]; [by left|right; eauto]. Qed.
Lemma net_source_grows n0 vs vs' n : vs ⊆ vs' -> net_source n0 vs n -> net_source n0 vs' n.
Proof.
  intros Hv [H1 H2]. split; [intros s Hs; eapply schedule_source_grows; eauto|].
  intros m Hm. eapply message_source_grows; eauto.
Qed.
Lemma item_source_grows n0 vs vs' x : vs ⊆ vs' -> item_source n0 vs x -> item_source n0 vs' x.
Proof.
  intros Hv. destruct x; simpl; [|done|].
  - intros (s & w & n & due & Hs & Hw & Hn & Hrest). exists s, w, n, due.
    split; [by eapply schedule_source_grows|]. split; [done|]. by split; [apply Hv|].
  - intros (m & n & Hm & Hn & Hrest). exists m, n. split; [by eapply message_source_grows|].
    by split; [apply Hv|].
Qed.

(** An answered question has the answer of the agent as it is. *)
Lemma answered_exact n r :
  call (answered_now new_v5 n) r =
  Ok (respond new_v5 r (schedule_for_notices (agent_of n) (w_instant (n_world n)))
        (live_messages (agent_of n) (w_utc (n_world n))) (clock_of n)).
Proof.
  unfold call. destruct (serde_round_trip r) as (text & -> & Hq).
  unfold answered_now, handle_line. rewrite Hq. simpl.
  match goal with |- context [to_json ?a] =>
    destruct (serde_round_trip a) as (line & -> & Hl) end. by rewrite Hl.
Qed.

(** What the question for messages shows. *)
Lemma messages_sourced n0 vs n f answer nt nt' sh :
  n ∈ vs -> net_source n0 vs n -> asks new_v5 n GetMessages answer ->
  show_new_messages f state_path answer nt = (nt', sh) -> Forall (item_source n0 vs) sh.
Proof.
  intros Hn [_ Hm] Ha Hs. destruct Ha as [_|e]; [|by simplify_eq/=; constructor].
  rewrite answered_exact in Hs. cbn [respond show_new_messages] in Hs.
  unfold MessageTracker.take_new in Hs. simplify_eq. apply Forall_map, Forall_forall.
  intros x Hx. rewrite isort_perm in Hx. apply elem_of_bfilter in Hx as [Hx _].
  apply list_elem_of_In, in_map_iff in Hx as (m & <- & [Hin Hexp%Z.ltb_lt]%filter_In).
  apply list_elem_of_In in Hin. unfold live_messages, MessageStore.live in Hin.
  apply list_elem_of_filter in Hin as [_ Hin]. exists m, n. repeat split; try done. by apply Hm.
Qed.

(** What the question for what is pending shows. *)
Lemma warnings_sourced n0 vs n f answer utc1 utc2 e nt nt' sh wait :
  n ∈ vs -> net_source n0 vs n -> asks new_v5 n GetPending answer ->
  turn local f state_path (Err e) answer utc1 utc2 nt = (nt', sh, wait) -> Forall (item_source n0 vs) sh.
Proof.
  intros Hn [Hsrc _] Ha Ht. unfold turn in Ht. destruct Ha as [_|err]; [|by simplify_eq/=; constructor].
  rewrite answered_exact in Ht. cbn [show_new_messages respond] in Ht.
  destruct (Engine.update _ _ _) as [engine tick] eqn:Eu. simplify_eq.
  rewrite app_nil_l. apply Forall_app. split; [by apply Forall_map, Forall_true|].
  pose proof (toasts_due (n_engine nt)
    (upcoming_actions new_v5 (schedule_for_notices (agent_of n) (w_instant (n_world n))) (clock_of n))
    (utc2 - (utc1 - clock_of n))) as Hd. rewrite Eu in Hd. cbn [snd] in Hd.
  apply Forall_map. eapply Forall_impl; [exact Hd|]. intros due (Hact & _ & Hc).
  apply (proj1 (upcoming_actions_exact new_v5 _ _)) in Hact
    as (s & w & Hs & Hw & Hwhen & Hat & Hkind & Hwhy & Hid).
  exists s, w, n, due. split.
  { by apply Hsrc, notices_in_force. }
  split; [done|]. split; [done|]. split; [by apply notices_in_force|].
  repeat (split; [done|]). rewrite Hat. split; [|done].
  unfold action_of. rewrite <- Hkind, <- Hat, <- Hid. by destruct (td_action due); simpl in *; subst.
Qed.

Lemma step_sources n0 vs windows d d' :
  desk_step new_v5 local state_path windows d d' ->
  net_source n0 vs (dk_net d) -> Forall (item_source n0 vs) (dk_screen d) ->
  net_source n0 (vs ++ [dk_net d]) (dk_net d') /\
  Forall (item_source n0 (vs ++ [dk_net d])) (dk_screen d').
Proof.
  intros Hst Hn Hsc. set (vs' := vs ++ [dk_net d]).
  assert (Hin : dk_net d ∈ vs') by (subst vs'; set_solver).
  assert (Hsub : vs ⊆ vs') by (subst vs'; set_solver).
  assert (Hn' : net_source n0 vs' (dk_net d)) by (by eapply net_source_grows).
  assert (Hsc' : Forall (item_source n0 vs') (dk_screen d))
    by (eapply Forall_impl; [exact Hsc|]; intros x; by apply item_source_grows).
  destruct Hst as [n ev n' nt ph sc Hst|n f answer nt nt' sh sc Ha Hs
    |n f answer utc1 utc2 e nt nt' sh wait sc Ha Ht|n nt until sc _|n nt ph sc];
    cbn [dk_net dk_screen] in *; try done.
  - split; [|done]. destruct (nstep_offers _ _ _ _ Hst) as [H1 H2]. destruct Hn' as [H3 H4]. split.
    + intros s [Hs|Hs]%H1; [by apply H3|]. right. eauto.
    + intros m [Hm|Hm]%H2; [by apply H4|]. right. eauto.
  - split; [done|]. apply Forall_app. split; [done|]. by eapply messages_sourced.
  - split; [done|]. apply Forall_app. split; [done|]. by eapply warnings_sourced.
Qed.

Lemma run_sources windows d0 vs d :
  desk_run new_v5 local state_path windows d0 vs d -> dk_screen d0 = [] ->
  net_source (dk_net d0) vs (dk_net d) /\ Forall (item_source (dk_net d0) vs) (dk_screen d).
Proof.
  induction 1 as [d|d0 vs d d' Hr IH Hst]; intros H0.
  - rewrite H0. split; [|constructor]. split; intros; by left.
  - destruct (IH H0) as [Hn Hsc]. by eapply step_sources.
Qed.

(** C12. Nothing appears on the screen, and nothing is done to the machine,
    that the controller did not send.  Whatever the process, its clocks and
    the answers it gets do, and however often the notifier is started: a
    message shown is one from an answer of the controller to this process or
    from the cache it started with, under its own id and text, and had not
    expired; a warning is of a window of such a schedule, which was in force
    (confirmed, or after 90 s of silence) when the agent answered, starts
    within the half hour that follows and is announced at the mark the time
    left has crossed; and a power action is that of such a schedule, in force
    as well. *)
Theorem screen_from_controller (windows : bool) (d0 d : desk) (visited : list net) :
  desk_run new_v5 local state_path windows d0 visited d -> dk_screen d0 = [] ->
  Forall (item_source (dk_net d0) visited) (dk_screen d) /\
  (forall act sch i now n', nstep windows (dk_net d) (EEnforce (LAct act sch i now)) n' ->
     act = Schedule.action sch /\ schedule_source (dk_net d0) visited sch /\ in_force (dk_net d) sch).
Proof.
  intros Hr H0. destruct (run_sources _ _ _ _ Hr H0) as [[Hs _] Hsc]. split; [done|].
  intros act sch i now n' Hact%act_step_of. inversion Hact; subst;
    try (by match goal with Hl : reset_label ?o = _ |- _ => destruct o end).
  match goal with Hd : Enforcement.decide _ _ _ _ _ = _ |- _ =>
    destruct (decide_act _ _ _ _ _ _ _ _ _ Hd) as (Hsch & Hk & _ & Hconf & _) end.
  assert (Hin : in_force (dk_net d) sch).
  { unfold in_force, agent_of. by match goal with Hw : _ = n_world _ |- _ => rewrite <- Hw end. }
  split; [done|]. split; [|done]. apply Hs, Hin.
Qed.
End Provenance.

(** ** A message and a warning that arrive while the process runs *)
#[local] Existing Instances Bits.time_text Bits.time_text_laws Bits.uuid_text payload_serde stable_engine
  tree_order.
#[local] Instance desk_schedule_codec : Serde Schedule.t := Bits.serde_of_countable Schedule.t.
#[local] Instance desk_store_codec : Serde MessageStore.t := Bits.serde_of_countable MessageStore.t.
#[local] Instance desk_toml : Serde AgentFileConfig := Bits.serde_of_countable AgentFileConfig.
#[local] Instance desk_request : Serde Request := Bits.serde_of_countable Request.
#[local] Instance desk_response : Serde Response := Bits.serde_of_countable Response.
#[local] Instance desk_shown : Serde (list Uuid) := Bits.serde_of_countable (list Uuid).
#[local] Instance desk_request_laws : SerdeLaws Request := Bits.serde_of_countable_laws Request.
#[local] Instance desk_response_laws : SerdeLaws Response := Bits.serde_of_countable_laws Response.

Definition bedtime_schedule : Schedule.t := Schedule.mk "r1" Sleep "UTC" [mk_window (secs 700) (secs 5000)].
Definition dinner : AgentMessage.t := AgentMessage.mk 1 9%N None "Dinner" (secs 90) (secs 900).

(** The two polls have just been answered; nothing is cached. *)
Definition fresh_agent : Agent.t :=
  Agent.mk (mk_config 1%N false "pc" (secs 30) (secs 10) (Some "http://c"%string) true 45821 (secs 5) false [])
    ("d", "agent", "toml")%string (EventQueue.init, []) false default_snapshot false false None
    ("d", "schedule", "json")%string false MessageStore.default ("d", "messages", "json")%string
    (mk_sync false 0) (TrustedClock.new false) false ∅.
Definition answered_loops (s : schedule_poll) (m : message_poll) : loops :=
  mk_loops (mk_lock (mk_client "http://c" 7%N) None) (mk_hb 0 HbSelect) s m (mk_dl 0 DlSelect) true false.
Definition desk_net (a : Agent.t) (s : schedule_poll) (m : message_poll) : net :=
  mk_net (mk_world a (mk_loop Top None) 0 (secs 100)) (Recorder.start [] None)
    (Joined (answered_loops s m)) CkStopped MPump.
Definition told_agent : Agent.t := Agent.apply_messages None [dinner] (secs 100) fresh_agent.
Definition governed_agent : Agent.t :=
  (schedule_poll_answer None (Ok (Some bedtime_schedule)) told_agent).2.
Definition net0 : net := desk_net fresh_agent (PlAnswered (Ok (Some bedtime_schedule))) (PlAnswered (Ok [dinner])).
Definition net1 : net := desk_net told_agent (PlAnswered (Ok (Some bedtime_schedule))) PlTop.
Definition net2 : net := desk_net governed_agent PlTop PlTop.
Definition plain_local (t : DateTime) : string := "22:00".
Definition shown_file : path := ("u", "notifier-shown", "json")%string.
Definition desk0 : desk := mk_desk net0 (Notifier.start ∅ shown_file) DkAsking [].
Definition after_messages : notifier * list shown :=
  show_new_messages None shown_file (call (answered_now sample_ids net2) GetMessages) (Notifier.start ∅ shown_file).
Definition after_pending : notifier * list shown * Duration :=
  turn plain_local None shown_file (Err EmptyString) (call (answered_now sample_ids net2) GetPending)
    (secs 100) (secs 100) after_messages.1.
Definition desk1 : desk :=
  mk_desk net2 after_pending.1.1 (DkSleeping (w_instant (n_world net2) + after_pending.2)) ([] ++ after_messages.2 ++ after_pending.1.2).

Lemma net0_messages : nstep true net0 (EOwn MessageLoop) net1.
Proof.
  apply n_task_step; [done|]. apply t_messages, pl_applied. by exists None.
Qed.
Lemma net1_schedule : nstep true net1 EConfirm net2.
Proof.
  apply n_task_step; [done|]. apply t_schedule, pl_applied. by exists None.
Qed.

Lemma triple {A B C} (x : A * B * C) : x = (x.1.1, x.1.2, x.2).
Proof. by destruct x as [[]]. Qed.
Lemma desk_ran : desk_run sample_ids plain_local shown_file true desk0
  ([] ++ [net0] ++ [net1] ++ [net2] ++ [net2]) desk1.
Proof.
  assert (Hs : served net2) by (split; [done|]; by eexists).
  rewrite !app_assoc.
  eapply (run_step _ _ _ _ _ _ (mk_desk net2 after_messages.1 DkAsked ([] ++ after_messages.2))).
  2: { unfold desk1. rewrite app_assoc.
       eapply (dk_pending _ _ _ _ _ None _ (secs 100) (secs 100) EmptyString); [by apply asks_answered|].
       exact (triple after_pending). }
  eapply (run_step _ _ _ _ _ _ (mk_desk net2 (Notifier.start ∅ shown_file) DkAsking [])).
  2: { eapply (dk_messages _ _ _ _ _ None); [by apply asks_answered|].
       exact (surjective_pairing after_messages). }
  eapply (run_step _ _ _ _ _ _ (mk_desk net1 (Notifier.start ∅ shown_file) DkAsking []));
    [|eapply dk_process, net1_schedule].
  eapply (run_step _ _ _ _ _ _ desk0); [constructor|]. eapply dk_process, net0_messages.
Qed.

(** The message of the answer, then a warning of the schedule's window. *)
Lemma screen_from_controller_witness :
  dk_screen desk1 =
    [ShowMessage 9%N (message None "Dinner");
     ShowWarning (pa_id (action_of sample_ids Sleep (mk_window (secs 700) (secs 5000))))
       (warning (mk_due (action_of sample_ids Sleep (mk_window (secs 700) (secs 5000))) 900 600) "22:00")] /\
  Forall (item_source sample_ids plain_local net0 [net0; net1; net2; net2]) (dk_screen desk1).
Proof.
  split; [vm_compute; reflexivity|].
  destruct (screen_from_controller sample_ids plain_local shown_file true desk0 desk1 _ desk_ran eq_refl) as [H _].
  exact H.
Defined.
