(* ===== verification/TestsUsage.v ===== *)
(** * The repository's unit tests of recording and queueing, on the model

    The [#[test]] functions of [tracker.rs], [store.rs], [queue.rs],
    [events.rs] and [lib.rs], translated call by call and run on the
    definitions of this library: a test is the conjunction of its assertions,
    an [unwrap] that would panic makes it false.  The text encodings are those
    of [Codec.Bits]; a fresh UUID is a number of its own. *)
From S2P Require Import Prelude Codec Tracker Protocol Db Queue Store Events Recorder.
#[local] Open Scope Z_scope.

#[local] Existing Instances Bits.time_text Bits.uuid_text.
#[local] Existing Instances payload_serde stable_engine tree_order.

#[export] Instance UsageSessionRecord_eq_dec : EqDecision UsageSessionRecord.
Proof. solve_decision. Defined.
#[export] Instance Transition_eq_dec : EqDecision Transition.
Proof. solve_decision. Defined.

(** [assert_eq!] *)
Notation "a =?= b" := (bool_decide (a = b)) (at level 70).

Definition all_pass (tests : list bool) : bool := forallb (fun b => b) tests.

(** ** [tracker.rs] *)
Module TrackerTests.
Import UsageTracker.
Definition S1 : SessionId := 1%N.
Definition S2 : SessionId := 2%N.
Definition t (seconds : Z) : DateTime := secs (1700000000 + seconds).

Definition logon_starts_a_usage_session : bool :=
  let '(tr, x) := apply new (Logon S1) (t 0) in
  (x =?= Started (t 0)) && is_active tr.

Definition lock_ends_the_usage_session : bool :=
  let '(tr, _) := apply new (Logon S1) (t 0) in
  let '(tr, outcome) := apply tr (Lock S1) (t 100) in
  (outcome =?= Ended (mk_record (t 0) (t 100) EndReason.Lock)) && negb (is_active tr).

Definition unlock_after_lock_starts_a_new_session_not_resuming_the_old_one : bool :=
  let '(tr, _) := apply new (Logon S1) (t 0) in
  let '(tr, _) := apply tr (Lock S1) (t 100) in
  let '(_, outcome) := apply tr (Unlock S1) (t 500) in
  outcome =?= Started (t 500).

Definition logoff_ends_session_with_logoff_reason : bool :=
  let '(tr, _) := apply new (Logon S1) (t 0) in
  let '(_, outcome) := apply tr (Logoff S1) (t 50) in
  outcome =?= Ended (mk_record (t 0) (t 50) EndReason.Logoff).

Definition suspend_ends_session_and_resume_restarts_it_if_session_still_visible : bool :=
  let '(tr, _) := apply new (Logon S1) (t 0) in
  let '(tr, suspended) := apply tr Suspend (t 60) in
  let '(_, resumed) := apply tr Resume (t 3600) in
  (suspended =?= Ended (mk_record (t 0) (t 60) EndReason.Suspend)) &&
  (resumed =?= Started (t 3600)).

Definition resume_stays_inactive_if_session_had_locked_before_suspend : bool :=
  let '(tr, _) := apply new (Logon S1) (t 0) in
  let '(tr, _) := apply tr (Lock S1) (t 10) in
  let '(tr, _) := apply tr Suspend (t 20) in
  let '(tr, resumed) := apply tr Resume (t 3600) in
  (resumed =?= NoChange) && negb (is_active tr).

Definition second_session_keeps_device_active_when_first_locks : bool :=
  let '(tr, _) := apply new (Logon S1) (t 0) in
  let '(tr, _) := apply tr (Logon S2) (t 1) in
  let '(tr, outcome) := apply tr (Lock S1) (t 10) in
  (outcome =?= NoChange) && is_active tr.

Definition remote_disconnect_pauses_and_remote_connect_resumes : bool :=
  let '(tr, _) := apply new (Logon S1) (t 0) in
  let '(tr, paused) := apply tr (RemoteDisconnect S1) (t 30) in
  let '(_, resumed) := apply tr (RemoteConnect S1) (t 90) in
  (paused =?= Ended (mk_record (t 0) (t 30) EndReason.RemoteDisconnect)) &&
  (resumed =?= Started (t 90)).

Definition redundant_events_do_not_double_start_or_double_end : bool :=
  let '(tr, x1) := apply new (Logon S1) (t 0) in
  let '(tr, x2) := apply tr (Unlock S1) (t 1) in
  let '(tr, x3) := apply tr (Lock S1) (t 2) in
  let '(_, x4) := apply tr (Lock S1) (t 3) in
  (x1 =?= Started (t 0)) && (x2 =?= NoChange) && is_ended x3 && (x4 =?= NoChange).

Definition agent_restart_recovers_dangling_open_session_and_can_close_it : bool :=
  let tr := resume_open_session (t 0) in
  let '(tr', closed) := close tr (t 5) EndReason.AgentRestart in
  is_active tr && (closed =?= Some (mk_record (t 0) (t 5) EndReason.AgentRestart)) &&
  negb (is_active tr').

Lemma tracker_tests_pass : all_pass [
  logon_starts_a_usage_session; lock_ends_the_usage_session;
  unlock_after_lock_starts_a_new_session_not_resuming_the_old_one;
  logoff_ends_session_with_logoff_reason;
  suspend_ends_session_and_resume_restarts_it_if_session_still_visible;
  resume_stays_inactive_if_session_had_locked_before_suspend;
  second_session_keeps_device_active_when_first_locks;
  remote_disconnect_pauses_and_remote_connect_resumes;
  redundant_events_do_not_double_start_or_double_end;
  agent_restart_recovers_dangling_open_session_and_can_close_it] = true.
Proof. vm_compute. reflexivity. Qed.
End TrackerTests.

(** ** [store.rs] *)
Module StoreTests.
Import Store.
Definition t (seconds : Z) : DateTime := secs (1700000000 + seconds).

(** A test on [Store::open_in_memory()]. *)
Definition in_memory (m : db Store.t StoreError bool) : bool :=
  match (m (init, [])).1 with Ok b => b | Err _ => false end.

(** [SELECT id, start_utc, end_utc ... ORDER BY start_utc ASC], decoded. *)
Definition all_sessions : db Store.t StoreError (list (Uuid * DateTime * option DateTime)) :=
  rows <-- stmt SSqlite (fun s => (s, order_by_asc start_utc s));;
  db_lift (mapM (M := result StoreError) (fun r =>
    i ← expect (uuid_parse_str (id r));
    st ← expect (parse_from_rfc3339 (start_utc r));
    en ← match end_utc r with
         | None => Ok None
         | Some e => x ← expect (parse_from_rfc3339 e); Ok (Some x)
         end;
    Ok (i, st, en)) rows).

Definition start_then_end_round_trips : bool := in_memory (
  id <-- start_session 1%N (t 0);;
  end_session id (t 100) EndReason.Lock;;;
  sessions <-- all_sessions;;
  db_ret (sessions =?= [(id, t 0, Some (t 100))])).

Definition dangling_session_is_found_until_closed : bool := in_memory (
  id <-- start_session 1%N (t 0);;
  dangling <-- find_dangling_session;;
  end_session id (t 10) EndReason.AgentRestart;;;
  later <-- find_dangling_session;;
  db_ret ((dangling =?= Some (id, t 0)) && (later =?= None))).

Definition insert_closed_session_writes_both_ends_at_once : bool := in_memory (
  insert_closed_session 1%N (mk_record (t 0) (t 5) EndReason.Suspend);;;
  sessions <-- all_sessions;;
  db_ret ((length sessions =?= 1%nat) &&
          (map (fun s => (s.1.2, s.2)) sessions =?= [(t 0, Some (t 5))]))).

Lemma store_tests_pass : all_pass [
  start_then_end_round_trips; dangling_session_is_found_until_closed;
  insert_closed_session_writes_both_ends_at_once] = true.
Proof. vm_compute. reflexivity. Qed.
End StoreTests.

(** ** [queue.rs] *)
Module QueueTests.
Import EventQueue.
Definition t (seconds : Z) : DateTime := secs (1700000000 + seconds).

Definition sample_event (event_id : Uuid) : QueuedEvent :=
  mk_event event_id EventType.AgentStarted (t 0) EventSeverity.Info EventSource.Agent None None
    {["agentVersion"%string := JString "0.1.0"]}.

(** A test on [EventQueue::open_in_memory()]. *)
Definition in_memory (m : db EventQueue.t QueueError bool) : bool :=
  match (m (init, [])).1 with Ok b => b | Err _ => false end.

(** [queue.due_batch(..).unwrap()[k]]: out of range panics. *)
Definition nth_due (k : nat) (l : list PendingDelivery) : db EventQueue.t QueueError PendingDelivery :=
  match l !! k with Some d => db_ret d | None => db_fail QPanic end.

Definition find_by_event_id (eid : Uuid) : db EventQueue.t QueueError (option Z) :=
  stmt QSqlite (fun q =>
    (q, head (map id (List.filter (fun r => String.eqb (c_event_id r) (uuid_to_string eid)) (rows q))))).

Definition event_types (utc_now : DateTime) : db EventQueue.t QueueError (list EventType.t) :=
  events <-- due_batch (utc_now + secs 3600) 100;;
  db_ret (map (fun d => event_type (pd_event d)) events).

Definition enqueued_event_is_immediately_due : bool := in_memory (
  enqueue (sample_event 1) (t 0);;;
  due <-- due_batch (t 0) 10;;
  d <-- nth_due 0 due;;
  db_ret ((length due =?= 1%nat) && (event_id (pd_event d) =?= 1%N) && (pd_attempt_count d =?= 0))).

Definition round_trips_event_fields_including_data_payload : bool :=
  let event := mk_event 1 EventType.AgentStarted (t 0) EventSeverity.Info EventSource.Agent
                 (Some 2%N) (Some "jallen"%string) (Queue.data (sample_event 1)) in
  in_memory (
    enqueue event (t 0);;;
    due <-- due_batch (t 0) 10;;
    d <-- nth_due 0 due;;
    db_ret (pd_event d =?= event)).

Definition mark_delivered_removes_the_row : bool := in_memory (
  enqueue (sample_event 1) (t 0);;;
  due <-- due_batch (t 0) 10;;
  d <-- nth_due 0 due;;
  mark_delivered (row_id d);;;
  is_empty).

Definition mark_failed_schedules_next_attempt_using_backoff_schedule : bool := in_memory (
  enqueue (sample_event 1) (t 0);;;
  due <-- due_batch (t 0) 10;;
  d <-- nth_due 0 due;;
  mark_failed (row_id d) 0 (t 0);;;
  early <-- due_batch (t 5) 10;;
  due_again <-- due_batch (t 10) 10;;
  d' <-- nth_due 0 due_again;;
  db_ret ((early =?= []) && (length due_again =?= 1%nat) && (pd_attempt_count d' =?= 1))).

Definition backoff_follows_documented_schedule : bool :=
  (backoff_delay 1 =?= secs 10) && (backoff_delay 2 =?= secs 30) &&
  (backoff_delay 3 =?= secs 60) && (backoff_delay 4 =?= secs 300) &&
  (backoff_delay 5 =?= secs 900) && (backoff_delay 6 =?= secs 1800) &&
  (backoff_delay 20 =?= secs 1800).

Definition event_is_discarded_after_max_attempts : bool := in_memory (
  enqueue (sample_event 1) (t 0);;;
  due <-- due_batch (t 0) 10;;
  d <-- nth_due 0 due;;
  mark_failed (row_id d) (MAX_ATTEMPTS - 1) (t 0);;;
  found <-- find_by_event_id 1;;
  db_ret (found =?= None)).

Definition duplicate_local_enqueue_is_a_no_op : bool := in_memory (
  enqueue (sample_event 1) (t 0);;;
  enqueue (sample_event 1) (t 1);;;
  n <-- len;;
  db_ret (n =?= 1%nat)).

(** The row the test inserts past the capacity check. *)
Definition insert_directly (event : QueuedEvent) (at_ : DateTime) : db EventQueue.t QueueError unit :=
  payload_json <-- or_serde (to_json (Queue.data event));;
  stmt QSqlite (insert_on_conflict_nothing (fun i =>
    mk_row i (uuid_to_string (event_id event)) (event_type_to_string (event_type event))
      (to_rfc3339 (occurred_at event)) (severity_to_string (severity event))
      (source_to_string (source event)) None None payload_json 0 (to_rfc3339 at_) (to_rfc3339 at_))).

(** [for (i, id) in ids.iter().enumerate()] *)
Fixpoint for_each {A} (l : list A) (f : A -> db EventQueue.t QueueError unit) : db EventQueue.t QueueError unit :=
  match l with [] => db_ret tt | x :: l' => f x;;; for_each l' f end.

Definition queue_over_capacity_discards_oldest_events : bool := in_memory (
  for_each [0; 1; 2; 3; 4] (fun i => insert_directly (sample_event (Z.to_N (10 + i))) (t i));;;
  enforce_max_size_with_cap 2;;;
  n <-- len;;
  f3 <-- find_by_event_id 13;;
  f4 <-- find_by_event_id 14;;
  f0 <-- find_by_event_id 10;;
  db_ret ((n =?= 2%nat) && bool_decide (is_Some f3) && bool_decide (is_Some f4) && (f0 =?= None))).

Definition due_batch_respects_limit_and_fifo_order : bool := in_memory (
  for_each [0; 1; 2; 3; 4] (fun i => enqueue (sample_event (Z.to_N (10 + i))) (t i));;;
  batch <-- due_batch (t 10) 2;;
  db_ret (map (fun d => event_id (pd_event d)) batch =?= [10%N; 11%N])).

Lemma queue_tests_pass : all_pass [
  enqueued_event_is_immediately_due; round_trips_event_fields_including_data_payload;
  mark_delivered_removes_the_row; mark_failed_schedules_next_attempt_using_backoff_schedule;
  backoff_follows_documented_schedule; event_is_discarded_after_max_attempts;
  duplicate_local_enqueue_is_a_no_op; queue_over_capacity_discards_oldest_events;
  due_batch_respects_limit_and_fifo_order] = true.
Proof. vm_compute. reflexivity. Qed.
End QueueTests.

(** ** [events.rs] *)
Module EventTests.
(** Each constructor draws a fresh id and reads the clock. *)
Abbreviation made e := (e 1%N (secs 1700000000)) (only parsing).

Definition logon_maps_to_user_logon_with_windows_session_id_in_data : bool :=
  let event := made from_session_event (Logon 1) None in
  (event_type event =?= EventType.UserLogon) &&
  (Queue.data event !! "windowsSessionId"%string =?= Some (JNumber 1)) &&
  (ev_session_id event =?= None).
Definition logon_carries_the_resolved_username : bool :=
  username (made from_session_event (Logon 1) (Some "jallen"%string)) =?= Some "jallen"%string.
Definition lock_maps_to_user_lock : bool :=
  event_type (made from_session_event (Lock 1) None) =?= EventType.UserLock.
Definition suspend_and_resume_map_to_system_events_without_a_session_id : bool :=
  let suspend := made from_session_event Suspend None in
  let resume := made from_session_event Resume None in
  (event_type suspend =?= EventType.SystemSuspend) && (Queue.data suspend =?= ∅) &&
  (event_type resume =?= EventType.SystemResume).
Definition remote_and_console_connect_both_map_to_session_connected : bool :=
  (event_type (made from_session_event (ConsoleConnect 1) None) =?= EventType.SessionConnected) &&
  (event_type (made from_session_event (RemoteConnect 1) None) =?= EventType.SessionConnected).
Definition agent_started_carries_version_and_reason : bool :=
  let event := made agent_started "0.1.0" "WINDOWS_SERVICE_START" in
  (event_type event =?= EventType.AgentStarted) &&
  (Queue.data event !! "agentVersion"%string =?= Some (JString "0.1.0")) &&
  (Queue.data event !! "startReason"%string =?= Some (JString "WINDOWS_SERVICE_START")).
Definition system_shutdown_maps_to_system_shutdown : bool :=
  event_type (made system_shutdown) =?= EventType.SystemShutdown.
Definition system_boot_maps_to_system_boot : bool :=
  event_type (made system_boot) =?= EventType.SystemBoot.
Definition agent_error_is_error_severity : bool :=
  severity (made agent_error "connection refused") =?= EventSeverity.Error.
Definition power_action_requested_carries_action_and_reason : bool :=
  let event := made power_action_requested "SUSPEND" "offline fallback window" in
  (event_type event =?= EventType.PowerActionRequested) &&
  (Queue.data event !! "action"%string =?= Some (JString "SUSPEND")) &&
  (Queue.data event !! "reason"%string =?= Some (JString "offline fallback window")).
Definition power_action_failed_is_error_severity : bool :=
  let event := made power_action_failed "SUSPEND" "SetSuspendState failed" in
  (severity event =?= EventSeverity.Error) &&
  (Queue.data event !! "action"%string =?= Some (JString "SUSPEND")).

Lemma event_tests_pass : all_pass [
  logon_maps_to_user_logon_with_windows_session_id_in_data; logon_carries_the_resolved_username;
  lock_maps_to_user_lock; suspend_and_resume_map_to_system_events_without_a_session_id;
  remote_and_console_connect_both_map_to_session_connected;
  agent_started_carries_version_and_reason; system_shutdown_maps_to_system_shutdown;
  system_boot_maps_to_system_boot; agent_error_is_error_severity;
  power_action_requested_carries_action_and_reason; power_action_failed_is_error_severity] = true.
Proof. vm_compute. reflexivity. Qed.
End EventTests.

(** ** [lib.rs] *)
Module RecorderTests.
Import UsageRecorder.

(** [UsageRecorder::from_store(Store::open_in_memory())]; [with_queue]: with a
    queue of its own. *)
Definition recorder : result StoreError UsageRecorder.t := from_store (Store.init, []).
Definition recorder_with_queue : result StoreError UsageRecorder.t :=
  r ← recorder; Ok (with_event_queue (EventQueue.init, []) r).

(** The [k]th notification, at [at_] by the clock. *)
Definition handled (k : N) (e : SessionEvent) (user : option string) (at_ : DateTime)
    (r : UsageRecorder.t) : result StoreError UsageRecorder.t :=
  let '(res, r') := handle_at (mk_inputs (3 * k) (3 * k + 1) (3 * k + 2) at_) e user at_ r in
  _ ← res; Ok r'.

Definition passes (t : result StoreError bool) : bool := match t with Ok b => b | Err _ => false end.

(** The snapshot behind [snapshot_handle]. *)
Definition snapshot_is (r : UsageRecorder.t) (state : string) (user : option string) : bool :=
  (snap_state (snapshot r) =?= state) && (snap_username (snapshot r) =?= user).

Definition queued_types (utc_now : DateTime) (r : UsageRecorder.t) : list EventType.t :=
  match event_queue r with
  | Some q => match (QueueTests.event_types utc_now q).1 with Ok l => l | Err _ => [] end
  | None => []
  end.

Definition at_ : DateTime := secs 1700000000.

Definition username_is_resolved_from_a_non_logon_event_when_logon_was_never_observed : bool := passes (
  r ← recorder;
  r ← handled 1 (ConsoleConnect 7) (Some "alice"%string) at_ r;
  Ok (snapshot_is r "ACTIVE" (Some "alice"%string))).

Definition active_session_without_a_known_username_reports_locked_not_active : bool := passes (
  r ← recorder;
  r ← handled 1 (ConsoleConnect 7) None at_ r;
  Ok (snapshot_is r "LOCKED" None)).

Definition logoff_clears_username_and_reports_no_session : bool := passes (
  r ← recorder;
  r ← handled 1 (Logon 7) (Some "alice"%string) at_ r;
  r ← handled 2 (Logoff 7) None at_ r;
  Ok (snapshot_is r "NO_SESSION" None)).

Definition logon_persists_logon_then_active_and_updates_dashboard : bool := passes (
  r ← recorder_with_queue;
  r ← handled 1 (Logon 7) (Some "alice"%string) at_ r;
  Ok ((queued_types (at_ + secs 1) r =?= [EventType.UserLogon; EventType.Active]) &&
      (snap_state (snapshot r) =?= "ACTIVE"%string))).

Definition activity_transitions_are_persisted_and_logoff_is_not_a_second_logon : bool := passes (
  r ← recorder_with_queue;
  r ← handled 1 (Logon 7) (Some "alice"%string) at_ r;
  r ← handled 2 (Lock 7) None (at_ + secs 10) r;
  r ← handled 3 (Unlock 7) None (at_ + secs 20) r;
  r ← handled 4 (Logon 7) (Some "alice"%string) (at_ + secs 21) r;
  r ← handled 5 (Logoff 7) None (at_ + secs 30) r;
  Ok (queued_types (at_ + secs 60) r =?=
      [EventType.UserLogon; EventType.Active; EventType.UserLock; EventType.Inactive;
       EventType.UserUnlock; EventType.Active; EventType.UserLogoff])).

Definition startup_reconciliation_records_login_for_active_session : bool := passes (
  r ← recorder_with_queue;
  r ← handled 1 (Logon 7) (Some "alice"%string) at_ r;
  Ok ((queued_types (at_ + secs 1) r =?= [EventType.UserLogon; EventType.Active]) &&
      (snap_state (snapshot r) =?= "ACTIVE"%string))).

Lemma recorder_tests_pass : all_pass [
  username_is_resolved_from_a_non_logon_event_when_logon_was_never_observed;
  active_session_without_a_known_username_reports_locked_not_active;
  logoff_clears_username_and_reports_no_session;
  logon_persists_logon_then_active_and_updates_dashboard;
  activity_transitions_are_persisted_and_logoff_is_not_a_second_logon;
  startup_reconciliation_records_login_for_active_session] = true.
Proof. vm_compute. reflexivity. Qed.
End RecorderTests.
