(* ===== verification/TestsAgent.v ===== *)
(** * The repository's unit tests of the agent's settings and state, on the model

    The [#[test]] functions of [schedule.rs], [messages.rs], [clock.rs],
    [protocol.rs], [controller_client.rs], [discovery.rs], [config.rs] and
    [agent.rs], in the manner of [TestsUsage].  JSON and TOML are the codecs of
    [Codec.Bits] ([TestsWire] has the tests that name JSON text); a temporary
    directory is an empty file system; sockets are the exchanges
    they would deliver. *)
From S2P Require Import Prelude Codec Fs Schedule Messages Clock Protocol Db Queue Recorder Config.
From S2P Require Import Client Discovery Agent TestsUsage.
#[local] Open Scope Z_scope.

#[local] Existing Instances Bits.time_text Bits.uuid_text payload_serde stable_engine.
#[local] Instance schedule_text : Serde Schedule.t := Bits.serde_of_countable Schedule.t.
#[local] Instance store_text : Serde MessageStore.t := Bits.serde_of_countable MessageStore.t.
#[local] Instance toml_text : Serde AgentFileConfig := Bits.serde_of_countable AgentFileConfig.

(** [Utc.with_ymd_and_hms(2026, 10, 26, h, m, 0)] *)
Definition at_hm (h m : Z) : DateTime := secs (1792972800 + 3600 * h + 60 * m).
Definition minutes (n : Z) : Duration := secs (60 * n).

(** ** [schedule.rs] *)
Module ScheduleTests.
Import Schedule.
Definition at_ (h m : Z) : DateTime := at_hm h m.
Definition schedule : Schedule.t :=
  Schedule.mk "r1" Sleep "Europe/Dublin" [mk_window (at_ 22 30) (at_ 23 59)].

Definition window_is_half_open : bool :=
  (active_window schedule (at_ 22 29) =?= None) &&
  bool_decide (is_Some (active_window schedule (at_ 22 30))) &&
  (active_window schedule (at_ 23 59) =?= None).

Definition next_off_at_ignores_past_and_current : bool :=
  (next_off_at schedule (at_ 12 0) =?= Some (at_ 22 30)) &&
  (next_off_at schedule (at_ 22 30) =?= None).

Definition enforcement_waits_for_a_sync_then_falls_back_to_the_cache : bool :=
  let grace := secs 90 in
  negb (enforcement_ready false (secs 5) grace) && negb (enforcement_ready false (secs 89) grace) &&
  enforcement_ready false (secs 90) grace && enforcement_ready true 0 grace.

Definition save_and_load_round_trip_and_clear : bool :=
  let p := ("tmp", "schedule", "json")%string in
  let '(r1, fs1) := save None ∅ p (Some schedule) in
  let '(r2, fs2) := save None fs1 p None in
  let '(r3, _) := save None fs2 p None in
  is_ok r1 && (load fs1 p =?= Some schedule) && is_ok r2 && (load fs2 p =?= None) && is_ok r3.

Lemma schedule_tests_pass : all_pass [
  window_is_half_open; next_off_at_ignores_past_and_current;
  enforcement_waits_for_a_sync_then_falls_back_to_the_cache; save_and_load_round_trip_and_clear] = true.
Proof. vm_compute. reflexivity. Qed.
End ScheduleTests.

(** ** [messages.rs] *)
Module MessageTests.
Import MessageStore.
Definition now : DateTime := at_hm 22 0.
Definition msg (seq expires_in_min : Z) : AgentMessage.t :=
  AgentMessage.mk seq (Z.to_N seq) None ("m" +:+ pretty.pretty seq) now (now + minutes expires_in_min).

Definition apply_advances_cursor_and_dedupes : bool :=
  let '(s, changed) := apply default [msg 3 60; msg 5 60] now in
  let '(s', again) := apply s [msg 5 60] now in
  changed && (last_seq s =?= 5) && negb again && (length (messages s') =?= 2%nat).

Definition expired_messages_are_dropped_but_the_cursor_keeps_its_place : bool :=
  let '(s, _) := apply default [msg 7 10] now in
  let later := now + minutes 30 in
  let '(s', changed) := apply s [] later in
  (live s later =?= []) && changed && (messages s' =?= []) && (last_seq s' =?= 7).

Definition already_expired_messages_still_advance_the_cursor : bool :=
  let '(s, _) := apply default [msg 9 (-5)] now in
  (last_seq s =?= 9) && (messages s =?= []).

Definition save_and_load_round_trip : bool :=
  let p := ("tmp", "messages", "json")%string in
  let '(s, _) := apply default [msg 2 60] now in
  let '(r, fs) := save None ∅ p s in
  is_ok r && (load fs p =?= s) && (load fs ("tmp", "missing", "json")%string =?= default).

Lemma message_tests_pass : all_pass [
  apply_advances_cursor_and_dedupes; expired_messages_are_dropped_but_the_cursor_keeps_its_place;
  already_expired_messages_still_advance_the_cursor; save_and_load_round_trip] = true.
Proof. vm_compute. reflexivity. Qed.
End MessageTests.

(** ** [clock.rs] *)
Module ClockTests.
Definition ntp_timestamps_round_trip_through_unix_milliseconds : bool :=
  forallb (fun ms => Z.abs (from_ntp (to_ntp ms) - ms) <=? 1)
    [0; 1000; 1792700000123; 1792700000999].

Definition a_known_ntp_timestamp_is_the_expected_unix_time : bool :=
  from_be_bytes (take 4 (to_ntp 1792695600000)) =?= 1792695600 + NTP_UNIX_DELTA.

Definition offset_is_zero_for_a_matching_clock_and_signed_otherwise : bool :=
  (offset_ms 1000 1010 1010 1020 =?= 0) &&
  (offset_ms 1000 3601010 3601010 1020 =?= 3600000) &&
  (offset_ms 3601000 1010 1010 3601020 =?= -3600000) &&
  (delay_ms 1000 1010 1015 1025 =?= 20).

Definition reply_for (request : list byte) (t2 t3 : Z) : list byte :=
  [0x24; 2] ++ zeros 22 ++ slice 40 48 request ++ to_ntp t2 ++ to_ntp t3.

Definition a_valid_reply_is_accepted_and_bad_ones_are_refused : bool :=
  let request := request_packet 1792695600000 in
  let good := reply_for request 1792695600010 1792695600011 in
  let refused reply request := negb (is_ok (parse_reply reply request)) in
  match parse_reply good request with
  | Ok (t2, t3) => (Z.abs (t2 - 1792695600010) <=? 1) && (Z.abs (t3 - 1792695600011) <=? 1)
  | Err _ => false
  end &&
  refused (<[0%nat := 0x23]> good) request &&
  refused (<[0%nat := Z.lor (nth_byte good 0) 0xC0]> good) request &&
  refused (<[1%nat := 0]> good) request &&
  refused good (request_packet 1792695700000) &&
  refused (take 20 good) request.

Definition the_median_ignores_one_wrong_server : bool :=
  (median [5; 3600000; 7] =?= Some 7) && (median [10; 20] =?= Some 15) && (median [] =?= None).

(** A server an hour ahead that answers within 20 ms. *)
Definition query_measures_the_offset_against_a_server_that_is_an_hour_ahead : bool :=
  let t1 := 1792695600000 in
  let ahead := t1 + 10 + 3600000 in
  match query (mk_exchange t1 (Some (reply_for (request_packet t1) ahead ahead, true)) (t1 + 20)) with
  | Ok offset => Z.abs (offset - 3600000) <? 500
  | Err _ => false
  end.

Definition query_times_out_on_a_silent_server : bool :=
  negb (is_ok (query (mk_exchange 1792695600000 None 1792695600200))).

Definition the_trusted_clock_applies_the_offset_and_reports_readiness : bool :=
  let clock := TrustedClock.new true in
  let set := TrustedClock.set_offset_ms clock 3600000 in
  let utc_now := at_hm 22 0 in
  negb (TrustedClock.is_ready clock) && TrustedClock.is_ready set &&
  (Z.abs ((TrustedClock.now set utc_now - utc_now) / ns_per_ms - 3600000) <? 1000) &&
  TrustedClock.is_ready (TrustedClock.new false).

Lemma clock_tests_pass : all_pass [
  ntp_timestamps_round_trip_through_unix_milliseconds;
  a_known_ntp_timestamp_is_the_expected_unix_time;
  offset_is_zero_for_a_matching_clock_and_signed_otherwise;
  a_valid_reply_is_accepted_and_bad_ones_are_refused; the_median_ignores_one_wrong_server;
  query_measures_the_offset_against_a_server_that_is_an_hour_ahead;
  query_times_out_on_a_silent_server;
  the_trusted_clock_applies_the_offset_and_reports_readiness] = true.
Proof. vm_compute. reflexivity. Qed.
End ClockTests.

(** ** [protocol.rs] and [controller_client.rs] *)
Module ProtocolTests.
Definition event_type_serializes_as_screaming_snake_case : bool :=
  (event_type_to_string EventType.AgentStarted =?= quote "AGENT_STARTED") &&
  (event_type_to_string EventType.UserLogon =?= quote "USER_LOGON") &&
  (event_type_to_string EventType.ControllerDiscoveryFailed =?= quote "CONTROLLER_DISCOVERY_FAILED").

Definition device_not_found_detection : bool :=
  is_device_not_found (ApiError 404 "") && negb (is_device_not_found (ApiError 500 "")).

Definition no_op_signer_never_signs : bool :=
  match no_op_sign "anything" with Ok None => true | _ => false end.

Lemma protocol_tests_pass : all_pass [
  event_type_serializes_as_screaming_snake_case; device_not_found_detection; no_op_signer_never_signs] = true.
Proof. vm_compute. reflexivity. Qed.
End ProtocolTests.

(** ** [discovery.rs] *)
Module DiscoveryTests.
(** [Ipv4Addr::new] *)
Definition ipv4 (a b c d : Z) : Z := a * 2 ^ 24 + b * 2 ^ 16 + c * 2 ^ 8 + d.

Definition slash_24_yields_254_hosts_excluding_network_and_broadcast : bool :=
  let hosts := hosts_in_subnet (ipv4 10 0 0 160) (ipv4 255 255 255 0) in
  (length hosts =?= 254%nat) &&
  bool_decide (ipv4 10 0 0 0 ∉ hosts) && bool_decide (ipv4 10 0 0 255 ∉ hosts) &&
  bool_decide (ipv4 10 0 0 1 ∈ hosts) && bool_decide (ipv4 10 0 0 254 ∈ hosts).
Definition slash_30_yields_two_hosts : bool :=
  hosts_in_subnet (ipv4 192 168 1 5) (ipv4 255 255 255 252) =?= [ipv4 192 168 1 5; ipv4 192 168 1 6].
Definition slash_31_has_no_usable_host_range : bool :=
  hosts_in_subnet (ipv4 192 168 1 5) (ipv4 255 255 255 254) =?= [].
Definition slash_32_has_no_usable_host_range : bool :=
  hosts_in_subnet (ipv4 192 168 1 5) (ipv4 255 255 255 255) =?= [].

#[export] Instance DiscoveredController_eq_dec : EqDecision DiscoveredController.
Proof. solve_decision. Defined.

Definition controller (id : Uuid) (priority response_ms : Z) : DiscoveredController :=
  mk_discovered id "Test" "http://example.invalid" priority (millis response_ms).

Definition selects_highest_priority : bool :=
  (priority <$> select_best [controller 1 50 10; controller 2 100 20]) =?= Some 100.
Definition ties_on_priority_break_by_fastest_response : bool :=
  (response_time <$> select_best [controller 1 100 50; controller 2 100 10]) =?= Some (millis 10).
Definition ties_on_priority_and_speed_break_by_lexically_smallest_id : bool :=
  let a := 0xaaaaaaaa000000000000000000000000%N in
  let b := 0xbbbbbbbb000000000000000000000000%N in
  (controller_id <$> select_best [controller b 100 10; controller a 100 10]) =?= Some a.
Definition empty_candidates_selects_nothing : bool := select_best [] =?= None.

Lemma discovery_tests_pass : all_pass [
  slash_24_yields_254_hosts_excluding_network_and_broadcast; slash_30_yields_two_hosts;
  slash_31_has_no_usable_host_range; slash_32_has_no_usable_host_range; selects_highest_priority;
  ties_on_priority_break_by_fastest_response;
  ties_on_priority_and_speed_break_by_lexically_smallest_id; empty_candidates_selects_nothing] = true.
Proof. vm_compute. reflexivity. Qed.
End DiscoveryTests.

(** ** [config.rs] *)
Module ConfigTests.
Definition empty_file : AgentFileConfig := default_file.
(** [resolve] as the tests call it; 9 is the id it would generate. *)
Definition resolved (file : AgentFileConfig) (env cli : Overrides) : AgentConfig :=
  resolve 9%N file env cli "h".
Definition plain (file : AgentFileConfig) : AgentConfig := resolved file no_overrides no_overrides.
Definition with_name (name : string) (f : AgentFileConfig) : AgentFileConfig :=
  mk_file (mk_agent_section (f_device_id (f_agent f)) name None None) (f_controller f) (f_time f).
Definition with_servers (enabled : option bool) (servers : list string) (f : AgentFileConfig)
  : AgentFileConfig := mk_file (f_agent f) (f_controller f) (mk_time_section enabled (Some servers)).
Definition with_url (url : string) : Overrides := mk_overrides (Some url) None None None.

Definition missing_device_id_is_generated : bool := device_id_generated (plain empty_file).
Definition configured_device_id_is_parsed_and_not_regenerated : bool :=
  let text := uuid_to_string 764814%N in
  let cfg := plain (set_device_id text empty_file) in
  negb (device_id_generated cfg) && (uuid_to_string (device_id cfg) =?= text).
Definition missing_device_name_defaults_to_hostname : bool :=
  device_name (resolve 9%N empty_file no_overrides no_overrides "gaming-pc") =?= "gaming-pc"%string.
Definition precedence_is_cli_then_env_then_file_then_default : bool :=
  let file := set_url "http://from-file:8080" empty_file in
  let env := with_url "http://from-env:8080" in
  let cli := with_url "http://from-cli:8080" in
  (Config.controller_url (plain file) =?= Some "http://from-file:8080"%string) &&
  (Config.controller_url (resolved file env no_overrides) =?= Some "http://from-env:8080"%string) &&
  (Config.controller_url (resolved file env cli) =?= Some "http://from-cli:8080"%string).
Definition no_controller_url_configured_anywhere_is_none : bool :=
  Config.controller_url (plain empty_file) =?= None.
Definition discovery_enabled_defaults_to_true : bool := discovery_enabled (plain empty_file).
Definition env_can_disable_discovery : bool :=
  negb (discovery_enabled (resolved empty_file (mk_overrides None None None (Some false)) no_overrides)).
Definition blank_file_values_are_treated_as_unset : bool :=
  Config.controller_url (plain (set_url "   " empty_file)) =?= None.
Definition defaults_match_documented_values : bool :=
  let cfg := plain empty_file in
  (heartbeat_interval cfg =?= secs 30) && (event_retry_interval cfg =?= secs 10) &&
  (discovery_port cfg =?= 45821) && (discovery_timeout cfg =?= secs 5).
Definition ntp_is_on_by_default_with_public_servers : bool :=
  let cfg := plain empty_file in
  ntp_enabled cfg && (length (ntp_servers cfg) =?= 3%nat) &&
  existsb (String.eqb "pool.ntp.org") (ntp_servers cfg).
Definition ntp_servers_can_be_configured_and_blank_entries_are_ignored : bool :=
  let cfg := plain (with_servers (Some false) [" ntp.example.org "; ""]%string empty_file) in
  let cfg' := plain (with_servers (Some false) ["  "]%string empty_file) in
  negb (ntp_enabled cfg) && (ntp_servers cfg =?= ["ntp.example.org"]%string) &&
  (length (ntp_servers cfg') =?= 3%nat).

Definition file_path : path := ("tmp", "agent", "toml")%string.
(** The loaded file satisfies [p]. *)
Definition loaded (fs : Fs.t) (p : AgentFileConfig -> bool) : bool :=
  match load_file fs file_path with Ok file => p file | Err _ => false end.

Definition load_missing_file_returns_default_not_error : bool :=
  loaded ∅ (fun file => f_device_id (f_agent file) =?= EmptyString).
Definition save_then_load_round_trips : bool :=
  let file := set_url "http://192.168.1.20:8080" (with_name "Gaming PC" default_file) in
  let '(r, fs) := save_file None ∅ file_path file in
  is_ok r && loaded fs (fun l => (f_device_name (f_agent l) =?= "Gaming PC"%string) &&
                                 (f_url (f_controller l) =?= "http://192.168.1.20:8080"%string)).
Definition persist_device_id_preserves_other_fields : bool :=
  let '(r, fs) := save_file None ∅ file_path (with_name "Gaming PC" default_file) in
  let '(r', fs') := persist_device_id None fs file_path 17%N in
  is_ok r && is_ok r' && loaded fs' (fun l => (f_device_id (f_agent l) =?= uuid_to_string 17%N) &&
                                              (f_device_name (f_agent l) =?= "Gaming PC"%string)).
Definition persist_controller_url_preserves_other_fields : bool :=
  let '(r, fs) := save_file None ∅ file_path (with_name "Gaming PC" default_file) in
  let '(r', fs') := persist_controller_url None fs file_path "http://192.168.1.20:8080" in
  is_ok r && is_ok r' &&
  loaded fs' (fun l => (f_url (f_controller l) =?= "http://192.168.1.20:8080"%string) &&
                       (f_device_name (f_agent l) =?= "Gaming PC"%string)).

Lemma config_tests_pass : all_pass [
  missing_device_id_is_generated; configured_device_id_is_parsed_and_not_regenerated;
  missing_device_name_defaults_to_hostname; precedence_is_cli_then_env_then_file_then_default;
  no_controller_url_configured_anywhere_is_none; discovery_enabled_defaults_to_true;
  env_can_disable_discovery; blank_file_values_are_treated_as_unset;
  defaults_match_documented_values; ntp_is_on_by_default_with_public_servers;
  ntp_servers_can_be_configured_and_blank_entries_are_ignored;
  load_missing_file_returns_default_not_error; save_then_load_round_trips;
  persist_device_id_preserves_other_fields; persist_controller_url_preserves_other_fields] = true.
Proof. vm_compute. reflexivity. Qed.
End ConfigTests.

(** ** [agent.rs] *)
Module AgentTests.
Import Agent.
(** The tests run at one moment, by both clocks. *)
Definition utc_now : DateTime := at_hm 12 0.
Definition started : Instant := secs 5.
Definition toml : path := ("tmp", "agent", "toml")%string.
Definition cache : path := ("tmp", "schedule", "json")%string.

Definition agent_with_cached_schedule_ntp (windows : list OffWindow) (ntp : bool)
  : result ConfigError Agent.t :=
  let cached := Schedule.mk "cached" Sleep "UTC" windows in
  let fs := (Schedule.save None ∅ cache (Some cached)).2 in
  let '(r, fs) := Config.load 9%N (Some "host"%string) (fun _ => None) None fs toml no_overrides in
  c ← r;
  let c := mk_config (device_id c) (device_id_generated c) (device_name c) (heartbeat_interval c)
             (event_retry_interval c) (Config.controller_url c) (discovery_enabled c)
             (discovery_port c) (discovery_timeout c) ntp (ntp_servers c) in
  Ok (new c toml (EventQueue.init, []) default_snapshot fs started).
Definition agent_with_cached_schedule (windows : list OffWindow) : result ConfigError Agent.t :=
  agent_with_cached_schedule_ntp windows false.

Definition open_window : OffWindow := mk_window (utc_now - secs 3600) (utc_now + secs 3600).

Definition passes (t : result ConfigError bool) : bool := match t with Ok b => b | Err _ => false end.
Definition enforceable (grace : Duration) (a : Agent.t) : option Schedule.t :=
  (enforcement_view a grace started).1.
Definition held_for (grace : Duration) (a : Agent.t) : option Duration :=
  (enforcement_view a grace started).2.
Definition some {A} (o : option A) : bool := match o with Some _ => true | None => false end.

Definition enforcement_also_waits_for_the_clock_to_be_checked_against_ntp : bool := passes (
  a ← agent_with_cached_schedule_ntp [open_window] true;
  let a := mark_schedule_synced a in
  let a' := set_clock (TrustedClock.set_offset_ms (clock a) 0) a in
  Ok (negb (some (enforceable (secs 90) a)) && some (enforceable (secs 90) a'))).

Definition a_slow_system_clock_does_not_hide_a_window_that_has_started : bool := passes (
  a ← agent_with_cached_schedule_ntp
        [mk_window (utc_now + minutes 30) (utc_now + minutes 60)] true;
  let a' := set_clock (TrustedClock.set_offset_ms (clock a) (40 * 60 * 1000)) a in
  Ok match schedule a with
     | Some s => negb (some (Schedule.active_window s utc_now)) &&
                 some (Schedule.active_window s (now a' utc_now))
     | None => false
     end).

Definition startup_does_not_enforce_the_cached_schedule_until_the_controller_confirms_it : bool := passes (
  a ← agent_with_cached_schedule [open_window];
  let a' := mark_schedule_synced
              (apply_schedule None (Some (Schedule.mk "fresh" Sleep "UTC" [])) a) in
  Ok (some (schedule a) && negb (some (enforceable (secs 90) a)) && some (held_for (secs 90) a) &&
      ((Schedule.revision <$> enforceable (secs 90) a') =?= Some "fresh"%string) &&
      negb (some (held_for (secs 90) a')))).

Definition an_unreachable_controller_falls_back_to_the_cache_after_the_grace_period : bool := passes (
  a ← agent_with_cached_schedule [open_window];
  Ok ((Schedule.revision <$> enforceable 0 a) =?= Some "cached"%string)).

Definition resuming_from_sleep_makes_the_schedule_need_confirming_again : bool := passes (
  a ← agent_with_cached_schedule [open_window];
  let a1 := mark_schedule_synced a in
  let a2 := invalidate_schedule_sync started a1 in
  let a3 := mark_schedule_synced a2 in
  Ok (some (enforceable (secs 90) a1) && negb (some (enforceable (secs 90) a2)) &&
      some (held_for (secs 90) a2) && some (enforceable (secs 90) a3))).

Definition a_controller_saying_no_schedule_also_counts_as_confirmation_and_clears_the_cache : bool := passes (
  a ← agent_with_cached_schedule [open_window];
  let a' := mark_schedule_synced (apply_schedule None None a) in
  Ok (negb (some (enforceable (secs 90) a')) && negb (some (Schedule.load (disk a') cache)))).

Lemma agent_tests_pass : all_pass [
  enforcement_also_waits_for_the_clock_to_be_checked_against_ntp;
  a_slow_system_clock_does_not_hide_a_window_that_has_started;
  startup_does_not_enforce_the_cached_schedule_until_the_controller_confirms_it;
  an_unreachable_controller_falls_back_to_the_cache_after_the_grace_period;
  resuming_from_sleep_makes_the_schedule_need_confirming_again;
  a_controller_saying_no_schedule_also_counts_as_confirmation_and_clears_the_cache] = true.
Proof. vm_compute. reflexivity. Qed.
End AgentTests.
