(* ===== verification/TestsWire.v ===== *)
(** * The repository's unit tests of JSON text, on the model

    The [#[test]] functions of [protocol.rs], [schedule.rs], [discovery.rs],
    [notify_pipe.rs] and [ipc/src/lib.rs] that name JSON text, on that text:
    [Rfc] reads it, ids are in their hyphenated form and times in RFC 3339.
    The quotes of a text are written as apostrophes ([js]). *)
From Stdlib Require Import Ascii.
From S2P Require Import Prelude Codec Json Fs Schedule Messages Protocol Derive Discovery Ipc Access.
From S2P Require Import Notifier Warnings Wire TestsUsage TestsAgent.
#[local] Open Scope Z_scope.

(** ** The texts of ids and times *)
Module Formats.
Fixpoint hex_digits (w : nat) (n : N) : string :=
  match w with
  | O => EmptyString
  | S w' => String (Rfc.hex (N.to_nat (N.modulo (N.div n (16 ^ N.of_nat w')) 16))) (hex_digits w' n)
  end.
Definition uuid_to_string (u : Uuid) : string :=
  hex_digits 8 (N.shiftr u 96) +:+ "-" +:+ hex_digits 4 (N.shiftr u 80) +:+ "-" +:+
  hex_digits 4 (N.shiftr u 64) +:+ "-" +:+ hex_digits 4 (N.shiftr u 48) +:+ "-" +:+ hex_digits 12 u.
Definition uuid_parse_str (s : string) : option Uuid :=
  match split "-" s with
  | [a; b; c; d; e] =>
      if bool_decide (map String.length [a; b; c; d; e] = [8; 4; 4; 4; 12]%nat)
      then Z.to_N <$> read_hex 0 (String.concat EmptyString [a; b; c; d; e]) else None
  | _ => None
  end.

Definition days_from_civil (y m d : Z) : Z :=
  let y := if m <=? 2 then y - 1 else y in
  let era := y / 400 in
  let yoe := y - era * 400 in
  let doy := (153 * (m + (if 2 <? m then -3 else 9)) + 2) / 5 + d - 1 in
  era * 146097 + (yoe * 365 + yoe / 4 - yoe / 100 + doy) - 719468.
Definition civil_from_days (z : Z) : Z * Z * Z :=
  let z := z + 719468 in
  let era := z / 146097 in
  let doe := z - era * 146097 in
  let yoe := (doe - doe / 1460 + doe / 36524 - doe / 146096) / 365 in
  let doy := doe - (365 * yoe + yoe / 4 - yoe / 100) in
  let mp := (5 * doy + 2) / 153 in
  let m := if mp <? 10 then mp + 3 else mp - 9 in
  (yoe + era * 400 + (if m <=? 2 then 1 else 0), m, doy - (153 * mp + 2) / 5 + 1).

Fixpoint decimal (w : nat) (z : Z) : string :=
  match w with
  | O => EmptyString
  | S w' => String (ascii_of_nat (48 + Z.to_nat (z / 10 ^ Z.of_nat w' mod 10))) (decimal w' z)
  end.
(** Whole seconds, in UTC. *)
Definition time_text (t : DateTime) : string :=
  let s := t / ns_per_sec in
  let '(y, m, d) := civil_from_days (s / 86400) in
  let r := s mod 86400 in
  decimal 4 y +:+ "-" +:+ decimal 2 m +:+ "-" +:+ decimal 2 d +:+ "T" +:+
  decimal 2 (r / 3600) +:+ ":" +:+ decimal 2 (r / 60 mod 60) +:+ ":" +:+ decimal 2 (r mod 60) +:+ "Z".

Fixpoint read_decimal (acc : Z) (s : string) : option Z :=
  match s with
  | EmptyString => Some acc
  | String c s' =>
      let n := Z.of_nat (nat_of_ascii c) in
      if (48 <=? n) && (n <=? 57) then read_decimal (10 * acc + (n - 48)) s' else None
  end.
Definition time_read (s : string) : option DateTime :=
  match split "T" s with
  | [date; time] =>
      match split "-" date, split ":" time with
      | [y; m; d], [h; mi; sz] =>
          y ← read_decimal 0 y; m ← read_decimal 0 m; d ← read_decimal 0 d; h ← read_decimal 0 h;
          mi ← read_decimal 0 mi;
          match split "Z" sz with
          | [sec; EmptyString] =>
              sec ← read_decimal 0 sec;
              Some (secs (86400 * days_from_civil y m d + 3600 * h + 60 * mi + sec))
          | _ => None
          end
      | _, _ => None
      end
  | _ => None
  end.

Definition uuids : UuidText := {|
  Codec.uuid_valid u := (u < 2 ^ 128)%N;
  Codec.uuid_to_string := uuid_to_string;
  Codec.uuid_parse_str := uuid_parse_str;
|}.
Definition times : TimeJson := {|
  time_valid t := time_read (time_text t) = Some t;
  Derive.time_text := time_text;
  Derive.time_read := time_read;
|}.

Example a_time : time_text (at_hm 22 30) = "2026-10-26T22:30:00Z"%string /\
  time_read "2026-10-26T22:30:00Z" = Some (at_hm 22 30).
Proof. vm_compute. done. Qed.
Example an_id : uuid_parse_str "5872d46f-8c22-411f-9184-6ec069b85370" =
  Some 0x5872d46f8c22411f91846ec069b85370%N /\
  uuid_to_string 0x5872d46f8c22411f91846ec069b85370%N = "5872d46f-8c22-411f-9184-6ec069b85370"%string.
Proof. vm_compute. done. Qed.
End Formats.

#[local] Existing Instances Bits.time_text Rfc.text.
#[local] Existing Instances Formats.uuids Formats.times.

Definition js (s : string) : string := replace "'" quote_str s.

(** ** [protocol.rs] *)
Module ProtocolTextTests.
Definition get (v : value) (name : string) : option value :=
  match v with VObject m => member name m | _ => None end.
Definition index (v : value) (n : nat) : option value := match v with VArray vs => vs !! n | _ => None end.

Definition register_request_uses_camel_case_fields : bool :=
  let req := mk_register_request 0 "PC" "pc" "0.1.0" "Windows 11" "10.0" "x86_64" ["10.0.0.1"%string]
    [mk_interface "Ethernet" (Some "aa:bb:cc:dd:ee:ff"%string) ["10.0.0.5"%string]] in
  match json_parse (json_print (enc_register_request req)) with
  | Some json =>
      bool_decide (is_Some (get json "deviceId")) &&
      bool_decide (is_Some (get json "operatingSystemVersion")) &&
      bool_decide (is_Some (get json "localIpAddresses")) &&
      match i ← get json "networkInterfaces"; i ← index i 0; get i "macAddress" with
      | Some (VString mac) => mac =?= "aa:bb:cc:dd:ee:ff"%string
      | _ => false
      end
  | None => false
  end.

Definition register_response_deserializes_from_controller_shaped_json : bool :=
  let json := js "{
            'deviceId': '764f814d-f71c-41d4-b89f-d4f914653036',
            'controllerId': '5872d46f-8c22-411f-9184-6ec069b85370',
            'registeredAt': '2026-07-25T12:00:00Z',
            'heartbeatIntervalSeconds': 30,
            'accepted': true
        }" in
  match v ← json_parse json; dec_register_response v with
  | Some resp => (rr_heartbeat_interval_seconds resp =?= 30) && rr_accepted resp
  | None => false
  end.

Definition event_result_status_deserializes : bool :=
  (v ← json_parse (js "'DUPLICATE'"); dec_event_result_status v) =?= Some EventResultStatus.Duplicate.

Definition schedule_deserializes_controller_json : bool :=
  let json := js "{'revision':'abc','action':'SHUTDOWN','timezone':'Europe/Dublin',
            'windows':[{'offAt':'2026-10-26T22:30:00Z','onAt':'2026-10-27T06:30:00Z'}]}" in
  match v ← json_parse json; dec w_schedule v with
  | Some s => (Schedule.action s =?= Shutdown) && (length (Schedule.windows s) =?= 1%nat)
  | None => false
  end.

Lemma protocol_text_tests_pass : all_pass [
  register_request_uses_camel_case_fields; register_response_deserializes_from_controller_shaped_json;
  event_result_status_deserializes; schedule_deserializes_controller_json] = true.
Proof. vm_compute. reflexivity. Qed.
End ProtocolTextTests.

(** ** [discovery.rs] *)
Module DiscoveryTextTests.
#[local] Instance available_text : Serde ControllerAvailableMessage :=
  deserialize_only dec_controller_available.
Definition id1 : Uuid := 0x764f814df71c41d4b89fd4f914653036%N.
Definition id2 : Uuid := 0x11111111222243338444555555555555%N.

Definition sample_response_json (request_id : Uuid) : string := js ("{
                'protocol': 'timelord-discovery',
                'protocolVersion': 1,
                'messageType': 'CONTROLLER_AVAILABLE',
                'requestId': '" +:+ uuid_to_string request_id +:+ "',
                'controllerId': '5872d46f-8c22-411f-9184-6ec069b85370',
                'controllerName': 'Home TimeLord',
                'controllerUrl': 'http://192.168.1.20:8080',
                'priority': 100
            }").

(** [str::replace]: every occurrence of [from]. *)
Fixpoint strip_prefix (p s : string) : option string :=
  match p, s with
  | EmptyString, _ => Some s
  | String a p', String b s' => if Ascii.eqb a b then strip_prefix p' s' else None
  | _, EmptyString => None
  end.
Fixpoint replace_text (fuel : nat) (from to s : string) : string :=
  match fuel with
  | O => s
  | S fuel' =>
      match strip_prefix from s, s with
      | Some rest, _ => to +:+ replace_text fuel' from to rest
      | None, String c s' => String c (replace_text fuel' from to s')
      | None, EmptyString => EmptyString
      end
  end.
Definition edited (from to : string) : string :=
  let json := sample_response_json id1 in replace_text (S (String.length json)) (js from) (js to) json.
Definition rejected (json : string) : bool :=
  bool_decide (validate_response json id1 (millis 5) = None).

Definition valid_response_is_accepted : bool :=
  match validate_response (sample_response_json id1) id1 (millis 5) with
  | Some c => (controller_name c =?= "Home TimeLord"%string) && (priority c =?= 100)
  | None => false
  end.
Definition mismatched_request_id_is_rejected : bool := rejected (sample_response_json id2).
Definition wrong_protocol_name_is_rejected : bool :=
  rejected (edited "timelord-discovery" "some-other-protocol").
Definition unsupported_protocol_version_is_rejected : bool :=
  rejected (edited "'protocolVersion': 1" "'protocolVersion': 999").
Definition wrong_message_type_is_rejected : bool :=
  rejected (edited "CONTROLLER_AVAILABLE" "CONTROLLER_ANNOUNCEMENT").
Definition non_http_controller_url_is_rejected : bool :=
  rejected (edited "http://192.168.1.20:8080" "not-a-url").
Definition malformed_json_is_rejected : bool := rejected "not json at all".

(** The responder's part of the loopback test: it reads [requestId] out of
    the request and answers with it. *)
Definition respond_to (request : string) : option string :=
  json ← json_parse request;
  match json with
  | VObject m =>
      match member "requestId" m with
      | Some (VString id) => Some (js ("{
                    'protocol': 'timelord-discovery',
                    'protocolVersion': 1,
                    'messageType': 'CONTROLLER_AVAILABLE',
                    'requestId': '" +:+ id +:+ "',
                    'controllerId': '5872d46f-8c22-411f-9184-6ec069b85370',
                    'controllerName': 'Loopback Controller',
                    'controllerUrl': 'http://127.0.0.1:8080',
                    'priority': 100
                }"))
      | _ => None
      end
  | _ => None
  end.
Definition discover_receives_and_validates_a_real_udp_response : bool :=
  let request := mk_discover PROTOCOL_NAME PROTOCOL_VERSION TYPE_DISCOVER_CONTROLLER id1 "0.1.0" id2 "test-pc" in
  match response ← respond_to (json_print (enc_discover_request request));
        validate_response response id1 (millis 1) with
  | Some c => controller_name c =?= "Loopback Controller"%string
  | None => false
  end.

Lemma discovery_text_tests_pass : all_pass [
  valid_response_is_accepted; mismatched_request_id_is_rejected; wrong_protocol_name_is_rejected;
  unsupported_protocol_version_is_rejected; wrong_message_type_is_rejected;
  non_http_controller_url_is_rejected; malformed_json_is_rejected;
  discover_receives_and_validates_a_real_udp_response] = true.
Proof. vm_compute. reflexivity. Qed.
End DiscoveryTextTests.

(** ** [notify_pipe.rs] and [ipc/src/lib.rs] *)
Module PipeTextTests.
#[local] Existing Instances request_text response_text.
Definition at_ (h m : Z) : DateTime := at_hm h m.
Definition answer (line : string) (s : option Schedule.t) (ms : list AgentMessage.t) (now : DateTime)
  : option string := handle_line sample_ids line s ms now.
Definition ask (r : Request) : string := default EmptyString (to_json r).
#[export] Instance Request_eq_dec : EqDecision Request.
Proof. solve_decision. Defined.
#[export] Instance Response_eq_dec : EqDecision Response.
Proof. solve_decision. Defined.

Definition handle_line_answers_get_pending_and_ignores_garbage : bool :=
  let s := Some (Schedule.mk "r" Sleep "UTC" [mk_window (at_ 22 30) (at_ 22 30 + secs (8 * 3600))]) in
  match answer (js "{'type':'GetPending'}") s [] (at_ 22 20) ≫= from_json with
  | Some (Pending server_utc actions) => (server_utc =?= at_ 22 20) && (length actions =?= 1%nat)
  | _ => false
  end && (answer "not json" s [] (at_ 22 20) =?= None) &&
  (answer (js "{'type':'Postpone'}") s [] (at_ 22 20) =?= None).

Definition get_messages_returns_only_unexpired_messages : bool :=
  let live := AgentMessage.mk 1 1%N (Some "Hi"%string) "Dinner" (at_ 22 0) (at_ 23 0) in
  let stale := AgentMessage.mk 2 2%N (Some "Hi"%string) "Dinner" (at_ 22 0) (at_ 21 0) in
  match answer (js "{'type':'GetMessages'}") None [live; stale] (at_ 22 20) ≫= from_json with
  | Some (Messages _ [m]) => (m_body m =?= "Dinner"%string) && (m_title m =?= Some "Hi"%string)
  | _ => false
  end.

Definition request_is_a_tagged_object : bool :=
  (to_json GetPending =?= Some (js "{'type':'GetPending'}")) &&
  (from_json (js "{'type':'GetPending'}") =?= Some GetPending).

Definition round_trips (r : Response) : bool := (to_json r ≫= from_json) =?= Some r.
Definition messages_round_trip : bool :=
  round_trips (Messages (at_ 22 30) [mk_message 0%N None "hi" (at_ 22 30) (at_ 22 30)]) &&
  (from_json (js "{'type':'GetMessages'}") =?= Some GetMessages).

Fixpoint contains (part s : string) : bool :=
  bool_decide (is_Some (DiscoveryTextTests.strip_prefix part s)) ||
  match s with String _ s' => contains part s' | EmptyString => false end.
Definition response_round_trips_with_camel_case_fields : bool :=
  let response := Pending (at_ 22 30) [mk_action 0%N Action.Sleep (at_ 22 30) Reason.Schedule] in
  let json := default EmptyString (to_json response) in
  contains (js "'serverUtc'") json && contains (js "'atUtc'") json && round_trips response.

Lemma pipe_text_tests_pass : all_pass [
  handle_line_answers_get_pending_and_ignores_garbage; get_messages_returns_only_unexpired_messages;
  request_is_a_tagged_object; messages_round_trip; response_round_trips_with_camel_case_fields] = true.
Proof. vm_compute. reflexivity. Qed.

(** What the bytes are, for the reader. *)
Example pending_text : to_json (Pending (at_ 22 20)
    [mk_action 1%N Action.Sleep (at_ 22 30) Reason.Schedule]) =
  Some (js "{'type':'Pending','serverUtc':'2026-10-26T22:20:00Z','actions':[{'id':'00000000-0000-0000-0000-000000000001','action':'Sleep','atUtc':'2026-10-26T22:30:00Z','reason':'Schedule'}]}").
Proof. vm_compute. reflexivity. Qed.
End PipeTextTests.
