(* ===== verification/TestsNotifier.v ===== *)
(** * The repository's unit tests of the pipe and the notifier, on the model

    The [#[test]] functions of [notify_pipe.rs], [ipc/src/lib.rs],
    [engine.rs], [text.rs], [state.rs], [logfile.rs] and [ui.rs], in the manner
    of [TestsUsage]; those that name JSON text are in [TestsWire].  An id made
    from a name is a code of the name. *)
From S2P Require Import Prelude Codec Fs Schedule Messages Ipc Notifier Warnings Logfile Toast.
From S2P Require Import TestsUsage TestsAgent.
#[local] Open Scope Z_scope.

#[local] Existing Instances Bits.time_text Bits.uuid_text.
#[local] Instance ids_text : Serde (list Uuid) := Bits.serde_of_countable (list Uuid).

(** ** [notify_pipe.rs] and [ipc/src/lib.rs] *)
Module PipeTests.
Definition at_ (h m : Z) : DateTime := at_hm h m.
Definition schedule (action : PowerAction) (windows : list OffWindow) : Schedule.t :=
  Schedule.mk "r" action "UTC" windows.
Definition window (off : DateTime) : OffWindow := mk_window off (off + secs (8 * 3600)).
Definition upcoming (s : option Schedule.t) (now : DateTime) : list PendingAction :=
  upcoming_actions sample_ids s now.
Definition only_actions_inside_the_horizon_are_pending : bool :=
  let s := schedule Sleep [window (at_ 22 30); window (at_ 23 45)] in
  match upcoming (Some s) (at_ 22 10) with
  | [a] => (pa_at_utc a =?= at_ 22 30) && (pa_action a =?= Action.Sleep) &&
           (pa_reason a =?= Reason.Schedule)
  | _ => false
  end && (upcoming (Some s) (at_ 12 0) =?= []).

Definition a_window_already_in_progress_is_not_pending : bool :=
  upcoming (Some (schedule Shutdown [window (at_ 22 30)])) (at_ 22 31) =?= [].

Definition no_schedule_means_nothing_pending : bool := upcoming None (at_ 22 0) =?= [].

Definition id_is_stable_per_time_and_changes_when_extended : bool :=
  match upcoming (Some (schedule Sleep [window (at_ 22 30)])) (at_ 22 0),
        upcoming (Some (schedule Sleep [window (at_ 22 30)])) (at_ 22 5),
        upcoming (Some (schedule Sleep [window (at_ 22 34)])) (at_ 22 5) with
  | a :: _, again :: _, extended :: _ =>
      (pa_id a =?= pa_id again) && negb (pa_id a =?= pa_id extended)
  | _, _, _ => false
  end.

Lemma pipe_tests_pass : all_pass [
  only_actions_inside_the_horizon_are_pending; a_window_already_in_progress_is_not_pending;
  no_schedule_means_nothing_pending; id_is_stable_per_time_and_changes_when_extended] = true.
Proof. vm_compute. reflexivity. Qed.
End PipeTests.

(** ** [engine.rs] *)
Module EngineTests.
Import Engine.
Definition t0 : DateTime := at_hm 22 0.
Definition action (n : N) (in_secs : Z) : PendingAction :=
  mk_action n Action.Sleep (t0 + secs in_secs) Reason.Schedule.
Definition thresholds (tick : Tick) : list Z := map threshold (toasts tick).

(** The ticks of a sequence of polls, each given by its actions and the
    seconds since [t0]. *)
Definition ticks (polls : list (list PendingAction * Z)) : list Tick :=
  (run default (map (fun p => (p.1, t0 + secs p.2)) polls)).2.

Definition nothing_fires_before_the_widest_threshold : bool :=
  match ticks [([action 1 1200], 0)] with
  | [tick] => (thresholds tick =?= []) && (next_poll tick =?= Some SLOW_POLL)
  | _ => false
  end.
Definition each_threshold_fires_once_as_time_passes : bool :=
  let a := action 1 1000 in
  let fired := flat_map thresholds
    (ticks (map (fun elapsed => ([a], elapsed)) [0; 100; 101; 400; 700; 800; 950; 951; 970; 999])) in
  fired =?= [900; 300; 60; 30].
Definition repeat_polls_in_the_same_band_do_not_retoast : bool :=
  let a := action 1 800 in
  map thresholds (ticks [([a], 0); ([a], 2); ([a], 4)]) =?= [[900]; []; []].
Definition starting_late_fires_only_the_tightest_crossed_threshold : bool :=
  map thresholds (ticks [([action 1 180], 0)]) =?= [[300]].
Definition a_missed_poll_skips_straight_to_the_current_band : bool :=
  let a := action 1 1000 in
  map thresholds (ticks [([a], 150); ([a], 960)]) =?= [[900]; [60]].
Definition disappearing_action_is_reported_cancelled_and_forgotten : bool :=
  match ticks [([action 1 800], 0); ([], 10); ([], 20); ([action 1 800], 30)] with
  | [_; t2; t3; t4] => (cancelled t2 =?= [1%N]) && (cancelled t3 =?= []) && (thresholds t4 =?= [900])
  | _ => false
  end.
Definition extension_is_a_cancel_plus_a_new_action : bool :=
  match ticks [([action 1 250], 0); ([action 2 280], 10)] with
  | [_; tick] => (cancelled tick =?= [1%N]) && (thresholds tick =?= [300])
  | _ => false
  end.
Definition countdown_and_fast_polling_start_inside_the_last_minute_and_a_half : bool :=
  match ticks [([action 1 100], 0); ([action 1 100], 15); ([action 1 100], 45)] with
  | [t1; t2; t3] => (next_poll t1 =?= Some SLOW_POLL) && (next_poll t2 =?= Some FAST_POLL) &&
                    (countdown t2 =?= []) && (countdown t3 =?= [1%N])
  | _ => false
  end.
Definition independent_actions_track_separately : bool :=
  match ticks [([action 1 250; action 2 800], 0)] with
  | [tick] => map (fun d => (pa_id (td_action d), threshold d)) (toasts tick) =?= [(1%N, 300); (2%N, 900)]
  | _ => false
  end.
Definition idle_with_nothing_pending_polls_slowly : bool :=
  match ticks [([], 0)] with
  | [tick] => (thresholds tick =?= []) && (cancelled tick =?= []) && (countdown tick =?= []) &&
              (next_poll tick =?= Some SLOW_POLL)
  | _ => false
  end.

Definition message (n : N) (sent_min expires_min : Z) : Message :=
  mk_message n None ("m" +:+ pretty.pretty n) (t0 + minutes sent_min) (t0 + minutes expires_min).
(** The ids each report shows, the reports at minutes after [t0]. *)
Definition taken (m : MessageTracker.t) (reports : list (list Message * Z)) : list (list Uuid) :=
  map (map m_id) (MessageTracker.run m (map (fun p => (p.1, t0 + p.2)) reports)).2.
Definition fresh_tracker : MessageTracker.t := MessageTracker.with_shown [].

Definition a_message_is_shown_once_even_if_reported_every_poll : bool :=
  let m := message 1 0 60 in taken fresh_tracker [([m], 0); ([m], secs 10)] =?= [[1%N]; []].
Definition new_messages_come_oldest_first_and_expired_ones_are_skipped : bool :=
  taken fresh_tracker [([message 2 5 60; message 1 1 60; message 3 0 (-1)], 0)] =?= [[1%N; 2%N]].
Definition restored_ids_are_not_shown_again : bool :=
  let m := MessageTracker.with_shown [1%N] in
  let reported := [message 1 0 60; message 2 1 60] in
  (taken m [(reported, 0)] =?= [[2%N]]) &&
  (MessageTracker.shown_ids (MessageTracker.take_new m reported t0).1 =?= [1%N; 2%N]).
Definition later_messages_are_still_picked_up : bool :=
  taken fresh_tracker [([message 1 0 60], 0); ([message 1 0 60; message 2 3 60], minutes 4)] =?=
  [[1%N]; [2%N]].

Lemma engine_tests_pass : all_pass [
  nothing_fires_before_the_widest_threshold; each_threshold_fires_once_as_time_passes;
  repeat_polls_in_the_same_band_do_not_retoast;
  starting_late_fires_only_the_tightest_crossed_threshold;
  a_missed_poll_skips_straight_to_the_current_band;
  disappearing_action_is_reported_cancelled_and_forgotten; extension_is_a_cancel_plus_a_new_action;
  countdown_and_fast_polling_start_inside_the_last_minute_and_a_half;
  independent_actions_track_separately; idle_with_nothing_pending_polls_slowly;
  a_message_is_shown_once_even_if_reported_every_poll;
  new_messages_come_oldest_first_and_expired_ones_are_skipped; restored_ids_are_not_shown_again;
  later_messages_are_still_picked_up] = true.
Proof. vm_compute. reflexivity. Qed.
End EngineTests.

(** ** [text.rs], [ui.rs], [state.rs] and [logfile.rs] *)
Module DisplayTests.
Definition due (action : Action.t) (reason : Reason.t) (threshold remaining : Z) : ToastDue :=
  mk_due (mk_action 0%N action (at_hm 22 30) reason) threshold remaining.

Definition wording_follows_action_and_remaining_time : bool :=
  let t := warning (due Action.Sleep Reason.Schedule 900 897) "22:30" in
  (title t =?= "This computer will go to sleep in 15 minutes"%string) &&
  (body t =?= "Scheduled: go to sleep at 22:30. Save your work."%string) &&
  (title (warning (due Action.Shutdown Reason.Schedule 60 75) "22:30") =?=
     "This computer will shut down in 1 minute"%string) &&
  (title (warning (due Action.Shutdown Reason.Schedule 30 28) "22:30") =?=
     "This computer will shut down in 28 seconds"%string).
Definition only_the_last_two_warnings_are_urgent : bool :=
  map (fun th => urgent (warning (due Action.Sleep Reason.Schedule th th) "22:30")) [900; 300; 60; 30]
  =?= [false; false; true; true].
Definition overdue_remaining_never_reads_negative : bool :=
  title (warning (due Action.Sleep Reason.Schedule 30 (-3)) "22:30") =?=
  "This computer will go to sleep in 1 second"%string.
Definition message_defaults_its_title : bool :=
  (title (message None "Dinner") =?= "TimeLord"%string) &&
  (title (message (Some "Mum"%string) "Dinner") =?= "Mum"%string).

(** [str::contains] *)
Fixpoint contains (needle s : string) : bool :=
  String.prefix needle s ||
  match s with EmptyString => false | String _ s' => contains needle s' end.

Definition xml_is_escaped_and_urgent_toasts_carry_a_button : bool :=
  let x := "it's " +:+ quote_str +:+ "x" +:+ quote_str in
  let xml := toast_xml (mk_text "A & <B>" x true) in
  let calm := toast_xml (mk_text "A & <B>" x false) in
  contains "A &amp; &lt;B&gt;" xml && contains "it&apos;s &quot;x&quot;" xml &&
  contains (attr "scenario" "reminder") xml && contains "<actions>" xml &&
  negb (contains "scenario" calm) && negb (contains "<actions>" calm).

Definition round_trips_and_tolerates_missing_or_corrupt_files : bool :=
  let p := ("tmp/nested", "shown", "json")%string in
  let '(r, fs) := save_shown None ∅ p [1%N; 2%N] in
  (load_shown ∅ p =?= []) && is_ok r && (load_shown fs p =?= [1%N; 2%N]) &&
  (load_shown (<[p := "not json"%string]> fs) p =?= []).

Definition appends_and_rotates_when_too_big : bool :=
  let p := ("tmp", "notifier", "log")%string in
  let works := mk_io true true true true None in
  let '(r1, fs) := append works p "2026-10-26 22:00:00" "first" 1024 ∅ in
  let '(r2, fs) := append works p "2026-10-26 22:00:01" "second" 1024 fs in
  let text := default EmptyString (Fs.read_to_string p fs) in
  let '(r3, fs) := append works p "2026-10-26 22:00:02" "after-rotation" 4 fs in
  is_ok r1 && is_ok r2 && contains "first" text && contains "second" text && is_ok r3 &&
  contains "second" (default EmptyString (Fs.read_to_string (with_extension "log.old" p) fs)) &&
  contains "after-rotation" (default EmptyString (Fs.read_to_string p fs)).

Lemma display_tests_pass : all_pass [
  wording_follows_action_and_remaining_time; only_the_last_two_warnings_are_urgent;
  overdue_remaining_never_reads_negative; message_defaults_its_title;
  xml_is_escaped_and_urgent_toasts_carry_a_button;
  round_trips_and_tolerates_missing_or_corrupt_files; appends_and_rotates_when_too_big] = true.
Proof. vm_compute. reflexivity. Qed.
End DisplayTests.
